(** * MJOLNIR.Data.DataSet: binning, cutting and tessellation kernels

    A shallow embedding of the numerical kernels of [MJOLNIR/Data/DataSet.py]
    (cut1D, cut1DE, cutQE, cutQELine, convexHullPoints, voronoiTessellation,
    calculateGrid3D, calculateBins, binData3D and the duplicate-merge step of
    plotA3A4) together with the properties the design document states
    about them, followed by the further code of the module (cutPowder,
    figureRowColumns, centeroidnp, isListOfStrings, isListOfDataFiles, the
    file lists of the DataSet object with __init__ and convertDataFile) and
    properties read off the code itself.

    Conventions.
    - numpy floats are modelled by exact rationals [Q]; equalities between
      numbers are stated with [==].  NaN only matters for the normalization
      column of plotA3A4, which uses [option Q] ([None] is NaN).
    - a 1-D numpy array is a [list]; a 2-D array is a list of rows.
    - a Python exception is a value of [exn]; a function that can raise
      returns [res A].  The code outside the kernels raises further
      exceptions: they are values of [pyexn], in results of type [outcome A].
    - the square root inside [np.linalg.norm] is irrational in general; it is
      a Section variable [fsqrt] (no property of it is assumed).
    - scipy's ConvexHull/Voronoi/KDTree and shapely's polygons are outside
      the repository; ConvexHull, Voronoi and the shapely operations are
      Section variables. *)

From Stdlib Require Import QArith Qround Qabs ZArith List Bool Arith Lia Lqa String Ascii.
From Stdlib Require Import Permutation.
Import ListNotations.
Local Open Scope Q_scope.

(** ** Exceptions and results *)

(** An argument of [str.format]. *)
Inductive fmtarg : Type :=
| ArgNat (n : nat)
| ArgQ (q : Q)
| ArgVec (v : list Q).

(** The exceptions the kernels raise.  An [AttributeError] carries the lines
    of its message: each line is the literal format string of the source and
    the arguments given to [.format]. *)
Inductive exn : Type :=
| AttributeError (lines : list (string * list fmtarg))
| IndexError
| ValueError.

Inductive res (A : Type) : Type :=
| Ok (a : A)
| Raise (e : exn).
Arguments Ok {A} a.
Arguments Raise {A} e.

Definition bind {A B : Type} (m : res A) (k : A -> res B) : res B :=
  match m with
  | Ok a => k a
  | Raise e => Raise e
  end.

Notation "x <- m ;; k" := (bind m (fun x => k))
  (at level 61, m at next level, right associativity).
Notation "' p <- m ;; k" := (bind m (fun p => k))
  (at level 61, p pattern, m at next level, right associativity).

Definition raised {A : Type} (m : res A) : Prop :=
  match m with Ok _ => False | Raise _ => True end.

(** ** numpy helpers *)

Module Np.

Definition ltb (x y : Q) : bool := negb (Qle_bool y x).
Definition leb (x y : Q) : bool := Qle_bool x y.
Definition eqb (x y : Q) : bool := Qeq_bool x y.

Fixpoint sum (l : list Q) : Q :=
  match l with
  | [] => 0
  | x :: l' => x + sum l'
  end.

(** [a[mask]] for a boolean mask of the same length. *)
Fixpoint compress {A : Type} (mask : list bool) (a : list A) : list A :=
  match mask, a with
  | b :: mask', x :: a' => if b then x :: compress mask' a' else compress mask' a'
  | _, _ => []
  end.

(** [np.sum(mask)] of a boolean array. *)
Definition count_true (mask : list bool) : nat :=
  List.length (filter (fun b => b) mask).

Definition ones (n : nat) : list Q := repeat 1 n.

(** Insertion sort, standing for [ndarray.sort] / [np.unique]'s ordering. *)
Fixpoint insert (x : Q) (l : list Q) : list Q :=
  match l with
  | [] => [x]
  | y :: l' => if leb x y then x :: l else y :: insert x l'
  end.

Fixpoint sort (l : list Q) : list Q :=
  match l with
  | [] => []
  | x :: l' => insert x (sort l')
  end.

(** Removal of adjacent equal values of a sorted list. *)
Fixpoint dedup (l : list Q) : list Q :=
  match l with
  | [] => []
  | x :: l' =>
      match l' with
      | [] => [x]
      | y :: _ => if eqb x y then dedup l' else x :: dedup l'
      end
  end.

(** [np.unique(a)]: the sorted distinct values. *)
Definition unique (a : list Q) : list Q := dedup (sort a).

(** [np.diff(a)]. *)
Fixpoint diff (a : list Q) : list Q :=
  match a with
  | [] => []
  | x :: a' =>
      match a' with
      | [] => []
      | y :: _ => (y - x) :: diff a'
      end
  end.

(** [a[-1]], raising IndexError on an empty array. *)
Definition last_item (a : list Q) : res Q :=
  match rev a with
  | [] => Raise IndexError
  | x :: _ => Ok x
  end.

(** [a[0]], raising IndexError on an empty array. *)
Definition first_item (a : list Q) : res Q :=
  match a with
  | [] => Raise IndexError
  | x :: _ => Ok x
  end.

(** Edges of a histogram axis must be monotonically increasing
    ([edges[:-1] > edges[1:]] nowhere), else numpy raises ValueError. *)
Fixpoint monotone (edges : list Q) : bool :=
  match edges with
  | [] => true
  | x :: edges' =>
      match edges' with
      | [] => true
      | y :: _ => leb x y && monotone edges'
      end
  end.

(** [np.searchsorted(edges, v, side='right')] on sorted edges: the number
    of edges that are [<= v]. *)
Definition searchsorted_right (edges : list Q) (v : Q) : nat :=
  List.length (filter (fun e => leb e v) edges).

(** The bin of [v] as [np.histogramdd] computes it: the right-side search,
    shifted down by one for a value on the rightmost edge (the last bin is
    closed), and no bin for an outlier on either side. *)
Definition bin_of (edges : list Q) (v : Q) : option nat :=
  let c := searchsorted_right edges v in
  let c := if eqb v (last edges 0) then (c - 1)%nat else c in
  if (c =? 0)%nat || (c =? List.length edges)%nat then None else Some (c - 1)%nat.

Definition in_cell2 (e0 e1 : list Q) (i j : nat) (p : Q * Q) : bool :=
  match bin_of e0 (fst p), bin_of e1 (snd p) with
  | Some i', Some j' => (i' =? i)%nat && (j' =? j)%nat
  | _, _ => false
  end.

(** The weights of the sample points that fall into cell [(i,j)]. *)
Definition cell_weights2 (e0 e1 : list Q) (i j : nat)
    (sample : list (Q * Q)) (w : list Q) : list Q :=
  map snd (filter (fun pw => in_cell2 e0 e1 i j (fst pw)) (combine sample w)).

(** [np.histogramdd(sample, bins=[e0,e1], weights=w)[0]] for a sample of
    shape (N,2): an array of shape (len(e0)-1, len(e1)-1). *)
Definition histogramdd2 (sample : list (Q * Q)) (e0 e1 : list Q) (w : list Q)
  : res (list (list Q)) :=
  if negb (monotone e0 && monotone e1) then Raise ValueError
  else if negb (List.length w =? List.length sample)%nat then Raise ValueError
  else Ok (map (fun i =>
             map (fun j => sum (cell_weights2 e0 e1 i j sample w))
                 (seq 0 (List.length e1 - 1)))
             (seq 0 (List.length e0 - 1))).

(** [np.histogram(a, bins=edges, weights=w)[0]]. *)
Definition histogram (a : list Q) (edges : list Q) (w : list Q) : res (list Q) :=
  if negb (monotone edges) then Raise ValueError
  else if negb (List.length w =? List.length a)%nat then Raise ValueError
  else Ok (map (fun i =>
             sum (map snd (filter (fun vw =>
                                     match bin_of edges (fst vw) with
                                     | Some i' => (i' =? i)%nat
                                     | None => false
                                     end) (combine a w))))
             (seq 0 (List.length edges - 1))).

(** The value of a number after [.astype(int)] / [dtype=np.int64]:
    truncation towards zero. *)
Definition as_int64 (x : Q) : Q :=
  inject_Z (if Qle_bool 0 x then Qfloor x else Qceiling x).

(** [np.sum] of a 2-D array. *)
Definition sum2 (a : list (list Q)) : Q := sum (map sum a).

End Np.

(** ** _tools.binEdges *)

Module Tools.

(** Modelled from the spec: the walk of [_tools.binEdges] (design document,
    section 4.1) over the consecutive gaps of the sorted positions: [lastEdge]
    is the last edge placed, [prev] the point just passed.  A new edge is
    started in the gap between [prev] and the next point (at its midpoint)
    whenever the span accumulated since the last edge is at least [t]; the
    final edge is the last point plus [t/2]. *)
Fixpoint walk (t lastEdge prev : Q) (rest : list Q) : list Q :=
  match rest with
  | [] => [prev + t / 2]
  | cur :: rest' =>
      let m := (prev + cur) / 2 in
      if Np.leb t (m - lastEdge)
      then m :: walk t m cur rest'
      else walk t lastEdge cur rest'
  end.

(** Modelled from the spec: [_tools.binEdges] is imported from
    [MJOLNIR/_tools.py], which is not among the sources.  Following the
    design document (section 4.1): sort the positions; the first edge is
    the first point minus [t/2]; walk the consecutive gaps, starting a new
    edge whenever the accumulated span since the last edge is at least [t];
    the final edge is the last point plus [t/2]; no positions give no
    edges. *)
Definition binEdges (values : list Q) (tolerance : Q) : list Q :=
  match Np.sort values with
  | [] => []
  | x0 :: rest =>
      let e0 := x0 - tolerance / 2 in
      e0 :: walk tolerance e0 x0 rest
  end.

End Tools.

(** ** Line cuts: cut1D, cut1DE, cutQE *)

(** A 2-D array of numbers (a list of rows). *)
Definition array2 : Type := list (list Q).

(** [positions]: the three flattened coordinate arrays (Qx, Qy, E). *)
Definition positions_t : Type := (list Q * list Q * list Q)%type.

(** [[intensity, MonitorCount, Normalization, normcounts]]. *)
Definition datalist : Type := (array2 * array2 * array2 * array2)%type.

(** [[binpositionsTotal, orthopos, [Emin,Emax]]]. *)
Definition binlist : Type := (array2 * array2 * list Q)%type.

(** A numpy array object as the caller holds it: its shape attribute and
    its flat data. *)
Record ndarray : Type := mkArr { shape : list nat; data : list Q }.

(** The arrays a caller passes to [cut1DE]; the call receives references to
    them, so the state after the call is part of its outcome. *)
Record cut1DE_args : Type := mkArgs {
  a_positions : positions_t;
  a_I : list Q;
  a_Norm : list Q;
  a_Monitor : list Q;
  a_q : ndarray
}.

Definition set_q (q : ndarray) (a : cut1DE_args) : cut1DE_args :=
  mkArgs (a_positions a) (a_I a) (a_Norm a) (a_Monitor a) q.

Section Cuts.

(** The floating-point square root used by [np.linalg.norm]. *)
Variable fsqrt : Q -> Q.

Definition linalg_norm (v : Q * Q) : Q := fsqrt (fst v * fst v + snd v * snd v).

Definition dot2 (u v : Q * Q) : Q := fst u * fst v + snd u * snd v.

Definition sub2 (u v : Q * Q) : Q * Q := (fst u - fst v, snd u - snd v).

(** [np.outer(a, v)] for a 2-vector [v]. *)
Definition outer2 (a : list Q) (v : Q * Q) : array2 :=
  map (fun x => [x * fst v; x * snd v]) a.

Definition energy_mask (pe : list Q) (Emin Emax : Q) : list bool :=
  map (fun e => Np.leb e Emax && Np.leb Emin e) pe.

Definition cut1D (positions : positions_t) (I Norm Monitor : list Q)
    (q1 q2 : Q * Q) (width minPixel Emin Emax : Q) (extend : bool)
  : res (datalist * binlist) :=
  let '(px, py, pe) := positions in
  let dirvec0 := sub2 q2 q1 in
  let dirLength := linalg_norm dirvec0 in
  let dirvec := (fst dirvec0 / dirLength, snd dirvec0 / dirLength) in
  let orthovec := (snd dirvec, - fst dirvec) in
  let insideEnergy := energy_mask pe Emin Emax in
  if (Np.count_true insideEnergy =? 0)%nat
  then Ok (([], [], [], []), ([], [], [Emin; Emax]))
  else
    let positions2D := combine (Np.compress insideEnergy px) (Np.compress insideEnergy py) in
    let propos0 := map (fun p => dot2 dirvec (sub2 p q1)) positions2D in
    let propos1 := map (fun p => dot2 orthovec (sub2 p q1)) positions2D in
    let insideQ := map (fun a => Np.ltb 0 a && Np.ltb a dirLength) propos0 in
    let propos0' := if extend then propos0 else Np.compress insideQ propos0 in
    let propos1' := if extend then propos1 else Np.compress insideQ propos1 in
    let orthobins := [- width / 2; width / 2] in
    let insideWidth :=
      map (fun o => Np.ltb o (width / 2) && Np.ltb (- width / 2) o) propos1' in
    let lenbins := Tools.binEdges (Np.compress insideWidth propos0') minPixel in
    let orthopos := outer2 orthobins orthovec in
    let binpositions :=
      map (fun l => [l * fst dirvec + fst q1; l * snd dirvec + snd q1]) lenbins in
    if (List.length lenbins =? 0)%nat
    then Ok (([], [], [], []), ([], orthopos, [Emin; Emax]))
    else
      let sample := combine propos0' propos1' in
      let pick (w : list Q) :=
        if extend then Np.compress insideEnergy w
        else Np.compress insideQ (Np.compress insideEnergy w) in
      normcounts <- Np.histogramdd2 sample lenbins orthobins
                      (Np.ones (List.length propos0')) ;;
      intensity <- Np.histogramdd2 sample lenbins orthobins (pick I) ;;
      MonitorCount <- Np.histogramdd2 sample lenbins orthobins (pick Monitor) ;;
      Normalization <- Np.histogramdd2 sample lenbins orthobins (pick Norm) ;;
      let binpositionsTotal :=
        map (fun b => b ++ [(Emin + Emax) * (1 # 2)]) binpositions in
      Ok ((intensity, MonitorCount, Normalization, normcounts),
          (binpositionsTotal, orthopos, [Emin; Emax])).

(** [cut1DE]: the outcome of the call and the caller's arrays after it.
    The only write is [q.shape = (2,1)] on a 1-D [q] (ValueError when [q]
    does not hold two numbers); the arithmetic that follows is modelled for
    a [q] of shape (2,1), the documented "2d vector". *)
Definition cut1DE (a : cut1DE_args) (E1 E2 width minPixel : Q)
  : res (list (list Q) * list (list Q)) * cut1DE_args :=
  let reshaped : res ndarray :=
    if (List.length (shape (a_q a)) =? 1)%nat
    then if (List.length (data (a_q a)) =? 2)%nat
         then Ok (mkArr [2; 1]%nat (data (a_q a)))
         else Raise ValueError
    else Ok (a_q a) in
  match reshaped with
  | Raise e => (Raise e, a)
  | Ok q =>
      let a' := set_q q a in
      let '(px, py, pe) := a_positions a' in
      let outcome :=
        match shape q, data q with
        | [2; 1]%nat, [q0; q1] =>
            let distToQ := map (fun p => linalg_norm (sub2 p (q0, q1))) (combine px py) in
            let inside := map (fun d => Np.ltb d width) distToQ in
            let insideEnergy := energy_mask pe E1 E2 in
            if (Np.count_true insideEnergy =? 0)%nat
            then Raise (AttributeError
                   [("No points are within the provided energy limits."%string, [])])
            else if (Np.count_true inside =? 0)%nat
            then Raise (AttributeError
                   [("No points are inside selected q range."%string, [])])
            else
              let allInside := map (fun bb => fst bb && snd bb) (combine inside insideEnergy) in
              let Energies := Np.compress allInside pe in
              let bins := Tools.binEdges Energies minPixel in
              if (List.length bins =? 0)%nat
              then Ok ([[]; []; []; []], [[E1; E2]])
              else
                normcounts <- Np.histogram Energies bins (Np.ones (List.length Energies)) ;;
                intensity <- Np.histogram Energies bins (Np.compress allInside (a_I a')) ;;
                MonitorCount <- Np.histogram Energies bins
                                  (map Np.as_int64 (Np.compress allInside (a_Monitor a'))) ;;
                Normalization <- Np.histogram Energies bins (Np.compress allInside (a_Norm a')) ;;
                Ok ([intensity; MonitorCount; Normalization; normcounts], [bins])
        | _, _ => Raise ValueError
        end in
      (outcome, a')
  end.

(** [a[:-1]] and [a[1:]] averaged row by row:
    [0.5*(position[0][:-1]+position[0][1:])]. *)
Fixpoint centers (rows : array2) : array2 :=
  match rows with
  | [] => []
  | r :: rows' =>
      match rows' with
      | [] => []
      | r' :: _ => map (fun xy => (1 # 2) * (fst xy + snd xy)) (combine r r') :: centers rows'
      end
  end.

Definition row_xy (r : list Q) : Q * Q := (nth 0 r 0, nth 1 r 0).

(** The outputs of [cutQE]: the four lists of per-slice arrays, the
    per-slice bin lists, the bin centres and the distances to [q1]. *)
Definition cutQE_result : Type :=
  ((list array2 * list array2 * list array2 * list array2)
   * list binlist * list array2 * list (list Q))%type.

(** The loop body of [cutQE] for the slice between two consecutive energy
    edges, appending to the accumulators. *)
Definition cutQE_step (positions : positions_t) (I Norm Monitor : list Q)
    (q1 q2 : Q * Q) (width minPix : Q) (extend : bool)
    (acc : cutQE_result) (Elo Ehi : Q) : res cutQE_result :=
  let '((intensityArray, monitorArray, normalizationArray, normcountArray),
        returnpositions, centerPos, binDistance) := acc in
  '(dl, position) <- cut1D positions I Norm Monitor q1 q2 width minPix Elo Ehi extend ;;
  let '(intensity, MonitorCount, Normalization, normcounts) := dl in
  if (List.length intensity =? 0)%nat then Ok acc
  else
    let c := centers (fst (fst position)) in
    Ok ((intensityArray ++ [intensity], monitorArray ++ [MonitorCount],
         normalizationArray ++ [Normalization], normcountArray ++ [normcounts]),
        returnpositions ++ [position], centerPos ++ [c],
        binDistance ++ [map (fun r => linalg_norm (sub2 (row_xy r) q1)) c]).

(** The loop [for i in np.arange(len(EnergyBins)-1)] over the consecutive
    pairs [EnergyBins[i], EnergyBins[i+1]]. *)
Fixpoint cutQE_loop (positions : positions_t) (I Norm Monitor : list Q)
    (q1 q2 : Q * Q) (width minPix : Q) (extend : bool)
    (acc : cutQE_result) (EnergyBins : list Q) : res cutQE_result :=
  match EnergyBins with
  | [] => Ok acc
  | Elo :: rest =>
      match rest with
      | [] => Ok acc
      | Ehi :: _ =>
          acc' <- cutQE_step positions I Norm Monitor q1 q2 width minPix extend acc Elo Ehi ;;
          cutQE_loop positions I Norm Monitor q1 q2 width minPix extend acc' rest
      end
  end.

Definition cutQE (positions : positions_t) (I Norm Monitor : list Q)
    (q1 q2 : Q * Q) (width minPix : Q) (EnergyBins : list Q) (extend : bool)
  : res cutQE_result :=
  cutQE_loop positions I Norm Monitor q1 q2 width minPix extend
    (([], [], [], []), [], [], []) EnergyBins.

End Cuts.

(** ** The DataSet methods cutQE, cutQELine and plotCutQELine *)

(** [str.lower] on ASCII letters. *)
Definition lower_ascii (c : ascii) : ascii :=
  let n := nat_of_ascii c in
  if ((65 <=? n) && (n <=? 90))%nat then ascii_of_nat (n + 32) else c.

Fixpoint lower (s : string) : string :=
  match s with
  | EmptyString => EmptyString
  | String c s' => String (lower_ascii c) (lower s')
  end.

(** The part of a [DataSet] object the cuts read: the number of converted
    files and the per-file data arrays (each already flattened). *)
Record DataSet : Type := mkDataSet {
  convertedFiles : nat;
  ds_I : list (list Q);
  ds_qx : list (list Q);
  ds_qy : list (list Q);
  ds_energy : list (list Q);
  ds_Norm : list (list Q);
  ds_Monitor : list (list Q)
}.

Definition no_data_file : exn :=
  AttributeError
    [("No data file to be binned provided in either input or DataSet object."%string, [])].

(** One segment of a path cut: the four outputs of [cutQE]. *)
Definition segment : Type := cutQE_result.

(** The outputs of [cutQELine], one entry per segment:
    DataList, BinList, centerPosition, binDistance. *)
Definition line_result : Type :=
  (list (list array2 * list array2 * list array2 * list array2)
   * list (list binlist) * list (list array2) * list (list (list Q)))%type.

Section DataSetMethods.

Variable fsqrt : Q -> Q.

(** The sample transform of the first converted file, from a reciprocal
    lattice point to (qx,qy): [sample.tr] after [np.dot(orientationMatrix,Q)],
    first two components. *)
Variable tr : list Q -> list Q.

(** [DataSet.cutQE]: [dataFiles] is [None] or the data set built from the
    files given. *)
Definition DataSet_cutQE (self : DataSet) (q1 q2 : Q * Q) (width minPixel : Q)
    (EnergyBins : list Q) (extend : bool) (dataFiles : option DataSet)
  : res cutQE_result :=
  src <- match dataFiles with
         | None => if (convertedFiles self =? 0)%nat then Raise no_data_file else Ok self
         | Some DS => Ok DS
         end ;;
  let I := List.concat (ds_I src) in
  let qx := List.concat (ds_qx src) in
  let qy := List.concat (ds_qy src) in
  let energy := List.concat (ds_energy src) in
  let Norm := List.concat (ds_Norm src) in
  let Monitor := List.concat (ds_Monitor src) in
  cutQE fsqrt (qx, qy, energy) I Norm Monitor q1 q2 width minPixel EnergyBins extend.

(** [QPoints.shape[1]] of a rectangular array of way-points. *)
Definition shape1 (QPoints : list (list Q)) : nat :=
  match QPoints with
  | [] => 0
  | r :: _ => List.length r
  end.

(** The double-quote character of the message below. *)
Definition dq : string := String (ascii_of_nat 34) EmptyString.

Definition mode_not_understood : string :=
  ("Given Q mode not understood. Got {} but must be either " ++ dq ++ "RLU" ++ dq
   ++ ", " ++ dq ++ "HKL" ++ dq ++ " or " ++ dq ++ "QxQy" ++ dq)%string.

(** The translation of the way-points into (qx,qy), shared by [cutQELine]
    (which also checks the number of columns) and [plotCutQELine]. *)
Definition line_positions (check : bool) (self : DataSet) (QPoints : list (list Q))
    (format : string) : res (list (list Q)) :=
  let f := lower format in
  if (String.eqb f "rlu" || String.eqb f "hkl")%bool then
    if check && negb (shape1 QPoints =? 3)%nat
    then Raise (AttributeError
           [("Provide Q list is not 3 dimensional, should have shape (n,3) in RLU mode but got shape {}."%string,
             [ArgNat (List.length QPoints); ArgNat (shape1 QPoints)])])
    else if (convertedFiles self =? 0)%nat then Raise IndexError
    else Ok (map tr QPoints)
  else if String.eqb f "qxqy" then
    if check && negb (shape1 QPoints =? 2)%nat
    then Raise (AttributeError
           [("Provide Q list is not 2 dimensional, should have shape (n,2) in QxQy mode but got shape {}."%string,
             [ArgNat (List.length QPoints); ArgNat (shape1 QPoints)])])
    else Ok QPoints
  else Raise (AttributeError [(mode_not_understood, [])]).

(** The loop [for i in range(len(QPoints)-1)] of [cutQELine] over the
    consecutive way-points, with [extend=False]. *)
Fixpoint cutQELine_loop (self : DataSet) (positions : list (list Q))
    (EnergyBins : list Q) (width minPixel : Q) (dataFiles : option DataSet)
  : res (list segment) :=
  match positions with
  | [] => Ok []
  | p :: rest =>
      match rest with
      | [] => Ok []
      | p' :: _ =>
          s <- DataSet_cutQE self (row_xy p) (row_xy p') width minPixel EnergyBins false dataFiles ;;
          ss <- cutQELine_loop self rest EnergyBins width minPixel dataFiles ;;
          Ok (s :: ss)
      end
  end.

Definition too_few_points : exn :=
  AttributeError [("Number of Q points given is less than 2."%string, [])].

Definition cutQELine (self : DataSet) (QPoints : list (list Q)) (EnergyBins : list Q)
    (width minPixel : Q) (format : string) (dataFiles : option DataSet)
  : res line_result :=
  if (List.length QPoints <? 2)%nat then Raise too_few_points
  else
    positions <- line_positions true self QPoints format ;;
    segs <- cutQELine_loop self positions EnergyBins width minPixel dataFiles ;;
    Ok (map (fun s : segment => fst (fst (fst s))) segs,
        map (fun s : segment => snd (fst (fst s))) segs,
        map (fun s : segment => snd (fst s)) segs,
        map (fun s : segment => snd s) segs).

(** [emptyIndex]: the indices of the segments whose [binDistance] entry is
    empty. *)
Definition emptyIndex (binDistanceTotal : list (list (list Q))) : list nat :=
  map fst (filter (fun ic => (List.length (snd ic) =? 0)%nat)
             (combine (seq 0 (List.length binDistanceTotal)) binDistanceTotal)).

(** The line of the combined message for the empty segment [idx]. *)
Definition empty_line (QPoints : list (list Q)) (EnergyBins : list Q) (idx : nat)
  : string * list fmtarg :=
  ("No data points found between {} and {} with energies between {} and {}."%string,
   [ArgVec (nth idx QPoints []); ArgVec (nth (idx + 1) QPoints []);
    ArgQ (hd 0 EnergyBins); ArgQ (last EnergyBins 0)]).

(** [plotCutQELine] up to and including its check for empty segments; the
    drawing that follows is not modelled, the value returned on success is
    the data the method returns next to the axis. *)
Definition plotCutQELine (self : DataSet) (QPoints : list (list Q)) (EnergyBins : list Q)
    (width minPixel : Q) (format : string) (dataFiles : option DataSet)
  : res line_result :=
  r <- cutQELine self QPoints EnergyBins width minPixel format dataFiles ;;
  _ <- line_positions false self QPoints format ;;
  let binDistanceTotal := snd r in
  match emptyIndex binDistanceTotal with
  | [] => Ok r
  | idx :: more =>
      match EnergyBins with
      | [] => Raise IndexError
      | _ => Raise (AttributeError (map (empty_line QPoints EnergyBins) (idx :: more)))
      end
  end.

End DataSetMethods.

(** ** The boundary builder and the Voronoi tessellation *)

Definition point : Type := (Q * Q)%type.

(** A shapely geometry as the tessellation meets it: a polygon given by its
    ring of vertices, or a collection of polygons. *)
Inductive geom : Type :=
| PolygonS (ring : list point)
| MultiS (parts : list (list point)).

(** The [points] argument of [voronoiTessellation]: a list of groups
    [[X,Y]] (shape [files,2,N]) or, as plotA3A4 passes it after merging
    duplicates, one array with the two rows X and Y. *)
Inductive points_t : Type :=
| Groups (gs : list (list Q * list Q))
| Rows (xs ys : list Q).

(** Twice the signed area of the triangle (u, v, p): positive when [p] is
    strictly to the left of the directed edge from [u] to [v]. *)
Definition cross (u v p : point) : Q :=
  (fst v - fst u) * (snd p - snd u) - (snd v - snd u) * (fst p - fst u).

(** The directed edges of a ring, closing it from the last vertex to the
    first. *)
Definition ring_edges (ring : list point) : list (point * point) :=
  match ring with
  | [] => []
  | v0 :: rest => combine ring (rest ++ [v0])
  end.

(** The interior of a convex ring whose vertices run counterclockwise:
    strictly to the left of every edge. *)
Definition strictly_inside (ring : list point) (p : point) : bool :=
  forallb (fun e => Np.ltb 0 (cross (fst e) (snd e) p)) (ring_edges ring).

(** What scipy documents of the vertices of a 2-D [ConvexHull]: there are
    at least three, they run counterclockwise around the input, so that no
    input point is strictly to the right of an edge, and consecutive
    vertices differ. *)
Definition hull_of (pts hull : list point) : bool :=
  (3 <=? List.length hull)%nat &&
  forallb (fun e =>
             negb (Np.eqb (fst (fst e)) (fst (snd e)) && Np.eqb (snd (fst e)) (snd (snd e)))
             && forallb (fun p => Np.leb 0 (cross (fst e) (snd e) p)) pts)
          (ring_edges hull).

Definition mean (a : list Q) : Q := Np.sum a / inject_Z (Z.of_nat (List.length a)).

Fixpoint maximum (x : Q) (a : list Q) : Q :=
  match a with
  | [] => x
  | y :: a' => maximum (if Np.leb x y then y else x) a'
  end.

Fixpoint minimum (x : Q) (a : list Q) : Q :=
  match a with
  | [] => x
  | y :: a' => minimum (if Np.leb y x then y else x) a'
  end.

(** [np.max] and [np.min]: ValueError on an empty array. *)
Definition np_max (a : list Q) : res Q :=
  match a with
  | [] => Raise ValueError
  | x :: a' => Ok (maximum x a')
  end.

Definition np_min (a : list Q) : res Q :=
  match a with
  | [] => Raise ValueError
  | x :: a' => Ok (minimum x a')
  end.

(** [a[i]] for a Python index [i]: negative indices count from the end. *)
Definition py_index {A : Type} (a : list A) (i : Z) : res A :=
  let n := Z.of_nat (List.length a) in
  let j := if (i <? 0)%Z then (n + i)%Z else i in
  if (j <? 0)%Z then Raise IndexError
  else match nth_error a (Z.to_nat j) with
       | Some x => Ok x
       | None => Raise IndexError
       end.

(** [mapM] for [res]. *)
Fixpoint mapM {A B : Type} (f : A -> res B) (l : list A) : res (list B) :=
  match l with
  | [] => Ok []
  | x :: l' => y <- f x ;; ys <- mapM f l' ;; Ok (y :: ys)
  end.

(** [np.argmax]: the first index of the largest value; ValueError on an
    empty sequence. *)
Fixpoint argmax_from (best : Q) (besti i : nat) (a : list Q) : nat :=
  match a with
  | [] => besti
  | x :: a' => if Np.ltb best x then argmax_from x i (S i) a' else argmax_from best besti (S i) a'
  end.

Definition argmax (a : list Q) : res nat :=
  match a with
  | [] => Raise ValueError
  | x :: a' => Ok (argmax_from x 0%nat 1%nat a')
  end.

Definition boundary_error : exn :=
  AttributeError [("The provided boundary does not contain all points"%string, [])].

Definition count_error (npoints npolygons : nat) : exn :=
  AttributeError
    [("The number of points given({}) is not the same as the number of polygons created({}). This can be due to many reasons, mainly:"%string,
      [ArgNat npoints; ArgNat npolygons]);
     (" - Points overlap exactly"%string, []);
     (" - Points coinsides with the calulated edge"%string, []);
     (" - ??"%string, [])].

Section Tessellation.

(** [scipy.spatial.ConvexHull]: the hull vertices
    [hullPoints.points[hullPoints.vertices]]. *)
Variable ConvexHull : list point -> list point.

(** [scipy.spatial.Voronoi]: [(vor.vertices, vor.regions)]; the index -1 in
    a region marks a vertex at infinity. *)
Variable Voronoi : list point -> list point * list (list Z).

(** shapely: [a.union(b)], [a.contains(Point)], [a.contains(b)],
    [a.intersection(b)] and the [area] of a polygon. *)
Variable union : geom -> geom -> geom.
Variable contains_point : geom -> point -> bool.
Variable contains : geom -> geom -> bool.
Variable intersection : geom -> geom -> geom.
Variable area : list point -> Q.

(** [np.diff(a)[[0,-1]]*0.5]: half the first and the last spacing. *)
Definition half_steps (a : list Q) : res (Q * Q) :=
  let d := Np.diff a in
  s0 <- Np.first_item d ;;
  s1 <- Np.last_item d ;;
  Ok (s0 * (1 # 2), s1 * (1 # 2)).

(** The points handed to [ConvexHull] by [convexHullPoints]: the four
    padding strips and the four outer corners. *)
Definition boundary_points (A3 A4 : list Q) : res (list point) :=
  let A3Unique := Np.unique A3 in
  let A4Unique := Np.unique A4 in
  A3Step <- half_steps A3Unique ;;
  A4Step <- half_steps A4Unique ;;
  a3first <- Np.first_item A3Unique ;;
  a3last <- Np.last_item A3Unique ;;
  a4first <- Np.first_item A4Unique ;;
  a4last <- Np.last_item A4Unique ;;
  let addLeft := map (fun a4 => (a3first - fst A3Step, a4)) A4Unique in
  let addRight := map (fun a4 => (a3last + snd A3Step, a4)) A4Unique in
  let addBottom := map (fun a3 => (a3, a4first - fst A4Step)) A3Unique in
  let addTop := map (fun a3 => (a3, a4last + snd A4Step)) A3Unique in
  let L := a3first - fst A3Step in
  let R := a3last + snd A3Step in
  let B := a4first - fst A4Step in
  let T := a4last + snd A4Step in
  let corners := [(L, B); (L, T); (R, B); (R, T)] in
  Ok (addLeft ++ addRight ++ addBottom ++ addTop ++ corners).

(** The ring of the polygon [convexHullPoints] returns. *)
Definition convexHullRing (A3 A4 : list Q) : res (list point) :=
  boundary <- boundary_points A3 A4 ;;
  Ok (ConvexHull boundary).

Definition convexHullPoints (A3 A4 : list Q) : res geom :=
  bound <- convexHullRing A3 A4 ;;
  Ok (PolygonS bound).

Definition len_points (points : points_t) : nat :=
  match points with
  | Groups gs => List.length gs
  | Rows _ _ => 2
  end.

(** [(points[i][0].flatten(), points[i][1].flatten())]; on a two-row array
    [points[i][0]] and [points[i][1]] are single numbers. *)
Definition group_xy (points : points_t) (i : nat) : res (list Q * list Q) :=
  match points with
  | Groups gs =>
      match nth_error gs i with
      | Some g => Ok g
      | None => Raise IndexError
      end
  | Rows xs ys =>
      match nth_error [xs; ys] i with
      | Some row =>
          match row with
          | x0 :: x1 :: _ => Ok ([x0], [x1])
          | _ => Raise IndexError
          end
      | None => Raise IndexError
      end
  end.

(** [(points[0], points[1])] used as the coordinate arrays when a boundary
    is supplied for several groups: the two rows of an array.  On a list of
    groups these are not coordinate arrays and shapely's [Point] rejects
    them (modelled as ValueError). *)
Definition rows_xy (points : points_t) : res (list Q * list Q) :=
  match points with
  | Rows xs ys => Ok (xs, ys)
  | Groups _ => Raise ValueError
  end.

(** [combiPoly]: the union of all boundaries, from the left. *)
Definition combine_boundaries (BoundPoly : list geom) : res geom :=
  match BoundPoly with
  | b0 :: b1 :: rest => Ok (fold_left union rest (union b0 b1))
  | _ => Raise IndexError
  end.

(** The region filter: at least three vertices and not connected to
    infinity. *)
Definition region_ok (reg : list Z) : bool :=
  (2 <? List.length reg)%nat && negb (existsb (fun i => (i =? -1)%Z) reg).

(** The clipped polygon of an edge region: the intersection with the
    boundary, or its part of largest area when it is not a single
    polygon. *)
Definition clip (combiPoly : geom) (poly : list point) : res (list point) :=
  match intersection (PolygonS poly) combiPoly with
  | PolygonS ring => Ok ring
  | MultiS parts =>
      i <- argmax (map area parts) ;;
      match nth_error parts i with
      | Some ring => Ok ring
      | None => Raise IndexError
      end
  end.

(** The first part of [voronoiTessellation]: the combined boundary
    [combiPoly] and the coordinate arrays [pointsX], [pointsY].
    [Boundary] is [None] for [False]; [numGroups] is [None] for [False]. *)
Definition gather (points : points_t) (Boundary : option (list geom))
    (numGroups : option nat) : res (geom * list Q * list Q) :=
  let numGroups :=
    match numGroups with
    | None | Some O => len_points points
    | Some n => n
    end in
  BoundPoly <- match Boundary with
               | None => mapM (fun i => '(X, Y) <- group_xy points i ;; convexHullPoints X Y)
                              (seq 0 numGroups)
               | Some B => Ok B
               end ;;
  if (numGroups =? 1)%nat then
    b0 <- match BoundPoly with b0 :: _ => Ok b0 | [] => Raise IndexError end ;;
    '(X, Y) <- group_xy points 0 ;;
    Ok (b0, X, Y)
  else
    combi <- combine_boundaries BoundPoly ;;
    match Boundary with
    | None =>
        gs <- mapM (group_xy points) (seq 0 numGroups) ;;
        Ok (combi, List.concat (map fst gs), List.concat (map snd gs))
    | Some _ =>
        '(X, Y) <- rows_xy points ;;
        Ok (combi, X, Y)
    end.

(** The second part: the containment check, the eight far points, the
    Voronoi diagram, the region filter and the clipping; the polygons built
    are the interior ones followed by the clipped edge ones. *)
Definition build_polygons (combiPoly : geom) (pointsX pointsY : list Q)
  : res (list (list point)) :=
  if (List.length pointsY <? List.length pointsX)%nat then Raise IndexError
  else if negb (List.length pointsY =? List.length pointsX)%nat then Raise ValueError
  else if negb (forallb (contains_point combiPoly) (combine pointsX pointsY))
  then Raise boundary_error
  else
    xmax <- np_max pointsX ;;
    xmin <- np_min pointsX ;;
    ymax <- np_max pointsY ;;
    ymin <- np_min pointsY ;;
    let xmean := mean pointsX in
    let ymean := mean pointsY in
    let extraPoints :=
      [(xmean, ymax + 50); (xmean, ymin - 50);
       (xmin - 50, ymean); (xmax + 50, ymean);
       (xmin - 50, ymax + 50); (xmin - 50, ymin - 50);
       (xmax + 50, ymax + 50); (xmax + 50, ymin - 50)] in
    let AllPoints := combine pointsX pointsY ++ extraPoints in
    let '(vertices, regions) := Voronoi AllPoints in
    PolyPoints <- mapM (mapM (py_index vertices)) (filter region_ok regions) ;;
    let insidePolygonsBool := map (fun P => contains combiPoly (PolygonS P)) PolyPoints in
    let edgePolygonsBool := map negb insidePolygonsBool in
    intersectionPolygon <- mapM (clip combiPoly) (Np.compress edgePolygonsBool PolyPoints) ;;
    Ok (Np.compress (map negb edgePolygonsBool) PolyPoints ++ intersectionPolygon).

(** [voronoiTessellation] up to the polygon count check: the coordinate
    arrays and the polygons built. *)
Definition tessellate (points : points_t) (Boundary : option (list geom))
    (numGroups : option nat) : res (list Q * list Q * list (list point)) :=
  '(combiPoly, pointsX, pointsY) <- gather points Boundary numGroups ;;
  Polygons <- build_polygons combiPoly pointsX pointsY ;;
  Ok (pointsX, pointsY, Polygons).

(** [voronoiTessellation] (without plotting): the polygons and their vertex
    arrays, or the error of the count check. *)
Definition voronoiTessellation (points : points_t) (Boundary : option (list geom))
    (numGroups : option nat) : res (list geom * list (list point)) :=
  '(pointsX, pointsY, Polygons) <- tessellate points Boundary numGroups ;;
  if negb (List.length pointsX =? List.length Polygons)%nat
  then Raise (count_error (List.length pointsX) (List.length Polygons))
  else Ok (map PolygonS Polygons, Polygons).

End Tessellation.

(** ** The voxel grid: calculateGrid3D, calculateBins, binData3D *)

Module Grid.

(** A 3-D numpy array: its shape and its value at every index within the
    shape. *)
Record arr3 : Type := mkArr3 { sh : nat * nat * nat; val : nat * nat * nat -> Q }.

Inductive axis : Type := Ax0 | Ax1 | Ax2.

Definition get (ax : axis) (p : nat * nat * nat) : nat :=
  match ax with
  | Ax0 => fst (fst p)
  | Ax1 => snd (fst p)
  | Ax2 => snd p
  end.

Definition set (ax : axis) (v : nat) (p : nat * nat * nat) : nat * nat * nat :=
  match ax with
  | Ax0 => (v, snd (fst p), snd p)
  | Ax1 => (fst (fst p), v, snd p)
  | Ax2 => (fst (fst p), snd (fst p), v)
  end.

(** [np.diff(A, axis=ax)]. *)
Definition diff (ax : axis) (A : arr3) : arr3 :=
  mkArr3 (set ax (get ax (sh A) - 1)%nat (sh A))
         (fun p => val A (set ax (S (get ax p)) p) - val A p).

(** [A[..., :-1, ...] -= 0.5*D] along [ax]. *)
Definition isub_init (ax : axis) (A D : arr3) : arr3 :=
  mkArr3 (sh A)
         (fun p => if (get ax p <? get ax (sh A) - 1)%nat
                   then val A p - (1 # 2) * val D p
                   else val A p).

(** [A[..., -1, ...] -= 0.5*D[..., -1, ...]] along [ax]: IndexError when
    [D] has no entry along [ax]. *)
Definition isub_last (ax : axis) (A D : arr3) : res arr3 :=
  if (get ax (sh D) =? 0)%nat then Raise IndexError
  else Ok (mkArr3 (sh A)
             (fun p => if (get ax p =? get ax (sh A) - 1)%nat
                       then val A p - (1 # 2) * val D (set ax (get ax (sh D) - 1)%nat p)
                       else val A p)).

(** The six in-place statements that turn the centres [X] into [XX]. *)
Definition shift (X : arr3) : res arr3 :=
  let XX := isub_init Ax0 X (diff Ax0 X) in
  XX <- isub_last Ax0 XX (diff Ax0 X) ;;
  let XX := isub_init Ax1 XX (diff Ax1 X) in
  XX <- isub_last Ax1 XX (diff Ax1 X) ;;
  let XX := isub_init Ax2 XX (diff Ax2 X) in
  isub_last Ax2 XX (diff Ax2 X).

(** An assignment [A[region] = f] to the indices selected by [P]. *)
Definition assign (P : nat * nat * nat -> bool) (f : arr3 -> nat * nat * nat -> Q)
    (A : arr3) : arr3 :=
  mkArr3 (sh A) (fun p => if P p then f A p else val A p).

Definition zeros (s : nat * nat * nat) : arr3 := mkArr3 s (fun _ => 0).

Definition shape_eqb (s t : nat * nat * nat) : bool :=
  (fst (fst s) =? fst (fst t))%nat && (snd (fst s) =? snd (fst t))%nat && (snd s =? snd t)%nat.

(** The eight assignments that fill [XT] from [XX] and the differences of
    [X]; [xshape] is the shape of the first array, which fixes the shape of
    all three outputs. *)
Definition fill (xshape : nat * nat * nat) (X XX : arr3) : res arr3 :=
  let '(n0, n1, n2) := xshape in
  let d0 := diff Ax0 X in
  let d1 := diff Ax1 X in
  let d2 := diff Ax2 X in
  let m0 := (n0 - 1)%nat in
  let m1 := (n1 - 1)%nat in
  let m2 := (n2 - 1)%nat in
  let l0 := (n0 - 2)%nat in
  let l1 := (n1 - 2)%nat in
  let l2 := (n2 - 2)%nat in
  if negb (shape_eqb (sh XX) xshape) then Raise ValueError
  else
    let XT := zeros (S n0, S n1, S n2) in
    (* XT[:-1,:-1,:-1] = XX *)
    let XT := assign (fun '(i, j, k) => ((i <? n0) && (j <? n1) && (k <? n2))%nat)
                (fun _ p => val XX p) XT in
    (* XT[-1,:-1,:-1] = XT[-2,:-1,:-1] + dx0[-1] *)
    let XT := assign (fun '(i, j, k) => ((i =? n0) && (j <? n1) && (k <? n2))%nat)
                (fun T '(i, j, k) => val T (m0, j, k) + val d0 (l0, j, k)) XT in
    (* XT[:-1,-1,:-1] = XT[:-1,-2,:-1] + dx1[:,-1,:] *)
    let XT := assign (fun '(i, j, k) => ((i <? n0) && (j =? n1) && (k <? n2))%nat)
                (fun T '(i, j, k) => val T (i, m1, k) + val d1 (i, l1, k)) XT in
    (* XT[:-1,:-1,-1] = XT[:-1,:-1,-2] + dx2[:,:,-1] *)
    let XT := assign (fun '(i, j, k) => ((i <? n0) && (j <? n1) && (k =? n2))%nat)
                (fun T '(i, j, k) => val T (i, j, m2) + val d2 (i, j, l2)) XT in
    (* XT[:-1,-1,-1] = 0.5*(XT[:-1,-1,-2]+dx2[:,-1,-1]+XT[:-1,-2,-1]+dx1[:,-1,-1]) *)
    let XT := assign (fun '(i, j, k) => ((i <? n0) && (j =? n1) && (k =? n2))%nat)
                (fun T '(i, j, k) =>
                   (1 # 2) * (val T (i, n1, m2) + val d2 (i, m1, l2)
                              + val T (i, m1, n2) + val d1 (i, l1, m2))) XT in
    (* XT[-1,:-1,-1] = 0.5*(XT[-1,:-1,-2]+dx2[-1,:,-1]+XT[-2,:-1,-1]+dx0[-1,:,-1]) *)
    let XT := assign (fun '(i, j, k) => ((i =? n0) && (j <? n1) && (k =? n2))%nat)
                (fun T '(i, j, k) =>
                   (1 # 2) * (val T (n0, j, m2) + val d2 (m0, j, l2)
                              + val T (m0, j, n2) + val d0 (l0, j, m2))) XT in
    (* XT[-1,-1,:-1] = 0.5*(XT[-1,-2,:-1]+dx1[-1,-1,:]+XT[-2,-1,:-1]+dx0[-1,-1,:]) *)
    let XT := assign (fun '(i, j, k) => ((i =? n0) && (j =? n1) && (k <? n2))%nat)
                (fun T '(i, j, k) =>
                   (1 # 2) * (val T (n0, m1, k) + val d1 (m0, l1, k)
                              + val T (m0, n1, k) + val d0 (l0, m1, k))) XT in
    (* XT[-1,-1,-1] = (XT[-1,-2,-1]+dx1[-1,-1,-1]+XT[-2,-1,-1]+dx0[-1,-1,-1]
                       +XT[-1,-1,-2]+dx2[-1,-1,-1])/3 *)
    let XT := assign (fun '(i, j, k) => ((i =? n0) && (j =? n1) && (k =? n2))%nat)
                (fun T _ =>
                   (val T (n0, m1, n2) + val d1 (m0, l1, m2)
                    + val T (m0, n1, n2) + val d0 (l0, m1, m2)
                    + val T (n0, n1, m2) + val d2 (m0, m1, l2)) / 3) XT in
    Ok XT.

Definition calculateGrid3D (X Y Z : arr3) : res (arr3 * arr3 * arr3) :=
  let xshape := sh X in
  XX <- shift X ;;
  YY <- shift Y ;;
  ZZ <- shift Z ;;
  XT <- fill xshape X XX ;;
  YT <- fill xshape Y YY ;;
  ZT <- fill xshape Z ZZ ;;
  Ok (XT, YT, ZT).

(** [np.round]: to the nearest integer, halves to the even neighbour. *)
Definition round_half_even (x : Q) : Z :=
  let f := Qfloor x in
  let r := x - inject_Z f in
  if Np.ltb r (1 # 2) then f
  else if Np.ltb (1 # 2) r then (f + 1)%Z
  else if Z.even f then f else (f + 1)%Z.

(** [np.linspace(a, b, num)]: ValueError for a negative [num]. *)
Definition linspace (a b : Q) (num : Z) : res (list Q) :=
  if (num <? 0)%Z then Raise ValueError
  else
    let n := Z.to_nat num in
    match n with
    | 1%nat => Ok [a]
    | _ => let step := (b - a) / inject_Z (Z.of_nat (n - 1)) in
           Ok (map (fun i => a + inject_Z (Z.of_nat i) * step) (seq 0 n))
    end.

(** [np.meshgrid(_X, _Y, _Z, indexing='ij')]. *)
Definition meshgrid (_X _Y _Z : list Q) : arr3 * arr3 * arr3 :=
  let s := (List.length _X, List.length _Y, List.length _Z) in
  (mkArr3 s (fun '(i, j, k) => nth i _X 0),
   mkArr3 s (fun '(i, j, k) => nth j _Y 0),
   mkArr3 s (fun '(i, j, k) => nth k _Z 0)).

Definition calculateBins (dx dy dz : Q) (pos : list Q * list Q * list Q)
  : res (arr3 * arr3 * arr3) :=
  let '(p0, p1, p2) := pos in
  max0 <- np_max p0 ;; min0 <- np_min p0 ;;
  let diffx := Qabs (max0 - min0) in
  max1 <- np_max p1 ;; min1 <- np_min p1 ;;
  let diffy := Qabs (max1 - min1) in
  max2 <- np_max p2 ;; min2 <- np_min p2 ;;
  let diffz := Qabs (max2 - min2) in
  let xbins := (round_half_even (diffx / dx) + 1)%Z in
  let ybins := (round_half_even (diffy / dy) + 1)%Z in
  let zbins := (round_half_even (diffz / dz) + 1)%Z in
  _X <- linspace min0 max0 xbins ;;
  _Y <- linspace min1 max1 ybins ;;
  _Z <- linspace min2 max2 zbins ;;
  let '(X, Y, Z) := meshgrid _X _Y _Z in
  calculateGrid3D X Y Z.

Inductive dtype : Type := int64 | float64.

(** A flattened data array with its dtype. *)
Record tarray : Type := mkT { dt : dtype; values : list Q }.

(** A 3-D result array with its dtype. *)
Record tarr3 : Type := mkT3 { dt3 : dtype; arr : arr3 }.

(** [A.astype(d)]. *)
Definition astype (d : dtype) (A : arr3) : tarr3 :=
  match d with
  | int64 => mkT3 int64 (mkArr3 (sh A) (fun p => Np.as_int64 (val A p)))
  | float64 => mkT3 float64 A
  end.

(** [bins[0][:,0,0]], [bins[1][0,:,0]] and [bins[2][0,0,:]]. *)
Definition axis_edges (ax : axis) (B : arr3) : res (list Q) :=
  let '(n0, n1, n2) := sh B in
  match ax with
  | Ax0 => if ((n1 =? 0) || (n2 =? 0))%nat then Raise IndexError
           else Ok (map (fun i => val B (i, 0, 0)%nat) (seq 0 n0))
  | Ax1 => if ((n0 =? 0) || (n2 =? 0))%nat then Raise IndexError
           else Ok (map (fun j => val B (0, j, 0)%nat) (seq 0 n1))
  | Ax2 => if ((n0 =? 0) || (n1 =? 0))%nat then Raise IndexError
           else Ok (map (fun k => val B (0, 0, k)%nat) (seq 0 n2))
  end.

Definition in_cell3 (e0 e1 e2 : list Q) (c : nat * nat * nat) (p : Q * Q * Q) : bool :=
  match Np.bin_of e0 (fst (fst p)), Np.bin_of e1 (snd (fst p)), Np.bin_of e2 (snd p) with
  | Some i, Some j, Some k => shape_eqb (i, j, k) c
  | _, _, _ => false
  end.

(** [np.histogramdd(sample, bins=[e0,e1,e2], weights=w)[0]] for a sample
    of shape (N,3). *)
Definition histogramdd3 (sample : list (Q * Q * Q)) (e0 e1 e2 : list Q) (w : list Q)
  : res arr3 :=
  if negb (Np.monotone e0 && Np.monotone e1 && Np.monotone e2) then Raise ValueError
  else if negb (List.length w =? List.length sample)%nat then Raise ValueError
  else Ok (mkArr3 (List.length e0 - 1, List.length e1 - 1, List.length e2 - 1)%nat
             (fun c => Np.sum (map snd (filter (fun pw => in_cell3 e0 e1 e2 c (fst pw))
                                          (combine sample w))))).

(** [np.array(pos).T]: the points as rows; the three coordinate arrays
    must have one length. *)
Definition sample_of (pos : list Q * list Q * list Q) : res (list (Q * Q * Q)) :=
  let '(p0, p1, p2) := pos in
  if ((List.length p0 =? List.length p1) && (List.length p1 =? List.length p2))%nat
  then Ok (combine (combine p0 p1) p2)
  else Raise ValueError.

(** [binData3D]: the list [returndata] (intensity, then the monitor when
    [mon] is given, then normalization and normalization count when [norm]
    is given) and the bins. *)
Definition binData3D (dx dy dz : Q) (pos : list Q * list Q * list Q) (data : tarray)
    (norm mon : option tarray) (bins : option (arr3 * arr3 * arr3))
  : res (list tarr3 * (arr3 * arr3 * arr3)) :=
  bins <- match bins with
          | None => calculateBins dx dy dz pos
          | Some b => Ok b
          end ;;
  let '(b0, b1, b2) := bins in
  e0 <- axis_edges Ax0 b0 ;;
  e1 <- axis_edges Ax1 b1 ;;
  e2 <- axis_edges Ax2 b2 ;;
  sample <- sample_of pos ;;
  h <- histogramdd3 sample e0 e1 e2 (values data) ;;
  let intensity := astype (dt data) h in
  monpart <- match mon with
             | None => Ok []
             | Some m =>
                 h <- histogramdd3 sample e0 e1 e2 (values m) ;;
                 Ok [astype (dt m) h]
             end ;;
  normpart <- match norm with
              | None => Ok []
              | Some n =>
                  h <- histogramdd3 sample e0 e1 e2 (values n) ;;
                  hc <- histogramdd3 sample e0 e1 e2 (Np.ones (List.length (values data))) ;;
                  Ok [astype (dt n) h; astype int64 hc]
              end ;;
  Ok (intensity :: monpart ++ normpart, bins).

End Grid.

(** ** The duplicate-merge step of plotA3A4 *)

Module A3A4.

(** Lexicographic order and equality of the columns of [PosAll]. *)
Definition col_ltb (p q : point) : bool :=
  Np.ltb (fst p) (fst q) || (Np.eqb (fst p) (fst q) && Np.ltb (snd p) (snd q)).

Definition col_eqb (p q : point) : bool :=
  Np.eqb (fst p) (fst q) && Np.eqb (snd p) (snd q).

(** One column of [np.unique(PosAll, axis=1, return_index=True,
    return_counts=True)]: the point, the index of its first occurrence and
    the number of its occurrences. *)
Record uentry : Type := mkU { u_col : point; u_index : nat; u_count : nat }.

Fixpoint uinsert (p : point) (idx : nat) (l : list uentry) : list uentry :=
  match l with
  | [] => [mkU p idx 1]
  | e :: l' =>
      if col_eqb p (u_col e) then mkU (u_col e) (u_index e) (S (u_count e)) :: l'
      else if col_ltb p (u_col e) then mkU p idx 1 :: l
      else e :: uinsert p idx l'
  end.

Definition unique_cols (PosAll : list point) : list uentry :=
  fold_left (fun acc ip => uinsert (snd ip) (fst ip) acc)
            (combine (seq 0 (List.length PosAll)) PosAll) [].

(** [np.sum(count>1)>0]. *)
Definition has_duplicates (PosAll : list point) : bool :=
  existsb (fun e => (1 <? u_count e)%nat) (unique_cols PosAll).

(** [np.round(x, decimals)]. *)
Definition round_dec (decimals : nat) (x : Q) : Q :=
  let s := inject_Z (10 ^ Z.of_nat decimals) in
  inject_Z (Grid.round_half_even (x * s)) / s.

Definition dist2 (p q : point) : Q :=
  (fst p - fst q) * (fst p - fst q) + (snd p - snd q) * (snd p - snd q).

Fixpoint nearest_from (p : point) (best : Q) (besti i : nat) (pts : list point) : Q * nat :=
  match pts with
  | [] => (best, besti)
  | q :: pts' =>
      if Np.ltb (dist2 p q) best then nearest_from p (dist2 p q) i (S i) pts'
      else nearest_from p best besti (S i) pts'
  end.

(** [KDTree(pts).query(p, distance_upper_bound=bound)[1]]: the index of the
    nearest point, or [len(pts)] when none is closer than [bound].
    Distances are compared through their squares. *)
Definition kdtree_query (pts : list point) (bound : Q) (p : point) : nat :=
  match pts with
  | [] => 0%nat
  | q :: pts' =>
      let '(d2, i) := nearest_from p (dist2 p q) 0%nat 1%nat pts' in
      if Np.ltb d2 (bound * bound) then i else List.length pts
  end.

(** [rows[idxs,:]]. *)
Definition fancy_get {A : Type} (rows : list A) (idxs : list nat) : res (list A) :=
  mapM (fun i => match nth_error rows i with
                 | Some r => Ok r
                 | None => Raise IndexError
                 end) idxs.

Fixpoint set_nth {A : Type} (i : nat) (v : A) (l : list A) : list A :=
  match l, i with
  | [], _ => []
  | _ :: l', O => v :: l'
  | x :: l', S i' => x :: set_nth i' v l'
  end.

(** [rows[idxs,:] = vals]: the assignments are carried out in order, so
    for a repeated index the last value stays. *)
Definition fancy_set {A : Type} (rows : list A) (idxs : list nat) (vals : list A) : list A :=
  fold_left (fun acc iv => set_nth (fst iv) (snd iv) acc) (combine idxs vals) rows.

Definition row_add (r s : list Q) : list Q :=
  map (fun xy => fst xy + snd xy) (combine r s).

(** [rows[idxs,:] += d]: numpy reads [rows[idxs,:]], adds, and assigns the
    result back. *)
Definition fancy_iadd (rows : list (list Q)) (idxs : list nat) (d : list (list Q))
  : res (list (list Q)) :=
  cur <- fancy_get rows idxs ;;
  Ok (fancy_set rows idxs (map (fun rs => row_add (fst rs) (snd rs)) (combine cur d))).

(** [np.nanmean([a, b], axis=0)] for one entry; [None] is NaN. *)
Definition nanmean2 (a b : option Q) : option Q :=
  match a, b with
  | Some x, Some y => Some ((x + y) / 2)
  | Some x, None => Some x
  | None, Some y => Some y
  | None, None => None
  end.

Definition row_nanmean (r s : list (option Q)) : list (option Q) :=
  map (fun xy => nanmean2 (fst xy) (snd xy)) (combine r s).

(** The [if] branch of plotA3A4 that merges duplicate points (the
    boundary polygons built at its start are left out): from the points of
    all files and the rows of I, Norm and Mon (one row per point) to
    [(points, Isorted, Normsorted, Monsorted)]. *)
Definition mergeDuplicates (PosAll : list point)
    (IReshape : list (list Q)) (NormReshape : list (list (option Q)))
    (MonReshape : list (list Q)) (binningDecimals : nat)
  : res (list point * list (list Q) * list (list (option Q)) * list (list Q)) :=
  let u := unique_cols PosAll in
  let unique := map u_col u in
  let uindex := map u_index u in
  let mask := map (fun k => negb (existsb (Nat.eqb k) uindex)) (seq 0 (List.length PosAll)) in
  let doublePoints := Np.compress mask PosAll in
  let bound := (1 / inject_Z (10 ^ Z.of_nat binningDecimals)) * (11 # 10) in
  let doubleIndex :=
    map (fun p => kdtree_query unique bound
                    (round_dec binningDecimals (fst p), round_dec binningDecimals (snd p)))
        doublePoints in
  let doubleI := Np.compress mask IReshape in
  let doubleNorm := Np.compress mask NormReshape in
  let doubleMon := Np.compress mask MonReshape in
  Isorted <- fancy_get IReshape uindex ;;
  Normsorted <- fancy_get NormReshape uindex ;;
  Monsorted <- fancy_get MonReshape uindex ;;
  Isorted <- fancy_iadd Isorted doubleIndex doubleI ;;
  cur <- fancy_get Normsorted doubleIndex ;;
  let Normsorted :=
    fancy_set Normsorted doubleIndex
      (map (fun rs => row_nanmean (fst rs) (snd rs)) (combine cur doubleNorm)) in
  Monsorted <- fancy_iadd Monsorted doubleIndex doubleMon ;;
  Ok (unique, Isorted, Normsorted, Monsorted).

End A3A4.

(** * The vocabulary of the statements *)

(** A sample point is counted by the 2-D histogram when it has a bin on
    both axes. *)
Definition has_bin2 (e0 e1 : list Q) (p : Q * Q) : bool :=
  match Np.bin_of e0 (fst p), Np.bin_of e1 (snd p) with
  | Some _, Some _ => true
  | _, _ => false
  end.

(** ** The frame of a cut and the points it counts *)

(** One measured point: its position (qx, qy, energy) and its intensity,
    normalization and monitor. *)
Record row : Type := mkRow { rx : Q; ry : Q; re : Q; rI : Q; rN : Q; rM : Q }.

Definition xye (z : row) : Q * Q * Q := (rx z, ry z, re z).

Section CutFrame.

Variable fsqrt : Q -> Q.
Variables q1 q2 : Q * Q.
Variables width minPixel Emin Emax : Q.
Variable extend : bool.

Definition dirLength : Q := linalg_norm fsqrt (sub2 q2 q1).

Definition dirvec : Q * Q :=
  (fst (sub2 q2 q1) / dirLength, snd (sub2 q2 q1) / dirLength).

Definition orthovec : Q * Q := (snd dirvec, - fst dirvec).

(** The coordinate of a point along the cut and orthogonal to it. *)
Definition along (g : Q * Q * Q) : Q := dot2 dirvec (sub2 (fst g) q1).
Definition ortho (g : Q * Q * Q) : Q := dot2 orthovec (sub2 (fst g) q1).

(** The energy window, closed at both ends. *)
Definition in_energy (g : Q * Q * Q) : bool :=
  Np.leb (snd g) Emax && Np.leb Emin (snd g).

(** Strictly between the two end points of the cut. *)
Definition in_segment (g : Q * Q * Q) : bool :=
  Np.ltb 0 (along g) && Np.ltb (along g) dirLength.

(** The points the cut selects before binning. *)
Definition selected (g : Q * Q * Q) : bool :=
  in_energy g && (extend || in_segment g).

(** Strictly within the width of the cut. *)
Definition in_width (g : Q * Q * Q) : bool :=
  Np.ltb (ortho g) (width / 2) && Np.ltb (- width / 2) (ortho g).

(** The bin edges along the cut for the point cloud [G]. *)
Definition cut_edges (G : list (Q * Q * Q)) : list Q :=
  Tools.binEdges (map along (filter in_width (filter selected G))) minPixel.

(** The points whose weights enter the histograms of the cut. *)
Definition counted (G : list (Q * Q * Q)) (g : Q * Q * Q) : bool :=
  selected g && has_bin2 (cut_edges G) [- width / 2; width / 2] (along g, ortho g).

End CutFrame.

Section CutRowsDef.

Variable fsqrt : Q -> Q.
Variables q1 q2 : Q * Q.
Variables width minPixel Emin Emax : Q.
Variable extend : bool.

Local Abbreviation along' := (fun z : row => along fsqrt q1 q2 (xye z)).
Local Abbreviation ortho' := (fun z : row => ortho fsqrt q1 q2 (xye z)).

(** The same cut written over the rows of the point cloud. *)
Definition cut1D_rows (Z : list row) : res (datalist * binlist) :=
  let ZE := filter (fun z => in_energy Emin Emax (xye z)) Z in
  let ZF := if extend then ZE
            else filter (fun z => in_segment fsqrt q1 q2 (xye z)) ZE in
  let ZW := filter (fun z => in_width fsqrt q1 q2 width (xye z)) ZF in
  let lenbins := Tools.binEdges (map along' ZW) minPixel in
  let orthobins := [- width / 2; width / 2] in
  let orthopos := outer2 orthobins (orthovec fsqrt q1 q2) in
  if (List.length ZE =? 0)%nat
  then Ok (([], [], [], []), ([], [], [Emin; Emax]))
  else if (List.length lenbins =? 0)%nat
  then Ok (([], [], [], []), ([], orthopos, [Emin; Emax]))
  else
    let sample := map (fun z => (along' z, ortho' z)) ZF in
    normcounts <- Np.histogramdd2 sample lenbins orthobins (map (fun _ => 1) ZF) ;;
    intensity <- Np.histogramdd2 sample lenbins orthobins (map rI ZF) ;;
    MonitorCount <- Np.histogramdd2 sample lenbins orthobins (map rM ZF) ;;
    Normalization <- Np.histogramdd2 sample lenbins orthobins (map rN ZF) ;;
    Ok ((intensity, MonitorCount, Normalization, normcounts),
        (map (fun l => [l * fst (dirvec fsqrt q1 q2) + fst q1;
                        l * snd (dirvec fsqrt q1 q2) + snd q1] ++ [(Emin + Emax) * (1 # 2)])
             lenbins,
         orthopos, [Emin; Emax])).

End CutRowsDef.

(** The rows of six parallel arrays. *)
Fixpoint zip_rows (px py pe I Norm Monitor : list Q) : list row :=
  match px, py, pe, I, Norm, Monitor with
  | x :: px', y :: py', e :: pe', i :: I', n :: Norm', m :: Monitor' =>
      mkRow x y e i n m :: zip_rows px' py' pe' I' Norm' Monitor'
  | _, _, _, _, _, _ => []
  end.

(** The array [a] with [d] added to its entry [k]. *)
Fixpoint bump (k : nat) (d : Q) (a : list Q) : list Q :=
  match a, k with
  | [], _ => []
  | x :: a', O => (x + d) :: a'
  | x :: a', S k' => x :: bump k' d a'
  end.

(** The weights of point [k] enter the totals of a cut: whatever amounts
    are added to the intensity, normalization and monitor of that point,
    the totals of the three histograms grow by exactly these amounts. *)
Definition counts_point (cut : list Q -> list Q -> list Q -> res (datalist * binlist))
    (I Norm Monitor : list Q) (k : nat) : Prop :=
  forall dI dN dM,
  exists int mon nor cn bl int' mon' nor' cn' bl',
    cut I Norm Monitor = Ok ((int, mon, nor, cn), bl) /\
    cut (bump k dI I) (bump k dN Norm) (bump k dM Monitor) = Ok ((int', mon', nor', cn'), bl') /\
    Np.sum2 int' == Np.sum2 int + dI /\
    Np.sum2 mon' == Np.sum2 mon + dM /\
    Np.sum2 nor' == Np.sum2 nor + dN.

Definition intensityArray (r : cutQE_result) : list array2 := fst (fst (fst (fst (fst (fst r))))).
Definition monitorArray (r : cutQE_result) : list array2 := snd (fst (fst (fst (fst (fst r))))).
Definition normalizationArray (r : cutQE_result) : list array2 := snd (fst (fst (fst (fst r)))).

Definition no_energy_points : exn :=
  AttributeError [("No points are within the provided energy limits."%string, [])].

(** Strictly increasing lists. *)
Fixpoint increasing (l : list Q) : Prop :=
  match l with
  | [] => True
  | x :: l' =>
      match l' with
      | [] => True
      | y :: _ => x < y /\ increasing l'
      end
  end.

(** The histogram edges of the grid built by calculateBins for three
    centres along x and five along y and z, one unit from the first to the
    last. *)
Definition unit_grid (m0 M0 m1 M1 m2 M2 : Q) : res (Grid.arr3 * Grid.arr3 * Grid.arr3) :=
  _X <- Grid.linspace m0 M0 3 ;;
  _Y <- Grid.linspace m1 M1 5 ;;
  _Z <- Grid.linspace m2 M2 5 ;;
  let '(X, Y, Z) := Grid.meshgrid _X _Y _Z in
  Grid.calculateGrid3D X Y Z.

Definition grid_edges (bins : Grid.arr3 * Grid.arr3 * Grid.arr3)
  : res (list Q * list Q * list Q) :=
  let '(b0, b1, b2) := bins in
  e0 <- Grid.axis_edges Grid.Ax0 b0 ;;
  e1 <- Grid.axis_edges Grid.Ax1 b1 ;;
  e2 <- Grid.axis_edges Grid.Ax2 b2 ;;
  Ok (e0, e1, e2).

(** * Example data and reference implementations *)

(** A concrete square root for evaluating the cuts: the root rounded down
    to six decimals. *)
Definition sqrt6 (x : Q) : Q :=
  inject_Z (Z.sqrt (Qfloor (x * 1000000000000))) / 1000000.

(** The sample transform used when evaluating a path given in (qx,qy):
    it is not called in that format. *)
Definition tr_first2 (v : list Q) : list Q := firstn 2 v.

(** A data set with one converted file holding one point, at energy 10. *)
Definition one_point_set : DataSet :=
  mkDataSet 1 [[5]] [[0]] [[0]] [[10]] [[1]] [[7]].

(** Three files that measured the same four points (a 2 by 2 raster in A3
    and A4), with one energy column: the intensities are 1, 2 and 4, the
    normalizations 1, 2 and 6, the monitors 10, 20 and 40. *)
Definition raster : list point := [(0, 0); (0, 1); (1, 0); (1, 1)].
Definition three_files : list point := raster ++ raster ++ raster.
Definition I_three : list (list Q) := repeat [1] 4 ++ repeat [2] 4 ++ repeat [4] 4.
Definition Norm_three : list (list (option Q)) :=
  repeat [Some 1] 4 ++ repeat [Some 2] 4 ++ repeat [Some 6] 4.
Definition Mon_three : list (list Q) := repeat [10] 4 ++ repeat [20] 4 ++ repeat [40] 4.

(** Implementations of the library operations on convex rings, used to run
    the tessellation on examples; the theorems hold for any
    implementation. *)
Module Ref.

(** The hull of a point set that contains the corners of its bounding box:
    these corners, counterclockwise. *)
Definition bbox_hull (pts : list point) : list point :=
  match np_min (map fst pts), np_max (map fst pts),
        np_min (map snd pts), np_max (map snd pts) with
  | Ok L, Ok R, Ok B, Ok T => [(L, B); (R, B); (R, T); (L, T)]
  | _, _, _, _ => []
  end.

Definition rings (g : geom) : list (list point) :=
  match g with
  | PolygonS r => [r]
  | MultiS ps => ps
  end.

(** The union as the collection of both geometries (not dissolved). *)
Definition union (a b : geom) : geom := MultiS (rings a ++ rings b).

Definition contains_point (g : geom) (p : point) : bool :=
  existsb (fun r => strictly_inside r p) (rings g).

(** A polygon lies within a convex one when its vertices do. *)
Definition contains (g h : geom) : bool :=
  forallb (fun r => forallb (contains_point g) r) (rings h).

(** The point where the segment from [p] to [q] meets the line through
    [a] and [b]. *)
Definition meet (a b p q : point) : point :=
  let t := cross a b p / (cross a b p - cross a b q) in
  (Qred (fst p + t * (fst q - fst p)), Qred (snd p + t * (snd q - snd p))).

(** One pass of Sutherland-Hodgman clipping: the part of [poly] on the
    left of the directed line from [a] to [b]. *)
Definition clip_edge (a b : point) (poly : list point) : list point :=
  flat_map (fun pq : point * point =>
              let p := fst pq in
              let q := snd pq in
              let pin := Np.leb 0 (cross a b p) in
              let qin := Np.leb 0 (cross a b q) in
              if qin then (if pin then [q] else [meet a b p q; q])
              else (if pin then [meet a b p q] else []))
           (ring_edges poly).

(** The intersection of a polygon with a convex counterclockwise one. *)
Definition intersection (a b : geom) : geom :=
  match a, b with
  | PolygonS s, PolygonS c =>
      PolygonS (fold_left (fun acc e => clip_edge (fst e) (snd e) acc) (ring_edges c) s)
  | _, _ => MultiS []
  end.

(** The shoelace formula. *)
Definition area (ring : list point) : Q :=
  Qabs (Np.sum (map (fun e : point * point =>
                       fst (fst e) * snd (snd e) - fst (snd e) * snd (fst e))
                    (ring_edges ring))) / 2.

(** The Voronoi diagram of the 2 by 2 raster (0,0), (0,1), (1,0), (1,1)
    together with its eight far points at -50 and 51 around the mean
    (1/2,1/2): thirteen vertices, the four bounded regions of the raster
    points, the eight unbounded regions of the far points and the empty
    region scipy keeps.  Repeating raster points in the input does not
    change the diagram. *)
Definition raster_vertices : list point :=
  [(1 # 2, 1 # 2);
   (- (9999 # 400), 1 # 2); (1 # 2, - (9999 # 400));
   (10399 # 400, 1 # 2); (1 # 2, 10399 # 400);
   (- (101 # 4), - (99 # 4)); (- (99 # 4), - (101 # 4));
   (105 # 4, - (99 # 4)); (103 # 4, - (101 # 4));
   (- (101 # 4), 103 # 4); (- (99 # 4), 105 # 4);
   (105 # 4, 103 # 4); (103 # 4, 105 # 4)].

Definition raster_regions : list (list Z) :=
  [[]; [0; 1; 5; 6; 2]; [0; 4; 10; 9; 1]; [0; 2; 8; 7; 3]; [0; 3; 11; 12; 4];
   [-1; 10; 4; 12]; [-1; 6; 2; 8]; [-1; 5; 1; 9]; [-1; 7; 3; 11];
   [-1; 9; 10]; [-1; 5; 6]; [-1; 11; 12]; [-1; 7; 8]]%Z.

Definition raster_voronoi (pts : list point) : list point * list (list Z) :=
  (raster_vertices, raster_regions).

End Ref.

(** * Further code of the module *)

(** A value is counted by a 1-D histogram when it has a bin. *)
Definition has_bin (edges : list Q) (v : Q) : bool :=
  match Np.bin_of edges v with
  | Some _ => true
  | None => false
  end.

(** Closer to the point [q] than [width], as [cut1DE] selects in the
    (qx,qy) plane. *)
Definition in_q_range (fsqrt : Q -> Q) (q : Q * Q) (width : Q) (g : Q * Q * Q) : bool :=
  Np.ltb (linalg_norm fsqrt (sub2 (fst g) q)) width.

Definition no_q_points : exn :=
  AttributeError [("No points are inside selected q range."%string, [])].

Definition normcountArray (r : cutQE_result) : list array2 := snd (fst (fst (fst r))).
Definition returnpositions (r : cutQE_result) : list binlist := snd (fst (fst r)).
Definition centerPos (r : cutQE_result) : list array2 := snd (fst r).
Definition binDistance (r : cutQE_result) : list (list Q) := snd r.

(** The energy intervals of a list of edges: the consecutive pairs. *)
Fixpoint windows (edges : list Q) : list (list Q) :=
  match edges with
  | [] => []
  | lo :: rest =>
      match rest with
      | [] => []
      | hi :: _ => [lo; hi] :: windows rest
      end
  end.

(** [sub] is [l] with some entries left out, the others in order. *)
Inductive subseq {A : Type} : list A -> list A -> Prop :=
| subseq_nil : subseq [] []
| subseq_skip (x : A) (sub l : list A) : subseq sub l -> subseq sub (x :: l)
| subseq_take (x : A) (sub l : list A) : subseq sub l -> subseq (x :: sub) (x :: l).

(** The cell edge [i] along an axis with the centres [l], as
    calculateGrid3D places it: half the spacing to the next centre below
    centre [i]; for the last centre half the spacing to the previous one;
    and the closing edge the same half spacing above the last centre. *)
Definition cell_edge (l : list Q) (i : nat) : Q :=
  let n := List.length l in
  if (i <? n - 1)%nat then nth i l 0 - (1 # 2) * (nth (S i) l 0 - nth i l 0)
  else if (i =? n - 1)%nat then nth i l 0 - (1 # 2) * (nth i l 0 - nth (i - 1) l 0)
  else nth (n - 1) l 0 + (1 # 2) * (nth (n - 1) l 0 - nth (n - 2) l 0).

(** Half the spacing of the centres [X] along [ax] at the index [p]: to
    the next centre, and for the last index to the previous one. *)
Definition half_spacing (ax : Grid.axis) (X : Grid.arr3) (p : nat * nat * nat) : Q :=
  let n := Grid.get ax (Grid.sh X) in
  (1 # 2) * (if (Grid.get ax p <? n - 1)%nat then Grid.val (Grid.diff ax X) p
             else Grid.val (Grid.diff ax X) (Grid.set ax (n - 2)%nat p)).

(** [e] holds the cell edges of the centres [l]. *)
Definition edges_of (l e : list Q) : Prop :=
  List.length e = S (List.length l)
  /\ forall i, (i <= List.length l)%nat -> nth i e 0 == cell_edge l i.

Definition equally_spaced (d : Q) (l : list Q) : Prop :=
  forall i, (S i < List.length l)%nat -> nth (S i) l 0 - nth i l 0 == d.

(** Every centre of [l] is the midpoint of its cell between two edges of
    [e], and the cell is [d] wide. *)
Definition centred_cells (d : Q) (l e : list Q) : Prop :=
  forall i, (i < List.length l)%nat ->
    nth i e 0 == nth i l 0 - d / 2 /\ nth (S i) e 0 == nth i l 0 + d / 2.

(** [np.sum] of a 3-D array. *)
Definition total3 (A : Grid.arr3) : Q :=
  let '(n0, n1, n2) := Grid.sh A in
  Np.sum (map (fun i =>
     Np.sum (map (fun j =>
        Np.sum (map (fun k => Grid.val A (i, j, k)) (seq 0 n2))) (seq 0 n1))) (seq 0 n0)).

(** A point is counted by the 3-D histogram when it has a bin on every
    axis. *)
Definition has_bin3 (e0 e1 e2 : list Q) (p : Q * Q * Q) : bool :=
  has_bin e0 (fst (fst p)) && has_bin e1 (snd (fst p)) && has_bin e2 (snd p).

(** A whole number. *)
Definition integral (x : Q) : Prop := exists z : Z, x == inject_Z z.

(** An array whose dtype is int64 holds whole numbers. *)
Definition well_typed (t : Grid.tarray) : Prop :=
  Grid.dt t = Grid.int64 -> Forall integral (Grid.values t).

(** [np.histogramdd] takes its weights as float64 numbers and adds them as
    such.  float64 holds every whole number up to 2^53 in absolute value,
    so the sums it forms of the entries of an int64 array are the exact
    ones when the absolute values of the array sum to at most 2^53; beyond
    that they are rounded.  (Arrays of floats follow the convention of the
    file.) *)
Definition float64_exact (t : Grid.tarray) : Prop :=
  Grid.dt t = Grid.int64 -> Np.sum (map Qabs (Grid.values t)) <= inject_Z (2 ^ 53).

(** The array holds at least two different values. *)
Definition two_values (a : list Q) : Prop :=
  exists x y, In x a /\ In y a /\ ~ x == y.

(** The variables [uindex], [mask] and [doubleIndex] of the merge step of
    plotA3A4, as functions of the points of all files. *)
Definition uindex (PosAll : list point) : list nat :=
  map A3A4.u_index (A3A4.unique_cols PosAll).

Definition dup_mask (PosAll : list point) : list bool :=
  map (fun k => negb (existsb (Nat.eqb k) (uindex PosAll))) (seq 0 (List.length PosAll)).

Definition doubleIndex (PosAll : list point) (binningDecimals : nat) : list nat :=
  map (fun p => A3A4.kdtree_query (map A3A4.u_col (A3A4.unique_cols PosAll))
                  ((1 / inject_Z (10 ^ Z.of_nat binningDecimals)) * (11 # 10))
                  (A3A4.round_dec binningDecimals (fst p),
                   A3A4.round_dec binningDecimals (snd p)))
      (Np.compress (dup_mask PosAll) PosAll).

(** ** The powder cut: cutPowder *)

(** [a.astype(d)] for a 1-D array. *)
Definition astype1 (d : Grid.dtype) (a : list Q) : list Q :=
  match d with
  | Grid.int64 => map Np.as_int64 a
  | Grid.float64 => a
  end.

(** The outputs of [cutPowder]: the four lists of per-slice histograms
    [[intensity, monitorCount, Normalization, NormCount]] and the per-slice
    bin edges [qbins]. *)
Definition powder_result : Type :=
  ((list (list Q) * list (list Q) * list (list Q) * list (list Q)) * list (list Q))%type.

Section Powder.

Variable fsqrt : Q -> Q.

(** The loop body of [cutPowder] for the energies in the half-open window
    from [Elo] (excluded) to [Ehi] (included). *)
Definition cutPowder_step (positions : positions_t) (I Norm Monitor : Grid.tarray)
    (qMinBin : Q) (acc : powder_result) (Elo Ehi : Q) : res powder_result :=
  let '(qx, qy, energy) := positions in
  let '((intensity, monitorCount, Normalization, NormCount), qbins) := acc in
  let q := map (linalg_norm fsqrt) (combine qx qy) in
  let e_inside := map (fun e => Np.ltb Elo e && Np.leb e Ehi) energy in
  let q_inside := Np.compress e_inside q in
  let bins := Tools.binEdges q_inside qMinBin in
  hI <- Np.histogram q_inside bins (Np.compress e_inside (Grid.values I)) ;;
  hM <- Np.histogram q_inside bins (Np.compress e_inside (Grid.values Monitor)) ;;
  hN <- Np.histogram q_inside bins (Np.compress e_inside (Grid.values Norm)) ;;
  hC <- Np.histogram q_inside bins
          (Np.ones (List.length (Np.compress e_inside (Grid.values I)))) ;;
  Ok ((intensity ++ [astype1 (Grid.dt I) hI],
       monitorCount ++ [astype1 (Grid.dt Monitor) hM],
       Normalization ++ [astype1 (Grid.dt Norm) hN],
       NormCount ++ [astype1 (Grid.dt I) hC]),
      qbins ++ [bins]).

(** The loop [for i in range(len(EBinEdges)-1)]. *)
Fixpoint cutPowder_loop (positions : positions_t) (I Norm Monitor : Grid.tarray)
    (qMinBin : Q) (acc : powder_result) (EBinEdges : list Q) : res powder_result :=
  match EBinEdges with
  | [] => Ok acc
  | Elo :: rest =>
      match rest with
      | [] => Ok acc
      | Ehi :: _ =>
          acc' <- cutPowder_step positions I Norm Monitor qMinBin acc Elo Ehi ;;
          cutPowder_loop positions I Norm Monitor qMinBin acc' rest
      end
  end.

Definition cutPowder (positions : positions_t) (I Norm Monitor : Grid.tarray)
    (EBinEdges : list Q) (qMinBin : Q) : res powder_result :=
  cutPowder_loop positions I Norm Monitor qMinBin (([], [], [], []), []) EBinEdges.

End Powder.

(** The energy window of one slice of the powder cut: open below, closed
    above. *)
Definition in_window (Elo Ehi : Q) (g : Q * Q * Q) : bool :=
  Np.ltb Elo (snd g) && Np.leb (snd g) Ehi.

(** The length of the scattering vector of a point. *)
Definition qlength (fsqrt : Q -> Q) (g : Q * Q * Q) : Q := linalg_norm fsqrt (fst g).

(** What one slice of the powder cut holds, for the window [win] of the
    point cloud [Z]: histograms over one set of bin edges whose totals are
    the totals over the points of the window. *)
Definition powder_slice (Z : list row) (win : list Q)
    (s : list Q * list Q * list Q * list Q * list Q) : Prop :=
  let '(int, mon, nor, cnt, bins) := s in
  let S := filter (fun z => in_window (nth 0 win 0) (nth 1 win 0) (xye z)) Z in
  List.length int = (List.length bins - 1)%nat
  /\ List.length mon = List.length int /\ List.length nor = List.length int
  /\ List.length cnt = List.length int
  /\ Np.sum int == Np.sum (map rI S)
  /\ Np.sum mon == Np.sum (map rM S)
  /\ Np.sum nor == Np.sum (map rN S)
  /\ Np.sum cnt == inject_Z (Z.of_nat (List.length S)).

(** The accumulators of the powder cut after the slices [sl] were
    appended. *)
Definition add_slices (acc : powder_result)
    (sl : list (list Q * list Q * list Q * list Q * list Q)) : powder_result :=
  let '((intensity, monitorCount, Normalization, NormCount), qbins) := acc in
  ((intensity ++ map (fun s => fst (fst (fst (fst s)))) sl,
    monitorCount ++ map (fun s => snd (fst (fst (fst s)))) sl,
    Normalization ++ map (fun s => snd (fst (fst s))) sl,
    NormCount ++ map (fun s => snd (fst s)) sl),
   qbins ++ map (fun s => snd s) sl).

(** ** Helpers of the plotting code: figureRowColumns, centeroidnp *)

(** An argument of [str.format] in the messages of the file handling. *)
Inductive pyarg : Type :=
| AStr (s : string)
| ABools (l : list bool).

(** The exceptions of the code around the kernels: an [AttributeError]
    with its format string and arguments, the [UnboundLocalError] Python
    raises when a local name is read before any assignment to it, and the
    exceptions of the kernels. *)
Inductive pyexn : Type :=
| PyAttributeError (message : string) (args : list pyarg)
| UnboundLocalError (name : string)
| Kernel (e : exn).

Inductive outcome (A : Type) : Type :=
| Returns (a : A)
| Raises (e : pyexn).
Arguments Returns {A} a.
Arguments Raises {A} e.

Definition obind {A B : Type} (m : outcome A) (k : A -> outcome B) : outcome B :=
  match m with
  | Returns a => k a
  | Raises e => Raises e
  end.

Notation "x <~ m ;; k" := (obind m (fun x => k))
  (at level 61, m at next level, right associativity).

(** [int(np.ceil(np.sqrt(n)))] for a whole number [n]: the square root is
    exact on perfect squares and lies strictly between two whole numbers
    otherwise. *)
Definition ceil_sqrt (n : Z) : Z :=
  let r := Z.sqrt n in
  if (r * r =? n)%Z then r else (r + 1)%Z.

(** [int(np.ceil(n/i))]. *)
Definition ceil_div (n i : Z) : Z := Qceiling (inject_Z n / inject_Z i).

(** [np.arange(a, b, dtype=int)]. *)
Definition arange (a b : Z) : list Z :=
  map (fun k => (a + Z.of_nat k)%Z) (seq 0 (Z.to_nat (b - a))).

(** The loop of [figureRowColumns]: the first candidate number of columns
    [i] with [i*ceil(n/i) >= n] fixes [(rows, cols)]; when the loop ends
    without a [break] the two names stay unassigned. *)
Fixpoint first_fit (n : Z) (candidates : list Z) : option (Z * Z) :=
  match candidates with
  | [] => None
  | i :: rest =>
      if (n <=? i * ceil_div n i)%Z then Some (ceil_div n i, i)
      else first_fit n rest
  end.

Definition figureRowColumns (subplots : Z) : outcome (Z * Z) :=
  if (subplots <? 1)%Z
  then Raises (PyAttributeError "Negative or zero number of subplots requiested." [])
  else if (subplots =? 1)%Z then Returns (1, 1)%Z
  else
    let startGuess := ceil_sqrt subplots in
    match first_fit subplots (arange startGuess (subplots + 1)) with
    | Some rc => Returns rc
    | None => Raises (UnboundLocalError "rows")
    end.

(** [np.sum(arr, axis=0)] of a 2-D array with at least one row. *)
Definition col_sums (arr : list (list Q)) : list Q :=
  match arr with
  | [] => []
  | r :: rest => fold_left A3A4.row_add rest r
  end.

(** [centeroidnp]: the mean of the rows.  (For an array without rows numpy
    divides by zero and returns NaNs; the properties below are stated for
    arrays with rows.) *)
Definition centeroidnp (arr : list (list Q)) : list Q :=
  let length := List.length arr in
  let Totsum := col_sums arr in
  map (fun s => s / inject_Z (Z.of_nat length)) Totsum.

(** The scalar product of two vectors of one length. *)
Definition dot (a p : list Q) : Q :=
  Np.sum (map (fun xy => fst xy * snd xy) (combine a p)).

(** ** The file arguments: isListOfStrings, isListOfDataFiles *)

Section Files.

(** The sample of a data file and its [==]; the class is outside the
    repository. *)
Variable Sample : Type.
Variable sample_eq : Sample -> Sample -> bool.

(** What the code reads of a [DataFile.DataFile] object. *)
Record DataFile : Type := mkDataFile {
  fileLocation : string;
  type : string;
  sample : Sample
}.

(** One Python value as the file arguments hold it: a string, a
    DataFile, or anything else ([None], a number, a nested list, ...). *)
Inductive pyitem : Type :=
| PStr (s : string)
| PFile (f : DataFile)
| POther.

(** A file argument: one value, or a list of values. *)
Inductive pyval : Type :=
| Single (v : pyitem)
| PList (items : list pyitem).

(** The line break of the messages. *)
Definition nl : string := String (ascii_of_nat 10) EmptyString.

(** [os.path.isfile] and the constructor [DataFile.DataFile(path)]. *)
Variable isfile : string -> bool.
Variable DataFile_init : string -> outcome DataFile.

Definition not_strings : pyexn :=
  PyAttributeError "Data files provided are not a list of strings or string!" [].

(** The loop of [isListOfStrings] over the items of a list: [None] when an
    item is not a string. *)
Fixpoint all_strings (items : list pyitem) : option (list string) :=
  match items with
  | [] => Some []
  | PStr s :: rest =>
      match all_strings rest with
      | Some l => Some (s :: l)
      | None => None
      end
  | _ :: _ => None
  end.

Definition isListOfStrings (object : pyval) : outcome (list string) :=
  match object with
  | PList items =>
      match all_strings items with
      | Some l => Returns l
      | None => Raises not_strings
      end
  | Single (PStr s) => Returns [s]
  | Single _ => Raises not_strings
  end.

(** The loop of [isListOfDataFiles] over the items of a list: a DataFile
    is kept, a string is checked to name a file and opened, anything else
    is passed over. *)
Fixpoint collect (items : list pyitem) : outcome (list DataFile) :=
  match items with
  | [] => Returns []
  | PFile f :: rest => l <~ collect rest ;; Returns (f :: l)
  | PStr s :: rest =>
      if negb (isfile s)
      then Raises (PyAttributeError ("Following file do not exist:" ++ nl ++ "{}") [AStr s])
      else f <~ DataFile_init s ;; l <~ collect rest ;; Returns (f :: l)
  | _ :: rest => collect rest
  end.

Definition isListOfDataFiles (inputFiles : pyval) : outcome (list DataFile) :=
  returnList <~ match inputFiles with
                | PList items => collect items
                | Single (PFile f) => Returns [f]
                | Single (PStr s) => f <~ DataFile_init s ;; Returns [f]
                | Single POther =>
                    Raises (PyAttributeError
                              "File provided is not of type string, list, or DataFile" [])
                end ;;
  match returnList with
  | f0 :: _ :: _ =>
      let sameSample := map (fun file => sample_eq (sample f0) (sample file)) returnList in
      if negb (forallb (fun b => b) sameSample)
      then Raises (PyAttributeError
                     "Files does not have the same sample! Compared to first entry: {}"
                     [ABools sameSample])
      else Returns returnList
  | _ => Returns returnList
  end.

(** The items of a list that [isListOfDataFiles] does not pass over. *)
Definition is_file_or_str (v : pyitem) : bool :=
  match v with
  | PStr _ | PFile _ => true
  | _ => false
  end.

End Files.

Arguments PStr {Sample} s.
Arguments PFile {Sample} f.
Arguments POther {Sample}.
Arguments Single {Sample} v.
Arguments PList {Sample} items.
Arguments fileLocation {Sample} d.
Arguments type {Sample} d.
Arguments sample {Sample} d.

(** ** The DataSet object: its file lists and convertDataFile *)

(** [s.split(sep)[-1]]: what follows the last [sep] in [s], all of [s]
    when it holds none. *)
Fixpoint split_last_from (sep : ascii) (acc s : string) : string :=
  match s with
  | EmptyString => acc
  | String c s' =>
      if Ascii.eqb c sep then split_last_from sep EmptyString s'
      else split_last_from sep (acc ++ String c EmptyString) s'
  end.

Definition split_last (sep : ascii) (s : string) : string :=
  split_last_from sep EmptyString s.

(** [s[-1]], raising IndexError on an empty string. *)
Fixpoint last_char (s : string) : outcome ascii :=
  match s with
  | EmptyString => Raises (Kernel IndexError)
  | String c EmptyString => Returns c
  | String _ s' => last_char s'
  end.

(** [s.replace(old, new)] for a non-empty [old]: the occurrences of [old]
    from the left, not overlapping; [n] bounds the characters still to
    read. *)
Fixpoint replace_upto (n : nat) (old new s : string) : string :=
  match n with
  | O => s
  | S n' =>
      match s with
      | EmptyString => EmptyString
      | String c s' =>
          if String.prefix old s
          then (new ++ replace_upto n' old new
                         (String.substring (String.length old)
                                           (String.length s - String.length old) s))%string
          else String c (replace_upto n' old new s')
      end
  end.

Definition replace (old new s : string) : string :=
  replace_upto (String.length s) old new s.

(** [os.path.isabs] on a POSIX system. *)
Definition isabs (s : string) : bool := String.prefix "/" s.

Section DataSetObject.

Variable Sample : Type.
Variable sample_eq : Sample -> Sample -> bool.
Variable isfile : string -> bool.
Variable DataFile_init : string -> outcome (DataFile Sample).

(** The arrays [DataFile.extractData] returns, the conversion
    [rawfile.convert(binning)] and the writer [convFile.saveNXsqom(path)]:
    all outside the repository. *)
Variable Data : Type.
Variable extractData : list (DataFile Sample) -> outcome Data.
Variable convert : DataFile Sample -> Z -> outcome (DataFile Sample).
Variable saveNXsqom : DataFile Sample -> string -> outcome unit.

(** The attributes of a [DataSet] object that its file handling reads and
    writes; [extracted] is the data [_getData] stored last. *)
Record DataSetObj : Type := mkObj {
  _dataFiles : list (DataFile Sample);
  _convertedFiles : list (DataFile Sample);
  _normalizationfiles : list string;
  _calibrationfiles : list string;
  extracted : option Data;
  obj_sample : option Sample
}.

Definition is_type (t : string) (f : DataFile Sample) : bool := String.eqb (type f) t.

(** [_getData]. *)
Definition _getData (self : DataSetObj) : outcome DataSetObj :=
  d <~ (if negb (List.length (_convertedFiles self) =? 0)%nat
        then extractData (_convertedFiles self)
        else extractData (_dataFiles self)) ;;
  Returns (mkObj (_dataFiles self) (_convertedFiles self) (_normalizationfiles self)
                 (_calibrationfiles self) (Some d) (obj_sample self)).

(** The two list comprehensions shared by the setters of [dataFiles] and
    [convertedFiles]: the hdf files are appended to the data files, the nxs
    files to the converted files. *)
Definition append_by_type (self : DataSetObj) (files : list (DataFile Sample)) : DataSetObj :=
  mkObj (_dataFiles self ++ filter (is_type "hdf") files)
        (_convertedFiles self ++ filter (is_type "nxs") files)
        (_normalizationfiles self) (_calibrationfiles self)
        (extracted self) (obj_sample self).

(** [self.dataFiles = dataFiles]. *)
Definition set_dataFiles (self : DataSetObj) (dataFiles : pyval Sample) : outcome DataSetObj :=
  correctDataFiles <~ isListOfDataFiles Sample sample_eq isfile DataFile_init dataFiles ;;
  Returns (append_by_type self correctDataFiles).

(** [self.convertedFiles = convertedFiles]. *)
Definition set_convertedFiles (self : DataSetObj) (convertedFiles : pyval Sample)
  : outcome DataSetObj :=
  correctDataFiles <~ isListOfDataFiles Sample sample_eq isfile DataFile_init convertedFiles ;;
  _getData (append_by_type self correctDataFiles).

(** [self.normalizationfiles = ...] and [self.calibrationfiles = ...]. *)
Definition set_normalizationfiles (self : DataSetObj) (files : pyval Sample)
  : outcome DataSetObj :=
  l <~ isListOfStrings Sample files ;;
  Returns (mkObj (_dataFiles self) (_convertedFiles self) l (_calibrationfiles self)
                 (extracted self) (obj_sample self)).

Definition set_calibrationfiles (self : DataSetObj) (files : pyval Sample)
  : outcome DataSetObj :=
  l <~ isListOfStrings Sample files ;;
  Returns (mkObj (_dataFiles self) (_convertedFiles self) (_normalizationfiles self) l
                 (extracted self) (obj_sample self)).

(** [DataSet.__init__] (without the settings). *)
Definition DataSet_init (dataFiles normalizationfiles calibrationfiles convertedFiles
                         : option (pyval Sample)) : outcome DataSetObj :=
  let self := mkObj [] [] [] [] None None in
  self <~ match dataFiles with
          | None => Returns self
          | Some v => s <~ set_dataFiles self v ;; _getData s
          end ;;
  self <~ match normalizationfiles with
          | None => Returns self
          | Some v => set_normalizationfiles self v
          end ;;
  self <~ match convertedFiles with
          | None => Returns self
          | Some v => s <~ set_convertedFiles self v ;; _getData s
          end ;;
  self <~ match calibrationfiles with
          | None => Returns self
          | Some v => set_calibrationfiles self v
          end ;;
  let sample' :=
    match _convertedFiles self, _dataFiles self with
    | f :: _, _ => Some (sample f)
    | [], f :: _ => Some (sample f)
    | [], [] => obj_sample self
    end in
  Returns (mkObj (_dataFiles self) (_convertedFiles self) (_normalizationfiles self)
                 (_calibrationfiles self) (extracted self) sample').

(** The path a converted file is saved to, and [saveLocation] after the
    statement [saveLocation+='/']. *)
Definition save_path (saveLocation : option string) (rawfile : DataFile Sample)
  : outcome (string * option string) :=
  match saveLocation with
  | Some loc =>
      let named (loc : string) : outcome (string * option string) :=
        if negb (String.eqb (split_last "." loc) "nxs") then
          c <~ last_char loc ;;
          let loc' := if negb (Ascii.eqb c "/") then (loc ++ "/")%string else loc in
          Returns ((loc' ++ split_last "/" (replace ".hdf" ".nxs" (fileLocation rawfile)))%string,
                   Some loc')
        else Returns (loc, Some loc) in
      if negb (isabs loc) then named loc else named loc
  | None => Returns (replace ".hdf" ".nxs" (fileLocation rawfile), None)
  end.

(** The loop of [convertDataFile] over the raw files, with the files
    written so far: [(path, file)] for each call of [saveNXsqom]. *)
Fixpoint convert_loop (files : list (DataFile Sample)) (binning : Z)
    (saveLocation : option string) (saveFile : bool)
    (convertedFiles : list (DataFile Sample)) (written : list (string * DataFile Sample))
  : outcome (list (DataFile Sample)) * list (string * DataFile Sample) :=
  match files with
  | [] => (Returns convertedFiles, written)
  | rawfile :: rest =>
      match convert rawfile binning with
      | Raises e => (Raises e, written)
      | Returns convFile =>
          if saveFile then
            match save_path saveLocation rawfile with
            | Raises e => (Raises e, written)
            | Returns (saveloc, saveLocation') =>
                match saveNXsqom convFile saveloc with
                | Raises e => (Raises e, written)
                | Returns _ =>
                    convert_loop rest binning saveLocation' saveFile
                                 (convertedFiles ++ [convFile])
                                 (written ++ [(saveloc, convFile)])
                end
            end
          else convert_loop rest binning saveLocation saveFile
                            (convertedFiles ++ [convFile]) written
      end
  end.

(** [convertDataFile]: the outcome (the object after the call) and the
    files written.  The [dataFiles] argument is checked and then replaced
    by [self.dataFiles]. *)
Definition convertDataFile (self : DataSetObj) (dataFiles : option (pyval Sample))
    (binning : Z) (saveLocation : option string) (saveFile : bool)
  : outcome DataSetObj * list (string * DataFile Sample) :=
  let checked : outcome unit :=
    match dataFiles with
    | None =>
        if (List.length (_dataFiles self) =? 0)%nat
        then Raises (PyAttributeError
               "No data files file provided either through input of in the DataSet object." [])
        else Returns tt
    | Some v =>
        _ <~ isListOfDataFiles Sample sample_eq isfile DataFile_init v ;; Returns tt
    end in
  match checked with
  | Raises e => (Raises e, [])
  | Returns _ =>
      let dataFiles := _dataFiles self in
      match convert_loop dataFiles binning saveLocation saveFile [] [] with
      | (Raises e, written) => (Raises e, written)
      | (Returns convertedFiles, written) =>
          (self <~ set_convertedFiles self (PList (map PFile convertedFiles)) ;;
           _getData self,
           written)
      end
  end.

End DataSetObject.

(** ** The return statement of cutQELine *)

Section PathArrays.

(** [np.array] of a nested list of arrays builds a regular array when all
    shapes agree and otherwise, depending on the shapes and on the version
    of numpy, an array of objects or a ValueError.  These rules are
    numpy's: [np_array_raises] gives the exception [np.array] raises on a
    list, if any.  An array that is built holds the entries of the list in
    their order. *)
Variable np_array_raises : forall A : Type, list A -> option exn.

Definition np_array {A : Type} (l : list A) : res (list A) :=
  match np_array_raises A l with
  | Some e => Raise e
  | None => Ok l
  end.

Variable fsqrt : Q -> Q.
Variable tr : list Q -> list Q.

(** [DataSet.cutQELine] with its return statement: [cutQELine] builds the
    four lists, and the method returns [np.array] of each, converted from
    left to right. *)
Definition DataSet_cutQELine (self : DataSet) (QPoints : list (list Q))
    (EnergyBins : list Q) (width minPixel : Q) (format : string) (dataFiles : option DataSet)
  : res line_result :=
  r <- cutQELine fsqrt tr self QPoints EnergyBins width minPixel format dataFiles ;;
  let '(DataList, BinList, centerPosition, binDistance) := r in
  DataList <- np_array DataList ;;
  BinList <- np_array BinList ;;
  centerPosition <- np_array centerPosition ;;
  binDistance <- np_array binDistance ;;
  Ok (DataList, BinList, centerPosition, binDistance).

End PathArrays.

(** A data set with one converted file holding two points on the segment
    from (0,0) to (1,0) and two on the segment from (1,0) to (1,1), all at
    energy 1/2. *)
Definition two_segment_set : DataSet :=
  mkDataSet 1 [[3; 4; 5; 6]] [[1 # 4; 3 # 4; 1; 1]] [[0; 0; 1 # 4; 3 # 4]]
            [[1 # 2; 1 # 2; 1 # 2; 1 # 2]] [[1; 1; 1; 1]] [[10; 10; 10; 10]].

(** * Properties *)

(** ** Comparisons, sums and masks *)

(** Linear arithmetic over [Q] after turning the divisions by 2 and 3 into
    multiplications. *)
Ltac qlra :=
  unfold Qdiv in *;
  change (/ 2) with (1 # 2) in *;
  change (/ 3) with (1 # 3) in *;
  change (/ 4) with (1 # 4) in *;
  lra.

Lemma leb_le (x y : Q) : Np.leb x y = true <-> x <= y.
Proof. unfold Np.leb. apply Qle_bool_iff. Qed.

Lemma leb_gt (x y : Q) : Np.leb x y = false <-> y < x.
Proof.
  unfold Np.leb. split; intro H.
  - apply Qnot_le_lt. intro Hle. apply Qle_bool_iff in Hle. congruence.
  - destruct (Qle_bool x y) eqn:E; [|reflexivity].
    apply Qle_bool_iff in E. exfalso. apply (Qlt_not_le _ _ H E).
Qed.

Lemma ltb_lt (x y : Q) : Np.ltb x y = true <-> x < y.
Proof.
  unfold Np.ltb. rewrite negb_true_iff. apply (leb_gt y x).
Qed.

Lemma ltb_ge (x y : Q) : Np.ltb x y = false <-> y <= x.
Proof.
  unfold Np.ltb. rewrite negb_false_iff. apply (leb_le y x).
Qed.

Lemma eqb_eq (x y : Q) : Np.eqb x y = true <-> x == y.
Proof. unfold Np.eqb. apply Qeq_bool_iff. Qed.

Lemma eqb_neq (x y : Q) : Np.eqb x y = false <-> ~ x == y.
Proof.
  split; intro H.
  - intro E. apply eqb_eq in E. congruence.
  - destruct (Np.eqb x y) eqn:E; [|reflexivity]. apply eqb_eq in E. contradiction.
Qed.

Lemma sum_app (a b : list Q) : Np.sum (a ++ b) == Np.sum a + Np.sum b.
Proof.
  induction a as [|x a IH]; simpl.
  - ring.
  - rewrite IH. ring.
Qed.

Lemma compress_map {A B : Type} (f : A -> bool) (g : A -> B) (l : list A) :
  Np.compress (map f l) (map g l) = map g (filter f l).
Proof.
  induction l as [|x l IH]; simpl; [reflexivity|].
  destruct (f x); simpl; rewrite IH; reflexivity.
Qed.

Lemma count_true_map {A : Type} (f : A -> bool) (l : list A) :
  Np.count_true (map f l) = List.length (filter f l).
Proof.
  unfold Np.count_true.
  induction l as [|x l IH]; simpl; [reflexivity|].
  destruct (f x); simpl; rewrite IH; reflexivity.
Qed.

Lemma compress_all_true {A : Type} (mask : list bool) (a : list A) :
  List.length mask = List.length a ->
  forallb (fun b => b) mask = true ->
  Np.compress mask a = a.
Proof.
  revert a. induction mask as [|b mask IH]; intros [|x a] Hlen Hall; simpl in *;
    try reflexivity; try discriminate.
  apply andb_true_iff in Hall. destruct Hall as [Hb Hall]. subst b.
  f_equal. apply IH; [lia | assumption].
Qed.

(** ** Sorting and bin edges *)

Lemma monotone_cons (x y : Q) (l : list Q) :
  Np.monotone (x :: y :: l) = true <-> x <= y /\ Np.monotone (y :: l) = true.
Proof.
  change (Np.monotone (x :: y :: l)) with (Np.leb x y && Np.monotone (y :: l)).
  rewrite andb_true_iff, leb_le. reflexivity.
Qed.

Lemma monotone_head_le (x : Q) (l : list Q) :
  Np.monotone (x :: l) = true -> forall y, In y l -> x <= y.
Proof.
  revert x. induction l as [|z l IH]; intros x Hm y Hin; [contradiction|].
  apply monotone_cons in Hm. destruct Hm as [Hxz Hm].
  destruct Hin as [->|Hin]; [assumption|].
  apply Qle_trans with z; [assumption|]. apply IH; assumption.
Qed.

Lemma monotone_le_last (l : list Q) (d : Q) :
  Np.monotone l = true -> forall y, In y l -> y <= last l d.
Proof.
  induction l as [|x l IH]; intros Hm y Hin; [contradiction|].
  destruct l as [|z l].
  - destruct Hin as [->|[]]. simpl. apply Qle_refl.
  - apply monotone_cons in Hm. destruct Hm as [Hxz Hm].
    change (last (x :: z :: l) d) with (last (z :: l) d).
    destruct Hin as [->|Hin].
    + apply Qle_trans with z; [assumption|]. apply IH; [assumption | left; reflexivity].
    + apply IH; assumption.
Qed.

Lemma insert_In (x y : Q) (l : list Q) : In y (Np.insert x l) <-> y = x \/ In y l.
Proof.
  induction l as [|z l IH]; simpl.
  - intuition.
  - destruct (Np.leb x z); simpl; [intuition|]. rewrite IH. intuition.
Qed.

Lemma sort_In (y : Q) (l : list Q) : In y (Np.sort l) <-> In y l.
Proof.
  induction l as [|x l IH]; simpl; [reflexivity|].
  rewrite insert_In, IH. intuition.
Qed.

Lemma insert_monotone (x : Q) (l : list Q) :
  Np.monotone l = true -> Np.monotone (Np.insert x l) = true.
Proof.
  induction l as [|z l IH]; intro Hm; [reflexivity|].
  simpl. destruct (Np.leb x z) eqn:E.
  - apply monotone_cons. split; [apply leb_le; assumption | assumption].
  - apply leb_gt in E.
    destruct l as [|w l].
    + simpl. rewrite andb_true_r. apply leb_le. apply Qlt_le_weak. assumption.
    + apply monotone_cons in Hm. destruct Hm as [Hzw Hm].
      specialize (IH Hm). simpl in IH |- *.
      destruct (Np.leb x w) eqn:E2.
      * apply monotone_cons. split; [apply Qlt_le_weak; assumption | assumption].
      * apply monotone_cons. split; assumption.
Qed.

Lemma sort_monotone (l : list Q) : Np.monotone (Np.sort l) = true.
Proof.
  induction l as [|x l IH]; [reflexivity|]. simpl. apply insert_monotone. assumption.
Qed.

Lemma insert_length (x : Q) (l : list Q) : List.length (Np.insert x l) = S (List.length l).
Proof.
  induction l as [|z l IH]; simpl; [reflexivity|].
  destruct (Np.leb x z); simpl; [reflexivity | rewrite IH; reflexivity].
Qed.

Lemma sort_length (l : list Q) : List.length (Np.sort l) = List.length l.
Proof.
  induction l as [|x l IH]; simpl; [reflexivity|]. rewrite insert_length, IH. reflexivity.
Qed.

Lemma walk_nonempty (t e p : Q) (rest : list Q) : Tools.walk t e p rest <> [].
Proof.
  revert e p. induction rest as [|c rest IH]; intros e p; simpl; [discriminate|].
  destruct (Np.leb t ((p + c) / 2 - e)); [discriminate | apply IH].
Qed.

(** The edges placed by the walk increase, starting above the last edge. *)
Lemma walk_monotone (t : Q) (rest : list Q) :
  0 < t ->
  forall e p, e <= p -> Np.monotone (p :: rest) = true ->
  Np.monotone (e :: Tools.walk t e p rest) = true.
Proof.
  intro Ht. induction rest as [|c rest IH]; intros e p Hep Hm.
  - simpl. rewrite andb_true_r. apply leb_le.
    apply Qle_trans with p; [assumption|]. qlra.
  - apply monotone_cons in Hm. destruct Hm as [Hpc Hm].
    simpl Tools.walk.
    destruct (Np.leb t ((p + c) / 2 - e)) eqn:E.
    + apply leb_le in E.
      apply monotone_cons. split; [qlra|].
      apply IH; [|assumption]. qlra.
    + apply IH; [|assumption]. qlra.
Qed.

(** Every point the walk passes lies below its final edge. *)
Lemma walk_covers (t : Q) (rest : list Q) :
  0 < t ->
  forall e p, Np.monotone (p :: rest) = true ->
  forall y, In y (p :: rest) -> y <= last (Tools.walk t e p rest) 0.
Proof.
  intro Ht. induction rest as [|c rest IH]; intros e p Hm y Hin.
  - destruct Hin as [->|[]]. simpl. qlra.
  - pose proof Hm as Hm0.
    apply monotone_cons in Hm. destruct Hm as [Hpc Hm].
    assert (Hc : forall e', c <= last (Tools.walk t e' c rest) 0).
    { intro e'. apply IH; [assumption | left; reflexivity]. }
    simpl Tools.walk.
    destruct (Np.leb t ((p + c) / 2 - e)) eqn:E.
    + assert (Hl : last ((p + c) / 2 :: Tools.walk t ((p + c) / 2) c rest) 0
                   = last (Tools.walk t ((p + c) / 2) c rest) 0).
      { pose proof (walk_nonempty t ((p + c) / 2) c rest) as Hne.
        destruct (Tools.walk t ((p + c) / 2) c rest); [congruence | reflexivity]. }
      rewrite Hl.
      destruct Hin as [->|Hin].
      * apply Qle_trans with c; [assumption | apply Hc].
      * apply IH; assumption.
    + destruct Hin as [->|Hin].
      * apply Qle_trans with c; [assumption | apply Hc].
      * apply IH; assumption.
Qed.

(** The contract of [binEdges] used by the cuts: for a positive tolerance
    the edges increase, there are at least two of them when there is a
    value, and every value lies between the first and the last edge. *)
Lemma binEdges_contract (values : list Q) (t : Q) :
  0 < t -> values <> [] ->
  let edges := Tools.binEdges values t in
  Np.monotone edges = true /\ (2 <= List.length edges)%nat /\
  forall v, In v values -> hd 0 edges <= v /\ v <= last edges 0.
Proof.
  intros Ht Hne. unfold Tools.binEdges.
  pose proof (sort_monotone values) as Hs.
  pose proof (sort_length values) as Hl.
  pose proof (fun v => sort_In v values) as Hin.
  destruct (Np.sort values) as [|x0 rest] eqn:E.
  - destruct values; [congruence | simpl in Hl; discriminate].
  - cbv zeta. split; [|split].
    + apply walk_monotone; [assumption | qlra | assumption].
    + pose proof (walk_nonempty t (x0 - t / 2) x0 rest) as Hw.
      destruct (Tools.walk t (x0 - t / 2) x0 rest); [congruence | simpl; lia].
    + intros v Hv. apply Hin in Hv. split.
      * simpl. destruct Hv as [->|Hv]; [qlra|].
        pose proof (monotone_head_le _ _ Hs v Hv). qlra.
      * pose proof (walk_nonempty t (x0 - t / 2) x0 rest) as Hw.
        pose proof (walk_covers t rest Ht (x0 - t / 2) x0 Hs v Hv) as Hc.
        destruct (Tools.walk t (x0 - t / 2) x0 rest) eqn:Ew; [congruence|].
        exact Hc.
Qed.

Lemma binEdges_nil (t : Q) : Tools.binEdges [] t = [].
Proof. reflexivity. Qed.

(** ** Histograms *)

Lemma sum_map_ext {A : Type} (f g : A -> Q) (l : list A) :
  (forall x, In x l -> f x == g x) -> Np.sum (map f l) == Np.sum (map g l).
Proof.
  induction l as [|x l IH]; intro H; simpl; [reflexivity|].
  rewrite (H x (or_introl eq_refl)), IH; [reflexivity|].
  intros y Hy. apply H. right. assumption.
Qed.

Lemma sum_map_plus {A : Type} (f g : A -> Q) (l : list A) :
  Np.sum (map (fun x => f x + g x) l) == Np.sum (map f l) + Np.sum (map g l).
Proof.
  induction l as [|x l IH]; simpl; [ring|]. rewrite IH. ring.
Qed.

Lemma sum_map_zero {A : Type} (l : list A) : Np.sum (map (fun _ => 0) l) == 0.
Proof.
  induction l as [|x l IH]; simpl; [reflexivity|]. rewrite IH. ring.
Qed.

(** The sum of an indicator over a range picks the value at the index. *)
Lemma sum_indicator (i0 : nat) (c : Q) (n s : nat) :
  Np.sum (map (fun i => if (i0 =? i)%nat then c else 0) (seq s n))
  == if ((s <=? i0) && (i0 <? s + n))%nat then c else 0.
Proof.
  revert s. induction n as [|n IH]; intro s; simpl.
  - replace (s + 0)%nat with s by lia.
    destruct (s <=? i0)%nat eqn:E1, (i0 <? s)%nat eqn:E2; simpl; try reflexivity.
    apply Nat.leb_le in E1. apply Nat.ltb_lt in E2. lia.
  - rewrite IH.
    destruct (i0 =? s)%nat eqn:E.
    + apply Nat.eqb_eq in E. subst i0.
      assert (E1 : (S s <=? s)%nat = false) by (apply Nat.leb_gt; lia).
      assert (E2 : (s <=? s)%nat = true) by (apply Nat.leb_le; lia).
      assert (E3 : (s <? s + S n)%nat = true) by (apply Nat.ltb_lt; lia).
      rewrite E1, E2, E3. simpl. ring.
    + apply Nat.eqb_neq in E.
      replace (S s + n)%nat with (s + S n)%nat by lia.
      destruct (i0 <? s + S n)%nat eqn:E3.
      * destruct (S s <=? i0)%nat eqn:E1, (s <=? i0)%nat eqn:E2; simpl; try ring;
          [apply Nat.leb_le in E1; apply Nat.leb_gt in E2; lia
          |apply Nat.leb_gt in E1; apply Nat.leb_le in E2; lia].
      * rewrite !andb_false_r. ring.
Qed.

Lemma filter_length_le {A : Type} (f : A -> bool) (l : list A) :
  (List.length (filter f l) <= List.length l)%nat.
Proof.
  induction l as [|x l IH]; simpl; [lia|]. destruct (f x); simpl; lia.
Qed.

Lemma filter_all {A : Type} (f : A -> bool) (l : list A) :
  (forall x, In x l -> f x = true) -> filter f l = l.
Proof.
  induction l as [|x l IH]; intro H; simpl; [reflexivity|].
  rewrite (H x (or_introl eq_refl)). f_equal. apply IH.
  intros y Hy. apply H. right. assumption.
Qed.

Lemma filter_length_lt {A : Type} (f : A -> bool) (l : list A) (x : A) :
  In x l -> f x = false -> (List.length (filter f l) < List.length l)%nat.
Proof.
  induction l as [|y l IH]; intros Hin Hf; [contradiction|].
  simpl. destruct Hin as [->|Hin].
  - rewrite Hf. pose proof (filter_length_le f l). lia.
  - specialize (IH Hin Hf). destruct (f y); simpl; lia.
Qed.

Lemma last_In (l : list Q) (d : Q) : l <> [] -> In (last l d) l.
Proof.
  induction l as [|x l IH]; intro H; [congruence|].
  destruct l as [|y l]; [left; reflexivity|].
  right. apply IH. discriminate.
Qed.

(** A bin found by [bin_of] is one of the [len(edges)-1] bins. *)
Lemma bin_of_range (edges : list Q) (v : Q) (i : nat) :
  Np.bin_of edges v = Some i -> (i < List.length edges - 1)%nat.
Proof.
  unfold Np.bin_of, Np.searchsorted_right.
  pose proof (filter_length_le (fun e => Np.leb e v) edges) as Hle.
  set (c := List.length (filter (fun e => Np.leb e v) edges)) in *.
  destruct (Np.eqb v (last edges 0)).
  - destruct ((c - 1 =? 0)%nat || (c - 1 =? List.length edges)%nat) eqn:E; [discriminate|].
    apply orb_false_iff in E. destruct E as [E1 E2].
    apply Nat.eqb_neq in E1. apply Nat.eqb_neq in E2.
    intro H. injection H as <-. lia.
  - destruct ((c =? 0)%nat || (c =? List.length edges)%nat) eqn:E; [discriminate|].
    apply orb_false_iff in E. destruct E as [E1 E2].
    apply Nat.eqb_neq in E1. apply Nat.eqb_neq in E2.
    intro H. injection H as <-. lia.
Qed.

(** A value between the first and the last of at least two increasing
    edges has a bin: nothing inside the edges is dropped. *)
Lemma bin_of_inside (edges : list Q) (v : Q) :
  Np.monotone edges = true -> (2 <= List.length edges)%nat ->
  hd 0 edges <= v -> v <= last edges 0 ->
  exists i, Np.bin_of edges v = Some i.
Proof.
  intros Hm Hlen Hlo Hhi.
  unfold Np.bin_of, Np.searchsorted_right.
  destruct edges as [|e0 rest]; [simpl in Hlen; lia|].
  assert (Hc1 : (1 <= List.length (filter (fun e => Np.leb e v) (e0 :: rest)))%nat).
  { simpl. simpl in Hlo. apply leb_le in Hlo. rewrite Hlo. simpl. lia. }
  set (c := List.length (filter (fun e => Np.leb e v) (e0 :: rest))) in *.
  destruct (Np.eqb v (last (e0 :: rest) 0)) eqn:E.
  - apply eqb_eq in E.
    assert (Hall : filter (fun e => Np.leb e v) (e0 :: rest) = e0 :: rest).
    { apply filter_all. intros x Hx. apply leb_le.
      rewrite E. apply monotone_le_last; assumption. }
    assert (Hc : c = List.length (e0 :: rest)) by (unfold c; rewrite Hall; reflexivity).
    assert (E1 : (c - 1 =? 0)%nat = false) by (apply Nat.eqb_neq; lia).
    assert (E2 : (c - 1 =? List.length (e0 :: rest))%nat = false) by (apply Nat.eqb_neq; lia).
    rewrite E1, E2. simpl. eexists. reflexivity.
  - apply eqb_neq in E.
    assert (Hlt : (c < List.length (e0 :: rest))%nat).
    { unfold c. apply filter_length_lt with (x := last (e0 :: rest) 0).
      - apply last_In. discriminate.
      - apply leb_gt. apply Qle_lt_or_eq in Hhi. destruct Hhi as [H|H]; [assumption|].
        contradiction. }
    assert (E1 : (c =? 0)%nat = false) by (apply Nat.eqb_neq; lia).
    assert (E2 : (c =? List.length (e0 :: rest))%nat = false) by (apply Nat.eqb_neq; lia).
    rewrite E1, E2. simpl. eexists. reflexivity.
Qed.

Lemma cell_indicator_total (e0 e1 : list Q) (p : Q * Q) (w : Q) :
  Np.sum (map (fun i =>
            Np.sum (map (fun j => if Np.in_cell2 e0 e1 i j p then w else 0)
                        (seq 0 (List.length e1 - 1))))
          (seq 0 (List.length e0 - 1)))
  == if has_bin2 e0 e1 p then w else 0.
Proof.
  unfold Np.in_cell2, has_bin2.
  destruct (Np.bin_of e0 (fst p)) as [i'|] eqn:E0.
  - destruct (Np.bin_of e1 (snd p)) as [j'|] eqn:E1.
    + apply bin_of_range in E0. apply bin_of_range in E1.
      rewrite (sum_map_ext _ (fun i => if (i' =? i)%nat then w else 0)).
      * rewrite sum_indicator.
        assert (H : ((0 <=? i') && (i' <? 0 + (List.length e0 - 1)))%nat = true).
        { apply andb_true_iff. split; [apply Nat.leb_le | apply Nat.ltb_lt]; lia. }
        rewrite H. reflexivity.
      * intros i _. destruct (i' =? i)%nat; simpl.
        -- rewrite sum_indicator.
           assert (H : ((0 <=? j') && (j' <? 0 + (List.length e1 - 1)))%nat = true).
           { apply andb_true_iff. split; [apply Nat.leb_le | apply Nat.ltb_lt]; lia. }
           rewrite H. reflexivity.
        -- apply sum_map_zero.
    + rewrite (sum_map_ext _ (fun _ => 0)); [apply sum_map_zero|].
      intros i _. apply sum_map_zero.
  - rewrite (sum_map_ext _ (fun _ => 0)); [apply sum_map_zero|].
    intros i _. apply sum_map_zero.
Qed.

Lemma cell_weights2_total (e0 e1 : list Q) (l : list ((Q * Q) * Q)) :
  Np.sum (map (fun i =>
            Np.sum (map (fun j =>
                      Np.sum (map snd (filter (fun pw => Np.in_cell2 e0 e1 i j (fst pw)) l)))
                        (seq 0 (List.length e1 - 1))))
          (seq 0 (List.length e0 - 1)))
  == Np.sum (map snd (filter (fun pw => has_bin2 e0 e1 (fst pw)) l)).
Proof.
  induction l as [|[p w] l IH].
  - simpl. rewrite (sum_map_ext _ (fun _ => 0)); [apply sum_map_zero|].
    intros i _. apply sum_map_zero.
  - rewrite (sum_map_ext _
       (fun i =>
          Np.sum (map (fun j => if Np.in_cell2 e0 e1 i j p then w else 0)
                      (seq 0 (List.length e1 - 1)))
          + Np.sum (map (fun j =>
                      Np.sum (map snd (filter (fun pw => Np.in_cell2 e0 e1 i j (fst pw)) l)))
                        (seq 0 (List.length e1 - 1))))).
    + rewrite sum_map_plus, IH, cell_indicator_total.
      simpl. destruct (has_bin2 e0 e1 p); simpl; ring.
    + intros i _. rewrite <- sum_map_plus. apply sum_map_ext.
      intros j _. simpl. destruct (Np.in_cell2 e0 e1 i j p); simpl; ring.
Qed.

(** Conservation: the total of a 2-D histogram is the total weight of the
    sample points that have a bin on both axes. *)
Lemma histogramdd2_total (sample : list (Q * Q)) (e0 e1 w : list Q) (H : list (list Q)) :
  Np.histogramdd2 sample e0 e1 w = Ok H ->
  Np.sum2 H == Np.sum (map snd (filter (fun pw => has_bin2 e0 e1 (fst pw)) (combine sample w))).
Proof.
  unfold Np.histogramdd2.
  destruct (negb (Np.monotone e0 && Np.monotone e1)); [discriminate|].
  destruct (negb (List.length w =? List.length sample)%nat); [discriminate|].
  intro E. injection E as <-.
  unfold Np.sum2, Np.cell_weights2. rewrite map_map.
  apply cell_weights2_total.
Qed.

Lemma histogramdd2_ok (sample : list (Q * Q)) (e0 e1 w : list Q) :
  Np.monotone e0 = true -> Np.monotone e1 = true ->
  List.length w = List.length sample ->
  exists H, Np.histogramdd2 sample e0 e1 w = Ok H /\
            List.length H = (List.length e0 - 1)%nat.
Proof.
  intros H0 H1 Hl. unfold Np.histogramdd2.
  rewrite H0, H1, Hl, Nat.eqb_refl. simpl.
  eexists. split; [reflexivity|]. rewrite length_map, length_seq. reflexivity.
Qed.

Lemma filter_map_comm {A B : Type} (g : A -> B) (P : B -> bool) (l : list A) :
  filter P (map g l) = map g (filter (fun x => P (g x)) l).
Proof.
  induction l as [|x l IH]; simpl; [reflexivity|].
  destruct (P (g x)); simpl; rewrite IH; reflexivity.
Qed.

Lemma filter_filter {A : Type} (P R : A -> bool) (l : list A) :
  filter R (filter P l) = filter (fun x => P x && R x) l.
Proof.
  induction l as [|x l IH]; simpl; [reflexivity|].
  destruct (P x); simpl; [destruct (R x); simpl|]; rewrite IH; reflexivity.
Qed.

Lemma combine_map {A B C : Type} (f : A -> B) (g : A -> C) (l : list A) :
  combine (map f l) (map g l) = map (fun x => (f x, g x)) l.
Proof.
  induction l as [|x l IH]; simpl; [reflexivity|]. rewrite IH. reflexivity.
Qed.

Lemma filter_nil_forall {A : Type} (P : A -> bool) (l : list A) :
  filter P l = [] -> forall x, In x l -> P x = false.
Proof.
  induction l as [|y l IH]; intros H x Hin; [contradiction|].
  simpl in H. destruct (P y) eqn:E; [discriminate|].
  destruct Hin as [->|Hin]; [assumption | apply IH; assumption].
Qed.

Lemma filter_none {A : Type} (P : A -> bool) (l : list A) :
  (forall x, In x l -> P x = false) -> filter P l = [].
Proof.
  induction l as [|y l IH]; intro H; simpl; [reflexivity|].
  rewrite (H y (or_introl eq_refl)). apply IH. intros x Hx. apply H. right. assumption.
Qed.

Lemma filter_ext_in {A : Type} (P R : A -> bool) (l : list A) :
  (forall x, In x l -> P x = R x) -> filter P l = filter R l.
Proof.
  induction l as [|y l IH]; intro H; simpl; [reflexivity|].
  rewrite (H y (or_introl eq_refl)), IH; [reflexivity|].
  intros x Hx. apply H. right. assumption.
Qed.

Lemma bin_of_nil (v : Q) : Np.bin_of [] v = None.
Proof.
  unfold Np.bin_of, Np.searchsorted_right. simpl.
  destruct (Np.eqb v 0); reflexivity.
Qed.

Lemma repeat_map_const {A : Type} (l : list A) :
  Np.ones (List.length l) = map (fun _ => 1) l.
Proof.
  unfold Np.ones. induction l as [|x l IH]; simpl; [reflexivity|]. rewrite IH. reflexivity.
Qed.

(** ** The cut over the rows of the point cloud *)

Section CutRows.

Variable fsqrt : Q -> Q.
Variables q1 q2 : Q * Q.
Variables width minPixel Emin Emax : Q.
Variable extend : bool.

Local Abbreviation along' := (fun z : row => along fsqrt q1 q2 (xye z)).
Local Abbreviation ortho' := (fun z : row => ortho fsqrt q1 q2 (xye z)).
Local Abbreviation cut1D_rows' :=
  (cut1D_rows fsqrt q1 q2 width minPixel Emin Emax extend).

Lemma cut1D_as_rows (Z : list row) :
  cut1D fsqrt (map rx Z, map ry Z, map re Z) (map rI Z) (map rN Z) (map rM Z)
        q1 q2 width minPixel Emin Emax extend = cut1D_rows' Z.
Proof.
  unfold cut1D, cut1D_rows. destruct extend; cbv beta iota zeta;
  unfold energy_mask; rewrite !map_map, count_true_map;
  repeat (first [rewrite compress_map | rewrite combine_map | rewrite map_map
                 | rewrite length_map | rewrite repeat_map_const
                 | rewrite filter_map_comm]).
  - reflexivity.
  - reflexivity.
Qed.

Local Abbreviation sel' := (fun z : row => selected fsqrt q1 q2 Emin Emax extend (xye z)).
Local Abbreviation cnt' Z :=
  (fun z : row => counted fsqrt q1 q2 width minPixel Emin Emax extend (map xye Z) (xye z)).

Lemma rows_selected (Z : list row) :
  (if extend then filter (fun z => in_energy Emin Emax (xye z)) Z
   else filter (fun z => in_segment fsqrt q1 q2 (xye z))
               (filter (fun z => in_energy Emin Emax (xye z)) Z))
  = filter sel' Z.
Proof.
  unfold selected. destruct extend.
  - apply filter_ext_in. intros z _. simpl. rewrite andb_true_r. reflexivity.
  - rewrite filter_filter. apply filter_ext_in. intros z _. reflexivity.
Qed.

Lemma rows_edges (Z : list row) :
  Tools.binEdges
    (map along' (filter (fun z => in_width fsqrt q1 q2 width (xye z)) (filter sel' Z)))
    minPixel
  = cut_edges fsqrt q1 q2 width minPixel Emin Emax extend (map xye Z).
Proof.
  unfold cut_edges. rewrite !filter_map_comm, map_map. reflexivity.
Qed.

Lemma orthobins_monotone : 0 <= width -> Np.monotone [- width / 2; width / 2] = true.
Proof.
  intro H. simpl. rewrite andb_true_r. apply leb_le. qlra.
Qed.

Lemma cut1D_rows_total (Z : list row) :
  0 < minPixel -> 0 <= width ->
  exists int mon nor cn bl,
    cut1D_rows' Z = Ok ((int, mon, nor, cn), bl)
    /\ Np.sum2 int == Np.sum (map rI (filter (cnt' Z) Z))
    /\ Np.sum2 mon == Np.sum (map rM (filter (cnt' Z) Z))
    /\ Np.sum2 nor == Np.sum (map rN (filter (cnt' Z) Z))
    /\ (forall z, In z Z -> cnt' Z z = true -> int <> []).
Proof.
  intros Hpix Hw. unfold cut1D_rows. cbv zeta.
  rewrite rows_selected, rows_edges.
  set (lenbins := cut_edges fsqrt q1 q2 width minPixel Emin Emax extend (map xye Z)).
  assert (Hsel : forall z, cnt' Z z = true -> sel' z = true).
  { intros z H. unfold counted in H. apply andb_true_iff in H. tauto. }
  destruct (List.length (filter (fun z => in_energy Emin Emax (xye z)) Z) =? 0)%nat eqn:EE.
  { apply Nat.eqb_eq in EE. apply length_zero_iff_nil in EE.
    assert (Hnone : forall z, In z Z -> cnt' Z z = false).
    { intros z Hz. pose proof (filter_nil_forall _ _ EE z Hz) as Hf.
      unfold counted, selected. cbv beta in Hf. rewrite Hf. reflexivity. }
    exists [], [], [], [], ([], [], [Emin; Emax]).
    rewrite (filter_none _ _ Hnone). simpl.
    repeat split; try reflexivity.
    intros z Hz Hc. rewrite (Hnone z Hz) in Hc. discriminate. }
  destruct (List.length lenbins =? 0)%nat eqn:EL.
  { apply Nat.eqb_eq in EL. apply length_zero_iff_nil in EL.
    assert (Hnone : forall z, In z Z -> cnt' Z z = false).
    { intros z Hz. unfold counted. fold lenbins. rewrite EL.
      unfold has_bin2. cbn [fst]. rewrite bin_of_nil. apply andb_false_r. }
    eexists [], [], [], [], _. split; [reflexivity|].
    rewrite (filter_none _ _ Hnone). simpl.
    repeat split; try reflexivity.
    intros z Hz Hc. rewrite (Hnone z Hz) in Hc. discriminate. }
  apply Nat.eqb_neq in EL.
  assert (Hmono : Np.monotone lenbins = true /\ (2 <= List.length lenbins)%nat).
  { unfold lenbins, cut_edges in *.
    destruct (map (along fsqrt q1 q2)
                (filter (in_width fsqrt q1 q2 width)
                   (filter (selected fsqrt q1 q2 Emin Emax extend) (map xye Z)))) as [|v vs] eqn:Ev.
    - exfalso. apply EL. reflexivity.
    - pose proof (binEdges_contract (v :: vs) minPixel Hpix) as Hc.
      destruct Hc as [Hm [Hl _]]; [discriminate|]. split; assumption. }
  destruct Hmono as [Hmono Hlen2].
  pose proof (orthobins_monotone Hw) as Hob.
  set (sample := map (fun z : row => (along fsqrt q1 q2 (xye z), ortho fsqrt q1 q2 (xye z)))
                     (filter sel' Z)).
  assert (Hhist : forall f : row -> Q,
            exists H, Np.histogramdd2 sample lenbins [- width / 2; width / 2]
                        (map f (filter sel' Z)) = Ok H
                      /\ List.length H = (List.length lenbins - 1)%nat
                      /\ Np.sum2 H == Np.sum (map f (filter (cnt' Z) Z))).
  { intro f.
    destruct (histogramdd2_ok sample lenbins [- width / 2; width / 2]
                (map f (filter sel' Z)) Hmono Hob) as [H [HH HL]].
    { unfold sample. rewrite !length_map. reflexivity. }
    exists H. split; [assumption|]. split; [assumption|].
    rewrite (histogramdd2_total _ _ _ _ _ HH).
    unfold sample. rewrite combine_map, filter_map_comm, map_map, filter_filter.
    cbn [fst snd]. reflexivity. }
  destruct (Hhist (fun _ => 1)) as [cn [Hcn _]].
  destruct (Hhist rI) as [int [Hint [Lint Sint]]].
  destruct (Hhist rM) as [mon [Hmon [_ Smon]]].
  destruct (Hhist rN) as [nor [Hnor [_ Snor]]].
  exists int, mon, nor, cn. eexists.
  rewrite Hcn, Hint, Hmon, Hnor. cbn [bind].
  split; [reflexivity|].
  repeat split; try assumption.
  intros z Hz Hc Hnil. rewrite Hnil in Lint. simpl in Lint. lia.
Qed.
End CutRows.

(** ** From parallel arrays to rows *)

Lemma zip_rows_maps (px py pe I Norm Monitor : list Q) :
  List.length px = List.length pe -> List.length py = List.length pe ->
  List.length I = List.length pe -> List.length Norm = List.length pe ->
  List.length Monitor = List.length pe ->
  let Z := zip_rows px py pe I Norm Monitor in
  px = map rx Z /\ py = map ry Z /\ pe = map re Z /\
  I = map rI Z /\ Norm = map rN Z /\ Monitor = map rM Z.
Proof.
  revert py pe I Norm Monitor.
  induction px as [|x px IH]; intros [|y py] [|e pe] [|i I] [|n Norm] [|m Monitor];
    simpl; intros H1 H2 H3 H4 H5; try discriminate; try (repeat split; reflexivity).
  destruct (IH py pe I Norm Monitor) as (E1 & E2 & E3 & E4 & E5 & E6); try lia.
  repeat split; f_equal; assumption.
Qed.

Lemma In_rows_nth (Z : list row) (z : row) :
  In z Z ->
  exists k, nth_error (map rx Z) k = Some (rx z) /\ nth_error (map ry Z) k = Some (ry z)
            /\ nth_error (map re Z) k = Some (re z).
Proof.
  intro H. destruct (In_nth_error _ _ H) as [k Hk]. exists k.
  repeat split; apply map_nth_error; assumption.
Qed.

Lemma cut1D_rows_no_energy (fsqrt : Q -> Q) (q1 q2 : Q * Q)
    (width minPixel Emin Emax : Q) (extend : bool) (Z : list row) :
  filter (fun z => in_energy Emin Emax (xye z)) Z = [] ->
  cut1D_rows fsqrt q1 q2 width minPixel Emin Emax extend Z
  = Ok (([], [], [], []), ([], [], [Emin; Emax])).
Proof.
  intro H. unfold cut1D_rows. cbv zeta. rewrite H. reflexivity.
Qed.

(** C2.  Histogram conservation: for a 1D cut with [extend=true] whose
    energy-filtered points all lie strictly within the orthogonal width
    bounds, the cut returns and the sum of its per-bin intensities equals
    the sum of the intensities of the energy-filtered points: the bin edges
    along the cut drop no point and no point is counted twice. *)
Theorem cut1D_extend_conserves_intensity (fsqrt : Q -> Q)
    (px py pe I Norm Monitor : list Q) (q1 q2 : Q * Q) (width minPixel Emin Emax : Q) :
  List.length px = List.length pe -> List.length py = List.length pe ->
  List.length I = List.length pe -> List.length Norm = List.length pe ->
  List.length Monitor = List.length pe ->
  0 < minPixel ->
  ~ dirLength fsqrt q1 q2 == 0 ->
  (forall k x y e,
      nth_error px k = Some x -> nth_error py k = Some y -> nth_error pe k = Some e ->
      Emin <= e -> e <= Emax ->
      - width / 2 < ortho fsqrt q1 q2 (x, y, e) /\ ortho fsqrt q1 q2 (x, y, e) < width / 2) ->
  exists intensity MonitorCount Normalization normcounts bins,
    cut1D fsqrt (px, py, pe) I Norm Monitor q1 q2 width minPixel Emin Emax true
    = Ok ((intensity, MonitorCount, Normalization, normcounts), bins)
    /\ Np.sum2 intensity == Np.sum (Np.compress (energy_mask pe Emin Emax) I).
Proof.
  intros L1 L2 L3 L4 L5 Hpix _ Hwidth.
  destruct (zip_rows_maps px py pe I Norm Monitor L1 L2 L3 L4 L5)
    as (E1 & E2 & E3 & E4 & E5 & E6).
  set (Z := zip_rows px py pe I Norm Monitor) in *. clearbody Z.
  subst px py pe I Norm Monitor.
  assert (HW : forall z, In z Z -> in_energy Emin Emax (xye z) = true ->
                         in_width fsqrt q1 q2 width (xye z) = true).
  { intros z Hz He. destruct (In_rows_nth Z z Hz) as [k (K1 & K2 & K3)].
    unfold in_energy in He. apply andb_true_iff in He. destruct He as [He1 He2].
    apply leb_le in He1. apply leb_le in He2. cbn [snd xye] in He1, He2.
    destruct (Hwidth k _ _ _ K1 K2 K3 He2 He1) as [Ha Hb].
    unfold in_width. apply andb_true_iff. split; apply ltb_lt; assumption. }
  rewrite cut1D_as_rows.
  assert (Hsum : Np.sum (Np.compress (energy_mask (map re Z) Emin Emax) (map rI Z))
                 = Np.sum (map rI (filter (fun z => in_energy Emin Emax (xye z)) Z))).
  { unfold energy_mask. rewrite map_map, compress_map. reflexivity. }
  rewrite Hsum.
  destruct (filter (fun z => in_energy Emin Emax (xye z)) Z) as [|z0 ZE] eqn:EZ.
  { rewrite (cut1D_rows_no_energy _ _ _ _ _ _ _ _ _ EZ).
    exists [], [], [], [], ([], [], [Emin; Emax]). split; reflexivity. }
  assert (Hz0 : In z0 Z /\ in_energy Emin Emax (xye z0) = true).
  { apply (filter_In (fun z => in_energy Emin Emax (xye z))). rewrite EZ. left. reflexivity. }
  assert (Hw : 0 <= width).
  { pose proof (HW z0 (proj1 Hz0) (proj2 Hz0)) as H. unfold in_width in H.
    apply andb_true_iff in H. destruct H as [Ha Hb].
    apply ltb_lt in Ha. apply ltb_lt in Hb. qlra. }
  destruct (cut1D_rows_total fsqrt q1 q2 width minPixel Emin Emax true Z Hpix Hw)
    as (int & mon & nor & cn & bl & Hcut & Sint & _).
  exists int, mon, nor, cn, bl. split; [assumption|].
  rewrite Sint, <- EZ.
  assert (Hsame : filter (fun z => counted fsqrt q1 q2 width minPixel Emin Emax true
                                     (map xye Z) (xye z)) Z
                  = filter (fun z => in_energy Emin Emax (xye z)) Z).
  { apply filter_ext_in. intros z Hz. unfold counted, selected.
    destruct (in_energy Emin Emax (xye z)) eqn:He; [|reflexivity].
    cbn [orb andb].
    pose proof (HW z Hz He) as Hin.
    unfold has_bin2. cbn [fst snd].
    assert (B0 : exists i, Np.bin_of (cut_edges fsqrt q1 q2 width minPixel Emin Emax true
                                        (map xye Z)) (along fsqrt q1 q2 (xye z)) = Some i).
    { unfold cut_edges.
      set (vals := map (along fsqrt q1 q2)
                     (filter (in_width fsqrt q1 q2 width)
                        (filter (selected fsqrt q1 q2 Emin Emax true) (map xye Z)))).
      assert (Hv : In (along fsqrt q1 q2 (xye z)) vals).
      { unfold vals. apply in_map. apply filter_In. split; [|assumption].
        apply filter_In. split; [apply in_map; assumption|].
        unfold selected. rewrite He. reflexivity. }
      assert (Hne : vals <> []) by (intro H0; rewrite H0 in Hv; contradiction).
      destruct (binEdges_contract vals minPixel Hpix Hne) as (Hm & Hl & Hc).
      destruct (Hc _ Hv) as [Hlo Hhi].
      apply bin_of_inside; assumption. }
    assert (B1 : exists j, Np.bin_of [- width / 2; width / 2] (ortho fsqrt q1 q2 (xye z)) = Some j).
    { unfold in_width in Hin. apply andb_true_iff in Hin. destruct Hin as [Ha Hb].
      apply ltb_lt in Ha. apply ltb_lt in Hb.
      apply bin_of_inside.
      - apply orthobins_monotone. assumption.
      - simpl. lia.
      - simpl. apply Qlt_le_weak. assumption.
      - simpl. apply Qlt_le_weak. assumption. }
    destruct B0 as [i ->]. destruct B1 as [j ->]. reflexivity. }
  rewrite Hsame. reflexivity.
Qed.

Lemma cut1D_extend_conserves_intensity_witness :
  exists intensity MonitorCount Normalization normcounts bins,
    cut1D sqrt6 ([0; 1 # 2; 1], [0; 1 # 100; - (1 # 100)], [1; 1; 5])
          [3; 4; 5] [1; 1; 1] [10; 10; 10] (0, 0) (1, 0) (1 # 10) (1 # 10) 0 2 true
    = Ok ((intensity, MonitorCount, Normalization, normcounts), bins)
    /\ Np.sum2 intensity
       == Np.sum (Np.compress (energy_mask [1; 1; 5] 0 2) [3; 4; 5]).
Proof.
  apply (cut1D_extend_conserves_intensity sqrt6); try reflexivity.
  - intro H. vm_compute in H. discriminate.
  - intros k x y e Hx Hy He _ _.
    destruct k as [|[|[|k]]]; simpl in Hx, Hy, He;
      try (destruct k; discriminate);
      injection Hx as <-; injection Hy as <-; injection He as <-;
      split; vm_compute; reflexivity.
Defined.

(** ** Points on an energy edge are counted in both adjacent slices *)

Lemma bump_app (f : row -> Q) (l1 l2 : list row) (z : row) (d : Q) :
  bump (List.length l1) d (map f (l1 ++ z :: l2)) = map f l1 ++ (f z + d) :: map f l2.
Proof.
  induction l1 as [|x l1 IH]; simpl; [reflexivity|]. rewrite IH. reflexivity.
Qed.

Section EdgePoints.

Variable fsqrt : Q -> Q.
Variables q1 q2 : Q * Q.
Variables width minPix : Q.
Variable extend : bool.

Lemma counted_counts_point (Emin Emax : Q) (Z : list row) (k : nat) (z : row) :
  0 < minPix -> 0 <= width ->
  nth_error Z k = Some z ->
  counted fsqrt q1 q2 width minPix Emin Emax extend (map xye Z) (xye z) = true ->
  counts_point
    (fun I Norm Monitor =>
       cut1D fsqrt (map rx Z, map ry Z, map re Z) I Norm Monitor
             q1 q2 width minPix Emin Emax extend)
    (map rI Z) (map rN Z) (map rM Z) k.
Proof.
  intros Hpix Hw Hk Hc dI dN dM.
  destruct (nth_error_split _ _ Hk) as (l1 & l2 & HZ & Hlen).
  set (z' := mkRow (rx z) (ry z) (re z) (rI z + dI) (rN z + dN) (rM z + dM)).
  set (Z' := l1 ++ z' :: l2).
  assert (Ex : map rx Z' = map rx Z) by (unfold Z'; rewrite HZ, !map_app; reflexivity).
  assert (Ey : map ry Z' = map ry Z) by (unfold Z'; rewrite HZ, !map_app; reflexivity).
  assert (Ee : map re Z' = map re Z) by (unfold Z'; rewrite HZ, !map_app; reflexivity).
  assert (Eg : map xye Z' = map xye Z) by (unfold Z'; rewrite HZ, !map_app; reflexivity).
  assert (EI : bump k dI (map rI Z) = map rI Z').
  { rewrite HZ, <- Hlen, bump_app. unfold Z'. rewrite map_app. reflexivity. }
  assert (EN : bump k dN (map rN Z) = map rN Z').
  { rewrite HZ, <- Hlen, bump_app. unfold Z'. rewrite map_app. reflexivity. }
  assert (EM : bump k dM (map rM Z) = map rM Z').
  { rewrite HZ, <- Hlen, bump_app. unfold Z'. rewrite map_app. reflexivity. }
  rewrite EI, EN, EM, <- Ex, <- Ey, <- Ee, cut1D_as_rows.
  rewrite Ex, Ey, Ee, cut1D_as_rows.
  destruct (cut1D_rows_total fsqrt q1 q2 width minPix Emin Emax extend Z Hpix Hw)
    as (int & mon & nor & cn & bl & Hcut & Sint & Smon & Snor & _).
  destruct (cut1D_rows_total fsqrt q1 q2 width minPix Emin Emax extend Z' Hpix Hw)
    as (int' & mon' & nor' & cn' & bl' & Hcut' & Sint' & Smon' & Snor' & _).
  exists int, mon, nor, cn, bl, int', mon', nor', cn', bl'.
  split; [assumption|]. split; [assumption|].
  rewrite Eg in Sint', Smon', Snor'.
  rewrite Sint, Smon, Snor, Sint', Smon', Snor'.
  unfold Z'. rewrite HZ, !filter_app. cbn [filter].
  change (xye z') with (xye z). rewrite <- HZ, Hc.
  rewrite !map_app, !sum_app. cbn [map Np.sum rI rN rM z'].
  repeat split; ring.
Qed.

Variables positions : positions_t.
Variables I Norm Monitor : list Q.

Local Abbreviation slice lo hi :=
  (cut1D fsqrt positions I Norm Monitor q1 q2 width minPix lo hi extend).

Local Abbreviation loop acc EnergyBins :=
  (cutQE_loop fsqrt positions I Norm Monitor q1 q2 width minPix extend acc EnergyBins).

Local Abbreviation step acc lo hi :=
  (cutQE_step fsqrt positions I Norm Monitor q1 q2 width minPix extend acc lo hi).

Hypothesis slices_return : forall lo hi, exists dl bl, slice lo hi = Ok (dl, bl).

(** One pass of the loop body returns and only appends. *)
Lemma cutQE_step_appends (acc : cutQE_result) (lo hi : Q) :
  exists acc', step acc lo hi = Ok acc'
    /\ (exists X, intensityArray acc' = intensityArray acc ++ X)
    /\ (exists X, monitorArray acc' = monitorArray acc ++ X)
    /\ (exists X, normalizationArray acc' = normalizationArray acc ++ X).
Proof.
  unfold cutQE_step.
  destruct acc as [[[[[[ia ma] na] ca] rp] cp] bd].
  destruct (slices_return lo hi) as ([[[int0 mon0] nor0] cn0] & bl0 & Hs).
  rewrite Hs. cbn [bind].
  destruct (List.length int0 =? 0)%nat.
  - eexists. split; [reflexivity|].
    repeat split; exists []; cbn; rewrite app_nil_r; reflexivity.
  - eexists. split; [reflexivity|].
    repeat split; eexists; cbn; reflexivity.
Qed.

(** A non-empty slice is appended by the loop body. *)
Lemma cutQE_step_nonempty (acc : cutQE_result) (lo hi : Q)
    (int mon nor cn : array2) (bl : binlist) :
  slice lo hi = Ok ((int, mon, nor, cn), bl) -> int <> [] ->
  exists acc', step acc lo hi = Ok acc'
    /\ intensityArray acc' = intensityArray acc ++ [int]
    /\ monitorArray acc' = monitorArray acc ++ [mon]
    /\ normalizationArray acc' = normalizationArray acc ++ [nor].
Proof.
  intros Hs Hne. unfold cutQE_step.
  destruct acc as [[[[[[ia ma] na] ca] rp] cp] bd].
  rewrite Hs. cbn [bind].
  destruct (List.length int =? 0)%nat eqn:El.
  - apply Nat.eqb_eq in El. apply length_zero_iff_nil in El. contradiction.
  - eexists. split; [reflexivity|]. repeat split.
Qed.

Lemma cutQE_loop_cons (acc : cutQE_result) (lo hi : Q) (rest : list Q) :
  loop acc (lo :: hi :: rest) = bind (step acc lo hi) (fun acc' => loop acc' (hi :: rest)).
Proof. reflexivity. Qed.

(** When every slice returns, the loop returns and only appends. *)
Lemma cutQE_loop_appends (EnergyBins : list Q) :
  forall acc,
  exists r, loop acc EnergyBins = Ok r
    /\ (exists X, intensityArray r = intensityArray acc ++ X)
    /\ (exists X, monitorArray r = monitorArray acc ++ X)
    /\ (exists X, normalizationArray r = normalizationArray acc ++ X).
Proof.
  induction EnergyBins as [|lo rest IH]; intro acc.
  - exists acc. split; [reflexivity|].
    repeat split; exists []; rewrite app_nil_r; reflexivity.
  - destruct rest as [|hi rest].
    + exists acc. split; [reflexivity|].
      repeat split; exists []; rewrite app_nil_r; reflexivity.
    + rewrite cutQE_loop_cons.
      destruct (cutQE_step_appends acc lo hi) as (acc' & Hs & [X1 E1] & [X2 E2] & [X3 E3]).
      rewrite Hs. cbn [bind].
      destruct (IH acc') as (r & Hr & [Y1 F1] & [Y2 F2] & [Y3 F3]).
      exists r. split; [assumption|].
      repeat split; eexists.
      * rewrite F1, E1, <- app_assoc. reflexivity.
      * rewrite F2, E2, <- app_assoc. reflexivity.
      * rewrite F3, E3, <- app_assoc. reflexivity.
Qed.

(** Two consecutive non-empty slices appear side by side in the output of
    the loop. *)
Lemma cutQE_loop_adjacent (pre post : list Q) (lo mid hi : Q)
    (int1 mon1 nor1 cn1 : array2) (bl1 : binlist)
    (int2 mon2 nor2 cn2 : array2) (bl2 : binlist) :
  slice lo mid = Ok ((int1, mon1, nor1, cn1), bl1) -> int1 <> [] ->
  slice mid hi = Ok ((int2, mon2, nor2, cn2), bl2) -> int2 <> [] ->
  forall acc,
  exists r, loop acc (pre ++ lo :: mid :: hi :: post) = Ok r
    /\ (exists a b, intensityArray r = a ++ int1 :: int2 :: b)
    /\ (exists a b, monitorArray r = a ++ mon1 :: mon2 :: b)
    /\ (exists a b, normalizationArray r = a ++ nor1 :: nor2 :: b).
Proof.
  intros H1 N1 H2 N2.
  induction pre as [|p pre IH]; intro acc.
  - cbn [app]. rewrite cutQE_loop_cons.
    destruct (cutQE_step_nonempty acc lo mid _ _ _ _ _ H1 N1) as (acc1 & Hs1 & A1 & B1 & C1).
    rewrite Hs1. cbn [bind]. rewrite cutQE_loop_cons.
    destruct (cutQE_step_nonempty acc1 mid hi _ _ _ _ _ H2 N2) as (acc2 & Hs2 & A2 & B2 & C2).
    rewrite Hs2. cbn [bind].
    destruct (cutQE_loop_appends (hi :: post) acc2) as (r & Hr & [X1 E1] & [X2 E2] & [X3 E3]).
    exists r. split; [assumption|].
    repeat split.
    + exists (intensityArray acc), X1. rewrite E1, A2, A1, <- !app_assoc. reflexivity.
    + exists (monitorArray acc), X2. rewrite E2, B2, B1, <- !app_assoc. reflexivity.
    + exists (normalizationArray acc), X3. rewrite E3, C2, C1, <- !app_assoc. reflexivity.
  - assert (Hq : exists q rest, pre ++ lo :: mid :: hi :: post = q :: rest).
    { destruct pre; cbn; eexists; eexists; reflexivity. }
    destruct Hq as (q & rest & Hq).
    cbn [app]. rewrite Hq, cutQE_loop_cons.
    destruct (cutQE_step_appends acc p q) as (acc' & Hs & _).
    rewrite Hs. cbn [bind]. rewrite <- Hq. apply IH.
Qed.

End EdgePoints.

Lemma selected_in_width_counted (fsqrt : Q -> Q) (q1 q2 : Q * Q)
    (width minPixel Emin Emax : Q) (extend : bool)
    (G : list (Q * Q * Q)) (g : Q * Q * Q) :
  0 < minPixel -> In g G ->
  selected fsqrt q1 q2 Emin Emax extend g = true ->
  in_width fsqrt q1 q2 width g = true ->
  counted fsqrt q1 q2 width minPixel Emin Emax extend G g = true.
Proof.
  intros Hpix Hg Hsel Hin. unfold counted. rewrite Hsel. cbn [andb].
  unfold has_bin2. cbn [fst snd].
  assert (B0 : exists i, Np.bin_of (cut_edges fsqrt q1 q2 width minPixel Emin Emax extend G)
                           (along fsqrt q1 q2 g) = Some i).
  { unfold cut_edges.
    set (vals := map (along fsqrt q1 q2)
                   (filter (in_width fsqrt q1 q2 width)
                      (filter (selected fsqrt q1 q2 Emin Emax extend) G))).
    assert (Hv : In (along fsqrt q1 q2 g) vals).
    { unfold vals. apply in_map. apply filter_In. split; [|assumption].
      apply filter_In. split; assumption. }
    assert (Hne : vals <> []) by (intro H0; rewrite H0 in Hv; contradiction).
    destruct (binEdges_contract vals minPixel Hpix Hne) as (Hm & Hl & Hc).
    destruct (Hc _ Hv) as [Hlo Hhi].
    apply bin_of_inside; assumption. }
  assert (B1 : exists j, Np.bin_of [- width / 2; width / 2] (ortho fsqrt q1 q2 g) = Some j).
  { unfold in_width in Hin. apply andb_true_iff in Hin. destruct Hin as [Ha Hb].
    apply ltb_lt in Ha. apply ltb_lt in Hb.
    apply bin_of_inside.
    - apply orthobins_monotone. qlra.
    - simpl. lia.
    - simpl. apply Qlt_le_weak. assumption.
    - simpl. apply Qlt_le_weak. assumption. }
  destruct B0 as [i ->]. destruct B1 as [j ->]. reflexivity.
Qed.

Lemma rows_nth (Z : list row) (k : nat) (x y e : Q) :
  nth_error (map rx Z) k = Some x -> nth_error (map ry Z) k = Some y ->
  nth_error (map re Z) k = Some e ->
  exists z, nth_error Z k = Some z /\ xye z = (x, y, e).
Proof.
  rewrite !nth_error_map.
  destruct (nth_error Z k) as [z|]; cbn; [|discriminate].
  intros Hx Hy He. injection Hx as <-. injection Hy as <-. injection He as <-.
  exists z. split; reflexivity.
Qed.

(** C10.  In cutQE the energy filter of every slice is closed at both
    ends: a point whose energy equals an interior edge [E] of the
    energy-bin list (and which lies within the width of the cut, and within
    the segment when [extend] is false) is counted in the slice below [E]
    and in the slice above [E].  Both slices count its intensity, monitor
    and normalization, both are returned, and they sit side by side in the
    arrays cutQE returns. *)
Theorem cutQE_edge_point_in_both_slices (fsqrt : Q -> Q)
    (px py pe I Norm Monitor : list Q) (q1 q2 : Q * Q) (width minPix : Q)
    (pre post : list Q) (Elo E Ehi : Q) (extend : bool) (k : nat) (x y e : Q) :
  List.length px = List.length pe -> List.length py = List.length pe ->
  List.length I = List.length pe -> List.length Norm = List.length pe ->
  List.length Monitor = List.length pe ->
  0 < minPix ->
  ~ dirLength fsqrt q1 q2 == 0 ->
  Elo <= E -> E <= Ehi ->
  nth_error px k = Some x -> nth_error py k = Some y -> nth_error pe k = Some e ->
  e == E ->
  in_width fsqrt q1 q2 width (x, y, e) = true ->
  (extend = false -> in_segment fsqrt q1 q2 (x, y, e) = true) ->
  let cut lo hi := fun I' Norm' Monitor' =>
    cut1D fsqrt (px, py, pe) I' Norm' Monitor' q1 q2 width minPix lo hi extend in
  counts_point (cut Elo E) I Norm Monitor k /\
  counts_point (cut E Ehi) I Norm Monitor k /\
  exists r int1 mon1 nor1 cn1 bl1 int2 mon2 nor2 cn2 bl2,
    cutQE fsqrt (px, py, pe) I Norm Monitor q1 q2 width minPix
          (pre ++ Elo :: E :: Ehi :: post) extend = Ok r /\
    cut Elo E I Norm Monitor = Ok ((int1, mon1, nor1, cn1), bl1) /\
    cut E Ehi I Norm Monitor = Ok ((int2, mon2, nor2, cn2), bl2) /\
    (exists a b, intensityArray r = a ++ int1 :: int2 :: b) /\
    (exists a b, monitorArray r = a ++ mon1 :: mon2 :: b) /\
    (exists a b, normalizationArray r = a ++ nor1 :: nor2 :: b).
Proof.
  intros L1 L2 L3 L4 L5 Hpix _ Hlo Hhi Kx Ky Ke HeE Hin Hseg cut.
  destruct (zip_rows_maps px py pe I Norm Monitor L1 L2 L3 L4 L5)
    as (E1 & E2 & E3 & E4 & E5 & E6).
  set (Z := zip_rows px py pe I Norm Monitor) in *. clearbody Z.
  subst px py pe I Norm Monitor.
  destruct (rows_nth Z k x y e Kx Ky Ke) as (z & Hz & Hxye).
  assert (HzIn : In (xye z) (map xye Z)).
  { apply in_map. apply (nth_error_In _ _ Hz). }
  assert (Hw : 0 <= width).
  { unfold in_width in Hin. apply andb_true_iff in Hin. destruct Hin as [Ha Hb].
    apply ltb_lt in Ha. apply ltb_lt in Hb. qlra. }
  assert (Hsel : forall lo hi, lo <= e -> e <= hi ->
                   selected fsqrt q1 q2 lo hi extend (xye z) = true).
  { intros lo hi H1 H2. unfold selected, in_energy. rewrite Hxye. cbn [snd].
    apply leb_le in H1. apply leb_le in H2. rewrite H1, H2. cbn [andb].
    destruct extend; [reflexivity|]. cbn [orb]. apply Hseg. reflexivity. }
  assert (Hcnt : forall lo hi, lo <= e -> e <= hi ->
                   counted fsqrt q1 q2 width minPix lo hi extend (map xye Z) (xye z) = true).
  { intros lo hi H1 H2. apply selected_in_width_counted; try assumption.
    - apply Hsel; assumption.
    - rewrite Hxye. assumption. }
  assert (Hin1 : Elo <= e /\ e <= E) by (split; rewrite HeE; [assumption | apply Qle_refl]).
  assert (Hin2 : E <= e /\ e <= Ehi) by (split; rewrite HeE; [apply Qle_refl | assumption]).
  assert (Htot : forall lo hi, exists dl bl, cut lo hi (map rI Z) (map rN Z) (map rM Z) = Ok (dl, bl)).
  { intros lo hi. unfold cut. rewrite cut1D_as_rows.
    destruct (cut1D_rows_total fsqrt q1 q2 width minPix lo hi extend Z Hpix Hw)
      as (int & mon & nor & cn & bl & Hcut & _).
    exists (int, mon, nor, cn), bl. assumption. }
  assert (Hne : forall lo hi, lo <= e -> e <= hi ->
                  exists int mon nor cn bl,
                    cut lo hi (map rI Z) (map rN Z) (map rM Z) = Ok ((int, mon, nor, cn), bl)
                    /\ int <> []).
  { intros lo hi H1 H2. unfold cut. rewrite cut1D_as_rows.
    destruct (cut1D_rows_total fsqrt q1 q2 width minPix lo hi extend Z Hpix Hw)
      as (int & mon & nor & cn & bl & Hcut & _ & _ & _ & Hnn).
    exists int, mon, nor, cn, bl. split; [assumption|].
    apply (Hnn z); [apply (nth_error_In _ _ Hz) | apply Hcnt; assumption]. }
  split; [|split].
  - apply counted_counts_point with (z := z); try assumption.
    apply Hcnt; tauto.
  - apply counted_counts_point with (z := z); try assumption.
    apply Hcnt; tauto.
  - destruct (Hne Elo E (proj1 Hin1) (proj2 Hin1)) as (int1 & mon1 & nor1 & cn1 & bl1 & S1 & N1).
    destruct (Hne E Ehi (proj1 Hin2) (proj2 Hin2)) as (int2 & mon2 & nor2 & cn2 & bl2 & S2 & N2).
    destruct (cutQE_loop_adjacent fsqrt q1 q2 width minPix extend
                (map rx Z, map ry Z, map re Z) (map rI Z) (map rN Z) (map rM Z)
                Htot pre post Elo E Ehi _ _ _ _ _ _ _ _ _ _ S1 N1 S2 N2
                (([], [], [], []), [], [], []))
      as (r & Hr & A & B & C).
    exists r, int1, mon1, nor1, cn1, bl1, int2, mon2, nor2, cn2, bl2.
    repeat split; assumption.
Qed.

Lemma cutQE_edge_point_in_both_slices_witness :
  let cut lo hi := fun I' Norm' Monitor' =>
    cut1D sqrt6 ([0; 1 # 2; 1], [0; 1 # 100; - (1 # 100)], [1; 2; 5])
          I' Norm' Monitor' (0, 0) (1, 0) (1 # 10) (1 # 10) lo hi true in
  counts_point (cut 0 2) [3; 4; 5] [1; 1; 1] [10; 10; 10] 1 /\
  counts_point (cut 2 4) [3; 4; 5] [1; 1; 1] [10; 10; 10] 1 /\
  exists r int1 mon1 nor1 cn1 bl1 int2 mon2 nor2 cn2 bl2,
    cutQE sqrt6 ([0; 1 # 2; 1], [0; 1 # 100; - (1 # 100)], [1; 2; 5])
          [3; 4; 5] [1; 1; 1] [10; 10; 10] (0, 0) (1, 0) (1 # 10) (1 # 10)
          ([] ++ 0 :: 2 :: 4 :: [6]) true = Ok r /\
    cut 0 2 [3; 4; 5] [1; 1; 1] [10; 10; 10] = Ok ((int1, mon1, nor1, cn1), bl1) /\
    cut 2 4 [3; 4; 5] [1; 1; 1] [10; 10; 10] = Ok ((int2, mon2, nor2, cn2), bl2) /\
    (exists a b, intensityArray r = a ++ int1 :: int2 :: b) /\
    (exists a b, monitorArray r = a ++ mon1 :: mon2 :: b) /\
    (exists a b, normalizationArray r = a ++ nor1 :: nor2 :: b).
Proof.
  apply (cutQE_edge_point_in_both_slices sqrt6
           [0; 1 # 2; 1] [0; 1 # 100; - (1 # 100)] [1; 2; 5] [3; 4; 5] [1; 1; 1] [10; 10; 10]
           (0, 0) (1, 0) (1 # 10) (1 # 10) [] [6] 0 2 4 true 1%nat (1 # 2) (1 # 100) 2);
    try reflexivity.
  - intro H. vm_compute in H. discriminate.
  - vm_compute. discriminate.
  - vm_compute. discriminate.
Defined.

(** ** Cuts that select no point *)

Lemma energy_mask_none (pe : list Q) (Emin Emax : Q) :
  (forall e, In e pe -> e < Emin \/ Emax < e) ->
  Np.count_true (energy_mask pe Emin Emax) = 0%nat.
Proof.
  intro H. unfold energy_mask. rewrite count_true_map.
  rewrite filter_none; [reflexivity|].
  intros e He. destruct (H e He) as [Hlt|Hlt].
  - apply leb_gt in Hlt. rewrite Hlt. apply andb_false_r.
  - apply leb_gt in Hlt. rewrite Hlt. reflexivity.
Qed.

(** [cut1DE] over the rows of the point cloud. *)

Section CutE.

Variable fsqrt : Q -> Q.
Variables E1 E2 width minPixel : Q.
Variables q0 q1 : Q.

Local Abbreviation inq := (fun z : row => in_q_range fsqrt (q0, q1) width (xye z)).
Local Abbreviation ine := (fun z : row => in_energy E1 E2 (xye z)).

(** The outcome of [cut1DE] for a [q] holding the two numbers [q0], [q1],
    written over the rows. *)
Lemma cut1DE_as_rows (Z : list row) (q : ndarray) :
  (shape q = [2]%nat \/ shape q = [2; 1]%nat) -> data q = [q0; q1] ->
  fst (cut1DE fsqrt (mkArgs (map rx Z, map ry Z, map re Z) (map rI Z) (map rN Z) (map rM Z) q)
              E1 E2 width minPixel)
  = let S := filter (fun z => inq z && ine z) Z in
    let bins := Tools.binEdges (map re S) minPixel in
    if (List.length (filter ine Z) =? 0)%nat then Raise no_energy_points
    else if (List.length (filter inq Z) =? 0)%nat then Raise no_q_points
    else if (List.length bins =? 0)%nat then Ok ([[]; []; []; []], [[E1; E2]])
    else
      normcounts <- Np.histogram (map re S) bins (map (fun _ => 1) S) ;;
      intensity <- Np.histogram (map re S) bins (map rI S) ;;
      MonitorCount <- Np.histogram (map re S) bins (map (fun z => Np.as_int64 (rM z)) S) ;;
      Normalization <- Np.histogram (map re S) bins (map rN S) ;;
      Ok ([intensity; MonitorCount; Normalization; normcounts], [bins]).
Proof.
  intros Hs Hd. destruct q as [sq dq]. cbn [shape data] in Hs, Hd. subst dq.
  unfold cut1DE.
  destruct Hs as [-> | ->];
    cbn [a_q a_positions a_I a_Norm a_Monitor set_q shape data List.length Nat.eqb fst];
    cbv zeta; unfold energy_mask, no_energy_points, no_q_points;
    rewrite combine_map, !map_map, !count_true_map, combine_map, map_map;
    cbn [fst snd];
    repeat (first [rewrite compress_map | rewrite map_map | rewrite length_map
                   | rewrite repeat_map_const]);
    reflexivity.
Qed.

End CutE.

Lemma filter_nonempty_length {A : Type} (P : A -> bool) (l : list A) (x : A) :
  In x l -> P x = true -> (List.length (filter P l) =? 0)%nat = false.
Proof.
  intros Hx HP. apply Nat.eqb_neq. intro H. apply length_zero_iff_nil in H.
  pose proof (filter_nil_forall _ _ H x Hx) as Hf. congruence.
Qed.

(** C3, counterexample.  With one point of energy 1 and the window [2,3]
    no point survives the energy filter of cut1DE, and the call raises
    instead of returning an empty result. *)
Lemma cut1DE_empty_window_raises :
  fst (cut1DE sqrt6 (mkArgs ([0], [0], [1]) [5] [1] [10] (mkArr [2; 1]%nat [0; 0]))
              2 3 1 (1 # 10))
  = Raise no_energy_points.
Proof. reflexivity. Qed.

(** C3, amended.  What a cut returns when nothing is left to bin.  When
    no point has its energy in the window, cut1D returns the typed empty
    result (four zero-length aggregate arrays and the energy range)
    without raising, whereas cut1DE raises the AttributeError "No points are
    within the provided energy limits.".  When the energy window holds
    points, cut1DE raises "No points are inside selected q range." if no
    point lies within [width] of [q]; and if points lie within [width] of
    [q] but none of them inside the energy window, it raises nothing and
    returns the typed empty result: four zero-length arrays and the bin
    list [[E1,E2]]. *)
Theorem empty_cut_results (fsqrt : Q -> Q) (px py pe I Norm Monitor : list Q)
    (q1 q2 : Q * Q) (q : ndarray) (qa qb width minPixel Emin Emax : Q) (extend : bool) :
  (shape q = [2]%nat \/ shape q = [2; 1]%nat) -> data q = [qa; qb] ->
  let out := fst (cut1DE fsqrt (mkArgs (px, py, pe) I Norm Monitor q)
                         Emin Emax width minPixel) in
  ((forall e, In e pe -> e < Emin \/ Emax < e) ->
   cut1D fsqrt (px, py, pe) I Norm Monitor q1 q2 width minPixel Emin Emax extend
   = Ok (([], [], [], []), ([], [], [Emin; Emax]))
   /\ out = Raise no_energy_points)
  /\ (List.length px = List.length pe -> List.length py = List.length pe ->
      List.length I = List.length pe -> List.length Norm = List.length pe ->
      List.length Monitor = List.length pe ->
      (exists e, In e pe /\ Emin <= e /\ e <= Emax) ->
      let Z := zip_rows px py pe I Norm Monitor in
      ((forall z, In z Z -> in_q_range fsqrt (qa, qb) width (xye z) = false) ->
       out = Raise no_q_points)
      /\ ((exists z, In z Z /\ in_q_range fsqrt (qa, qb) width (xye z) = true) ->
          (forall z, In z Z -> in_q_range fsqrt (qa, qb) width (xye z) = true ->
                     in_energy Emin Emax (xye z) = false) ->
          out = Ok ([[]; []; []; []], [[Emin; Emax]]))).
Proof.
  intros Hshape Hdata. cbv zeta. split.
  - intro Hnone.
    pose proof (energy_mask_none pe Emin Emax Hnone) as Hc.
    split.
    + unfold cut1D. rewrite Hc. reflexivity.
    + destruct q as [sh dat]. cbn [shape data] in *. subst dat.
      unfold cut1DE. cbn [a_q shape data].
      destruct Hshape as [-> | ->]; cbn -[energy_mask Np.count_true];
        rewrite Hc; reflexivity.
  - intros L1 L2 L3 L4 L5 [e (He & Hlo & Hhi)].
    destruct (zip_rows_maps px py pe I Norm Monitor L1 L2 L3 L4 L5)
      as (E1' & E2' & E3' & E4' & E5' & E6').
    set (Z := zip_rows px py pe I Norm Monitor) in *. clearbody Z.
    subst px py pe I Norm Monitor.
    rewrite (cut1DE_as_rows fsqrt Emin Emax width minPixel qa qb Z q Hshape Hdata). cbv zeta.
    apply in_map_iff in He. destruct He as (ze & Hze & Hin).
    assert (Hee : in_energy Emin Emax (xye ze) = true).
    { unfold in_energy. cbn [xye snd]. rewrite Hze.
      apply andb_true_iff. split; apply leb_le; assumption. }
    rewrite (filter_nonempty_length (fun z => in_energy Emin Emax (xye z)) Z ze Hin Hee).
    split.
    + intro Hnoq. rewrite (filter_none _ Z Hnoq). reflexivity.
    + intros [zq (Hzq & Hq)] Hdisj.
      rewrite (filter_nonempty_length
                 (fun z => in_q_range fsqrt (qa, qb) width (xye z)) Z zq Hzq Hq).
      rewrite (filter_none (fun z => in_q_range fsqrt (qa, qb) width (xye z)
                                     && in_energy Emin Emax (xye z)) Z).
      * reflexivity.
      * intros z Hz.
        destruct (in_q_range fsqrt (qa, qb) width (xye z)) eqn:E; [|reflexivity].
        rewrite (Hdisj z Hz E). reflexivity.
Qed.

Lemma empty_cut_results_witness :
  (cut1D sqrt6 ([0], [0], [1]) [5] [1] [10] (0, 0) (1, 0) 1 (1 # 10) 2 3 true
   = Ok (([], [], [], []), ([], [], [2; 3]))
   /\ fst (cut1DE sqrt6 (mkArgs ([0], [0], [1]) [5] [1] [10] (mkArr [2]%nat [0; 0]))
                  2 3 1 (1 # 10))
      = Raise no_energy_points)
  /\ fst (cut1DE sqrt6 (mkArgs ([3], [0], [1]) [5] [1] [10] (mkArr [2]%nat [0; 0]))
                 0 2 (1 # 2) (1 # 10))
     = Raise no_q_points
  /\ fst (cut1DE sqrt6 (mkArgs ([3; 0], [0; 0], [1; 7]) [5; 6] [1; 1] [10; 10]
                               (mkArr [2; 1]%nat [0; 0]))
                 0 2 (1 # 2) (1 # 10))
     = Ok ([[]; []; []; []], [[0; 2]]).
Proof.
  split; [|split].
  - apply (empty_cut_results sqrt6 [0] [0] [1] [5] [1] [10] (0, 0) (1, 0)
             (mkArr [2]%nat [0; 0]) 0 0 1 (1 # 10) 2 3 true).
    + left. reflexivity.
    + reflexivity.
    + intros e [<-|[]]. left. reflexivity.
  - apply (empty_cut_results sqrt6 [3] [0] [1] [5] [1] [10] (0, 0) (1, 0)
             (mkArr [2]%nat [0; 0]) 0 0 (1 # 2) (1 # 10) 0 2 true); try reflexivity.
    + left. reflexivity.
    + exists 1. split; [left; reflexivity|]. split; vm_compute; discriminate.
    + intros z [<-|[]]. vm_compute. reflexivity.
  - apply (empty_cut_results sqrt6 [3; 0] [0; 0] [1; 7] [5; 6] [1; 1] [10; 10] (0, 0) (1, 0)
             (mkArr [2; 1]%nat [0; 0]) 0 0 (1 # 2) (1 # 10) 0 2 true); try reflexivity.
    + right. reflexivity.
    + exists 1. split; [left; reflexivity|]. split; vm_compute; discriminate.
    + eexists. split; [right; left; reflexivity|]. vm_compute. reflexivity.
    + intros z [<-|[<-|[]]] H; vm_compute in H; try discriminate. vm_compute. reflexivity.
Defined.

(** ** Way-point paths: cutQELine and plotCutQELine *)

(** C4, counterexample.  A path of two way-points over data with no point
    in the energy range has a completely empty segment, and cutQELine
    returns (with that empty segment) instead of failing. *)
Lemma cutQELine_returns_empty_segment :
  cutQELine sqrt6 tr_first2 one_point_set [[0; 0]; [1; 0]] [0; 1] (1 # 10) (1 # 100)
            "qxqy" None
  = Ok ([([], [], [], [])], [[]], [[]], [[]]).
Proof. reflexivity. Qed.

Lemma line_positions_unchecked (tr : list Q -> list Q) (self : DataSet)
    (QPoints : list (list Q)) (format : string) (p : list (list Q)) :
  line_positions tr true self QPoints format = Ok p ->
  line_positions tr false self QPoints format = Ok p.
Proof.
  unfold line_positions.
  destruct (String.eqb (lower format) "rlu" || String.eqb (lower format) "hkl")%bool.
  - cbn [andb]. destruct (negb (shape1 QPoints =? 3)%nat); [discriminate|].
    intro H. exact H.
  - destruct (String.eqb (lower format) "qxqy"); [|discriminate].
    cbn [andb]. destruct (negb (shape1 QPoints =? 2)%nat); [discriminate|].
    intro H. exact H.
Qed.

(** [emptyIndex] lists exactly the segments that are completely empty. *)
Lemma emptyIndex_spec (bd : list (list (list Q))) (idx : nat) :
  In idx (emptyIndex bd) <-> nth_error bd idx = Some [].
Proof.
  unfold emptyIndex.
  assert (G : forall s, In idx (map fst (filter (fun ic : nat * list (list Q) =>
                                                  (List.length (snd ic) =? 0)%nat)
                                          (combine (seq s (List.length bd)) bd)))
                        <-> (s <= idx)%nat /\ nth_error bd (idx - s) = Some []).
  { induction bd as [|c bd IH]; intro s.
    - simpl. split; [contradiction|]. intros [_ H]. destruct (idx - s)%nat; discriminate.
    - cbn [List.length seq combine filter snd].
      destruct (List.length c =? 0)%nat eqn:E.
      + apply Nat.eqb_eq in E. apply length_zero_iff_nil in E. subst c.
        cbn [map fst In]. rewrite (IH (S s)). split.
        * intros [<-|[Hle Hn]].
          -- split; [lia|]. rewrite Nat.sub_diag. reflexivity.
          -- split; [lia|]. replace (idx - s)%nat with (S (idx - S s)) by lia. exact Hn.
        * intros [Hle Hn]. destruct (Nat.eq_dec s idx) as [->|Hne]; [left; reflexivity|].
          right. split; [lia|].
          replace (idx - s)%nat with (S (idx - S s)) in Hn by lia. exact Hn.
      + rewrite (IH (S s)). apply Nat.eqb_neq in E. split.
        * intros [Hle Hn]. split; [lia|].
          replace (idx - s)%nat with (S (idx - S s)) by lia. exact Hn.
        * intros [Hle Hn]. destruct (Nat.eq_dec s idx) as [->|Hne].
          -- rewrite Nat.sub_diag in Hn. cbn in Hn. injection Hn as ->. cbn in E. congruence.
          -- split; [lia|].
             replace (idx - s)%nat with (S (idx - S s)) in Hn by lia. exact Hn. }
  rewrite (G 0%nat). rewrite Nat.sub_0_r. split; [tauto|]. intro H. split; [lia | assumption].
Qed.

(** C4, amended.  cutQELine fails with the AttributeError "Number of Q
    points given is less than 2." when fewer than two way-points are given.
    When it returns and some segment is completely empty, it is
    plotCutQELine that fails (for a non-empty energy-bin list), with one
    combined AttributeError holding one line per empty segment, each line
    naming the two way-points of the segment and the first and last energy
    edge; the segments listed are exactly the empty ones. *)
Theorem path_cut_errors (fsqrt : Q -> Q) (tr : list Q -> list Q) (self : DataSet)
    (QPoints : list (list Q)) (EnergyBins : list Q) (width minPixel : Q)
    (format : string) (dataFiles : option DataSet) :
  ((List.length QPoints < 2)%nat ->
   cutQELine fsqrt tr self QPoints EnergyBins width minPixel format dataFiles
   = Raise too_few_points)
  /\ (forall r,
        cutQELine fsqrt tr self QPoints EnergyBins width minPixel format dataFiles = Ok r ->
        EnergyBins <> [] -> emptyIndex (snd r) <> [] ->
        plotCutQELine fsqrt tr self QPoints EnergyBins width minPixel format dataFiles
        = Raise (AttributeError (map (empty_line QPoints EnergyBins) (emptyIndex (snd r))))
        /\ forall idx, In idx (emptyIndex (snd r)) <-> nth_error (snd r) idx = Some []).
Proof.
  split.
  - intro H. unfold cutQELine. apply Nat.ltb_lt in H. rewrite H. reflexivity.
  - intros r Hr HE Hidx. split; [|apply emptyIndex_spec].
    unfold plotCutQELine. rewrite Hr. cbn [bind].
    assert (Hpos : exists p, line_positions tr false self QPoints format = Ok p).
    { unfold cutQELine in Hr.
      destruct (List.length QPoints <? 2)%nat; [discriminate|].
      destruct (line_positions tr true self QPoints format) as [p|e] eqn:Ep; [|discriminate].
      exists p. apply line_positions_unchecked. assumption. }
    destruct Hpos as [p ->]. cbn [bind].
    destruct (emptyIndex (snd r)) as [|idx more]; [congruence|].
    destruct EnergyBins as [|e0 rest]; [congruence|]. reflexivity.
Qed.

Lemma path_cut_errors_witness :
  cutQELine sqrt6 tr_first2 one_point_set [[0; 0]] [0; 1] (1 # 10) (1 # 100) "qxqy" None
  = Raise too_few_points
  /\ plotCutQELine sqrt6 tr_first2 one_point_set [[0; 0]; [1; 0]] [0; 1] (1 # 10) (1 # 100)
                   "qxqy" None
     = Raise (AttributeError
                [("No data points found between {} and {} with energies between {} and {}."%string,
                  [ArgVec [0; 0]; ArgVec [1; 0]; ArgQ 0; ArgQ 1])]).
Proof.
  split.
  - apply (proj1 (path_cut_errors sqrt6 tr_first2 one_point_set [[0; 0]] [0; 1]
                    (1 # 10) (1 # 100) "qxqy" None)).
    simpl. lia.
  - apply (proj2 (path_cut_errors sqrt6 tr_first2 one_point_set [[0; 0]; [1; 0]] [0; 1]
                    (1 # 10) (1 # 100) "qxqy" None)
             ([([], [], [], [])], [[]], [[]], [[]])).
    + reflexivity.
    + discriminate.
    + discriminate.
Defined.

(** ** cut1DE and the arrays of its caller *)

(** C9, the code at the failing input.  Called with a one-dimensional [q]
    of two numbers, cut1DE returns its histograms and leaves the caller's
    [q] with the shape (2,1) instead of (2,): the contents of all arrays
    are unchanged, the shape of [q] is not. *)
Theorem cut1DE_reshapes_q :
  let a := mkArgs ([0], [0], [1]) [5] [1] [10] (mkArr [2]%nat [0; 0]) in
  let out := cut1DE sqrt6 a 0 2 1 (1 # 10) in
  fst out = Ok ([[5]; [10]; [1]; [1]], [[(19 # 20); (21 # 20)]])
  /\ shape (a_q a) = [2]%nat
  /\ shape (a_q (snd out)) = [2; 1]%nat
  /\ data (a_q (snd out)) = data (a_q a)
  /\ a_positions (snd out) = a_positions a
  /\ a_I (snd out) = a_I a /\ a_Norm (snd out) = a_Norm a /\ a_Monitor (snd out) = a_Monitor a.
Proof. vm_compute. repeat split. Qed.

(** Apart from the shape of [q], cut1DE leaves the arrays of its caller
    as they were. *)
Lemma cut1DE_frame (fsqrt : Q -> Q) (a : cut1DE_args) (E1 E2 width minPixel : Q) :
  let a' := snd (cut1DE fsqrt a E1 E2 width minPixel) in
  a_positions a' = a_positions a /\ a_I a' = a_I a /\ a_Norm a' = a_Norm a
  /\ a_Monitor a' = a_Monitor a /\ data (a_q a') = data (a_q a)
  /\ (shape (a_q a') = shape (a_q a) \/ shape (a_q a') = [2; 1]%nat).
Proof.
  unfold cut1DE.
  destruct (List.length (shape (a_q a)) =? 1)%nat;
    [destruct (List.length (data (a_q a)) =? 2)%nat|];
    cbn [snd]; destruct (a_positions a) as [[px py] pe] eqn:Ep;
    cbn; rewrite ?Ep; cbn; repeat split; auto.
Qed.

(** ** The voxel grid *)

Lemma round_half_even_Z (q : Q) (n : Z) : q == inject_Z n -> Grid.round_half_even q = n.
Proof.
  intro H. unfold Grid.round_half_even.
  assert (Hf : Qfloor q = n) by (rewrite H; apply Qfloor_Z).
  rewrite Hf.
  assert (Hr : Np.ltb (q - inject_Z n) (1 # 2) = true).
  { apply ltb_lt. rewrite H. lra. }
  rewrite Hr. reflexivity.
Qed.

(** C7, the code on a single point.  For a point cloud that consists of one
    point the bin count is 1 on each axis, and calculateBins then raises
    IndexError in calculateGrid3D (at [XX[-1]-=0.5*dx0[-1]], where [dx0] is
    empty) instead of producing the edges of a single voxel; binData3D
    without precomputed bins raises with it. *)
Theorem calculateBins_single_point_raises (dx dy dz x y z : Q)
    (data : Grid.tarray) (norm mon : option Grid.tarray) :
  (Grid.round_half_even (Qabs (x - x) / dx) + 1 = 1)%Z
  /\ Grid.calculateBins dx dy dz ([x], [y], [z]) = Raise IndexError
  /\ Grid.binData3D dx dy dz ([x], [y], [z]) data norm mon None = Raise IndexError.
Proof.
  assert (R : forall a d : Q, Grid.round_half_even (Qabs (a - a) / d) = 0%Z).
  { intros a d. apply round_half_even_Z.
    assert (E : a - a == 0) by ring. rewrite E. reflexivity. }
  assert (C : Grid.calculateBins dx dy dz ([x], [y], [z]) = Raise IndexError).
  { unfold Grid.calculateBins. cbn [np_max np_min maximum minimum bind].
    rewrite !R. reflexivity. }
  split; [rewrite R; reflexivity|]. split; [exact C|].
  unfold Grid.binData3D. rewrite C. reflexivity.
Qed.

(** The same on a cloud of two coinciding points, with the steps of the
    shape law. *)
Example calculateBins_two_equal_points :
  Grid.calculateBins (1 # 2) (1 # 4) (1 # 4) ([1; 1], [2; 2], [3; 3]) = Raise IndexError.
Proof. reflexivity. Qed.

(** The grid of the source's test: centres linspace(0,1,2), linspace(0,1,5)
    and linspace(1,2,5) give corner arrays of shape (3,6,6) with the edges
    the test expects. *)
Example calculateGrid3D_test_mesh :
  (x <- Grid.linspace 0 1 2 ;;
   y <- Grid.linspace 0 1 5 ;;
   z <- Grid.linspace 1 2 5 ;;
   let '(X, Y, Z) := Grid.meshgrid x y z in
   '(XT, YT, ZT) <- Grid.calculateGrid3D X Y Z ;;
   e0 <- Grid.axis_edges Grid.Ax0 XT ;;
   e1 <- Grid.axis_edges Grid.Ax1 YT ;;
   Ok (Grid.sh XT, map Qred e0, map Qred e1))
  = Ok ((3, 6, 6)%nat, [- (1 # 2); 1 # 2; 3 # 2],
        [- (1 # 8); 1 # 8; 3 # 8; 5 # 8; 7 # 8; 9 # 8]).
Proof. vm_compute. reflexivity. Qed.

Lemma combine_length_eq {A B : Type} (a : list A) (b : list B) :
  List.length a = List.length b -> List.length (combine a b) = List.length a.
Proof. intro H. rewrite length_combine, H. apply Nat.min_id. Qed.

(** The edges along one axis of the grid for three centres with spacing
    [1/2] and for five centres with spacing [1/4]. *)
Lemma axis_extent_bins (M m d : Q) (n : Z) :
  M - m == inject_Z n * d -> 0 < d -> (0 <= n)%Z ->
  Grid.round_half_even (Qabs (M - m) / d) = n.
Proof.
  intros H Hd Hn. apply round_half_even_Z.
  assert (Hpos : 0 <= M - m).
  { rewrite H. apply Qmult_le_0_compat; [|apply Qlt_le_weak; assumption].
    change 0 with (inject_Z 0). rewrite <- Zle_Qle. assumption. }
  rewrite (Qabs_pos _ Hpos), H. field. intro E. rewrite E in Hd. apply (Qlt_irrefl 0 Hd).
Qed.

Lemma histogramdd3_ok (sample : list (Q * Q * Q)) (e0 e1 e2 w : list Q) :
  Np.monotone e0 = true -> Np.monotone e1 = true -> Np.monotone e2 = true ->
  List.length w = List.length sample ->
  exists H, Grid.histogramdd3 sample e0 e1 e2 w = Ok H
            /\ Grid.sh H = (List.length e0 - 1, List.length e1 - 1, List.length e2 - 1)%nat.
Proof.
  intros H0 H1 H2 Hl. unfold Grid.histogramdd3.
  rewrite H0, H1, H2, Hl, Nat.eqb_refl. cbn [andb negb].
  eexists. split; reflexivity.
Qed.

Lemma unit_grid_edges (m0 M0 m1 M1 m2 M2 : Q) :
  M0 - m0 == 1 -> M1 - m1 == 1 -> M2 - m2 == 1 ->
  exists e0 e1 e2,
    bind (unit_grid m0 M0 m1 M1 m2 M2) grid_edges = Ok (e0, e1, e2)
    /\ List.length e0 = 4%nat /\ List.length e1 = 6%nat /\ List.length e2 = 6%nat
    /\ Np.monotone e0 = true /\ Np.monotone e1 = true /\ Np.monotone e2 = true.
Proof.
  intros E0 E1 E2.
  do 3 eexists.
  split.
  { cbv -[Qplus Qminus Qmult Qdiv Qopp Qinv Qle_bool]. reflexivity. }
  split; [reflexivity|]. split; [reflexivity|]. split; [reflexivity|].
  split; [|split]; repeat (apply monotone_cons; split; [qlra|]); reflexivity.
Qed.

(** C6.  Voxelizer shape law: for a point cloud whose extents along the
    three axes are (1,1,1), binData3D with the steps (0.5, 0.25, 0.25) and
    no precomputed bins returns, and each of the four aggregate arrays
    (intensity, monitor, normalization, normalization count) has the shape
    (3,5,5); the normalization count has an integer dtype and the intensity
    the dtype of the data given. *)
Theorem binData3D_shape (p0 p1 p2 : list Q) (data norm mon : Grid.tarray)
    (M0 m0 M1 m1 M2 m2 : Q) :
  List.length p1 = List.length p0 -> List.length p2 = List.length p0 ->
  List.length (Grid.values data) = List.length p0 ->
  List.length (Grid.values norm) = List.length p0 ->
  List.length (Grid.values mon) = List.length p0 ->
  np_max p0 = Ok M0 -> np_min p0 = Ok m0 -> M0 - m0 == 1 ->
  np_max p1 = Ok M1 -> np_min p1 = Ok m1 -> M1 - m1 == 1 ->
  np_max p2 = Ok M2 -> np_min p2 = Ok m2 -> M2 - m2 == 1 ->
  exists intensity MonitorCount Normalization NormCount bins,
    Grid.binData3D (1 # 2) (1 # 4) (1 # 4) (p0, p1, p2) data (Some norm) (Some mon) None
    = Ok ([intensity; MonitorCount; Normalization; NormCount], bins)
    /\ Grid.sh (Grid.arr intensity) = (3, 5, 5)%nat
    /\ Grid.sh (Grid.arr MonitorCount) = (3, 5, 5)%nat
    /\ Grid.sh (Grid.arr Normalization) = (3, 5, 5)%nat
    /\ Grid.sh (Grid.arr NormCount) = (3, 5, 5)%nat
    /\ Grid.dt3 NormCount = Grid.int64
    /\ Grid.dt3 intensity = Grid.dt data.
Proof.
  intros L1 L2 L3 L4 L5 HM0 Hm0 E0 HM1 Hm1 E1 HM2 Hm2 E2.
  unfold Grid.binData3D, Grid.calculateBins.
  rewrite HM0, Hm0, HM1, Hm1, HM2, Hm2. cbn [bind].
  rewrite (axis_extent_bins M0 m0 (1 # 2) 2), (axis_extent_bins M1 m1 (1 # 4) 4),
    (axis_extent_bins M2 m2 (1 # 4) 4); try reflexivity; try lia;
    try (rewrite E0; reflexivity); try (rewrite E1; reflexivity); try (rewrite E2; reflexivity).
  change (2 + 1)%Z with 3%Z. change (4 + 1)%Z with 5%Z.
  fold (unit_grid m0 M0 m1 M1 m2 M2).
  destruct (unit_grid_edges m0 M0 m1 M1 m2 M2 E0 E1 E2)
    as (e0 & e1 & e2 & HE & Le0 & Le1 & Le2 & Mo0 & Mo1 & Mo2).
  destruct (unit_grid m0 M0 m1 M1 m2 M2) as [[[b0 b1] b2]|err]; [|discriminate].
  cbn [bind grid_edges] in HE. cbn [bind].
  destruct (Grid.axis_edges Grid.Ax0 b0) as [e0'|]; [|discriminate]. cbn [bind] in HE |- *.
  destruct (Grid.axis_edges Grid.Ax1 b1) as [e1'|]; [|discriminate]. cbn [bind] in HE |- *.
  destruct (Grid.axis_edges Grid.Ax2 b2) as [e2'|]; [|discriminate]. cbn [bind] in HE |- *.
  injection HE as -> -> ->.
  assert (Hs : Grid.sample_of (p0, p1, p2) = Ok (combine (combine p0 p1) p2)).
  { unfold Grid.sample_of. rewrite L1, L2, !Nat.eqb_refl. reflexivity. }
  rewrite Hs. cbn [bind].
  assert (Hls : List.length (combine (combine p0 p1) p2) = List.length p0).
  { rewrite !combine_length_eq; [reflexivity | symmetry; assumption |].
    rewrite combine_length_eq; symmetry; assumption. }
  assert (Hh : forall w, List.length w = List.length p0 ->
                 exists H, Grid.histogramdd3 (combine (combine p0 p1) p2) e0 e1 e2 w = Ok H
                           /\ Grid.sh H = (3, 5, 5)%nat).
  { intros w Hw.
    destruct (histogramdd3_ok (combine (combine p0 p1) p2) e0 e1 e2 w Mo0 Mo1 Mo2)
      as [H [HH HS]]; [rewrite Hls; assumption|].
    exists H. split; [assumption|]. rewrite HS, Le0, Le1, Le2. reflexivity. }
  destruct (Hh (Grid.values data) L3) as [h [Hh1 Sh1]].
  destruct (Hh (Grid.values mon) L5) as [hm [Hh2 Sh2]].
  destruct (Hh (Grid.values norm) L4) as [hn [Hh3 Sh3]].
  destruct (Hh (Np.ones (List.length (Grid.values data)))) as [hc [Hh4 Sh4]].
  { unfold Np.ones. rewrite repeat_length. assumption. }
  rewrite Hh1, Hh2, Hh3, Hh4. cbn [bind app].
  assert (Sa : forall d H, Grid.sh (Grid.arr (Grid.astype d H)) = Grid.sh H).
  { intros d H. destruct d; reflexivity. }
  do 5 eexists. split; [reflexivity|].
  rewrite !Sa. repeat split; try assumption.
  destruct (Grid.dt data); reflexivity.
Qed.

Lemma binData3D_shape_witness :
  exists intensity MonitorCount Normalization NormCount bins,
    Grid.binData3D (1 # 2) (1 # 4) (1 # 4) ([0; 1; 1 # 3], [0; 1 # 2; 1], [1; 2; 3 # 2])
      (Grid.mkT Grid.int64 [1; 2; 3]) (Some (Grid.mkT Grid.float64 [1; 1; 1]))
      (Some (Grid.mkT Grid.int64 [10; 10; 10])) None
    = Ok ([intensity; MonitorCount; Normalization; NormCount], bins)
    /\ Grid.sh (Grid.arr intensity) = (3, 5, 5)%nat
    /\ Grid.sh (Grid.arr MonitorCount) = (3, 5, 5)%nat
    /\ Grid.sh (Grid.arr Normalization) = (3, 5, 5)%nat
    /\ Grid.sh (Grid.arr NormCount) = (3, 5, 5)%nat
    /\ Grid.dt3 NormCount = Grid.int64
    /\ Grid.dt3 intensity = Grid.int64.
Proof.
  apply (binData3D_shape [0; 1; 1 # 3] [0; 1 # 2; 1] [1; 2; 3 # 2]
           (Grid.mkT Grid.int64 [1; 2; 3]) (Grid.mkT Grid.float64 [1; 1; 1])
           (Grid.mkT Grid.int64 [10; 10; 10]) 1 0 1 0 2 1); reflexivity.
Defined.

(** ** Merging duplicate points in plotA3A4 *)

(** C8, the code on a point measured three times.  Every merged point gets
    the intensity 1+4 = 5 and the monitor 10+40 = 50, not the sums 7 and 70
    over its three duplicates, and the normalization (1+6)/2, not the mean
    3 of the three: the indexed in-place updates keep only the last
    duplicate of each point. *)
Theorem mergeDuplicates_three_files :
  A3A4.has_duplicates three_files = true
  /\ A3A4.mergeDuplicates three_files I_three Norm_three Mon_three 3
     = Ok (raster,
           [[5]; [5]; [5]; [5]],
           [[Some ((1 + 6) / 2)]; [Some ((1 + 6) / 2)]; [Some ((1 + 6) / 2)]; [Some ((1 + 6) / 2)]],
           [[50]; [50]; [50]; [50]])
  /\ 1 + 2 + 4 == 7 /\ ~ 5 == 7
  /\ (1 + 2 + 6) / 3 == 3 /\ ~ (1 + 6) / 2 == 3.
Proof.
  split; [reflexivity|]. split; [vm_compute; reflexivity|].
  split; [reflexivity|]. split; [intro H; discriminate H|].
  split; [reflexivity|]. intro H. discriminate H.
Qed.

(** A point measured twice is merged as the claim states: the sum of the
    two intensities and monitors and the mean of the two normalizations. *)
Example mergeDuplicates_two_files :
  A3A4.mergeDuplicates (raster ++ raster) (repeat [1] 4 ++ repeat [2] 4)
    (repeat [Some 1] 4 ++ repeat [None] 4) (repeat [10] 4 ++ repeat [20] 4) 3
  = Ok (raster, [[1 + 2]; [1 + 2]; [1 + 2]; [1 + 2]],
        [[Some 1]; [Some 1]; [Some 1]; [Some 1]],
        [[10 + 20]; [10 + 20]; [10 + 20]; [10 + 20]]).
Proof. vm_compute. reflexivity. Qed.

(** ** The boundary polygon of a raster *)

Lemma dedup_head (y : Q) (l : list Q) :
  exists h t, Np.dedup (y :: l) = h :: t /\ h == y.
Proof.
  revert y. induction l as [|z l IH]; intro y.
  - exists y, []. split; reflexivity.
  - cbn [Np.dedup]. destruct (Np.eqb y z) eqn:E.
    + destruct (IH z) as (h & t & Hd & Hh). exists h, t. split; [exact Hd|].
      apply eqb_eq in E. rewrite Hh, E. reflexivity.
    + eexists. eexists. split; reflexivity.
Qed.

Lemma dedup_increasing (l : list Q) :
  Np.monotone l = true -> increasing (Np.dedup l).
Proof.
  induction l as [|x l IH]; intro Hm; [exact I|].
  destruct l as [|y l]; [exact I|].
  apply monotone_cons in Hm. destruct Hm as [Hxy Hm].
  specialize (IH Hm).
  change (Np.dedup (x :: y :: l))
    with (if Np.eqb x y then Np.dedup (y :: l) else x :: Np.dedup (y :: l)).
  destruct (Np.eqb x y) eqn:E; [exact IH|].
  destruct (dedup_head y l) as (h & t & Hd & Hh).
  rewrite Hd in IH |- *. split; [|exact IH].
  apply eqb_neq in E. rewrite Hh.
  apply Qle_lt_or_eq in Hxy. destruct Hxy as [H|H]; [exact H | contradiction].
Qed.

Lemma dedup_In (x : Q) (l : list Q) :
  In x l -> exists u, In u (Np.dedup l) /\ u == x.
Proof.
  induction l as [|y l IH]; intro H; [contradiction|].
  destruct l as [|z l].
  - destruct H as [->|[]]. exists x. split; [left; reflexivity | reflexivity].
  - change (Np.dedup (y :: z :: l))
      with (if Np.eqb y z then Np.dedup (z :: l) else y :: Np.dedup (z :: l)).
    destruct (Np.eqb y z) eqn:E.
    + destruct H as [->|H].
      * destruct (dedup_head z l) as (h & t & Hd & Hh).
        exists h. split; [rewrite Hd; left; reflexivity|].
        apply eqb_eq in E. rewrite Hh, E. reflexivity.
      * apply IH. exact H.
    + destruct H as [->|H].
      * exists x. split; [left; reflexivity | reflexivity].
      * destruct (IH H) as (u & Hu & Hux). exists u. split; [right; exact Hu | exact Hux].
Qed.

Lemma increasing_monotone (l : list Q) : increasing l -> Np.monotone l = true.
Proof.
  induction l as [|x l IH]; intro H; [reflexivity|].
  destruct l as [|y l]; [reflexivity|].
  destruct H as [Hxy H]. apply monotone_cons. split; [apply Qlt_le_weak; exact Hxy|].
  apply IH. exact H.
Qed.

Lemma diff_positive (l : list Q) : increasing l -> forall d, In d (Np.diff l) -> 0 < d.
Proof.
  induction l as [|x l IH]; intros H d Hd; [contradiction|].
  destruct l as [|y l]; [contradiction|].
  destruct H as [Hxy H].
  change (Np.diff (x :: y :: l)) with ((y - x) :: Np.diff (y :: l)) in Hd.
  destruct Hd as [<-|Hd]; [lra|]. apply IH; assumption.
Qed.

Lemma first_item_In (l : list Q) (x : Q) : Np.first_item l = Ok x -> In x l /\ x = hd 0 l.
Proof.
  destruct l as [|y l]; [discriminate|]. intro H. injection H as ->.
  split; [left; reflexivity | reflexivity].
Qed.

Lemma last_item_In (l : list Q) (x : Q) : Np.last_item l = Ok x -> In x l /\ x = last l 0.
Proof.
  unfold Np.last_item. destruct (rev l) as [|y r] eqn:E; [discriminate|].
  intro H. injection H as ->.
  assert (Hl : l = rev r ++ [x]).
  { rewrite <- (rev_involutive l), E. reflexivity. }
  rewrite Hl. split; [apply in_or_app; right; left; reflexivity|].
  rewrite last_last. reflexivity.
Qed.

(** Half the first and half the last spacing of distinct sorted values are
    positive. *)
Lemma half_steps_positive (U : list Q) (s0 s1 : Q) :
  increasing U -> half_steps U = Ok (s0, s1) -> 0 < s0 /\ 0 < s1.
Proof.
  intros Hinc. unfold half_steps.
  destruct (Np.first_item (Np.diff U)) as [d0|] eqn:E0; [|discriminate].
  destruct (Np.last_item (Np.diff U)) as [d1|] eqn:E1; [|discriminate].
  cbn [bind]. intro H. injection H as <- <-.
  pose proof (diff_positive U Hinc d0 (proj1 (first_item_In _ _ E0))).
  pose proof (diff_positive U Hinc d1 (proj1 (last_item_In _ _ E1))).
  split; lra.
Qed.

(** Every value of an array lies between the first and the last of its
    sorted distinct values. *)
Lemma unique_bounds (A : list Q) (lo hi a : Q) :
  Np.first_item (Np.unique A) = Ok lo -> Np.last_item (Np.unique A) = Ok hi ->
  In a A -> lo <= a /\ a <= hi.
Proof.
  intros Hlo Hhi Ha. unfold Np.unique in *.
  pose proof (dedup_increasing _ (sort_monotone A)) as Hinc.
  apply increasing_monotone in Hinc.
  destruct (dedup_In a (Np.sort A)) as (u & Hu & Hua); [apply sort_In; exact Ha|].
  destruct (first_item_In _ _ Hlo) as [_ ->].
  destruct (last_item_In _ _ Hhi) as [_ ->].
  rewrite <- Hua. split.
  - destruct (Np.dedup (Np.sort A)) as [|x l] eqn:E; [contradiction|].
    cbn [hd]. destruct Hu as [->|Hu]; [apply Qle_refl|].
    apply (monotone_head_le x l Hinc u Hu).
  - apply monotone_le_last; assumption.
Qed.

(** A point strictly inside a box lies strictly to the left of every
    directed edge that has the four corners of the box on its left or on
    it. *)
Lemma strict_in_box (u v : point) (L R B T x y : Q) :
  L < x -> x < R -> B < y -> y < T ->
  0 <= cross u v (L, B) -> 0 <= cross u v (L, T) ->
  0 <= cross u v (R, B) -> 0 <= cross u v (R, T) ->
  ~ (fst u == fst v /\ snd u == snd v) ->
  0 < cross u v (x, y).
Proof.
  destruct u as [ux uy]. destruct v as [vx vy].
  unfold cross. cbn [fst snd]. intros HL HR HB HT C1 C2 C3 C4 Hne.
  assert (Hid : (R - L) * (T - B) * ((vx - ux) * (y - uy) - (vy - uy) * (x - ux))
                == (R - x) * (T - y) * ((vx - ux) * (B - uy) - (vy - uy) * (L - ux))
                 + (R - x) * (y - B) * ((vx - ux) * (T - uy) - (vy - uy) * (L - ux))
                 + (x - L) * (T - y) * ((vx - ux) * (B - uy) - (vy - uy) * (R - ux))
                 + (x - L) * (y - B) * ((vx - ux) * (T - uy) - (vy - uy) * (R - ux))) by ring.
  destruct (Qlt_le_dec 0 ((vx - ux) * (y - uy) - (vy - uy) * (x - ux))) as [Hpos|Hle];
    [assumption|].
  exfalso. apply Hne.
  assert (W1 : 0 < (R - x) * (T - y)) by nra.
  assert (W2 : 0 < (R - x) * (y - B)) by nra.
  assert (W3 : 0 < (x - L) * (T - y)) by nra.
  assert (W4 : 0 < (x - L) * (y - B)) by nra.
  assert (W : 0 < (R - L) * (T - B)) by nra.
  set (c1 := (vx - ux) * (B - uy) - (vy - uy) * (L - ux)) in *.
  set (c2 := (vx - ux) * (T - uy) - (vy - uy) * (L - ux)) in *.
  set (c3 := (vx - ux) * (B - uy) - (vy - uy) * (R - ux)) in *.
  set (c4 := (vx - ux) * (T - uy) - (vy - uy) * (R - ux)) in *.
  set (fp := (vx - ux) * (y - uy) - (vy - uy) * (x - ux)) in *.
  assert (Z1 : c1 == 0) by nra.
  assert (Z2 : c2 == 0) by nra.
  assert (Z3 : c3 == 0) by nra.
  unfold c1, c2, c3 in *.
  split; nra.
Qed.

(** C5.  For arrays A3 and A4 of a raster, when [convexHullPoints] returns
    a polygon (its ring being the hull scipy gives for the padding strips
    and corners), every measurement point (A3[k], A4[k]) lies strictly in
    the interior of that polygon: strictly to the left of each of its
    counterclockwise edges, hence on none of them. *)
Theorem convexHullPoints_strictly_contains (ConvexHull : list point -> list point)
    (A3 A4 : list Q) (ring boundary : list point) :
  convexHullPoints ConvexHull A3 A4 = Ok (PolygonS ring) ->
  boundary_points A3 A4 = Ok boundary ->
  hull_of boundary (ConvexHull boundary) = true ->
  (3 <= List.length ring)%nat /\
  forall k a3 a4,
    nth_error A3 k = Some a3 -> nth_error A4 k = Some a4 ->
    strictly_inside ring (a3, a4) = true.
Proof.
  intros Hpoly Hb Hhull.
  unfold convexHullPoints, convexHullRing in Hpoly. rewrite Hb in Hpoly.
  cbn [bind] in Hpoly. injection Hpoly as <-.
  unfold hull_of in Hhull. apply andb_true_iff in Hhull. destruct Hhull as [Hlen Hedges].
  split; [apply Nat.leb_le; exact Hlen|].
  intros k a3 a4 K3 K4.
  apply nth_error_In in K3. apply nth_error_In in K4.
  unfold boundary_points in Hb.
  destruct (half_steps (Np.unique A3)) as [[s0 s1]|] eqn:S3; [|discriminate].
  destruct (half_steps (Np.unique A4)) as [[t0 t1]|] eqn:S4; [|discriminate].
  destruct (Np.first_item (Np.unique A3)) as [a3first|] eqn:F3; [|discriminate].
  destruct (Np.last_item (Np.unique A3)) as [a3last|] eqn:L3; [|discriminate].
  destruct (Np.first_item (Np.unique A4)) as [a4first|] eqn:F4; [|discriminate].
  destruct (Np.last_item (Np.unique A4)) as [a4last|] eqn:L4; [|discriminate].
  cbn [bind fst snd] in Hb. injection Hb as Hb.
  destruct (half_steps_positive _ _ _ (dedup_increasing _ (sort_monotone A3)) S3) as [Ps0 Ps1].
  destruct (half_steps_positive _ _ _ (dedup_increasing _ (sort_monotone A4)) S4) as [Pt0 Pt1].
  destruct (unique_bounds A3 _ _ a3 F3 L3 K3) as [Bl3 Bh3].
  destruct (unique_bounds A4 _ _ a4 F4 L4 K4) as [Bl4 Bh4].
  unfold strictly_inside. apply forallb_forall. intros [u v] He.
  rewrite forallb_forall in Hedges. specialize (Hedges (u, v) He).
  cbn [fst snd] in Hedges |- *.
  apply andb_true_iff in Hedges. destruct Hedges as [Hne Hall].
  rewrite forallb_forall in Hall.
  assert (Hcorner : forall c, In c [(a3first - s0, a4first - t0); (a3first - s0, a4last + t1);
                                    (a3last + s1, a4first - t0); (a3last + s1, a4last + t1)] ->
                              0 <= cross u v c).
  { intros c Hc. apply leb_le. apply Hall. rewrite <- Hb.
    do 4 (apply in_or_app; right). exact Hc. }
  apply ltb_lt.
  apply (strict_in_box u v (a3first - s0) (a3last + s1) (a4first - t0) (a4last + t1));
    try lra.
  - apply Hcorner. simpl. tauto.
  - apply Hcorner. simpl. tauto.
  - apply Hcorner. simpl. tauto.
  - apply Hcorner. simpl. tauto.
  - intros [E1 E2]. apply negb_true_iff in Hne. apply andb_false_iff in Hne.
    destruct Hne as [Hne|Hne]; apply eqb_neq in Hne; contradiction.
Qed.

(** ** Reference geometry for evaluating the tessellation *)


Lemma convexHullPoints_strictly_contains_witness :
  let boundary :=
    [(- (1 # 2), 0); (- (1 # 2), 1); (3 # 2, 0); (3 # 2, 1);
     (0, - (1 # 2)); (1, - (1 # 2)); (0, 3 # 2); (1, 3 # 2);
     (- (1 # 2), - (1 # 2)); (- (1 # 2), 3 # 2);
     (3 # 2, - (1 # 2)); (3 # 2, 3 # 2)] in
  (3 <= List.length (Ref.bbox_hull boundary))%nat /\
  forall k a3 a4,
    nth_error [0; 0; 1; 1] k = Some a3 -> nth_error [0; 1; 0; 1] k = Some a4 ->
    strictly_inside (Ref.bbox_hull boundary) (a3, a4) = true.
Proof.
  intro boundary.
  apply (convexHullPoints_strictly_contains Ref.bbox_hull [0; 0; 1; 1] [0; 1; 0; 1]
           (Ref.bbox_hull boundary) boundary).
  - vm_compute. reflexivity.
  - vm_compute. reflexivity.
  - vm_compute. reflexivity.
Defined.

(** ** The polygon count of the tessellation *)

Lemma mapM_map {A B C : Type} (f : B -> res C) (g : A -> B) (l : list A) :
  mapM f (map g l) = mapM (fun x => f (g x)) l.
Proof.
  induction l as [|x l IH]; [reflexivity|]. cbn [map mapM]. rewrite IH. reflexivity.
Qed.

Lemma mapM_ext {A B : Type} (f g : A -> res B) (l : list A) :
  (forall x, f x = g x) -> mapM f l = mapM g l.
Proof.
  intro H. induction l as [|x l IH]; [reflexivity|].
  cbn [mapM]. rewrite H, IH. reflexivity.
Qed.

Lemma mapM_group_xy (gs : list (list Q * list Q)) :
  mapM (group_xy (Groups gs)) (seq 0 (List.length gs)) = Ok gs.
Proof.
  induction gs as [|g gs IH]; [reflexivity|].
  change (seq 0 (List.length (g :: gs))) with (0%nat :: seq 1 (List.length gs)).
  rewrite <- seq_shift. cbn [mapM]. rewrite mapM_map.
  rewrite (mapM_ext _ (group_xy (Groups gs))) by (intro x; reflexivity).
  rewrite IH. reflexivity.
Qed.

Section PolygonCount.

Variable ConvexHull : list point -> list point.
Variable Voronoi : list point -> list point * list (list Z).
Variable union : geom -> geom -> geom.
Variable contains_point : geom -> point -> bool.
Variable contains : geom -> geom -> bool.
Variable intersection : geom -> geom -> geom.
Variable area : list point -> Q.

Local Abbreviation gather' := (gather ConvexHull union).
Local Abbreviation tessellate' :=
  (tessellate ConvexHull Voronoi union contains_point contains intersection area).
Local Abbreviation voronoiTessellation' :=
  (voronoiTessellation ConvexHull Voronoi union contains_point contains intersection area).

(** With the boundary from the convex-hull builder the coordinate arrays
    are the points of all groups. *)
Lemma gather_points (gs : list (list Q * list Q)) (c : geom) (X Y : list Q) :
  gather' (Groups gs) None None = Ok (c, X, Y) ->
  X = List.concat (map fst gs) /\ Y = List.concat (map snd gs).
Proof.
  unfold gather. cbn [len_points].
  destruct (mapM _ (seq 0 (List.length gs))) as [BoundPoly|]; [|discriminate].
  cbn [bind].
  destruct (List.length gs =? 1)%nat eqn:E.
  - destruct gs as [|g [|g' gs]]; try discriminate.
    destruct BoundPoly as [|b0 BoundPoly]; [discriminate|].
    cbn [bind group_xy nth_error]. destruct g as [gx gy]. cbn [bind].
    intro H. injection H as _ <- <-.
    cbn [map List.concat fst snd]. rewrite !app_nil_r. split; reflexivity.
  - destruct (combine_boundaries union BoundPoly); [|discriminate].
    cbn [bind]. rewrite mapM_group_xy. cbn [bind].
    intro H. injection H as _ <- <-. split; reflexivity.
Qed.

(** C1.  With the boundary computed by the convex-hull builder, whenever
    the tessellation has built its polygons for the points of all groups,
    voronoiTessellation returns them exactly when their number equals the
    number of input points (the eight far points are not among them), and
    otherwise raises the AttributeError that names both numbers; so every
    result it returns has one polygon per input point. *)
Theorem voronoiTessellation_polygon_count (gs : list (list Q * list Q))
    (pointsX pointsY : list Q) (built : list (list point)) :
  tessellate' (Groups gs) None None = Ok (pointsX, pointsY, built) ->
  let n := List.length (List.concat (map fst gs)) in
  List.length pointsX = n
  /\ (List.length built = n ->
      voronoiTessellation' (Groups gs) None None = Ok (map PolygonS built, built))
  /\ (List.length built <> n ->
      voronoiTessellation' (Groups gs) None None
      = Raise (count_error n (List.length built)))
  /\ (forall Polygons coords,
        voronoiTessellation' (Groups gs) None None = Ok (Polygons, coords) ->
        List.length Polygons = n /\ List.length coords = n).
Proof.
  intros Ht n.
  assert (Hn : List.length pointsX = n).
  { unfold tessellate in Ht.
    destruct (gather' (Groups gs) None None) as [[[c X] Y]|] eqn:G; [|discriminate].
    cbn [bind] in Ht.
    destruct (build_polygons Voronoi contains_point contains intersection area c X Y);
      [|discriminate].
    cbn [bind] in Ht. injection Ht as <- _ _.
    destruct (gather_points gs c X Y G) as [-> _]. reflexivity. }
  unfold voronoiTessellation. rewrite Ht. cbn [bind]. rewrite Hn.
  split; [reflexivity|]. split; [|split].
  - intro H. rewrite H, Nat.eqb_refl. reflexivity.
  - intro H. assert (E : (n =? List.length built)%nat = false).
    { apply Nat.eqb_neq. intro E. apply H. symmetry. exact E. }
    rewrite E. reflexivity.
  - intros Polygons coords.
    destruct (n =? List.length built)%nat eqn:E; [|discriminate].
    cbn [negb]. intro H. injection H as <- <-. apply Nat.eqb_eq in E.
    rewrite length_map. split; symmetry; exact E.
Qed.

End PolygonCount.

Lemma voronoiTessellation_polygon_count_witness :
  exists Polygons coords,
    voronoiTessellation Ref.bbox_hull Ref.raster_voronoi Ref.union Ref.contains_point
      Ref.contains Ref.intersection Ref.area (Groups [([0; 0; 1; 1], [0; 1; 0; 1])]) None None
    = Ok (Polygons, coords)
    /\ List.length Polygons = 4%nat.
Proof.
  destruct (tessellate Ref.bbox_hull Ref.raster_voronoi Ref.union Ref.contains_point
              Ref.contains Ref.intersection Ref.area
              (Groups [([0; 0; 1; 1], [0; 1; 0; 1])]) None None)
    as [[[pX pY] built]|e] eqn:Ht; [|vm_compute in Ht; discriminate].
  destruct (voronoiTessellation_polygon_count Ref.bbox_hull Ref.raster_voronoi Ref.union
              Ref.contains_point Ref.contains Ref.intersection Ref.area
              [([0; 0; 1; 1], [0; 1; 0; 1])] pX pY built Ht) as (_ & Hok & _ & _).
  exists (map PolygonS built), built. split.
  - apply Hok. vm_compute in Ht. injection Ht as _ _ <-. reflexivity.
  - rewrite length_map. vm_compute in Ht. injection Ht as _ _ <-. reflexivity.
Defined.

(** The raster measured twice: every point overlaps another one exactly,
    the diagram still has four bounded regions, and the call fails with the
    count error for 8 points and 4 polygons. *)
Example voronoiTessellation_overlapping_points :
  voronoiTessellation Ref.bbox_hull Ref.raster_voronoi Ref.union Ref.contains_point
    Ref.contains Ref.intersection Ref.area
    (Groups [([0; 0; 1; 1; 0; 0; 1; 1], [0; 1; 0; 1; 0; 1; 0; 1])]) None None
  = Raise (count_error 8 4).
Proof. vm_compute. reflexivity. Qed.

(** * Properties of the further code *)

(** ** The four histograms of a cut and the points they leave out *)

Section CutTotals.

Variable fsqrt : Q -> Q.
Variables q1 q2 : Q * Q.
Variables width minPixel Emin Emax : Q.
Variable extend : bool.

Local Abbreviation sel' := (fun z : row => selected fsqrt q1 q2 Emin Emax extend (xye z)).
Local Abbreviation cnt' Z :=
  (fun z : row => counted fsqrt q1 q2 width minPixel Emin Emax extend (map xye Z) (xye z)).

(** The count histogram of a cut holds as many counts as there are counted
    points. *)
Lemma cut1D_rows_counts (Z : list row) :
  0 < minPixel -> 0 <= width ->
  exists int mon nor cn bl,
    cut1D_rows fsqrt q1 q2 width minPixel Emin Emax extend Z = Ok ((int, mon, nor, cn), bl)
    /\ Np.sum2 cn == Np.sum (map (fun _ => 1) (filter (cnt' Z) Z)).
Proof.
  intros Hpix Hw.
  destruct (cut1D_rows_total fsqrt q1 q2 width minPixel Emin Emax extend Z Hpix Hw)
    as (int & mon & nor & cn & bl & Hcut & _).
  exists int, mon, nor, cn, bl. split; [assumption|].
  revert Hcut. unfold cut1D_rows. cbv zeta.
  rewrite rows_selected, rows_edges.
  set (lenbins := cut_edges fsqrt q1 q2 width minPixel Emin Emax extend (map xye Z)).
  destruct (List.length (filter (fun z => in_energy Emin Emax (xye z)) Z) =? 0)%nat eqn:EE.
  { apply Nat.eqb_eq in EE. apply length_zero_iff_nil in EE.
    intro H. injection H as <- <- <- <- <-.
    rewrite (filter_none (cnt' Z) Z); [reflexivity|].
    intros z Hz. pose proof (filter_nil_forall _ _ EE z Hz) as Hf.
    unfold counted, selected. cbv beta in Hf. rewrite Hf. reflexivity. }
  destruct (List.length lenbins =? 0)%nat eqn:EL.
  { apply Nat.eqb_eq in EL. apply length_zero_iff_nil in EL.
    intro H. injection H as <- <- <- <- <-.
    rewrite (filter_none (cnt' Z) Z); [reflexivity|].
    intros z Hz. unfold counted. fold lenbins. rewrite EL.
    unfold has_bin2. cbn [fst]. rewrite bin_of_nil. apply andb_false_r. }
  destruct (Np.histogramdd2 _ lenbins _ (map (fun _ => 1) (filter sel' Z))) as [cn0|] eqn:Hcn;
    [|discriminate].
  cbn [bind].
  destruct (Np.histogramdd2 _ lenbins _ (map rI (filter sel' Z))) as [i0|]; [|discriminate].
  cbn [bind].
  destruct (Np.histogramdd2 _ lenbins _ (map rM (filter sel' Z))) as [m0|]; [|discriminate].
  cbn [bind].
  destruct (Np.histogramdd2 _ lenbins _ (map rN (filter sel' Z))) as [n0|]; [|discriminate].
  cbn [bind].
  intro H. injection H as <- <- <- <- <-.
  rewrite (histogramdd2_total _ _ _ _ _ Hcn).
  rewrite combine_map, filter_map_comm, map_map, filter_filter.
  cbn [fst snd]. reflexivity.
Qed.

End CutTotals.

Lemma sum_ones {A : Type} (l : list A) :
  Np.sum (map (fun _ => 1) l) == inject_Z (Z.of_nat (List.length l)).
Proof.
  induction l as [|x l IH]; [reflexivity|].
  cbn [map Np.sum List.length]. rewrite IH, Nat2Z.inj_succ, <- Z.add_1_l, inject_Z_plus.
  reflexivity.
Qed.

(** A selected point strictly within the width of the cut is counted, so
    when all selected points are, the counted points are the selected
    ones. *)
Lemma counted_is_selected (fsqrt : Q -> Q) (q1 q2 : Q * Q)
    (width minPixel Emin Emax : Q) (extend : bool) (Z : list row) :
  0 < minPixel ->
  (forall z, In z Z -> selected fsqrt q1 q2 Emin Emax extend (xye z) = true ->
             in_width fsqrt q1 q2 width (xye z) = true) ->
  filter (fun z => counted fsqrt q1 q2 width minPixel Emin Emax extend (map xye Z) (xye z)) Z
  = filter (fun z => selected fsqrt q1 q2 Emin Emax extend (xye z)) Z.
Proof.
  intros Hpix HW. apply filter_ext_in. intros z Hz.
  destruct (selected fsqrt q1 q2 Emin Emax extend (xye z)) eqn:Hs.
  - apply selected_in_width_counted; try assumption.
    + apply in_map. assumption.
    + apply HW; assumption.
  - unfold counted. rewrite Hs. reflexivity.
Qed.

(** X1.  All four histograms of [cut1D] conserve their totals, with either
    value of [extend]: when every point the cut selects (inside the closed
    energy window and, for [extend=False], strictly between [q1] and [q2])
    lies strictly within the width, the cut returns, the totals of the
    intensity, monitor and normalization histograms are the totals of these
    arrays over the selected points, and the total of the count histogram is
    the number of selected points. *)
Theorem cut1D_conserves_all_totals (fsqrt : Q -> Q)
    (px py pe I Norm Monitor : list Q) (q1 q2 : Q * Q) (width minPixel Emin Emax : Q)
    (extend : bool) :
  List.length px = List.length pe -> List.length py = List.length pe ->
  List.length I = List.length pe -> List.length Norm = List.length pe ->
  List.length Monitor = List.length pe ->
  0 < minPixel ->
  ~ dirLength fsqrt q1 q2 == 0 ->
  (forall z, In z (zip_rows px py pe I Norm Monitor) ->
             selected fsqrt q1 q2 Emin Emax extend (xye z) = true ->
             in_width fsqrt q1 q2 width (xye z) = true) ->
  exists intensity MonitorCount Normalization normcounts bins,
    cut1D fsqrt (px, py, pe) I Norm Monitor q1 q2 width minPixel Emin Emax extend
    = Ok ((intensity, MonitorCount, Normalization, normcounts), bins)
    /\ let S := filter (fun z => selected fsqrt q1 q2 Emin Emax extend (xye z))
                       (zip_rows px py pe I Norm Monitor) in
       Np.sum2 intensity == Np.sum (map rI S)
       /\ Np.sum2 MonitorCount == Np.sum (map rM S)
       /\ Np.sum2 Normalization == Np.sum (map rN S)
       /\ Np.sum2 normcounts == inject_Z (Z.of_nat (List.length S)).
Proof.
  intros L1 L2 L3 L4 L5 Hpix _ HW.
  destruct (zip_rows_maps px py pe I Norm Monitor L1 L2 L3 L4 L5)
    as (E1 & E2 & E3 & E4 & E5 & E6).
  set (Z := zip_rows px py pe I Norm Monitor) in *. clearbody Z.
  subst px py pe I Norm Monitor.
  rewrite cut1D_as_rows.
  destruct (filter (fun z => selected fsqrt q1 q2 Emin Emax extend (xye z)) Z)
    as [|z0 S0] eqn:ES.
  - (* nothing selected: the cut returns empty arrays *)
    assert (Hnone : forall z, In z Z -> selected fsqrt q1 q2 Emin Emax extend (xye z) = false)
      by (apply filter_nil_forall; assumption).
    unfold cut1D_rows. cbv zeta.
    rewrite rows_selected, ES. cbn [filter map].
    rewrite binEdges_nil. cbn [List.length Nat.eqb].
    destruct (List.length (filter (fun z => in_energy Emin Emax (xye z)) Z) =? 0)%nat;
      do 5 eexists; (split; [reflexivity|]); cbn; repeat split; reflexivity.
  - assert (Hz0 : In z0 Z /\ selected fsqrt q1 q2 Emin Emax extend (xye z0) = true).
    { apply (filter_In (fun z => selected fsqrt q1 q2 Emin Emax extend (xye z))).
      rewrite ES. left. reflexivity. }
    assert (Hw : 0 <= width).
    { pose proof (HW z0 (proj1 Hz0) (proj2 Hz0)) as H. unfold in_width in H.
      apply andb_true_iff in H. destruct H as [Ha Hb].
      apply ltb_lt in Ha. apply ltb_lt in Hb. qlra. }
    destruct (cut1D_rows_total fsqrt q1 q2 width minPixel Emin Emax extend Z Hpix Hw)
      as (int & mon & nor & cn & bl & Hcut & Sint & Smon & Snor & _).
    destruct (cut1D_rows_counts fsqrt q1 q2 width minPixel Emin Emax extend Z Hpix Hw)
      as (int' & mon' & nor' & cn' & bl' & Hcut' & Scn).
    rewrite Hcut in Hcut'. injection Hcut' as <- <- <- <- <-.
    exists int, mon, nor, cn, bl. split; [assumption|].
    rewrite (counted_is_selected fsqrt q1 q2 width minPixel Emin Emax extend Z Hpix HW)
      in Sint, Smon, Snor, Scn.
    rewrite ES in Sint, Smon, Snor, Scn.
    cbv zeta. rewrite Sint, Smon, Snor, Scn, sum_ones.
    repeat split; reflexivity.
Qed.

Lemma cut1D_conserves_all_totals_witness :
  exists intensity MonitorCount Normalization normcounts bins,
    cut1D sqrt6 ([0; 1 # 2; 1; 2], [0; 1 # 100; - (1 # 100); 0], [1; 1; 5; 1])
          [3; 4; 5; 6] [1; 1; 1; 1] [10; 10; 10; 10] (- (1 # 10), 0) (1, 0) (1 # 10) (1 # 10)
          0 2 false
    = Ok ((intensity, MonitorCount, Normalization, normcounts), bins)
    /\ let S := filter (fun z => selected sqrt6 (- (1 # 10), 0) (1, 0) 0 2 false (xye z))
                       (zip_rows [0; 1 # 2; 1; 2] [0; 1 # 100; - (1 # 100); 0] [1; 1; 5; 1]
                                 [3; 4; 5; 6] [1; 1; 1; 1] [10; 10; 10; 10]) in
       Np.sum2 intensity == Np.sum (map rI S)
       /\ Np.sum2 MonitorCount == Np.sum (map rM S)
       /\ Np.sum2 Normalization == Np.sum (map rN S)
       /\ Np.sum2 normcounts == inject_Z (Z.of_nat (List.length S)).
Proof.
  apply (cut1D_conserves_all_totals sqrt6); try reflexivity.
  - intro H. vm_compute in H. discriminate.
  - intros z Hz Hs.
    cbn [zip_rows In] in Hz.
    destruct Hz as [<-|[<-|[<-|[<-|[]]]]]; vm_compute in Hs; try discriminate;
      vm_compute; reflexivity.
Defined.

(** ** Points that a cut leaves out *)

Lemma in_cell2_has_bin2 (e0 e1 : list Q) (i j : nat) (p : Q * Q) :
  has_bin2 e0 e1 p = false -> Np.in_cell2 e0 e1 i j p = false.
Proof.
  unfold has_bin2, Np.in_cell2.
  destruct (Np.bin_of e0 (fst p)); [|reflexivity].
  destruct (Np.bin_of e1 (snd p)); [discriminate|reflexivity].
Qed.

Lemma combine_app_eq {A B : Type} (a1 a2 : list A) (b1 b2 : list B) :
  List.length a1 = List.length b1 ->
  combine (a1 ++ a2) (b1 ++ b2) = combine a1 b1 ++ combine a2 b2.
Proof.
  revert b1. induction a1 as [|x a1 IH]; intros [|y b1] H; simpl in *; try discriminate.
  - reflexivity.
  - rewrite IH; [reflexivity | lia].
Qed.

(** The weight of a sample point without a bin does not enter the
    histogram. *)
Lemma histogramdd2_unbinned_weight (s1 s2 : list (Q * Q)) (p : Q * Q) (e0 e1 : list Q)
    (w1 w2 : list Q) (a a' : Q) :
  List.length s1 = List.length w1 -> has_bin2 e0 e1 p = false ->
  Np.histogramdd2 (s1 ++ p :: s2) e0 e1 (w1 ++ a' :: w2)
  = Np.histogramdd2 (s1 ++ p :: s2) e0 e1 (w1 ++ a :: w2).
Proof.
  intros Hl Hp. unfold Np.histogramdd2.
  rewrite !length_app. cbn [List.length].
  destruct (negb (Np.monotone e0 && Np.monotone e1)); [reflexivity|].
  destruct (negb (List.length w1 + S (List.length w2)
                  =? List.length s1 + S (List.length s2))%nat); [reflexivity|].
  f_equal. apply map_ext. intro i. apply map_ext. intro j.
  unfold Np.cell_weights2.
  rewrite !combine_app_eq by assumption. cbn [combine].
  rewrite !filter_app. cbn [filter fst].
  rewrite (in_cell2_has_bin2 e0 e1 i j p Hp). reflexivity.
Qed.

(** Outside the two orthogonal edges there is no bin. *)
Lemma orthobins_outside (width o : Q) :
  Np.monotone [- width / 2; width / 2] = true ->
  width / 2 < o \/ o < - width / 2 ->
  Np.bin_of [- width / 2; width / 2] o = None.
Proof.
  intros Hm Ho. simpl in Hm. rewrite andb_true_r in Hm. apply leb_le in Hm.
  unfold Np.bin_of, Np.searchsorted_right. cbn [filter last].
  destruct Ho as [Ho|Ho].
  - assert (E1 : Np.leb (- width / 2) o = true) by (apply leb_le; qlra).
    assert (E2 : Np.leb (width / 2) o = true) by (apply leb_le; qlra).
    assert (E3 : Np.eqb o (width / 2) = false) by (apply eqb_neq; intro H; qlra).
    rewrite E1, E2, E3. reflexivity.
  - assert (E1 : Np.leb (- width / 2) o = false) by (apply leb_gt; qlra).
    assert (E2 : Np.leb (width / 2) o = false) by (apply leb_gt; qlra).
    rewrite E1, E2. cbn [List.length].
    destruct (Np.eqb o (width / 2)); reflexivity.
Qed.

Section CutFrameRows.

Variable fsqrt : Q -> Q.
Variables q1 q2 : Q * Q.
Variables width minPixel Emin Emax : Q.
Variable extend : bool.

Local Abbreviation sel' := (fun z : row => selected fsqrt q1 q2 Emin Emax extend (xye z)).

(** Changing the weights of a row that is not selected, or that lies
    beyond the width of the cut, does not change the cut. *)
Lemma cut1D_rows_frame (l1 l2 : list row) (z z' : row) :
  xye z' = xye z ->
  (sel' z = false
   \/ width / 2 < ortho fsqrt q1 q2 (xye z) \/ ortho fsqrt q1 q2 (xye z) < - width / 2) ->
  cut1D_rows fsqrt q1 q2 width minPixel Emin Emax extend (l1 ++ z' :: l2)
  = cut1D_rows fsqrt q1 q2 width minPixel Emin Emax extend (l1 ++ z :: l2).
Proof.
  intros Hpos Hout. unfold cut1D_rows. cbv zeta.
  rewrite !rows_selected.
  assert (HE : List.length (filter (fun z => in_energy Emin Emax (xye z)) (l1 ++ z' :: l2))
               = List.length (filter (fun z => in_energy Emin Emax (xye z)) (l1 ++ z :: l2))).
  { rewrite !filter_app, !length_app. cbn [filter]. rewrite Hpos.
    destruct (in_energy Emin Emax (xye z)); reflexivity. }
  rewrite HE.
  set (nE := List.length (filter (fun z => in_energy Emin Emax (xye z)) (l1 ++ z :: l2))).
  clearbody nE. clear HE.
  destruct (sel' z) eqn:Hs.
  - (* selected, but beyond the width *)
    destruct Hout as [Hout|Hout]; [discriminate|].
    assert (Hw : in_width fsqrt q1 q2 width (xye z) = false).
    { unfold in_width. destruct Hout as [Ho|Ho].
      - assert (E : Np.ltb (ortho fsqrt q1 q2 (xye z)) (width / 2) = false)
          by (apply ltb_ge; apply Qlt_le_weak; assumption).
        rewrite E. reflexivity.
      - assert (E : Np.ltb (- width / 2) (ortho fsqrt q1 q2 (xye z)) = false)
          by (apply ltb_ge; apply Qlt_le_weak; assumption).
        rewrite E. apply andb_false_r. }
    rewrite !filter_app. cbn [filter]. rewrite Hpos, Hs.
    cbn [filter]. rewrite Hpos, Hw.
    set (F1 := filter sel' l1). set (F2 := filter sel' l2).
    set (lenbins := Tools.binEdges _ minPixel).
    destruct (nE =? 0)%nat; [reflexivity|].
    destruct (List.length lenbins =? 0)%nat; [reflexivity|].
    rewrite !map_app. cbn [map]. rewrite Hpos.
    destruct (Np.monotone [- width / 2; width / 2]) eqn:Hm.
    + assert (Hp : has_bin2 lenbins [- width / 2; width / 2]
                     (along fsqrt q1 q2 (xye z), ortho fsqrt q1 q2 (xye z)) = false).
      { unfold has_bin2. cbn [fst snd]. rewrite (orthobins_outside _ _ Hm Hout).
        destruct (Np.bin_of lenbins (along fsqrt q1 q2 (xye z))); reflexivity. }
      rewrite (histogramdd2_unbinned_weight _ _ _ _ _ _ _ (rI z) (rI z'))
        by first [assumption | rewrite !length_map; reflexivity].
      rewrite (histogramdd2_unbinned_weight _ _ _ _ _ _ _ (rM z) (rM z'))
        by first [assumption | rewrite !length_map; reflexivity].
      rewrite (histogramdd2_unbinned_weight _ _ _ _ _ _ _ (rN z) (rN z'))
        by first [assumption | rewrite !length_map; reflexivity].
      reflexivity.
    + unfold Np.histogramdd2. rewrite Hm, andb_false_r. reflexivity.
  - (* not selected *)
    rewrite !filter_app. cbn [filter]. rewrite Hpos, Hs. reflexivity.
Qed.

End CutFrameRows.

(** X2.  What [cut1D] leaves out: the intensity, normalization and monitor
    of a point outside the closed energy window, of a point not strictly
    between [q1] and [q2] when [extend=False], and of a point further than
    half the width from the line, never enter the result: changing them by
    any amounts gives the same output. *)
Theorem cut1D_ignores_outside_points (fsqrt : Q -> Q)
    (px py pe I Norm Monitor : list Q) (q1 q2 : Q * Q) (width minPixel Emin Emax : Q)
    (extend : bool) (k : nat) (x y e dI dN dM : Q) :
  List.length px = List.length pe -> List.length py = List.length pe ->
  List.length I = List.length pe -> List.length Norm = List.length pe ->
  List.length Monitor = List.length pe ->
  ~ dirLength fsqrt q1 q2 == 0 ->
  nth_error px k = Some x -> nth_error py k = Some y -> nth_error pe k = Some e ->
  (selected fsqrt q1 q2 Emin Emax extend (x, y, e) = false
   \/ width / 2 < ortho fsqrt q1 q2 (x, y, e)
   \/ ortho fsqrt q1 q2 (x, y, e) < - width / 2) ->
  cut1D fsqrt (px, py, pe) (bump k dI I) (bump k dN Norm) (bump k dM Monitor)
        q1 q2 width minPixel Emin Emax extend
  = cut1D fsqrt (px, py, pe) I Norm Monitor q1 q2 width minPixel Emin Emax extend.
Proof.
  intros L1 L2 L3 L4 L5 _ Kx Ky Ke Hout.
  destruct (zip_rows_maps px py pe I Norm Monitor L1 L2 L3 L4 L5)
    as (E1 & E2 & E3 & E4 & E5 & E6).
  set (Z := zip_rows px py pe I Norm Monitor) in *. clearbody Z.
  subst px py pe I Norm Monitor.
  destruct (rows_nth Z k x y e Kx Ky Ke) as (z & Hk & Hz).
  destruct (nth_error_split _ _ Hk) as (l1 & l2 & HZ & Hlen).
  set (z' := mkRow (rx z) (ry z) (re z) (rI z + dI) (rN z + dN) (rM z + dM)).
  set (Z' := l1 ++ z' :: l2).
  assert (Ex : map rx Z' = map rx Z) by (unfold Z'; rewrite HZ, !map_app; reflexivity).
  assert (Ey : map ry Z' = map ry Z) by (unfold Z'; rewrite HZ, !map_app; reflexivity).
  assert (Ee : map re Z' = map re Z) by (unfold Z'; rewrite HZ, !map_app; reflexivity).
  assert (EI : bump k dI (map rI Z) = map rI Z').
  { rewrite HZ, <- Hlen, bump_app. unfold Z'. rewrite map_app. reflexivity. }
  assert (EN : bump k dN (map rN Z) = map rN Z').
  { rewrite HZ, <- Hlen, bump_app. unfold Z'. rewrite map_app. reflexivity. }
  assert (EM : bump k dM (map rM Z) = map rM Z').
  { rewrite HZ, <- Hlen, bump_app. unfold Z'. rewrite map_app. reflexivity. }
  rewrite EI, EN, EM, <- Ex, <- Ey, <- Ee, cut1D_as_rows.
  rewrite Ex, Ey, Ee, cut1D_as_rows.
  unfold Z'. rewrite HZ. apply cut1D_rows_frame; [reflexivity|].
  rewrite Hz. assumption.
Qed.

Lemma cut1D_ignores_outside_points_witness :
  cut1D sqrt6 ([0; 1 # 2; 1], [0; 1; - (1 # 100)], [1; 1; 5])
        (bump 1 100 [3; 4; 5]) (bump 1 7 [1; 1; 1]) (bump 1 9 [10; 10; 10])
        (0, 0) (1, 0) (1 # 10) (1 # 10) 0 2 true
  = cut1D sqrt6 ([0; 1 # 2; 1], [0; 1; - (1 # 100)], [1; 1; 5])
          [3; 4; 5] [1; 1; 1] [10; 10; 10] (0, 0) (1, 0) (1 # 10) (1 # 10) 0 2 true.
Proof.
  apply (cut1D_ignores_outside_points sqrt6 _ _ _ _ _ _ _ _ _ _ _ _ _ 1%nat (1 # 2) 1 1);
    try reflexivity.
  - intro H. vm_compute in H. discriminate.
  - right. right. vm_compute. reflexivity.
Defined.

(** ** One-dimensional histograms *)

Lemma bin_indicator_total (edges : list Q) (v w : Q) :
  Np.sum (map (fun i => if match Np.bin_of edges v with
                           | Some i' => (i' =? i)%nat
                           | None => false
                           end then w else 0)
              (seq 0 (List.length edges - 1)))
  == if has_bin edges v then w else 0.
Proof.
  unfold has_bin. destruct (Np.bin_of edges v) as [i'|] eqn:E.
  - apply bin_of_range in E. rewrite sum_indicator.
    assert (H : ((0 <=? i') && (i' <? 0 + (List.length edges - 1)))%nat = true).
    { apply andb_true_iff. split; [apply Nat.leb_le | apply Nat.ltb_lt]; lia. }
    rewrite H. reflexivity.
  - apply sum_map_zero.
Qed.

Lemma bin_weights_total (edges : list Q) (l : list (Q * Q)) :
  Np.sum (map (fun i =>
            Np.sum (map snd (filter (fun vw => match Np.bin_of edges (fst vw) with
                                               | Some i' => (i' =? i)%nat
                                               | None => false
                                               end) l)))
              (seq 0 (List.length edges - 1)))
  == Np.sum (map snd (filter (fun vw => has_bin edges (fst vw)) l)).
Proof.
  induction l as [|[v w] l IH].
  - simpl. apply sum_map_zero.
  - rewrite (sum_map_ext _
       (fun i =>
          (if match Np.bin_of edges v with
              | Some i' => (i' =? i)%nat
              | None => false
              end then w else 0)
          + Np.sum (map snd (filter (fun vw => match Np.bin_of edges (fst vw) with
                                               | Some i' => (i' =? i)%nat
                                               | None => false
                                               end) l)))).
    + rewrite sum_map_plus, IH, bin_indicator_total.
      simpl. destruct (has_bin edges v); simpl; ring.
    + intros i _. simpl.
      destruct (match Np.bin_of edges v with
                | Some i' => (i' =? i)%nat
                | None => false
                end); simpl; ring.
Qed.

(** Conservation: the total of a 1-D histogram is the total weight of the
    values that have a bin. *)
Lemma histogram_total (a edges w H : list Q) :
  Np.histogram a edges w = Ok H ->
  Np.sum H == Np.sum (map snd (filter (fun vw => has_bin edges (fst vw)) (combine a w))).
Proof.
  unfold Np.histogram.
  destruct (negb (Np.monotone edges)); [discriminate|].
  destruct (negb (List.length w =? List.length a)%nat); [discriminate|].
  intro E. injection E as <-. apply bin_weights_total.
Qed.

Lemma histogram_ok (a edges w : list Q) :
  Np.monotone edges = true -> List.length w = List.length a ->
  exists H, Np.histogram a edges w = Ok H /\ List.length H = (List.length edges - 1)%nat.
Proof.
  intros Hm Hl. unfold Np.histogram. rewrite Hm, Hl, Nat.eqb_refl. simpl.
  eexists. split; [reflexivity|]. rewrite length_map, length_seq. reflexivity.
Qed.

(** Every value handed to [binEdges] has a bin between the edges it
    returns. *)
Lemma binEdges_has_bin (values : list Q) (t v : Q) :
  0 < t -> In v values -> has_bin (Tools.binEdges values t) v = true.
Proof.
  intros Ht Hv.
  assert (Hne : values <> []) by (intro H; rewrite H in Hv; contradiction).
  destruct (binEdges_contract values t Ht Hne) as (Hm & Hl & Hc).
  destruct (Hc v Hv) as [Hlo Hhi].
  destruct (bin_of_inside _ v Hm Hl Hlo Hhi) as [i Hi].
  unfold has_bin. rewrite Hi. reflexivity.
Qed.

(** The histogram of values over their own [binEdges], for any weights
    given by a function of the rows. *)
Lemma histogram_binEdges_rows {A : Type} (S : list A) (pos w : A -> Q) (t : Q) :
  0 < t ->
  exists H, Np.histogram (map pos S) (Tools.binEdges (map pos S) t) (map w S) = Ok H
            /\ List.length H = (List.length (Tools.binEdges (map pos S) t) - 1)%nat
            /\ Np.sum H == Np.sum (map w S).
Proof.
  intro Ht.
  assert (Hm : Np.monotone (Tools.binEdges (map pos S) t) = true).
  { destruct S as [|s S']; [reflexivity|].
    apply (binEdges_contract (map pos (s :: S')) t Ht). discriminate. }
  destruct (histogram_ok (map pos S) _ (map w S) Hm) as [H [HH HL]].
  { rewrite !length_map. reflexivity. }
  exists H. split; [assumption|]. split; [assumption|].
  rewrite (histogram_total _ _ _ _ HH).
  rewrite combine_map, filter_map_comm, map_map. cbn [fst snd].
  rewrite filter_all; [reflexivity|].
  intros x Hx. apply binEdges_has_bin; [assumption|]. apply in_map. assumption.
Qed.

(** X3.  [cut1DE] conserves the totals of its four histograms: when at
    least one point lies both within [width] of [q] and inside the closed
    energy window, the cut returns, the totals of the intensity and
    normalization histograms are the totals of these arrays over the points
    in the cut, the total of the count histogram is the number of these
    points, and the total of the monitor histogram is the total of their
    monitors after the conversion to int64 (truncation towards zero). *)
Theorem cut1DE_conserves_totals (fsqrt : Q -> Q) (px py pe I Norm Monitor : list Q)
    (q : ndarray) (q0 q1 E1 E2 width minPixel : Q) :
  List.length px = List.length pe -> List.length py = List.length pe ->
  List.length I = List.length pe -> List.length Norm = List.length pe ->
  List.length Monitor = List.length pe ->
  0 < minPixel ->
  (shape q = [2]%nat \/ shape q = [2; 1]%nat) -> data q = [q0; q1] ->
  filter (fun z => in_q_range fsqrt (q0, q1) width (xye z) && in_energy E1 E2 (xye z))
         (zip_rows px py pe I Norm Monitor) <> [] ->
  exists intensity MonitorCount Normalization normcounts bins,
    fst (cut1DE fsqrt (mkArgs (px, py, pe) I Norm Monitor q) E1 E2 width minPixel)
    = Ok ([intensity; MonitorCount; Normalization; normcounts], [bins])
    /\ let S := filter (fun z => in_q_range fsqrt (q0, q1) width (xye z)
                                 && in_energy E1 E2 (xye z))
                       (zip_rows px py pe I Norm Monitor) in
       Np.sum intensity == Np.sum (map rI S)
       /\ Np.sum MonitorCount == Np.sum (map (fun z => Np.as_int64 (rM z)) S)
       /\ Np.sum Normalization == Np.sum (map rN S)
       /\ Np.sum normcounts == inject_Z (Z.of_nat (List.length S))
       /\ List.length intensity = (List.length bins - 1)%nat.
Proof.
  intros L1 L2 L3 L4 L5 Hpix Hs Hd Hne.
  destruct (zip_rows_maps px py pe I Norm Monitor L1 L2 L3 L4 L5)
    as (E1' & E2' & E3' & E4' & E5' & E6').
  set (Z := zip_rows px py pe I Norm Monitor) in *. clearbody Z.
  subst px py pe I Norm Monitor.
  rewrite (cut1DE_as_rows fsqrt E1 E2 width minPixel q0 q1 Z q Hs Hd). cbv zeta.
  set (S := filter (fun z => in_q_range fsqrt (q0, q1) width (xye z)
                             && in_energy E1 E2 (xye z)) Z) in *.
  destruct S as [|z0 S'] eqn:ES; [contradiction|]. rewrite <- ES.
  assert (Hz0 : In z0 Z /\ in_q_range fsqrt (q0, q1) width (xye z0)
                           && in_energy E1 E2 (xye z0) = true).
  { apply (filter_In (fun z => in_q_range fsqrt (q0, q1) width (xye z)
                               && in_energy E1 E2 (xye z))).
    fold S. rewrite ES. left. reflexivity. }
  destruct Hz0 as [Hin Hboth]. apply andb_true_iff in Hboth. destruct Hboth as [Hq He].
  rewrite (filter_nonempty_length (fun z => in_energy E1 E2 (xye z)) Z z0 Hin He).
  rewrite (filter_nonempty_length (fun z => in_q_range fsqrt (q0, q1) width (xye z)) Z z0 Hin Hq).
  assert (Hb : (List.length (Tools.binEdges (map re S) minPixel) =? 0)%nat = false).
  { apply Nat.eqb_neq.
    assert (Hn : map re S <> []) by (rewrite ES; discriminate).
    destruct (binEdges_contract (map re S) minPixel Hpix Hn) as (_ & Hl & _). lia. }
  rewrite Hb.
  destruct (histogram_binEdges_rows S re (fun _ => 1) minPixel Hpix) as (cn & Hcn & _ & Scn).
  destruct (histogram_binEdges_rows S re rI minPixel Hpix) as (int & Hint & Lint & Sint).
  destruct (histogram_binEdges_rows S re (fun z => Np.as_int64 (rM z)) minPixel Hpix)
    as (mon & Hmon & _ & Smon).
  destruct (histogram_binEdges_rows S re rN minPixel Hpix) as (nor & Hnor & _ & Snor).
  rewrite Hcn, Hint, Hmon, Hnor. cbn [bind].
  exists int, mon, nor, cn, (Tools.binEdges (map re S) minPixel).
  split; [reflexivity|].
  rewrite Sint, Smon, Snor, Scn, sum_ones.
  repeat split; try reflexivity. assumption.
Qed.

Lemma cut1DE_conserves_totals_witness :
  exists intensity MonitorCount Normalization normcounts bins,
    fst (cut1DE sqrt6 (mkArgs ([0; 1 # 10; 3], [0; 0; 0], [1; 2; 1]) [3; 4; 5] [1; 1; 1]
                              [21 # 2; 10; 10] (mkArr [2]%nat [0; 0]))
                0 3 (1 # 2) (1 # 10))
    = Ok ([intensity; MonitorCount; Normalization; normcounts], [bins])
    /\ let S := filter (fun z => in_q_range sqrt6 (0, 0) (1 # 2) (xye z)
                                 && in_energy 0 3 (xye z))
                       (zip_rows [0; 1 # 10; 3] [0; 0; 0] [1; 2; 1] [3; 4; 5] [1; 1; 1]
                                 [21 # 2; 10; 10]) in
       Np.sum intensity == Np.sum (map rI S)
       /\ Np.sum MonitorCount == Np.sum (map (fun z => Np.as_int64 (rM z)) S)
       /\ Np.sum Normalization == Np.sum (map rN S)
       /\ Np.sum normcounts == inject_Z (Z.of_nat (List.length S))
       /\ List.length intensity = (List.length bins - 1)%nat.
Proof.
  apply (cut1DE_conserves_totals sqrt6 _ _ _ _ _ _ _ 0 0); try reflexivity.
  - left. reflexivity.
  - vm_compute. discriminate.
Defined.

(** X4.  The empty cuts of [cut1DE] when the energy window holds points:
    with no point within [width] of [q] it raises 'No points are inside
    selected q range.'; with points within [width] of [q] but none of them
    inside the energy window it raises nothing and returns four empty
    arrays and the bin list [[E1,E2]]. *)
Theorem cut1DE_empty_selection (fsqrt : Q -> Q) (px py pe I Norm Monitor : list Q)
    (q : ndarray) (q0 q1 E1 E2 width minPixel : Q) :
  List.length px = List.length pe -> List.length py = List.length pe ->
  List.length I = List.length pe -> List.length Norm = List.length pe ->
  List.length Monitor = List.length pe ->
  (shape q = [2]%nat \/ shape q = [2; 1]%nat) -> data q = [q0; q1] ->
  (exists e, In e pe /\ E1 <= e /\ e <= E2) ->
  let Z := zip_rows px py pe I Norm Monitor in
  let out := fst (cut1DE fsqrt (mkArgs (px, py, pe) I Norm Monitor q) E1 E2 width minPixel) in
  ((forall z, In z Z -> in_q_range fsqrt (q0, q1) width (xye z) = false) ->
   out = Raise no_q_points)
  /\ ((exists z, In z Z /\ in_q_range fsqrt (q0, q1) width (xye z) = true) ->
      (forall z, In z Z -> in_q_range fsqrt (q0, q1) width (xye z) = true ->
                 in_energy E1 E2 (xye z) = false) ->
      out = Ok ([[]; []; []; []], [[E1; E2]])).
Proof.
  intros L1 L2 L3 L4 L5 Hs Hd [e (He & Hlo & Hhi)].
  destruct (zip_rows_maps px py pe I Norm Monitor L1 L2 L3 L4 L5)
    as (E1' & E2' & E3' & E4' & E5' & E6').
  cbv zeta.
  set (Z := zip_rows px py pe I Norm Monitor) in *. clearbody Z.
  subst px py pe I Norm Monitor.
  rewrite (cut1DE_as_rows fsqrt E1 E2 width minPixel q0 q1 Z q Hs Hd). cbv zeta.
  apply in_map_iff in He. destruct He as (ze & Hze & Hin).
  assert (Hee : in_energy E1 E2 (xye ze) = true).
  { unfold in_energy. cbn [xye snd]. rewrite Hze.
    apply andb_true_iff. split; apply leb_le; assumption. }
  rewrite (filter_nonempty_length (fun z => in_energy E1 E2 (xye z)) Z ze Hin Hee).
  split.
  - intro Hnone. rewrite (filter_none _ Z Hnone). reflexivity.
  - intros [zq (Hzq & Hq)] Hdisj.
    rewrite (filter_nonempty_length (fun z => in_q_range fsqrt (q0, q1) width (xye z)) Z zq Hzq Hq).
    rewrite (filter_none (fun z => in_q_range fsqrt (q0, q1) width (xye z)
                                   && in_energy E1 E2 (xye z)) Z).
    + reflexivity.
    + intros z Hz. destruct (in_q_range fsqrt (q0, q1) width (xye z)) eqn:E; [|reflexivity].
      rewrite (Hdisj z Hz E). reflexivity.
Qed.

Lemma cut1DE_empty_selection_witness :
  fst (cut1DE sqrt6 (mkArgs ([3], [0], [1]) [5] [1] [10] (mkArr [2]%nat [0; 0]))
              0 2 (1 # 2) (1 # 10))
  = Raise no_q_points
  /\ fst (cut1DE sqrt6 (mkArgs ([3; 0], [0; 0], [1; 7]) [5; 6] [1; 1] [10; 10]
                               (mkArr [2; 1]%nat [0; 0]))
                 0 2 (1 # 2) (1 # 10))
     = Ok ([[]; []; []; []], [[0; 2]]).
Proof.
  split.
  - apply (cut1DE_empty_selection sqrt6 [3] [0] [1] [5] [1] [10] _ 0 0); try reflexivity.
    + left. reflexivity.
    + exists 1. split; [left; reflexivity|]. split; vm_compute; discriminate.
    + intros z [<-|[]]. vm_compute. reflexivity.
  - apply (cut1DE_empty_selection sqrt6 [3; 0] [0; 0] [1; 7] [5; 6] [1; 1] [10; 10] _ 0 0);
      try reflexivity.
    + right. reflexivity.
    + exists 1. split; [left; reflexivity|]. split; vm_compute; discriminate.
    + eexists. split; [right; left; reflexivity|]. vm_compute. reflexivity.
    + intros z [<-|[<-|[]]] H; vm_compute in H; try discriminate. vm_compute. reflexivity.
Defined.

(** ** The slices of cutQE *)

Lemma subseq_length {A : Type} (sub l : list A) :
  subseq sub l -> (List.length sub <= List.length l)%nat.
Proof.
  induction 1; simpl; lia.
Qed.

Lemma windows_length (edges : list Q) :
  List.length (windows edges) = (List.length edges - 1)%nat.
Proof.
  induction edges as [|lo rest IH]; [reflexivity|].
  destruct rest as [|hi rest']; [reflexivity|].
  change (windows (lo :: hi :: rest')) with ([lo; hi] :: windows (hi :: rest')).
  cbn [List.length] in *. rewrite IH. lia.
Qed.

(** The bin list of a cut ends with the energy window of the cut. *)
Lemma cut1D_energy_window (fsqrt : Q -> Q) (positions : positions_t) (I Norm Monitor : list Q)
    (q1 q2 : Q * Q) (width minPixel Emin Emax : Q) (extend : bool)
    (dl : datalist) (bl : binlist) :
  cut1D fsqrt positions I Norm Monitor q1 q2 width minPixel Emin Emax extend = Ok (dl, bl) ->
  snd bl = [Emin; Emax].
Proof.
  unfold cut1D. destruct positions as [[px py] pe]. cbv zeta.
  destruct (Np.count_true (energy_mask pe Emin Emax) =? 0)%nat.
  { intro H. injection H as <- <-. reflexivity. }
  destruct (List.length (Tools.binEdges _ minPixel) =? 0)%nat.
  { intro H. injection H as <- <-. reflexivity. }
  destruct (Np.histogramdd2 _ _ _ (Np.ones _)); [|discriminate]. cbn [bind].
  destruct (Np.histogramdd2 _ _ _ _); [|discriminate]. cbn [bind].
  destruct (Np.histogramdd2 _ _ _ _); [|discriminate]. cbn [bind].
  destruct (Np.histogramdd2 _ _ _ _); [|discriminate]. cbn [bind].
  intro H. injection H as <- <-. reflexivity.
Qed.

Section Slices.

Variable fsqrt : Q -> Q.
Variable positions : positions_t.
Variables I Norm Monitor : list Q.
Variables q1 q2 : Q * Q.
Variables width minPix : Q.
Variable extend : bool.

Local Abbreviation loop acc EnergyBins :=
  (cutQE_loop fsqrt positions I Norm Monitor q1 q2 width minPix extend acc EnergyBins).

Local Abbreviation step acc lo hi :=
  (cutQE_step fsqrt positions I Norm Monitor q1 q2 width minPix extend acc lo hi).

(** What one pass of the loop appends: nothing, or one entry to each of
    the seven lists, with a non-empty intensity array and the energy window
    of the pass. *)
Lemma cutQE_step_spec (acc acc' : cutQE_result) (lo hi : Q) :
  step acc lo hi = Ok acc' ->
  acc' = acc
  \/ exists int mon nor cn pos c d,
       int <> [] /\ snd pos = [lo; hi] /\
       acc' = ((intensityArray acc ++ [int], monitorArray acc ++ [mon],
                normalizationArray acc ++ [nor], normcountArray acc ++ [cn]),
               returnpositions acc ++ [pos], centerPos acc ++ [c], binDistance acc ++ [d]).
Proof.
  unfold cutQE_step.
  destruct acc as [[[[[[ia ma] na] ca] rp] cp] bd].
  destruct (cut1D fsqrt positions I Norm Monitor q1 q2 width minPix lo hi extend)
    as [[[[[int mon] nor] cn] pos]|] eqn:Hc; [|discriminate].
  cbn [bind].
  destruct (List.length int =? 0)%nat eqn:El.
  - intro H. injection H as <-. left. reflexivity.
  - intro H. injection H as <-. right.
    exists int, mon, nor, cn, pos. do 2 eexists.
    split; [|split; [|reflexivity]].
    + intro Hn. rewrite Hn in El. discriminate.
    + apply (cut1D_energy_window _ _ _ _ _ _ _ _ _ _ _ _ _ _ Hc).
Qed.

(** The loop only appends, the same number of entries to each list, each
    with a non-empty intensity array, and the energy windows of the
    appended entries are windows of the energy edges, in order. *)
Lemma cutQE_loop_spec (EnergyBins : list Q) :
  forall acc r, loop acc EnergyBins = Ok r ->
  exists ia ma na ca rp cp bd,
    r = ((intensityArray acc ++ ia, monitorArray acc ++ ma,
          normalizationArray acc ++ na, normcountArray acc ++ ca),
         returnpositions acc ++ rp, centerPos acc ++ cp, binDistance acc ++ bd)
    /\ List.length ma = List.length ia /\ List.length na = List.length ia
    /\ List.length ca = List.length ia /\ List.length rp = List.length ia
    /\ List.length cp = List.length ia /\ List.length bd = List.length ia
    /\ Forall (fun a => a <> []) ia
    /\ subseq (map (fun p : binlist => snd p) rp) (windows EnergyBins).
Proof.
  induction EnergyBins as [|lo rest IH]; intros acc r.
  - simpl. intro H. injection H as <-.
    exists [], [], [], [], [], [], [].
    destruct acc as [[[[[[ia ma] na] ca] rp] cp] bd].
    unfold intensityArray, monitorArray, normalizationArray, normcountArray,
      returnpositions, centerPos, binDistance. cbn [fst snd].
    rewrite !app_nil_r. repeat split; try reflexivity; constructor.
  - destruct rest as [|hi rest'].
    + simpl. intro H. injection H as <-.
      exists [], [], [], [], [], [], [].
      destruct acc as [[[[[[ia ma] na] ca] rp] cp] bd].
      unfold intensityArray, monitorArray, normalizationArray, normcountArray,
        returnpositions, centerPos, binDistance. cbn [fst snd].
      rewrite !app_nil_r. repeat split; try reflexivity; constructor.
    + rewrite cutQE_loop_cons.
      destruct (step acc lo hi) as [acc'|] eqn:Hs; [|discriminate].
      cbn [bind]. intro Hl.
      destruct (IH acc' r Hl)
        as (ia & ma & na & ca & rp & cp & bd & Hr & L1 & L2 & L3 & L4 & L5 & L6 & Hne & Hsub).
      change (windows (lo :: hi :: rest')) with ([lo; hi] :: windows (hi :: rest')).
      destruct (cutQE_step_spec acc acc' lo hi Hs)
        as [->|(int & mon & nor & cn & pos & c & d & Hint & Hpos & ->)].
      * exists ia, ma, na, ca, rp, cp, bd.
        repeat split; try assumption. apply subseq_skip. assumption.
      * exists (int :: ia), (mon :: ma), (nor :: na), (cn :: ca), (pos :: rp), (c :: cp), (d :: bd).
        unfold intensityArray, monitorArray, normalizationArray, normcountArray,
          returnpositions, centerPos, binDistance in Hr. cbn [fst snd] in Hr.
        rewrite <- !app_assoc in Hr. cbn [app] in Hr.
        split; [exact Hr|].
        cbn [List.length map]. rewrite L1, L2, L3, L4, L5, L6.
        repeat split; try reflexivity.
        -- constructor; assumption.
        -- rewrite Hpos. apply subseq_take. assumption.
Qed.

End Slices.

(** X5.  The seven lists [cutQE] returns stay aligned: they all have one
    length, which is at most the number of energy intervals; a slice
    without points is skipped, so no intensity array in the result is
    empty; and the bin list of each returned slice ends with its own energy
    interval, these intervals being consecutive pairs of [EnergyBins] in
    their order. *)
Theorem cutQE_outputs_aligned (fsqrt : Q -> Q) (positions : positions_t)
    (I Norm Monitor : list Q) (q1 q2 : Q * Q) (width minPix : Q) (EnergyBins : list Q)
    (extend : bool) (r : cutQE_result) :
  cutQE fsqrt positions I Norm Monitor q1 q2 width minPix EnergyBins extend = Ok r ->
  let n := List.length (intensityArray r) in
  List.length (monitorArray r) = n /\ List.length (normalizationArray r) = n
  /\ List.length (normcountArray r) = n /\ List.length (returnpositions r) = n
  /\ List.length (centerPos r) = n /\ List.length (binDistance r) = n
  /\ (n <= List.length EnergyBins - 1)%nat
  /\ Forall (fun a => a <> []) (intensityArray r)
  /\ subseq (map (fun p : binlist => snd p) (returnpositions r)) (windows EnergyBins).
Proof.
  unfold cutQE. intro H.
  destruct (cutQE_loop_spec fsqrt positions I Norm Monitor q1 q2 width minPix extend
              EnergyBins _ r H)
    as (ia & ma & na & ca & rp & cp & bd & -> & L1 & L2 & L3 & L4 & L5 & L6 & Hne & Hsub).
  unfold intensityArray, monitorArray, normalizationArray, normcountArray,
    returnpositions, centerPos, binDistance. cbn [fst snd app].
  repeat split; try assumption.
  rewrite <- L4, <- windows_length.
  rewrite <- (length_map (fun p : binlist => snd p) rp).
  apply subseq_length. assumption.
Qed.

Lemma cutQE_outputs_aligned_witness :
  exists r,
    cutQE sqrt6 ([0; 1 # 2; 1], [0; 1 # 100; - (1 # 100)], [1; 2; 5])
          [3; 4; 5] [1; 1; 1] [10; 10; 10] (0, 0) (1, 0) (1 # 10) (1 # 10)
          [0; 3; 4; 6] true = Ok r
    /\ List.length (binDistance r) = List.length (intensityArray r)
    /\ (List.length (intensityArray r) <= 3)%nat
    /\ subseq (map (fun p : binlist => snd p) (returnpositions r)) [[0; 3]; [3; 4]; [4; 6]].
Proof.
  assert (E : exists r,
             cutQE sqrt6 ([0; 1 # 2; 1], [0; 1 # 100; - (1 # 100)], [1; 2; 5])
                   [3; 4; 5] [1; 1; 1] [10; 10; 10] (0, 0) (1, 0) (1 # 10) (1 # 10)
                   [0; 3; 4; 6] true = Ok r)
    by (eexists; vm_compute; reflexivity).
  destruct E as [r E]. exists r. split; [exact E|].
  pose proof (cutQE_outputs_aligned _ _ _ _ _ _ _ _ _ _ _ _ E) as H.
  cbv zeta in H. destruct H as (_ & _ & _ & _ & _ & H6 & H7 & _ & H9).
  split; [exact H6|]. split; [exact H7 | exact H9].
Defined.

(** ** The segments of a path cut *)

Lemma line_positions_length (tr : list Q -> list Q) (check : bool) (self : DataSet)
    (QPoints : list (list Q)) (format : string) (positions : list (list Q)) :
  line_positions tr check self QPoints format = Ok positions ->
  List.length positions = List.length QPoints.
Proof.
  unfold line_positions.
  destruct (String.eqb (lower format) "rlu" || String.eqb (lower format) "hkl")%bool.
  - destruct (check && negb (shape1 QPoints =? 3)%nat); [discriminate|].
    destruct (convertedFiles self =? 0)%nat; [discriminate|].
    intro H. injection H as <-. apply length_map.
  - destruct (String.eqb (lower format) "qxqy"); [|discriminate].
    destruct (check && negb (shape1 QPoints =? 2)%nat); [discriminate|].
    intro H. injection H as <-. reflexivity.
Qed.

(** The loop of [cutQELine] cuts between each pair of consecutive
    positions, with [extend=False]. *)
Lemma cutQELine_loop_spec (fsqrt : Q -> Q) (self : DataSet) (EnergyBins : list Q)
    (width minPixel : Q) (dataFiles : option DataSet) (positions : list (list Q)) :
  forall segs,
  cutQELine_loop fsqrt self positions EnergyBins width minPixel dataFiles = Ok segs ->
  List.length segs = (List.length positions - 1)%nat
  /\ forall i s, nth_error segs i = Some s ->
       DataSet_cutQE fsqrt self (row_xy (nth i positions [])) (row_xy (nth (S i) positions []))
                     width minPixel EnergyBins false dataFiles = Ok s.
Proof.
  induction positions as [|p rest IH]; intros segs.
  - simpl. intro H. injection H as <-. split; [reflexivity|].
    intros [|i] s H; discriminate.
  - destruct rest as [|p' rest'].
    + simpl. intro H. injection H as <-. split; [reflexivity|].
      intros [|i] s H; discriminate.
    + change (cutQELine_loop fsqrt self (p :: p' :: rest') EnergyBins width minPixel dataFiles)
        with (s <- DataSet_cutQE fsqrt self (row_xy p) (row_xy p') width minPixel EnergyBins
                                 false dataFiles ;;
              ss <- cutQELine_loop fsqrt self (p' :: rest') EnergyBins width minPixel dataFiles ;;
              Ok (s :: ss)).
      destruct (DataSet_cutQE fsqrt self (row_xy p) (row_xy p') width minPixel EnergyBins
                              false dataFiles) as [s0|] eqn:Hs; [|discriminate].
      cbn [bind].
      destruct (cutQELine_loop fsqrt self (p' :: rest') EnergyBins width minPixel dataFiles)
        as [ss|] eqn:Hl; [|discriminate].
      cbn [bind]. intro H. injection H as <-.
      destruct (IH ss eq_refl) as [Hlen Hnth].
      split.
      * cbn [List.length] in *. lia.
      * intros [|i] s Hi.
        -- cbn in Hi. injection Hi as <-. exact Hs.
        -- cbn [nth_error] in Hi. apply (Hnth i s Hi).
Qed.

(** X6.  [cutQELine] cuts once between each pair of consecutive way-points:
    when the method returns, [np.array] has raised on none of the four
    lists, each of its four outputs has [len(QPoints)-1] entries, and entry
    [i] is the output of [DataSet.cutQE] between the translated way-points
    [i] and [i+1] with [extend=False], so that only points strictly between
    the two way-points enter a segment.  When [np.array] raises on one of
    the lists (a ValueError, for lists of arrays whose shapes it cannot
    combine), the method raises it and returns nothing. *)
Theorem cutQELine_one_cut_per_segment (np_array_raises : forall A : Type, list A -> option exn)
    (fsqrt : Q -> Q) (tr : list Q -> list Q)
    (self : DataSet) (QPoints : list (list Q)) (EnergyBins : list Q) (width minPixel : Q)
    (format : string) (dataFiles : option DataSet)
    (DataList : list (list array2 * list array2 * list array2 * list array2))
    (BinList : list (list binlist)) (centerPosition : list (list array2))
    (binDist : list (list (list Q))) :
  DataSet_cutQELine np_array_raises fsqrt tr self QPoints EnergyBins width minPixel format
                    dataFiles
  = Ok (DataList, BinList, centerPosition, binDist) ->
  let n := (List.length QPoints - 1)%nat in
  (np_array_raises _ DataList = None /\ np_array_raises _ BinList = None
   /\ np_array_raises _ centerPosition = None /\ np_array_raises _ binDist = None)
  /\ List.length DataList = n /\ List.length BinList = n
  /\ List.length centerPosition = n /\ List.length binDist = n
  /\ exists positions,
       line_positions tr true self QPoints format = Ok positions
       /\ forall i, (i < n)%nat ->
            exists s,
              DataSet_cutQE fsqrt self (row_xy (nth i positions []))
                            (row_xy (nth (S i) positions []))
                            width minPixel EnergyBins false dataFiles = Ok s
              /\ nth_error DataList i = Some (fst (fst (fst s)))
              /\ nth_error BinList i = Some (snd (fst (fst s)))
              /\ nth_error centerPosition i = Some (snd (fst s))
              /\ nth_error binDist i = Some (snd s).
Proof.
  unfold DataSet_cutQELine, cutQELine.
  destruct (List.length QPoints <? 2)%nat; [discriminate|].
  destruct (line_positions tr true self QPoints format) as [positions|] eqn:Hp; [|discriminate].
  cbn [bind].
  destruct (cutQELine_loop fsqrt self positions EnergyBins width minPixel dataFiles)
    as [segs|] eqn:Hl; [|discriminate].
  cbn [bind]. unfold np_array.
  destruct (np_array_raises _ (map (fun s : segment => fst (fst (fst s))) segs)) eqn:N1;
    [discriminate|].
  cbn [bind].
  destruct (np_array_raises _ (map (fun s : segment => snd (fst (fst s))) segs)) eqn:N2;
    [discriminate|].
  cbn [bind].
  destruct (np_array_raises _ (map (fun s : segment => snd (fst s)) segs)) eqn:N3;
    [discriminate|].
  cbn [bind].
  destruct (np_array_raises _ (map (fun s : segment => snd s) segs)) eqn:N4;
    [discriminate|].
  cbn [bind]. intro H. injection H as <- <- <- <-.
  destruct (cutQELine_loop_spec _ _ _ _ _ _ _ _ Hl) as [Hlen Hnth].
  rewrite (line_positions_length _ _ _ _ _ _ Hp) in Hlen.
  cbv zeta. rewrite !length_map.
  split; [repeat split; assumption|].
  repeat split; try assumption.
  exists positions. split; [reflexivity|].
  intros i Hi.
  destruct (nth_error segs i) as [s|] eqn:Es.
  - exists s. split; [apply (Hnth i s Es)|].
    repeat split; rewrite nth_error_map, Es; reflexivity.
  - apply nth_error_None in Es. lia.
Qed.

Lemma cutQELine_one_cut_per_segment_witness :
  exists DataList BinList centerPosition binDist s0 s1,
    DataSet_cutQELine (fun _ _ => None) sqrt6 tr_first2 two_segment_set
                      [[0; 0]; [1; 0]; [1; 1]] [0; 1] (1 # 10) (1 # 100) "QxQy" None
    = Ok (DataList, BinList, centerPosition, binDist)
    /\ List.length DataList = 2%nat /\ List.length binDist = 2%nat
    /\ DataSet_cutQE sqrt6 two_segment_set (0, 0) (1, 0) (1 # 10) (1 # 100) [0; 1] false None
       = Ok s0
    /\ DataSet_cutQE sqrt6 two_segment_set (1, 0) (1, 1) (1 # 10) (1 # 100) [0; 1] false None
       = Ok s1
    /\ nth_error DataList 0 = Some (fst (fst (fst s0)))
    /\ nth_error DataList 1 = Some (fst (fst (fst s1)))
    /\ Np.sum (map Np.sum2 (intensityArray s0)) == 7
    /\ Np.sum (map Np.sum2 (intensityArray s1)) == 11.
Proof.
  assert (E : exists r,
             DataSet_cutQELine (fun _ _ => None) sqrt6 tr_first2 two_segment_set
                               [[0; 0]; [1; 0]; [1; 1]] [0; 1] (1 # 10) (1 # 100) "QxQy" None
             = Ok r)
    by (eexists; vm_compute; reflexivity).
  destruct E as [[[[DataList BinList] centerPosition] binDist] E].
  pose proof (cutQELine_one_cut_per_segment _ _ _ _ _ _ _ _ _ _ _ _ _ _ E) as H.
  cbv zeta in H.
  destruct H as (_ & H1 & _ & _ & H4 & positions & Hp & Hseg).
  vm_compute in Hp. injection Hp as <-.
  destruct (Hseg 0%nat ltac:(cbn; lia)) as (s0 & C0 & D0 & _).
  destruct (Hseg 1%nat ltac:(cbn; lia)) as (s1 & C1 & D1 & _).
  exists DataList, BinList, centerPosition, binDist, s0, s1.
  split; [exact E|]. split; [exact H1|]. split; [exact H4|].
  change (row_xy (nth 0 [[0; 0]; [1; 0]; [1; 1]] [])) with (0, 0) in C0.
  change (row_xy (nth 1 [[0; 0]; [1; 0]; [1; 1]] [])) with (1, 0) in C0, C1.
  change (row_xy (nth 2 [[0; 0]; [1; 0]; [1; 1]] [])) with (1, 1) in C1.
  split; [exact C0|]. split; [exact C1|]. split; [exact D0|]. split; [exact D1|].
  vm_compute in C0. injection C0 as <-.
  vm_compute in C1. injection C1 as <-.
  split; vm_compute; reflexivity.
Defined.

(** ** The shape of the voxel grid *)

(** Decide the index tests of the slice assignments from the arithmetic
    facts in the context. *)
Ltac nat_tests :=
  repeat match goal with
  | |- context [(?a <? ?b)%nat] =>
      first [ replace (a <? b)%nat with true by (symmetry; apply Nat.ltb_lt; lia)
            | replace (a <? b)%nat with false by (symmetry; apply Nat.ltb_ge; lia) ]
  | |- context [(?a =? ?b)%nat] =>
      first [ replace (a =? b)%nat with true by (symmetry; apply Nat.eqb_eq; lia)
            | replace (a =? b)%nat with false by (symmetry; apply Nat.eqb_neq; lia) ]
  end;
  cbn [andb orb negb].

Lemma get_set (ax : Grid.axis) (v : nat) (s : nat * nat * nat) :
  Grid.get ax (Grid.set ax v s) = v.
Proof.
  destruct ax, s as [[a b] c]; reflexivity.
Qed.

(** The two in-place statements for one axis: within the shape, every
    entry moves down by half the spacing along that axis. *)
Lemma isub_axis (ax : Grid.axis) (A X : Grid.arr3) :
  Grid.sh A = Grid.sh X -> (2 <= Grid.get ax (Grid.sh X))%nat ->
  exists A', Grid.isub_last ax (Grid.isub_init ax A (Grid.diff ax X)) (Grid.diff ax X) = Ok A'
    /\ Grid.sh A' = Grid.sh X
    /\ forall p, (Grid.get ax p < Grid.get ax (Grid.sh X))%nat ->
         Grid.val A' p == Grid.val A p - half_spacing ax X p.
Proof.
  intros Hs Hn. unfold Grid.isub_last.
  cbn [Grid.sh Grid.diff Grid.isub_init]. rewrite get_set.
  replace (Grid.get ax (Grid.sh X) - 1 =? 0)%nat with false
    by (symmetry; apply Nat.eqb_neq; lia).
  eexists. split; [reflexivity|]. split; [exact Hs|].
  intros p Hp. unfold half_spacing.
  cbn [Grid.val Grid.isub_init Grid.sh Grid.diff].
  rewrite Hs.
  replace (Grid.get ax (Grid.sh X) - 1 - 1)%nat with (Grid.get ax (Grid.sh X) - 2)%nat by lia.
  destruct (Nat.eqb_spec (Grid.get ax p) (Grid.get ax (Grid.sh X) - 1)) as [E|E].
  - replace (Grid.get ax p <? Grid.get ax (Grid.sh X) - 1)%nat with false
      by (symmetry; apply Nat.ltb_ge; lia).
    reflexivity.
  - replace (Grid.get ax p <? Grid.get ax (Grid.sh X) - 1)%nat with true
      by (symmetry; apply Nat.ltb_lt; lia).
    reflexivity.
Qed.

(** [XX]: the centres moved down by half a spacing along each axis. *)
Lemma shift_spec (X : Grid.arr3) (n0 n1 n2 : nat) :
  Grid.sh X = (n0, n1, n2) -> (2 <= n0)%nat -> (2 <= n1)%nat -> (2 <= n2)%nat ->
  exists XX, Grid.shift X = Ok XX /\ Grid.sh XX = (n0, n1, n2)
    /\ forall i j k, (i < n0)%nat -> (j < n1)%nat -> (k < n2)%nat ->
         Grid.val XX (i, j, k)
         == Grid.val X (i, j, k) - half_spacing Grid.Ax0 X (i, j, k)
            - half_spacing Grid.Ax1 X (i, j, k) - half_spacing Grid.Ax2 X (i, j, k).
Proof.
  intros Hs H0 H1 H2. unfold Grid.shift.
  destruct (isub_axis Grid.Ax0 X X eq_refl) as (A0 & E0 & S0 & V0).
  { rewrite Hs. exact H0. }
  rewrite E0. cbn [bind].
  destruct (isub_axis Grid.Ax1 A0 X S0) as (A1 & E1 & S1 & V1).
  { rewrite Hs. exact H1. }
  rewrite E1. cbn [bind].
  destruct (isub_axis Grid.Ax2 A1 X S1) as (A2 & E2 & S2 & V2).
  { rewrite Hs. exact H2. }
  rewrite E2.
  exists A2. split; [reflexivity|]. split; [congruence|].
  intros i j k Hi Hj Hk.
  rewrite V2, V1, V0 by (rewrite Hs; assumption). reflexivity.
Qed.

(** An axis of a single centre has no spacing: the second in-place
    statement for that axis raises IndexError. *)
Lemma shift_short (X : Grid.arr3) (n0 n1 n2 : nat) :
  Grid.sh X = (n0, n1, n2) -> (n0 <= 1)%nat \/ (n1 <= 1)%nat \/ (n2 <= 1)%nat ->
  Grid.shift X = Raise IndexError.
Proof.
  intros Hs Hn. unfold Grid.shift, Grid.isub_last.
  cbn [Grid.sh Grid.diff Grid.isub_init]. rewrite !get_set, Hs. cbn [Grid.get fst snd].
  destruct (Nat.eqb_spec (n0 - 1) 0) as [E0|E0]; [reflexivity|]. cbn [bind Grid.sh].
  destruct (Nat.eqb_spec (n1 - 1) 0) as [E1|E1]; [reflexivity|]. cbn [bind Grid.sh].
  destruct (Nat.eqb_spec (n2 - 1) 0) as [E2|E2]; [reflexivity|]. lia.
Qed.

Lemma fill_shape (s : nat * nat * nat) (X XX XT : Grid.arr3) :
  Grid.fill s X XX = Ok XT ->
  Grid.sh XT = (S (fst (fst s)), S (snd (fst s)), S (snd s)).
Proof.
  unfold Grid.fill. destruct s as [[n0 n1] n2]. cbv zeta.
  destruct (negb (Grid.shape_eqb (Grid.sh XX) (n0, n1, n2))); [discriminate|].
  intro H. injection H as <-. reflexivity.
Qed.

Lemma shape_eqb_refl (s : nat * nat * nat) : Grid.shape_eqb s s = true.
Proof.
  unfold Grid.shape_eqb. rewrite !Nat.eqb_refl. reflexivity.
Qed.

Lemma shape_eqb_eq (s t : nat * nat * nat) : Grid.shape_eqb s t = true <-> s = t.
Proof.
  destruct s as [[a b] c], t as [[a' b'] c']. unfold Grid.shape_eqb. cbn [fst snd].
  rewrite !andb_true_iff, !Nat.eqb_eq. split.
  - intros [[-> ->] ->]. reflexivity.
  - intro H. injection H as -> -> ->. auto.
Qed.

(** X7.  The shape law of [calculateGrid3D]: for three centre arrays of
    one shape with at least two centres along every axis it returns three
    edge arrays with one entry more along every axis; as soon as one axis
    holds fewer than two centres it raises IndexError. *)
Theorem calculateGrid3D_shape (X Y Z : Grid.arr3) (n0 n1 n2 : nat) :
  Grid.sh X = (n0, n1, n2) -> Grid.sh Y = (n0, n1, n2) -> Grid.sh Z = (n0, n1, n2) ->
  ((2 <= n0)%nat -> (2 <= n1)%nat -> (2 <= n2)%nat ->
   exists XT YT ZT,
     Grid.calculateGrid3D X Y Z = Ok (XT, YT, ZT)
     /\ Grid.sh XT = (S n0, S n1, S n2)
     /\ Grid.sh YT = (S n0, S n1, S n2)
     /\ Grid.sh ZT = (S n0, S n1, S n2))
  /\ ((n0 <= 1)%nat \/ (n1 <= 1)%nat \/ (n2 <= 1)%nat ->
      Grid.calculateGrid3D X Y Z = Raise IndexError).
Proof.
  intros HX HY HZ. split.
  - intros H0 H1 H2. unfold Grid.calculateGrid3D.
    destruct (shift_spec X n0 n1 n2 HX H0 H1 H2) as (XX & EX & SX & _).
    destruct (shift_spec Y n0 n1 n2 HY H0 H1 H2) as (YY & EY & SY & _).
    destruct (shift_spec Z n0 n1 n2 HZ H0 H1 H2) as (ZZ & EZ & SZ & _).
    rewrite EX, EY, EZ, HX. cbn [bind].
    assert (HF : forall A AA, Grid.sh AA = (n0, n1, n2) ->
              exists AT, Grid.fill (n0, n1, n2) A AA = Ok AT).
    { intros A AA HA. unfold Grid.fill. cbv zeta.
      rewrite HA, shape_eqb_refl. cbn [negb]. eexists. reflexivity. }
    destruct (HF X XX SX) as [XT FX]. destruct (HF Y YY SY) as [YT FY].
    destruct (HF Z ZZ SZ) as [ZT FZ].
    rewrite FX, FY, FZ. cbn [bind].
    exists XT, YT, ZT. split; [reflexivity|].
    rewrite (fill_shape _ _ _ _ FX), (fill_shape _ _ _ _ FY), (fill_shape _ _ _ _ FZ).
    repeat split; reflexivity.
  - intro Hn. unfold Grid.calculateGrid3D.
    rewrite (shift_short X n0 n1 n2 HX Hn). reflexivity.
Qed.

Lemma calculateGrid3D_shape_witness :
  (exists XT YT ZT,
     (let '(X, Y, Z) := Grid.meshgrid [0; 1] [0; 1; 2] [5; 6] in Grid.calculateGrid3D X Y Z)
     = Ok (XT, YT, ZT)
     /\ Grid.sh XT = (3, 4, 3)%nat /\ Grid.sh YT = (3, 4, 3)%nat /\ Grid.sh ZT = (3, 4, 3)%nat)
  /\ (let '(X, Y, Z) := Grid.meshgrid [0; 1] [7] [5; 6] in Grid.calculateGrid3D X Y Z)
     = Raise IndexError.
Proof.
  split.
  - apply (calculateGrid3D_shape _ _ _ 2 3 2); try reflexivity; lia.
  - apply (calculateGrid3D_shape _ _ _ 2 1 2); try reflexivity. right. left. lia.
Defined.

(** ** The edges of the voxel grid along the three axes *)

(** The edge array along the three lines through the origin of the index
    space: the moved centres, closed by the last spacing. *)
Lemma fill_lines (n0 n1 n2 : nat) (X XX XT : Grid.arr3) :
  Grid.fill (n0, n1, n2) X XX = Ok XT ->
  (2 <= n0)%nat -> (2 <= n1)%nat -> (2 <= n2)%nat ->
  (forall i, (i < n0)%nat -> Grid.val XT (i, 0, 0)%nat = Grid.val XX (i, 0, 0)%nat)
  /\ Grid.val XT (n0, 0, 0)%nat
     = Grid.val XX (n0 - 1, 0, 0)%nat + Grid.val (Grid.diff Grid.Ax0 X) (n0 - 2, 0, 0)%nat
  /\ (forall j, (j < n1)%nat -> Grid.val XT (0, j, 0)%nat = Grid.val XX (0, j, 0)%nat)
  /\ Grid.val XT (0, n1, 0)%nat
     = Grid.val XX (0, n1 - 1, 0)%nat + Grid.val (Grid.diff Grid.Ax1 X) (0, n1 - 2, 0)%nat
  /\ (forall k, (k < n2)%nat -> Grid.val XT (0, 0, k)%nat = Grid.val XX (0, 0, k)%nat)
  /\ Grid.val XT (0, 0, n2)%nat
     = Grid.val XX (0, 0, n2 - 1)%nat + Grid.val (Grid.diff Grid.Ax2 X) (0, 0, n2 - 2)%nat.
Proof.
  unfold Grid.fill. cbv zeta.
  destruct (negb (Grid.shape_eqb (Grid.sh XX) (n0, n1, n2))); [discriminate|].
  intro H. injection H as <-. intros H0 H1 H2.
  repeat split; intros;
    cbn [Grid.val Grid.assign Grid.zeros Grid.sh]; nat_tests; reflexivity.
Qed.

Lemma cell_edge_inner (l : list Q) (i : nat) :
  (S i < List.length l)%nat ->
  cell_edge l i = nth i l 0 - (1 # 2) * (nth (S i) l 0 - nth i l 0).
Proof.
  intro H. unfold cell_edge. cbv zeta.
  replace (i <? List.length l - 1)%nat with true by (symmetry; apply Nat.ltb_lt; lia).
  reflexivity.
Qed.

Lemma cell_edge_last (l : list Q) (n : nat) :
  List.length l = S (S n) ->
  cell_edge l (S n) = nth (S n) l 0 - (1 # 2) * (nth (S n) l 0 - nth n l 0).
Proof.
  intro H. unfold cell_edge. cbv zeta. rewrite H.
  replace (S n <? S (S n) - 1)%nat with false by (symmetry; apply Nat.ltb_ge; lia).
  replace (S n =? S (S n) - 1)%nat with true by (symmetry; apply Nat.eqb_eq; lia).
  replace (S n - 1)%nat with n by lia. reflexivity.
Qed.

Lemma cell_edge_close (l : list Q) (n : nat) :
  List.length l = S (S n) ->
  cell_edge l (S (S n)) = nth (S n) l 0 + (1 # 2) * (nth (S n) l 0 - nth n l 0).
Proof.
  intro H. unfold cell_edge. cbv zeta. rewrite H.
  replace (S (S n) <? S (S n) - 1)%nat with false by (symmetry; apply Nat.ltb_ge; lia).
  replace (S (S n) =? S (S n) - 1)%nat with false by (symmetry; apply Nat.eqb_neq; lia).
  replace (S (S n) - 1)%nat with (S n) by lia.
  replace (S (S n) - 2)%nat with n by lia. reflexivity.
Qed.

(** For centres that vary along one axis only (an output of meshgrid), the
    edges along that axis are the cell edges of the centres. *)
Lemma line_edges (ax : Grid.axis) (l : list Q) (X XX XT : Grid.arr3) (n0 n1 n2 : nat) :
  Grid.sh X = (n0, n1, n2) -> (2 <= n0)%nat -> (2 <= n1)%nat -> (2 <= n2)%nat ->
  Grid.get ax (n0, n1, n2) = List.length l ->
  (forall p, Grid.val X p = nth (Grid.get ax p) l 0) ->
  Grid.shift X = Ok XX -> Grid.fill (n0, n1, n2) X XX = Ok XT ->
  forall i, (i <= List.length l)%nat ->
    Grid.val XT (Grid.set ax i (0, 0, 0)%nat) == cell_edge l i.
Proof.
  intros Hs H0 H1 H2 Hl HX Hshift Hfill i Hi.
  destruct (shift_spec X n0 n1 n2 Hs H0 H1 H2) as (XX' & EX & _ & VX).
  rewrite Hshift in EX. injection EX as <-.
  destruct (fill_lines n0 n1 n2 X XX XT Hfill H0 H1 H2) as (F0 & C0 & F1 & C1 & F2 & C2).
  assert (Hcase : (S i < List.length l)%nat
                  \/ (exists n, List.length l = S (S n) /\ i = S n)
                  \/ (exists n, List.length l = S (S n) /\ i = S (S n))).
  { destruct ax; cbn [Grid.get fst snd] in Hl; rewrite <- Hl;
      [ destruct n0 as [|[|n]] | destruct n1 as [|[|n]] | destruct n2 as [|[|n]] ];
      try lia;
      (destruct (Nat.lt_ge_cases (S i) (S (S n))) as [L|G]; [left; assumption|];
       right; destruct (Nat.eq_dec i (S n)); [left | right]; exists n; split; lia). }
  destruct ax; cbn [Grid.get Grid.set fst snd] in *.
  - destruct Hcase as [Hc|[(n & Hn & ->)|(n & Hn & ->)]].
    + rewrite F0, VX by lia. rewrite cell_edge_inner by assumption.
      unfold half_spacing. rewrite Hs. cbn [Grid.get Grid.set Grid.val Grid.diff fst snd].
      rewrite !HX. cbn [Grid.get Grid.set fst snd].
      nat_tests. ring.
    + rewrite F0, VX by lia. rewrite cell_edge_last by assumption.
      unfold half_spacing. rewrite Hs. cbn [Grid.get Grid.set Grid.val Grid.diff fst snd].
      rewrite !HX. cbn [Grid.get Grid.set fst snd].
      nat_tests. replace (n0 - 2)%nat with n by lia. ring.
    + rewrite cell_edge_close by assumption.
      replace (S (S n)) with n0 by lia. rewrite C0, VX by lia.
      unfold half_spacing. rewrite Hs. cbn [Grid.get Grid.set Grid.val Grid.diff fst snd].
      rewrite !HX. cbn [Grid.get Grid.set fst snd].
      nat_tests. replace (n0 - 2)%nat with n by lia. replace (n0 - 1)%nat with (S n) by lia.
      ring.
  - destruct Hcase as [Hc|[(n & Hn & ->)|(n & Hn & ->)]].
    + rewrite F1, VX by lia. rewrite cell_edge_inner by assumption.
      unfold half_spacing. rewrite Hs. cbn [Grid.get Grid.set Grid.val Grid.diff fst snd].
      rewrite !HX. cbn [Grid.get Grid.set fst snd].
      nat_tests. ring.
    + rewrite F1, VX by lia. rewrite cell_edge_last by assumption.
      unfold half_spacing. rewrite Hs. cbn [Grid.get Grid.set Grid.val Grid.diff fst snd].
      rewrite !HX. cbn [Grid.get Grid.set fst snd].
      nat_tests. replace (n1 - 2)%nat with n by lia. ring.
    + rewrite cell_edge_close by assumption.
      replace (S (S n)) with n1 by lia. rewrite C1, VX by lia.
      unfold half_spacing. rewrite Hs. cbn [Grid.get Grid.set Grid.val Grid.diff fst snd].
      rewrite !HX. cbn [Grid.get Grid.set fst snd].
      nat_tests. replace (n1 - 2)%nat with n by lia. replace (n1 - 1)%nat with (S n) by lia.
      ring.
  - destruct Hcase as [Hc|[(n & Hn & ->)|(n & Hn & ->)]].
    + rewrite F2, VX by lia. rewrite cell_edge_inner by assumption.
      unfold half_spacing. rewrite Hs. cbn [Grid.get Grid.set Grid.val Grid.diff fst snd].
      rewrite !HX. cbn [Grid.get Grid.set fst snd].
      nat_tests. ring.
    + rewrite F2, VX by lia. rewrite cell_edge_last by assumption.
      unfold half_spacing. rewrite Hs. cbn [Grid.get Grid.set Grid.val Grid.diff fst snd].
      rewrite !HX. cbn [Grid.get Grid.set fst snd].
      nat_tests. replace (n2 - 2)%nat with n by lia. ring.
    + rewrite cell_edge_close by assumption.
      replace (S (S n)) with n2 by lia. rewrite C2, VX by lia.
      unfold half_spacing. rewrite Hs. cbn [Grid.get Grid.set Grid.val Grid.diff fst snd].
      rewrite !HX. cbn [Grid.get Grid.set fst snd].
      nat_tests. replace (n2 - 2)%nat with n by lia. replace (n2 - 1)%nat with (S n) by lia.
      ring.
Qed.

Lemma nth_map_seq {A : Type} (f : nat -> A) (m i : nat) (d : A) :
  (i < m)%nat -> nth i (map f (seq 0 m)) d = f i.
Proof.
  intro H. rewrite (nth_indep _ d (f 0%nat)) by (rewrite length_map, length_seq; exact H).
  rewrite map_nth, seq_nth by exact H. reflexivity.
Qed.

(** With equal spacing the cell edges lie half a spacing on either side
    of each centre. *)
Lemma edges_of_regular (d : Q) (l e : list Q) :
  (2 <= List.length l)%nat -> edges_of l e -> equally_spaced d l -> centred_cells d l e.
Proof.
  intros Hl [_ He] Hd i Hi.
  destruct l as [|x0 [|x1 l']] eqn:El; cbn [List.length] in Hl; try lia.
  rewrite <- El in *.
  assert (Hlen : exists n, List.length l = S (S n)).
  { rewrite El. cbn [List.length]. eexists. reflexivity. }
  destruct Hlen as [n Hn].
  destruct (Nat.lt_ge_cases (S i) (List.length l)) as [L|G].
  - (* an inner centre *)
    rewrite !He by lia. rewrite (cell_edge_inner l i L).
    pose proof (Hd i L) as D1.
    split; [qlra|].
    destruct (Nat.lt_ge_cases (S (S i)) (List.length l)) as [L2|G2].
    + rewrite (cell_edge_inner l (S i) L2). pose proof (Hd (S i) L2) as D2. qlra.
    + assert (E : S i = S n) by lia. rewrite E in *.
      rewrite (cell_edge_last l n Hn).
      assert (Ei : i = n) by lia. subst i. qlra.
  - (* the last centre *)
    assert (E : i = S n) by lia. subst i.
    rewrite !He by lia.
    rewrite (cell_edge_last l n Hn), (cell_edge_close l n Hn).
    assert (L : (S n < List.length l)%nat) by lia.
    pose proof (Hd n L) as D1. split; qlra.
Qed.

(** The edges calculateGrid3D returns for the centres [np.meshgrid] builds
    from three axes with at least two entries each. *)
Lemma meshgrid_edges (_X _Y _Z : list Q) :
  (2 <= List.length _X)%nat -> (2 <= List.length _Y)%nat -> (2 <= List.length _Z)%nat ->
  exists XT YT ZT e0 e1 e2,
    (let '(X, Y, Z) := Grid.meshgrid _X _Y _Z in Grid.calculateGrid3D X Y Z) = Ok (XT, YT, ZT)
    /\ Grid.axis_edges Grid.Ax0 XT = Ok e0
    /\ Grid.axis_edges Grid.Ax1 YT = Ok e1
    /\ Grid.axis_edges Grid.Ax2 ZT = Ok e2
    /\ edges_of _X e0 /\ edges_of _Y e1 /\ edges_of _Z e2.
Proof.
  intros H0 H1 H2. unfold Grid.meshgrid.
  set (n0 := List.length _X) in *. set (n1 := List.length _Y) in *.
  set (n2 := List.length _Z) in *.
  set (X := Grid.mkArr3 (n0, n1, n2) (fun '(i, j, k) => nth i _X 0)).
  set (Y := Grid.mkArr3 (n0, n1, n2) (fun '(i, j, k) => nth j _Y 0)).
  set (Z := Grid.mkArr3 (n0, n1, n2) (fun '(i, j, k) => nth k _Z 0)).
  unfold Grid.calculateGrid3D.
  destruct (shift_spec X n0 n1 n2 eq_refl H0 H1 H2) as (XX & EX & SX & _).
  destruct (shift_spec Y n0 n1 n2 eq_refl H0 H1 H2) as (YY & EY & SY & _).
  destruct (shift_spec Z n0 n1 n2 eq_refl H0 H1 H2) as (ZZ & EZ & SZ & _).
  rewrite EX, EY, EZ. cbn [bind].
  change (Grid.sh X) with (n0, n1, n2).
  assert (HF : forall A AA, Grid.sh AA = (n0, n1, n2) ->
            exists AT, Grid.fill (n0, n1, n2) A AA = Ok AT).
  { intros A AA HA. unfold Grid.fill. cbv zeta.
    rewrite HA, shape_eqb_refl. cbn [negb]. eexists. reflexivity. }
  destruct (HF X XX SX) as [XT FX]. destruct (HF Y YY SY) as [YT FY].
  destruct (HF Z ZZ SZ) as [ZT FZ].
  rewrite FX, FY, FZ. cbn [bind].
  pose proof (line_edges Grid.Ax0 _X X XX XT n0 n1 n2 eq_refl H0 H1 H2 eq_refl) as LX.
  pose proof (line_edges Grid.Ax1 _Y Y YY YT n0 n1 n2 eq_refl H0 H1 H2 eq_refl) as LY.
  pose proof (line_edges Grid.Ax2 _Z Z ZZ ZT n0 n1 n2 eq_refl H0 H1 H2 eq_refl) as LZ.
  specialize (LX (fun p => match p with (i, j, k) => eq_refl end) EX FX).
  specialize (LY (fun p => match p with (i, j, k) => eq_refl end) EY FY).
  specialize (LZ (fun p => match p with (i, j, k) => eq_refl end) EZ FZ).
  cbn [Grid.set fst snd] in LX, LY, LZ.
  exists XT, YT, ZT.
  unfold Grid.axis_edges.
  rewrite (fill_shape _ _ _ _ FX), (fill_shape _ _ _ _ FY), (fill_shape _ _ _ _ FZ).
  cbn [fst snd Nat.eqb orb].
  do 3 eexists. split; [reflexivity|]. do 3 (split; [reflexivity|]).
  unfold edges_of. rewrite !length_map, !length_seq.
  repeat split; try reflexivity; intros i Hi; rewrite nth_map_seq by lia;
    [apply LX | apply LY | apply LZ]; exact Hi.
Qed.

(** X8.  Where [calculateGrid3D] puts the cell edges: for the centres
    [np.meshgrid] builds from three axes with at least two entries each, the
    edge below centre [i] of an axis lies half the spacing to the NEXT
    centre below it (for the last centre, half the spacing to the previous
    one), and the closing edge lies that last half spacing above the last
    centre.  For equally spaced axes, as [calculateBins] builds them, every
    centre is therefore the midpoint of its cell. *)
Theorem calculateGrid3D_meshgrid_edges (_X _Y _Z : list Q) :
  (2 <= List.length _X)%nat -> (2 <= List.length _Y)%nat -> (2 <= List.length _Z)%nat ->
  exists XT YT ZT e0 e1 e2,
    (let '(X, Y, Z) := Grid.meshgrid _X _Y _Z in Grid.calculateGrid3D X Y Z) = Ok (XT, YT, ZT)
    /\ Grid.axis_edges Grid.Ax0 XT = Ok e0
    /\ Grid.axis_edges Grid.Ax1 YT = Ok e1
    /\ Grid.axis_edges Grid.Ax2 ZT = Ok e2
    /\ edges_of _X e0 /\ edges_of _Y e1 /\ edges_of _Z e2
    /\ (forall d, equally_spaced d _X -> centred_cells d _X e0)
    /\ (forall d, equally_spaced d _Y -> centred_cells d _Y e1)
    /\ (forall d, equally_spaced d _Z -> centred_cells d _Z e2).
Proof.
  intros H0 H1 H2.
  destruct (meshgrid_edges _X _Y _Z H0 H1 H2)
    as (XT & YT & ZT & e0 & e1 & e2 & Hc & A0 & A1 & A2 & E0 & E1 & E2).
  exists XT, YT, ZT, e0, e1, e2.
  repeat (split; [assumption|]).
  split; [|split]; intros d Hd; apply edges_of_regular; assumption.
Qed.

Lemma calculateGrid3D_meshgrid_edges_witness :
  exists XT YT ZT e0 e1 e2,
    (let '(X, Y, Z) := Grid.meshgrid [0; 1; 3] [0; 2] [5; 6] in Grid.calculateGrid3D X Y Z)
    = Ok (XT, YT, ZT)
    /\ Grid.axis_edges Grid.Ax0 XT = Ok e0
    /\ Grid.axis_edges Grid.Ax1 YT = Ok e1
    /\ Grid.axis_edges Grid.Ax2 ZT = Ok e2
    /\ edges_of [0; 1; 3] e0 /\ edges_of [0; 2] e1 /\ edges_of [5; 6] e2
    /\ (forall d, equally_spaced d [0; 1; 3] -> centred_cells d [0; 1; 3] e0)
    /\ (forall d, equally_spaced d [0; 2] -> centred_cells d [0; 2] e1)
    /\ (forall d, equally_spaced d [5; 6] -> centred_cells d [5; 6] e2).
Proof.
  apply (calculateGrid3D_meshgrid_edges [0; 1; 3] [0; 2] [5; 6]); simpl; lia.
Defined.

(** ** Conservation in the voxel histogram *)

Lemma cell3_indicator_total (e0 e1 e2 : list Q) (p : Q * Q * Q) (w : Q) :
  Np.sum (map (fun i =>
     Np.sum (map (fun j =>
        Np.sum (map (fun k => if Grid.in_cell3 e0 e1 e2 (i, j, k) p then w else 0)
                    (seq 0 (List.length e2 - 1))))
                 (seq 0 (List.length e1 - 1))))
              (seq 0 (List.length e0 - 1)))
  == if has_bin3 e0 e1 e2 p then w else 0.
Proof.
  unfold Grid.in_cell3, has_bin3, has_bin.
  assert (Hz1 : forall (n m : nat), Np.sum (map (fun _ : nat => Np.sum (map (fun _ : nat => 0) (seq 0 m))) (seq 0 n)) == 0).
  { intros n m. rewrite (sum_map_ext _ (fun _ => 0)); [apply sum_map_zero|].
    intros x _. apply sum_map_zero. }
  destruct (Np.bin_of e0 (fst (fst p))) as [i'|] eqn:E0; cbn [andb].
  2:{ rewrite (sum_map_ext _ (fun _ => 0)); [apply sum_map_zero|].
      intros i _. apply Hz1. }
  destruct (Np.bin_of e1 (snd (fst p))) as [j'|] eqn:E1; cbn [andb].
  2:{ rewrite (sum_map_ext _ (fun _ => 0)); [apply sum_map_zero|].
      intros i _. apply Hz1. }
  destruct (Np.bin_of e2 (snd p)) as [k'|] eqn:E2.
  2:{ rewrite (sum_map_ext _ (fun _ => 0)); [apply sum_map_zero|].
      intros i _. apply Hz1. }
  apply bin_of_range in E0. apply bin_of_range in E1. apply bin_of_range in E2.
  unfold Grid.shape_eqb. cbn [fst snd].
  rewrite (sum_map_ext _ (fun i => if (i' =? i)%nat then w else 0)).
  - rewrite sum_indicator.
    replace ((0 <=? i') && (i' <? 0 + (List.length e0 - 1)))%nat with true
      by (symmetry; apply andb_true_iff; split; [apply Nat.leb_le | apply Nat.ltb_lt]; lia).
    reflexivity.
  - intros i _. destruct (i' =? i)%nat; cbn [andb].
    + rewrite (sum_map_ext _ (fun j => if (j' =? j)%nat then w else 0)).
      * rewrite sum_indicator.
        replace ((0 <=? j') && (j' <? 0 + (List.length e1 - 1)))%nat with true
          by (symmetry; apply andb_true_iff; split; [apply Nat.leb_le | apply Nat.ltb_lt]; lia).
        reflexivity.
      * intros j _. destruct (j' =? j)%nat; cbn [andb].
        -- rewrite sum_indicator.
           replace ((0 <=? k') && (k' <? 0 + (List.length e2 - 1)))%nat with true
             by (symmetry; apply andb_true_iff; split; [apply Nat.leb_le | apply Nat.ltb_lt]; lia).
           reflexivity.
        -- apply sum_map_zero.
    + apply Hz1.
Qed.

Lemma sum3_plus (f g : nat -> nat -> nat -> Q) (n0 n1 n2 : nat) :
  Np.sum (map (fun i => Np.sum (map (fun j => Np.sum (map (fun k => f i j k + g i j k)
                                                          (seq 0 n2))) (seq 0 n1))) (seq 0 n0))
  == Np.sum (map (fun i => Np.sum (map (fun j => Np.sum (map (fun k => f i j k) (seq 0 n2)))
                                       (seq 0 n1))) (seq 0 n0))
     + Np.sum (map (fun i => Np.sum (map (fun j => Np.sum (map (fun k => g i j k) (seq 0 n2)))
                                         (seq 0 n1))) (seq 0 n0)).
Proof.
  rewrite <- sum_map_plus. apply sum_map_ext. intros i _.
  rewrite <- sum_map_plus. apply sum_map_ext. intros j _.
  apply sum_map_plus.
Qed.

Lemma sum3_ext (f g : nat -> nat -> nat -> Q) (n0 n1 n2 : nat) :
  (forall i j k, f i j k == g i j k) ->
  Np.sum (map (fun i => Np.sum (map (fun j => Np.sum (map (fun k => f i j k) (seq 0 n2)))
                                    (seq 0 n1))) (seq 0 n0))
  == Np.sum (map (fun i => Np.sum (map (fun j => Np.sum (map (fun k => g i j k) (seq 0 n2)))
                                       (seq 0 n1))) (seq 0 n0)).
Proof.
  intro H. apply sum_map_ext. intros i _. apply sum_map_ext. intros j _.
  apply sum_map_ext. intros k _. apply H.
Qed.

Lemma cell3_weights_total (e0 e1 e2 : list Q) (l : list ((Q * Q * Q) * Q)) :
  Np.sum (map (fun i =>
     Np.sum (map (fun j =>
        Np.sum (map (fun k =>
           Np.sum (map snd (filter (fun pw => Grid.in_cell3 e0 e1 e2 (i, j, k) (fst pw)) l)))
                    (seq 0 (List.length e2 - 1))))
                 (seq 0 (List.length e1 - 1))))
              (seq 0 (List.length e0 - 1)))
  == Np.sum (map snd (filter (fun pw => has_bin3 e0 e1 e2 (fst pw)) l)).
Proof.
  induction l as [|[p w] l IH].
  - cbn [filter map Np.sum].
    rewrite (sum3_ext _ (fun _ _ _ => 0 + 0)) by (intros; ring).
    rewrite sum3_plus.
    assert (Hz : forall n0 n1 n2 : nat,
              Np.sum (map (fun _ : nat => Np.sum (map (fun _ : nat =>
                 Np.sum (map (fun _ : nat => 0) (seq 0 n2))) (seq 0 n1))) (seq 0 n0)) == 0).
    { intros. rewrite (sum_map_ext _ (fun _ => 0)); [apply sum_map_zero|].
      intros x _. rewrite (sum_map_ext _ (fun _ => 0)); [apply sum_map_zero|].
      intros y _. apply sum_map_zero. }
    rewrite Hz. ring.
  - rewrite (sum3_ext _
       (fun i j k =>
          (if Grid.in_cell3 e0 e1 e2 (i, j, k) p then w else 0)
          + Np.sum (map snd (filter (fun pw => Grid.in_cell3 e0 e1 e2 (i, j, k) (fst pw)) l)))).
    + rewrite sum3_plus, IH, cell3_indicator_total.
      cbn [filter fst]. destruct (has_bin3 e0 e1 e2 p); cbn [map Np.sum snd]; ring.
    + intros i j k. cbn [filter fst].
      destruct (Grid.in_cell3 e0 e1 e2 (i, j, k) p); cbn [map Np.sum snd]; ring.
Qed.

(** Conservation: the total of a 3-D histogram is the total weight of the
    sample points that have a bin on every axis. *)
Lemma histogramdd3_total (sample : list (Q * Q * Q)) (e0 e1 e2 w : list Q) (H : Grid.arr3) :
  Grid.histogramdd3 sample e0 e1 e2 w = Ok H ->
  total3 H == Np.sum (map snd (filter (fun pw => has_bin3 e0 e1 e2 (fst pw))
                                      (combine sample w))).
Proof.
  unfold Grid.histogramdd3.
  destruct (negb (Np.monotone e0 && Np.monotone e1 && Np.monotone e2)); [discriminate|].
  destruct (negb (List.length w =? List.length sample)%nat); [discriminate|].
  intro E. injection E as <-. unfold total3. cbn [Grid.sh Grid.val].
  apply cell3_weights_total.
Qed.

(** ** The grid of calculateBins covers the point cloud *)

Lemma maximum_bound (a : list Q) :
  forall x, x <= maximum x a /\ forall v, In v a -> v <= maximum x a.
Proof.
  induction a as [|y a IH]; intro x; cbn [maximum].
  - split; [apply Qle_refl | intros v []].
  - destruct (IH (if Np.leb x y then y else x)) as [H1 H2].
    destruct (Np.leb x y) eqn:E.
    + apply leb_le in E. split; [eapply Qle_trans; eassumption|].
      intros v [<-|Hv]; [assumption | apply H2; assumption].
    + apply leb_gt in E. split; [assumption|].
      intros v [<-|Hv]; [|apply H2; assumption].
      eapply Qle_trans; [apply Qlt_le_weak; eassumption | assumption].
Qed.

Lemma minimum_bound (a : list Q) :
  forall x, minimum x a <= x /\ forall v, In v a -> minimum x a <= v.
Proof.
  induction a as [|y a IH]; intro x; cbn [minimum].
  - split; [apply Qle_refl | intros v []].
  - destruct (IH (if Np.leb y x then y else x)) as [H1 H2].
    destruct (Np.leb y x) eqn:E.
    + apply leb_le in E. split; [eapply Qle_trans; eassumption|].
      intros v [<-|Hv]; [assumption | apply H2; assumption].
    + apply leb_gt in E. split; [assumption|].
      intros v [<-|Hv]; [|apply H2; assumption].
      eapply Qle_trans; [eassumption | apply Qlt_le_weak; assumption].
Qed.

Lemma np_max_bound (a : list Q) (M : Q) :
  np_max a = Ok M -> forall v, In v a -> v <= M.
Proof.
  destruct a as [|x a]; [discriminate|]. cbn [np_max]. intro H. injection H as <-.
  destruct (maximum_bound a x) as [H1 H2].
  intros v [<-|Hv]; [assumption | apply H2; assumption].
Qed.

Lemma np_min_bound (a : list Q) (m : Q) :
  np_min a = Ok m -> forall v, In v a -> m <= v.
Proof.
  destruct a as [|x a]; [discriminate|]. cbn [np_min]. intro H. injection H as <-.
  destruct (minimum_bound a x) as [H1 H2].
  intros v [<-|Hv]; [assumption | apply H2; assumption].
Qed.

(** More than half a step between the extremes gives at least two
    centres. *)
Lemma round_half_even_pos (x : Q) : 1 # 2 < x -> (1 <= Grid.round_half_even x)%Z.
Proof.
  intro H. unfold Grid.round_half_even. cbv zeta.
  assert (Hf : (0 <= Qfloor x)%Z).
  { rewrite <- (Qfloor_Z 0). apply Qfloor_resp_le. apply Qlt_le_weak.
    eapply Qlt_trans; [|exact H]. reflexivity. }
  destruct (Z.eq_dec (Qfloor x) 0) as [E|E].
  - rewrite E. change (inject_Z 0) with 0.
    assert (E1 : Np.ltb (x - 0) (1 # 2) = false) by (apply ltb_ge; lra).
    assert (E2 : Np.ltb (1 # 2) (x - 0) = true) by (apply ltb_lt; lra).
    rewrite E1, E2. lia.
  - destruct (Np.ltb (x - inject_Z (Qfloor x)) (1 # 2)); [lia|].
    destruct (Np.ltb (1 # 2) (x - inject_Z (Qfloor x))); [lia|].
    destruct (Z.even (Qfloor x)); lia.
Qed.

Lemma linspace_spec (a b : Q) (num : Z) :
  (2 <= num)%Z ->
  exists l, Grid.linspace a b num = Ok l
    /\ List.length l = Z.to_nat num
    /\ forall i, (i < Z.to_nat num)%nat ->
         nth i l 0 = a + inject_Z (Z.of_nat i) * ((b - a) / inject_Z (Z.of_nat (Z.to_nat num - 1))).
Proof.
  intro H. unfold Grid.linspace.
  replace (num <? 0)%Z with false by (symmetry; apply Z.ltb_ge; lia).
  destruct (Z.to_nat num) as [|[|n]] eqn:En; try lia.
  eexists. split; [reflexivity|]. split.
  - rewrite length_map, length_seq. reflexivity.
  - intros i Hi. rewrite nth_map_seq by exact Hi. reflexivity.
Qed.

Lemma monotone_nth (e : list Q) :
  (forall i, (S i < List.length e)%nat -> nth i e 0 <= nth (S i) e 0) ->
  Np.monotone e = true.
Proof.
  induction e as [|x e IH]; intro H; [reflexivity|].
  destruct e as [|y e']; [reflexivity|].
  apply monotone_cons. split.
  - apply (H 0%nat). cbn [List.length]. lia.
  - apply IH. intros i Hi. apply (H (S i)). cbn [List.length] in *. lia.
Qed.

Lemma last_nth (e : list Q) (d : Q) :
  last e d = nth (List.length e - 1) e d.
Proof.
  induction e as [|x e IH]; [reflexivity|].
  destruct e as [|y e']; [reflexivity|].
  change (last (x :: y :: e') d) with (last (y :: e') d). rewrite IH.
  cbn [List.length]. replace (S (S (List.length e')) - 1)%nat with (S (List.length e')) by lia.
  replace (S (List.length e') - 1)%nat with (List.length e') by lia. reflexivity.
Qed.

(** The edges built around [n >= 2] equally spaced centres from [m] to [M]
    increase and enclose every value between [m] and [M]. *)
Lemma regular_edges_cover (l e : list Q) (m M d : Q) :
  (2 <= List.length l)%nat -> 0 <= d ->
  nth 0 l 0 == m -> nth (List.length l - 1) l 0 == M ->
  List.length e = S (List.length l) ->
  centred_cells d l e ->
  Np.monotone e = true /\ (2 <= List.length e)%nat
  /\ forall v, m <= v -> v <= M -> has_bin e v = true.
Proof.
  intros Hl Hd H0 Hn He Hc.
  assert (Hm : Np.monotone e = true).
  { apply monotone_nth. intros i Hi. rewrite He in Hi.
    destruct (Hc i) as [A B]; [lia|]. rewrite A, B. qlra. }
  split; [assumption|]. split; [lia|].
  intros v Hlo Hhi.
  destruct (bin_of_inside e v Hm) as [i Hi].
  - lia.
  - destruct e as [|e0 e']; [cbn in He; lia|]. cbn [hd].
    destruct (Hc 0%nat) as [A _]; [lia|]. cbn [nth] in A. rewrite A, H0. qlra.
  - rewrite last_nth, He.
    replace (S (List.length l) - 1)%nat with (S (List.length l - 1)) by lia.
    destruct (Hc (List.length l - 1)%nat) as [_ B]; [lia|]. rewrite B, Hn. qlra.
  - unfold has_bin. rewrite Hi. reflexivity.
Qed.

(** One axis of calculateBins: the equally spaced centres from the
    smallest to the largest coordinate. *)
Lemma axis_centres (p : list Q) (m M dx : Q) :
  np_max p = Ok M -> np_min p = Ok m -> 0 < dx -> dx / 2 < M - m ->
  exists l d,
    Grid.linspace m M (Grid.round_half_even (Qabs (M - m) / dx) + 1) = Ok l
    /\ (2 <= List.length l)%nat /\ 0 <= d /\ equally_spaced d l
    /\ nth 0 l 0 == m /\ nth (List.length l - 1) l 0 == M.
Proof.
  intros HM Hm Hdx Hgap.
  assert (Hpos : 0 < M - m) by qlra.
  assert (Habs : Qabs (M - m) == M - m) by (apply Qabs_pos; lra).
  assert (Hr : (1 <= Grid.round_half_even (Qabs (M - m) / dx))%Z).
  { apply round_half_even_pos. rewrite Habs.
    apply Qlt_shift_div_l; [assumption|]. qlra. }
  set (num := (Grid.round_half_even (Qabs (M - m) / dx) + 1)%Z) in *.
  destruct (linspace_spec m M num) as (l & El & Ll & Nl); [lia|].
  set (k := inject_Z (Z.of_nat (Z.to_nat num - 1))) in *.
  assert (Hk : 0 < k).
  { unfold k. change 0 with (inject_Z 0). rewrite <- Zlt_Qlt. lia. }
  exists l, ((M - m) / k).
  split; [assumption|]. split; [lia|].
  split.
  { apply Qlt_le_weak. apply Qlt_shift_div_l; [assumption|]. lra. }
  split.
  { intros i Hi. rewrite Ll in Hi. rewrite !Nl by lia.
    rewrite Nat2Z.inj_succ, <- Z.add_1_r, inject_Z_plus. change (inject_Z 1) with 1. ring. }
  split.
  { rewrite Nl by lia. change (inject_Z (Z.of_nat 0)) with 0. ring. }
  rewrite Ll, Nl by lia. fold k. field. lra.
Qed.

(** The grid calculateBins builds: on every axis the edges increase and
    every coordinate of the cloud has a bin. *)
Lemma calculateBins_covers (dx dy dz : Q) (p0 p1 p2 : list Q) (M0 m0 M1 m1 M2 m2 : Q) :
  0 < dx -> 0 < dy -> 0 < dz ->
  np_max p0 = Ok M0 -> np_min p0 = Ok m0 -> dx / 2 < M0 - m0 ->
  np_max p1 = Ok M1 -> np_min p1 = Ok m1 -> dy / 2 < M1 - m1 ->
  np_max p2 = Ok M2 -> np_min p2 = Ok m2 -> dz / 2 < M2 - m2 ->
  exists b0 b1 b2 e0 e1 e2,
    Grid.calculateBins dx dy dz (p0, p1, p2) = Ok (b0, b1, b2)
    /\ Grid.axis_edges Grid.Ax0 b0 = Ok e0
    /\ Grid.axis_edges Grid.Ax1 b1 = Ok e1
    /\ Grid.axis_edges Grid.Ax2 b2 = Ok e2
    /\ Np.monotone e0 = true /\ Np.monotone e1 = true /\ Np.monotone e2 = true
    /\ (forall v, In v p0 -> has_bin e0 v = true)
    /\ (forall v, In v p1 -> has_bin e1 v = true)
    /\ (forall v, In v p2 -> has_bin e2 v = true).
Proof.
  intros Hdx Hdy Hdz HM0 Hm0 G0 HM1 Hm1 G1 HM2 Hm2 G2.
  unfold Grid.calculateBins.
  rewrite HM0, Hm0, HM1, Hm1, HM2, Hm2. cbn [bind]. cbv zeta.
  destruct (axis_centres p0 m0 M0 dx HM0 Hm0 Hdx G0) as (l0 & d0 & E0 & L0 & D0 & Q0 & F0 & T0).
  destruct (axis_centres p1 m1 M1 dy HM1 Hm1 Hdy G1) as (l1 & d1 & E1 & L1 & D1 & Q1 & F1 & T1).
  destruct (axis_centres p2 m2 M2 dz HM2 Hm2 Hdz G2) as (l2 & d2 & E2 & L2 & D2 & Q2 & F2 & T2).
  rewrite E0, E1, E2. cbn [bind].
  destruct (meshgrid_edges l0 l1 l2 L0 L1 L2)
    as (XT & YT & ZT & e0 & e1 & e2 & Hc & A0 & A1 & A2 & X0 & X1 & X2).
  exists XT, YT, ZT, e0, e1, e2.
  split; [exact Hc|]. do 3 (split; [assumption|]).
  destruct (regular_edges_cover l0 e0 m0 M0 d0 L0 D0 F0 T0 (proj1 X0)
              (edges_of_regular d0 l0 e0 L0 X0 Q0)) as (Mo0 & _ & C0).
  destruct (regular_edges_cover l1 e1 m1 M1 d1 L1 D1 F1 T1 (proj1 X1)
              (edges_of_regular d1 l1 e1 L1 X1 Q1)) as (Mo1 & _ & C1).
  destruct (regular_edges_cover l2 e2 m2 M2 d2 L2 D2 F2 T2 (proj1 X2)
              (edges_of_regular d2 l2 e2 L2 X2 Q2)) as (Mo2 & _ & C2).
  do 3 (split; [assumption|]).
  split; [|split]; intros v Hv.
  - apply C0; [apply (np_min_bound p0 m0 Hm0 v Hv) | apply (np_max_bound p0 M0 HM0 v Hv)].
  - apply C1; [apply (np_min_bound p1 m1 Hm1 v Hv) | apply (np_max_bound p1 M1 HM1 v Hv)].
  - apply C2; [apply (np_min_bound p2 m2 Hm2 v Hv) | apply (np_max_bound p2 M2 HM2 v Hv)].
Qed.

Lemma integral_plus (x y : Q) : integral x -> integral y -> integral (x + y).
Proof.
  intros [a Ha] [b Hb]. exists (a + b)%Z. rewrite inject_Z_plus, Ha, Hb. reflexivity.
Qed.

Lemma integral_sum (l : list Q) : Forall integral l -> integral (Np.sum l).
Proof.
  induction 1 as [|x l Hx Hl IH]; cbn [Np.sum].
  - exists 0%Z. reflexivity.
  - apply integral_plus; assumption.
Qed.

(** The conversion to int64 leaves a whole number as it is. *)
Lemma as_int64_integral (x : Q) : integral x -> Np.as_int64 x == x.
Proof.
  intros [z Hz]. unfold Np.as_int64.
  assert (Ef : Qfloor x = z) by (rewrite Hz; apply Qfloor_Z).
  assert (Ec : Qceiling x = z) by (rewrite Hz; apply Qceiling_Z).
  rewrite Ef, Ec. destruct (Qle_bool 0 x); symmetry; assumption.
Qed.

Lemma Forall_filter_snd {A : Type} (P : A * Q -> bool) (s : list A) (w : list Q) :
  Forall integral w -> Forall integral (map snd (filter P (combine s w))).
Proof.
  intro H. apply Forall_forall. intros x Hx.
  apply in_map_iff in Hx. destruct Hx as ([a q] & <- & Hin).
  apply filter_In in Hin. destruct Hin as [Hin _].
  apply in_combine_r in Hin. cbn [snd].
  rewrite Forall_forall in H. apply H. assumption.
Qed.

(** A histogram of whole weights keeps its total through [astype]. *)
Lemma astype_total (d : Grid.dtype) (sample : list (Q * Q * Q)) (e0 e1 e2 w : list Q)
    (H : Grid.arr3) :
  Grid.histogramdd3 sample e0 e1 e2 w = Ok H ->
  (d = Grid.int64 -> Forall integral w) ->
  total3 (Grid.arr (Grid.astype d H)) == total3 H.
Proof.
  intros HH Hw. destruct d; [|reflexivity].
  revert HH. unfold Grid.histogramdd3.
  destruct (negb (Np.monotone e0 && Np.monotone e1 && Np.monotone e2)); [discriminate|].
  destruct (negb (List.length w =? List.length sample)%nat); [discriminate|].
  intro E. injection E as <-. unfold total3, Grid.astype.
  cbn [Grid.arr Grid.sh Grid.val].
  apply sum3_ext. intros i j k. apply as_int64_integral.
  apply integral_sum. apply Forall_filter_snd. apply Hw. reflexivity.
Qed.

Lemma Forall_ones (n : nat) : Forall integral (Np.ones n).
Proof.
  unfold Np.ones. induction n; cbn [repeat]; constructor; try assumption.
  exists 1%Z. reflexivity.
Qed.

Lemma sum_snd_combine {A : Type} (s : list A) (w : list Q) :
  List.length w = List.length s -> Np.sum (map snd (combine s w)) == Np.sum w.
Proof.
  revert w. induction s as [|x s IH]; intros [|y w] H; cbn in *; try discriminate.
  - reflexivity.
  - rewrite IH by lia. reflexivity.
Qed.

Lemma sum_repeat_one (n : nat) : Np.sum (Np.ones n) == inject_Z (Z.of_nat n).
Proof.
  unfold Np.ones. induction n as [|n IH]; [reflexivity|].
  cbn [repeat Np.sum]. rewrite IH, Nat2Z.inj_succ, <- Z.add_1_l, inject_Z_plus. reflexivity.
Qed.

(** X9.  [binData3D] loses no point: for a cloud that spans more than half
    a step along every axis, with its own grid ([bins=None]) and the
    normalization and monitor given, it returns the four voxel arrays, and
    summed over all voxels the intensity, monitor and normalization arrays
    give the totals of the input arrays, and the count array the number of
    points.  Arrays of dtype int64 hold whole numbers whose absolute values
    sum to at most 2^53, the range in which the float64 sums of
    [np.histogramdd] are exact. *)
Theorem binData3D_conserves_totals (dx dy dz : Q) (p0 p1 p2 : list Q)
    (data norm mon : Grid.tarray) (M0 m0 M1 m1 M2 m2 : Q) :
  List.length p1 = List.length p0 -> List.length p2 = List.length p0 ->
  List.length (Grid.values data) = List.length p0 ->
  List.length (Grid.values norm) = List.length p0 ->
  List.length (Grid.values mon) = List.length p0 ->
  0 < dx -> 0 < dy -> 0 < dz ->
  np_max p0 = Ok M0 -> np_min p0 = Ok m0 -> dx / 2 < M0 - m0 ->
  np_max p1 = Ok M1 -> np_min p1 = Ok m1 -> dy / 2 < M1 - m1 ->
  np_max p2 = Ok M2 -> np_min p2 = Ok m2 -> dz / 2 < M2 - m2 ->
  well_typed data -> well_typed norm -> well_typed mon ->
  float64_exact data -> float64_exact norm -> float64_exact mon ->
  exists intensity MonitorCount Normalization NormCount bins,
    Grid.binData3D dx dy dz (p0, p1, p2) data (Some norm) (Some mon) None
    = Ok ([intensity; MonitorCount; Normalization; NormCount], bins)
    /\ total3 (Grid.arr intensity) == Np.sum (Grid.values data)
    /\ total3 (Grid.arr MonitorCount) == Np.sum (Grid.values mon)
    /\ total3 (Grid.arr Normalization) == Np.sum (Grid.values norm)
    /\ total3 (Grid.arr NormCount) == inject_Z (Z.of_nat (List.length p0)).
Proof.
  intros L1 L2 Ld Ln Lm Hdx Hdy Hdz HM0 Hm0 G0 HM1 Hm1 G1 HM2 Hm2 G2 Wd Wn Wm _ _ _.
  destruct (calculateBins_covers dx dy dz p0 p1 p2 M0 m0 M1 m1 M2 m2
              Hdx Hdy Hdz HM0 Hm0 G0 HM1 Hm1 G1 HM2 Hm2 G2)
    as (b0 & b1 & b2 & e0 & e1 & e2 & Hb & A0 & A1 & A2 & Mo0 & Mo1 & Mo2 & C0 & C1 & C2).
  unfold Grid.binData3D. rewrite Hb. cbn [bind]. rewrite A0, A1, A2. cbn [bind].
  unfold Grid.sample_of. rewrite L1, L2, !Nat.eqb_refl. cbn [andb bind].
  set (sample := combine (combine p0 p1) p2).
  assert (Ls : List.length sample = List.length p0).
  { unfold sample. rewrite !length_combine, L1, L2, !Nat.min_id. reflexivity. }
  assert (Hall : forall (w : list Q),
            filter (fun pw : Q * Q * Q * Q => has_bin3 e0 e1 e2 (fst pw)) (combine sample w)
            = combine sample w).
  { intro w. apply filter_all. intros [[[x y] z] q] Hin. cbn [fst].
    apply in_combine_l in Hin. unfold sample in Hin.
    pose proof (in_combine_r _ _ _ _ Hin) as Hz.
    apply in_combine_l in Hin.
    pose proof (in_combine_r _ _ _ _ Hin) as Hy.
    apply in_combine_l in Hin.
    unfold has_bin3. cbn [fst snd]. rewrite (C0 _ Hin), (C1 _ Hy), (C2 _ Hz). reflexivity. }
  assert (Hh : forall w, List.length w = List.length p0 ->
            exists H, Grid.histogramdd3 sample e0 e1 e2 w = Ok H /\ total3 H == Np.sum w).
  { intros w Lw.
    destruct (histogramdd3_ok sample e0 e1 e2 w Mo0 Mo1 Mo2) as (H & HH & _); [congruence|].
    exists H. split; [assumption|].
    rewrite (histogramdd3_total _ _ _ _ _ _ HH), Hall.
    apply sum_snd_combine. congruence. }
  destruct (Hh (Grid.values data) Ld) as (hI & EI & TI).
  destruct (Hh (Grid.values mon) Lm) as (hM & EM & TM).
  destruct (Hh (Grid.values norm) Ln) as (hN & EN & TN).
  destruct (Hh (Np.ones (List.length (Grid.values data)))) as (hC & EC & TC).
  { unfold Np.ones. rewrite repeat_length. assumption. }
  rewrite EI, EM, EN, EC. cbn [bind app].
  do 5 eexists. split; [reflexivity|].
  rewrite (astype_total _ _ _ _ _ _ _ EI Wd), (astype_total _ _ _ _ _ _ _ EM Wm),
    (astype_total _ _ _ _ _ _ _ EN Wn),
    (astype_total Grid.int64 _ _ _ _ _ _ EC (fun _ => Forall_ones _)).
  rewrite TI, TM, TN, TC, sum_repeat_one, Ld.
  repeat split; reflexivity.
Qed.

Lemma binData3D_conserves_totals_witness :
  exists intensity MonitorCount Normalization NormCount bins,
    Grid.binData3D (1 # 2) (1 # 4) 1 ([0; 1; 1 # 3], [0; 1 # 2; 1], [1; 2; 3 # 2])
      (Grid.mkT Grid.int64 [1; 2; 3]) (Some (Grid.mkT Grid.float64 [1 # 2; 1; 1]))
      (Some (Grid.mkT Grid.int64 [10; 10; 10])) None
    = Ok ([intensity; MonitorCount; Normalization; NormCount], bins)
    /\ total3 (Grid.arr intensity) == Np.sum [1; 2; 3]
    /\ total3 (Grid.arr MonitorCount) == Np.sum [10; 10; 10]
    /\ total3 (Grid.arr Normalization) == Np.sum [1 # 2; 1; 1]
    /\ total3 (Grid.arr NormCount) == inject_Z (Z.of_nat 3).
Proof.
  apply (binData3D_conserves_totals (1 # 2) (1 # 4) 1 [0; 1; 1 # 3] [0; 1 # 2; 1] [1; 2; 3 # 2]
           (Grid.mkT Grid.int64 [1; 2; 3]) (Grid.mkT Grid.float64 [1 # 2; 1; 1])
           (Grid.mkT Grid.int64 [10; 10; 10]) 1 0 1 0 2 1);
    try reflexivity.
  - intros _. cbn [Grid.values].
    repeat constructor; [exists 1%Z | exists 2%Z | exists 3%Z]; reflexivity.
  - intro H. discriminate.
  - intros _. cbn [Grid.values].
    repeat constructor; exists 10%Z; reflexivity.
  - intros _. vm_compute. discriminate.
  - intro H. discriminate.
  - intros _. vm_compute. discriminate.
Defined.

(** ** The boundary needs two steps along A3 and along A4 *)

Lemma dedup_all_equal (l : list Q) :
  (forall x y, In x l -> In y l -> x == y) -> (List.length (Np.dedup l) <= 1)%nat.
Proof.
  induction l as [|x l IH]; intro H; [simpl; lia|].
  destruct l as [|y l']; [simpl; lia|].
  cbn [Np.dedup].
  assert (E : Np.eqb x y = true).
  { apply eqb_eq. apply H; [left; reflexivity | right; left; reflexivity]. }
  rewrite E. apply IH. intros a b Ha Hb. apply H; right; assumption.
Qed.

Lemma diff_short (l : list Q) : (List.length l <= 1)%nat -> Np.diff l = [].
Proof.
  destruct l as [|x [|y l']]; cbn [List.length]; intro H; try reflexivity. lia.
Qed.

Lemma diff_length (l : list Q) : List.length (Np.diff l) = (List.length l - 1)%nat.
Proof.
  induction l as [|x l IH]; [reflexivity|].
  destruct l as [|y l']; [reflexivity|].
  change (Np.diff (x :: y :: l')) with ((y - x) :: Np.diff (y :: l')).
  cbn [List.length] in *. rewrite IH. lia.
Qed.

Lemma half_steps_short (U : list Q) :
  (List.length U <= 1)%nat -> half_steps U = Raise IndexError.
Proof.
  intro H. unfold half_steps. rewrite (diff_short U H). reflexivity.
Qed.

Lemma half_steps_raises (U : list Q) (e : exn) : half_steps U = Raise e -> e = IndexError.
Proof.
  unfold half_steps, Np.first_item, Np.last_item.
  destruct (Np.diff U) as [|d ds]; cbn [bind].
  - intro H. injection H as <-. reflexivity.
  - destruct (rev (d :: ds)); cbn [bind]; intro H; [|discriminate].
    injection H as <-. reflexivity.
Qed.

Lemma half_steps_ok (U : list Q) :
  (2 <= List.length U)%nat -> exists s, half_steps U = Ok s.
Proof.
  intro H. unfold half_steps, Np.first_item, Np.last_item.
  pose proof (diff_length U) as Hd.
  destruct (Np.diff U) as [|d ds] eqn:E; [cbn in Hd; lia|].
  cbn [bind].
  destruct (rev (d :: ds)) as [|r rs] eqn:Er.
  - apply (f_equal (@List.length Q)) in Er. rewrite length_rev in Er. discriminate.
  - cbn [bind]. eexists. reflexivity.
Qed.

Lemma unique_all_equal (a : list Q) :
  (forall x y, In x a -> In y a -> x == y) -> (List.length (Np.unique a) <= 1)%nat.
Proof.
  intro H. unfold Np.unique. apply dedup_all_equal.
  intros x y Hx Hy. apply H; apply sort_In; assumption.
Qed.

Lemma unique_two_values (a : list Q) :
  two_values a -> (2 <= List.length (Np.unique a))%nat.
Proof.
  intros (x & y & Hx & Hy & Hne). unfold Np.unique.
  destruct (dedup_In x (Np.sort a)) as (u & Hu & Hux); [apply sort_In; exact Hx|].
  destruct (dedup_In y (Np.sort a)) as (v & Hv & Hvy); [apply sort_In; exact Hy|].
  destruct (Np.dedup (Np.sort a)) as [|h [|h' t]]; cbn [List.length]; try lia.
  - contradiction.
  - exfalso. apply Hne. destruct Hu as [<-|[]]. destruct Hv as [<-|[]].
    rewrite <- Hux, <- Hvy. reflexivity.
Qed.

(** X10.  [convexHullPoints] needs two steps in each direction: when A3 or
    A4 holds fewer than two different values (a scan with a single A3
    setting, say) it raises IndexError, from [np.diff(...)[[0,-1]]] on an
    array without differences; when both hold at least two different values
    it returns the polygon of the hull [ConvexHull] finds. *)
Theorem convexHullPoints_needs_two_steps (ConvexHull : list point -> list point)
    (A3 A4 : list Q) :
  ((~ two_values A3) \/ (~ two_values A4) ->
   convexHullPoints ConvexHull A3 A4 = Raise IndexError)
  /\ (two_values A3 -> two_values A4 ->
      exists boundary,
        boundary_points A3 A4 = Ok boundary
        /\ convexHullPoints ConvexHull A3 A4 = Ok (PolygonS (ConvexHull boundary))).
Proof.
  assert (Hshort : forall a, ~ two_values a -> (List.length (Np.unique a) <= 1)%nat).
  { intros a Hn. apply unique_all_equal. intros x y Hx Hy.
    destruct (Qeq_dec x y) as [E|E]; [exact E|].
    exfalso. apply Hn. exists x, y. auto. }
  split.
  - intro H. unfold convexHullPoints, convexHullRing, boundary_points.
    destruct (half_steps (Np.unique A3)) as [s3|e3] eqn:E3.
    + cbn [bind]. destruct H as [H|H].
      * rewrite (half_steps_short _ (Hshort A3 H)) in E3. discriminate.
      * rewrite (half_steps_short _ (Hshort A4 H)). reflexivity.
    + cbn [bind]. rewrite (half_steps_raises _ _ E3). reflexivity.
  - intros H3 H4. unfold convexHullPoints, convexHullRing, boundary_points.
    pose proof (unique_two_values A3 H3) as L3.
    pose proof (unique_two_values A4 H4) as L4.
    destruct (half_steps_ok _ L3) as [s3 E3]. destruct (half_steps_ok _ L4) as [s4 E4].
    rewrite E3, E4. cbn [bind].
    unfold Np.first_item, Np.last_item.
    destruct (Np.unique A3) as [|a3 u3] eqn:U3; [cbn in L3; lia|].
    destruct (Np.unique A4) as [|a4 u4] eqn:U4; [cbn in L4; lia|].
    cbn [bind].
    destruct (rev (a3 :: u3)) as [|r3 rs3] eqn:R3.
    { apply (f_equal (@List.length Q)) in R3. rewrite length_rev in R3. discriminate. }
    destruct (rev (a4 :: u4)) as [|r4 rs4] eqn:R4.
    { apply (f_equal (@List.length Q)) in R4. rewrite length_rev in R4. discriminate. }
    cbn [bind]. eexists. split; reflexivity.
Qed.

Lemma convexHullPoints_needs_two_steps_witness :
  convexHullPoints Ref.bbox_hull [1; 1; 1] [0; 1; 2] = Raise IndexError
  /\ exists boundary,
       boundary_points [0; 1; 0; 1] [0; 0; 2; 2] = Ok boundary
       /\ convexHullPoints Ref.bbox_hull [0; 1; 0; 1] [0; 0; 2; 2]
          = Ok (PolygonS (Ref.bbox_hull boundary)).
Proof.
  split.
  - apply (convexHullPoints_needs_two_steps Ref.bbox_hull [1; 1; 1] [0; 1; 2]).
    left. intros (x & y & Hx & Hy & Hne). apply Hne.
    cbn [In] in Hx, Hy.
    destruct Hx as [<-|[<-|[<-|[]]]]; destruct Hy as [<-|[<-|[<-|[]]]]; reflexivity.
  - apply (convexHullPoints_needs_two_steps Ref.bbox_hull [0; 1; 0; 1] [0; 0; 2; 2]).
    + exists 0, 1. cbn [In]. split; [auto|]. split; [auto|]. intro H. discriminate.
    + exists 0, 2. cbn [In]. split; [auto|]. split; [auto 6|]. intro H. discriminate.
Defined.

(** ** Merging points measured twice *)

Lemma sum_perm {A : Type} (f : A -> Q) (l l' : list A) :
  Permutation l l' -> Np.sum (map f l) == Np.sum (map f l').
Proof.
  induction 1; cbn [map Np.sum].
  - reflexivity.
  - rewrite IHPermutation. reflexivity.
  - ring.
  - rewrite IHPermutation1. assumption.
Qed.

Lemma sum_filter_split {A : Type} (f : A -> Q) (P : A -> bool) (l : list A) :
  Np.sum (map f l)
  == Np.sum (map f (filter P l)) + Np.sum (map f (filter (fun x => negb (P x)) l)).
Proof.
  induction l as [|x l IH]; cbn [map filter Np.sum]; [reflexivity|].
  destruct (P x); cbn [negb map Np.sum]; rewrite IH; ring.
Qed.

(** The first-occurrence indices are pairwise different and lie within
    the list of points. *)
Lemma uinsert_indices (p : point) (k : nat) (l : list A3A4.uentry) (i : nat) :
  In i (map A3A4.u_index (A3A4.uinsert p k l)) -> i = k \/ In i (map A3A4.u_index l).
Proof.
  induction l as [|e l IH]; cbn [A3A4.uinsert].
  - intros [<-|[]]. left. reflexivity.
  - destruct (A3A4.col_eqb p (A3A4.u_col e)).
    + intro H. right. exact H.
    + destruct (A3A4.col_ltb p (A3A4.u_col e)).
      * intros [<-|H]; [left; reflexivity | right; exact H].
      * intros [<-|H]; [right; left; reflexivity|].
        destruct (IH H) as [E|E]; [left; exact E | right; right; exact E].
Qed.

Lemma uinsert_NoDup (p : point) (k : nat) (l : list A3A4.uentry) :
  (forall i, In i (map A3A4.u_index l) -> (i < k)%nat) -> NoDup (map A3A4.u_index l) ->
  NoDup (map A3A4.u_index (A3A4.uinsert p k l)).
Proof.
  induction l as [|e l IH]; intros Hlt Hnd; cbn [A3A4.uinsert].
  - cbn. constructor; [intros []|constructor].
  - destruct (A3A4.col_eqb p (A3A4.u_col e)); [exact Hnd|].
    destruct (A3A4.col_ltb p (A3A4.u_col e)).
    + change (NoDup (k :: map A3A4.u_index (e :: l))).
      constructor; [|exact Hnd].
      intro Hin. specialize (Hlt k Hin). lia.
    + change (NoDup (A3A4.u_index e :: map A3A4.u_index (A3A4.uinsert p k l))).
      change (NoDup (A3A4.u_index e :: map A3A4.u_index l)) in Hnd.
      inversion Hnd as [|? ? Hnotin Hnd']; subst.
      constructor.
      * intro Hin. destruct (uinsert_indices p k l _ Hin) as [E|E].
        -- specialize (Hlt (A3A4.u_index e) (or_introl eq_refl)). lia.
        -- contradiction.
      * apply IH; [|assumption]. intros i Hi. apply Hlt. right. exact Hi.
Qed.

Lemma unique_cols_indices (PosAll : list point) :
  NoDup (uindex PosAll) /\ forall i, In i (uindex PosAll) -> (i < List.length PosAll)%nat.
Proof.
  unfold uindex, A3A4.unique_cols.
  assert (H : forall (pts : list point) (s : nat) (acc : list A3A4.uentry),
             NoDup (map A3A4.u_index acc) ->
             (forall i, In i (map A3A4.u_index acc) -> (i < s)%nat) ->
             let r := fold_left (fun acc ip => A3A4.uinsert (snd ip) (fst ip) acc)
                                (combine (seq s (List.length pts)) pts) acc in
             NoDup (map A3A4.u_index r)
             /\ forall i, In i (map A3A4.u_index r) -> (i < s + List.length pts)%nat).
  { induction pts as [|p pts IH]; intros s acc Hnd Hlt; cbn [List.length seq combine fold_left].
    - split; [exact Hnd|]. intros i Hi. specialize (Hlt i Hi). lia.
    - cbn [fst snd].
      destruct (IH (S s) (A3A4.uinsert p s acc)) as [N B].
      + apply uinsert_NoDup; assumption.
      + intros i Hi. destruct (uinsert_indices p s acc i Hi) as [->|E]; [lia|].
        specialize (Hlt i E). lia.
      + split; [exact N|]. intros i Hi. specialize (B i Hi). lia. }
  destruct (H PosAll 0%nat []) as [N B].
  - constructor.
  - intros i [].
  - split; [exact N | exact B].
Qed.

Lemma fancy_get_ok {A : Type} (rows : list A) (idxs : list nat) (d : A) :
  (forall i, In i idxs -> (i < List.length rows)%nat) ->
  A3A4.fancy_get rows idxs = Ok (map (fun i => nth i rows d) idxs).
Proof.
  unfold A3A4.fancy_get. induction idxs as [|i idxs IH]; intro H; [reflexivity|].
  cbn [mapM map].
  destruct (nth_error rows i) as [r|] eqn:E.
  - cbn [bind]. rewrite IH by (intros j Hj; apply H; right; exact Hj). cbn [bind].
    rewrite (nth_error_nth _ _ d E). reflexivity.
  - apply nth_error_None in E. specialize (H i (or_introl eq_refl)). lia.
Qed.

Lemma compress_seq {A : Type} (g : nat -> bool) (rows : list A) (d : A) :
  forall s,
  Np.compress (map g (seq s (List.length rows))) rows
  = map (fun k => nth (k - s) rows d) (filter g (seq s (List.length rows))).
Proof.
  induction rows as [|r rows IH]; intro s; [reflexivity|].
  cbn [List.length seq map Np.compress filter].
  rewrite (IH (S s)).
  assert (E : map (fun k => nth (k - S s) rows d) (filter g (seq (S s) (List.length rows)))
              = map (fun k => nth (k - s) (r :: rows) d)
                    (filter g (seq (S s) (List.length rows)))).
  { apply map_ext_in. intros k Hk. apply filter_In in Hk. destruct Hk as [Hk _].
    apply in_seq in Hk. replace (k - s)%nat with (S (k - S s)) by lia. reflexivity. }
  destruct (g s); cbn [map].
  - rewrite Nat.sub_diag. cbn [nth]. rewrite E. reflexivity.
  - exact E.
Qed.

Lemma rows_as_seq {A : Type} (rows : list A) (d : A) :
  rows = map (fun k => nth k rows d) (seq 0 (List.length rows)).
Proof.
  pose proof (compress_seq (fun _ => true) rows d 0) as H.
  rewrite filter_all in H by reflexivity.
  rewrite (map_ext (fun k => nth k rows d) (fun k => nth (k - 0) rows d))
    by (intro k; rewrite Nat.sub_0_r; reflexivity).
  rewrite <- H. symmetry. apply compress_all_true.
  - rewrite length_map, length_seq. reflexivity.
  - apply forallb_forall. intros b Hb. apply in_map_iff in Hb. destruct Hb as (k & <- & _).
    reflexivity.
Qed.

(** The rows at the first occurrences and the rows under the mask together
    are all rows. *)
Lemma split_total (rows : list (list Q)) (U : list nat) :
  NoDup U -> (forall i, In i U -> (i < List.length rows)%nat) ->
  Np.sum2 (map (fun i => nth i rows []) U)
  + Np.sum2 (Np.compress (map (fun k => negb (existsb (Nat.eqb k) U))
                              (seq 0 (List.length rows))) rows)
  == Np.sum2 rows.
Proof.
  intros Hnd Hin.
  assert (HR : Np.sum2 rows
               == Np.sum (map (fun k => Np.sum (nth k rows [])) (seq 0 (List.length rows)))).
  { unfold Np.sum2. rewrite (rows_as_seq rows []) at 1. rewrite map_map. reflexivity. }
  rewrite HR. clear HR.
  rewrite (compress_seq _ rows [] 0).
  unfold Np.sum2. rewrite !map_map.
  rewrite (sum_filter_split (fun k => Np.sum (nth k rows []))
             (fun k => existsb (Nat.eqb k) U) (seq 0 (List.length rows))).
  assert (HP : Permutation U (filter (fun k => existsb (Nat.eqb k) U)
                                     (seq 0 (List.length rows)))).
  { apply NoDup_Permutation; [assumption | apply NoDup_filter; apply seq_NoDup|].
    intro k. rewrite filter_In, in_seq, existsb_exists. split.
    - intro Hk. split; [specialize (Hin k Hk); lia|].
      exists k. split; [assumption | apply Nat.eqb_refl].
    - intros [_ (j & Hj & E)]. apply Nat.eqb_eq in E. subst j. assumption. }
  rewrite (sum_perm (fun k => Np.sum (nth k rows [])) _ _ HP).
  apply Qplus_comp; [reflexivity|].
  apply sum_map_ext. intros k _. rewrite Nat.sub_0_r. reflexivity.
Qed.

Lemma set_nth_length {A : Type} (i : nat) (v : A) (l : list A) :
  List.length (A3A4.set_nth i v l) = List.length l.
Proof.
  revert i. induction l as [|x l IH]; intros [|i]; cbn; try reflexivity.
  rewrite IH. reflexivity.
Qed.

Lemma set_nth_other {A : Type} (i j : nat) (v d : A) (l : list A) :
  i <> j -> nth j (A3A4.set_nth i v l) d = nth j l d.
Proof.
  revert i j. induction l as [|x l IH]; intros [|i] [|j] H; cbn; try reflexivity.
  - contradiction.
  - apply IH. lia.
Qed.

Lemma set_nth_total (i : nat) (v : list Q) (l : list (list Q)) :
  (i < List.length l)%nat ->
  Np.sum2 (A3A4.set_nth i v l) == Np.sum2 l + (Np.sum v - Np.sum (nth i l [])).
Proof.
  revert i. induction l as [|x l IH]; intros [|i] H; cbn [List.length] in H; try lia.
  - unfold Np.sum2. cbn. ring.
  - unfold Np.sum2 in *. cbn [A3A4.set_nth map Np.sum nth].
    rewrite IH by lia. ring.
Qed.

Lemma fancy_set_length {A : Type} (idxs : list nat) (vals : list A) :
  forall rows, List.length (A3A4.fancy_set rows idxs vals) = List.length rows.
Proof.
  unfold A3A4.fancy_set.
  revert vals. induction idxs as [|i idxs IH]; intros [|v vals] rows; cbn; try reflexivity.
  rewrite IH, set_nth_length. reflexivity.
Qed.

(** Assignments through pairwise different indices: each replaces its own
    row. *)
Lemma fancy_set_total (idxs : list nat) :
  forall (vals rows : list (list Q)),
  NoDup idxs -> (forall i, In i idxs -> (i < List.length rows)%nat) ->
  List.length vals = List.length idxs ->
  Np.sum2 (A3A4.fancy_set rows idxs vals)
  == Np.sum2 rows
     + Np.sum (map (fun iv => Np.sum (snd iv) - Np.sum (nth (fst iv) rows []))
                   (combine idxs vals)).
Proof.
  unfold A3A4.fancy_set.
  induction idxs as [|i idxs IH]; intros [|v vals] rows Hnd Hin Hl; cbn in Hl; try lia.
  - cbn [combine fold_left map Np.sum]. ring.
  - cbn [combine fold_left map Np.sum fst snd].
    inversion Hnd as [|? ? Hnotin Hnd']; subst.
    rewrite IH.
    + rewrite set_nth_total by (apply Hin; left; reflexivity).
      rewrite (sum_map_ext
                 (fun iv => Np.sum (snd iv) - Np.sum (nth (fst iv) (A3A4.set_nth i v rows) []))
                 (fun iv => Np.sum (snd iv) - Np.sum (nth (fst iv) rows []))).
      * ring.
      * intros [j u] Hj. cbn [fst snd]. apply in_combine_l in Hj.
        rewrite set_nth_other; [reflexivity|]. intro E. subst j. contradiction.
    + assumption.
    + intros j Hj. rewrite set_nth_length. apply Hin. right. assumption.
    + lia.
Qed.

Lemma row_add_total (r s : list Q) :
  List.length r = List.length s -> Np.sum (A3A4.row_add r s) == Np.sum r + Np.sum s.
Proof.
  unfold A3A4.row_add. revert s.
  induction r as [|x r IH]; intros [|y s] H; cbn in *; try discriminate.
  - reflexivity.
  - rewrite IH by lia. ring.
Qed.

Lemma nth_width (rows : list (list Q)) (w i : nat) :
  (forall r, In r rows -> List.length r = w) -> (i < List.length rows)%nat ->
  List.length (nth i rows []) = w.
Proof.
  intros H Hi. apply H. apply nth_In. assumption.
Qed.

(** [rows[idxs,:] += d] through pairwise different indices adds every row
    of [d]: the total grows by the total of [d]. *)
Lemma fancy_iadd_total (rows d : list (list Q)) (idxs : list nat) (w : nat) :
  NoDup idxs -> (forall i, In i idxs -> (i < List.length rows)%nat) ->
  List.length d = List.length idxs ->
  (forall r, In r rows -> List.length r = w) -> (forall r, In r d -> List.length r = w) ->
  exists rows', A3A4.fancy_iadd rows idxs d = Ok rows'
    /\ List.length rows' = List.length rows
    /\ Np.sum2 rows' == Np.sum2 rows + Np.sum2 d.
Proof.
  intros Hnd Hin Hl Wr Wd. unfold A3A4.fancy_iadd.
  rewrite (fancy_get_ok rows idxs [] Hin). cbn [bind].
  eexists. split; [reflexivity|]. split; [apply fancy_set_length|].
  rewrite fancy_set_total; [|assumption|assumption|].
  2:{ rewrite length_map, length_combine, length_map, Hl, Nat.min_id. reflexivity. }
  apply Qplus_comp; [reflexivity|].
  unfold Np.sum2.
  clear Hnd. revert d Hl Wd.
  induction idxs as [|i idxs IH]; intros [|s d] Hl Wd; cbn in Hl; try lia.
  - reflexivity.
  - cbn [map combine Np.sum fst snd].
    rewrite IH.
    + rewrite row_add_total.
      * ring.
      * rewrite (nth_width rows w i Wr) by (apply Hin; left; reflexivity).
        symmetry. apply Wd. left. reflexivity.
    + intros j Hj. apply Hin. right. assumption.
    + lia.
    + intros r Hr. apply Wd. right. assumption.
Qed.

Lemma compress_length_mask {A B : Type} (mask : list bool) (a : list A) (b : list B) :
  List.length a = List.length b ->
  List.length (Np.compress mask a) = List.length (Np.compress mask b).
Proof.
  revert a b. induction mask as [|m mask IH]; intros [|x a] [|y b] H; cbn in *;
    try reflexivity; try discriminate.
  destruct m; cbn; rewrite (IH a b) by lia; reflexivity.
Qed.

Lemma compress_In {A : Type} (mask : list bool) (a : list A) (x : A) :
  In x (Np.compress mask a) -> In x a.
Proof.
  revert a. induction mask as [|m mask IH]; intros [|y a] H; cbn in *; try contradiction.
  destruct m.
  - destruct H as [<-|H]; [left; reflexivity | right; apply IH; assumption].
  - right. apply IH. assumption.
Qed.

(** X11.  The merge step of plotA3A4 conserves the summed intensity and
    monitor when no point was measured more than twice: if [doubleIndex]
    holds no index twice, and only indices of unique points, the merge
    returns one row per unique point and the totals of the merged
    intensity and monitor rows are the totals over all files. *)
Theorem mergeDuplicates_conserves_totals (PosAll : list point)
    (IReshape : list (list Q)) (NormReshape : list (list (option Q)))
    (MonReshape : list (list Q)) (binningDecimals w : nat) :
  List.length IReshape = List.length PosAll ->
  List.length NormReshape = List.length PosAll ->
  List.length MonReshape = List.length PosAll ->
  (forall r, In r IReshape -> List.length r = w) ->
  (forall r, In r MonReshape -> List.length r = w) ->
  NoDup (doubleIndex PosAll binningDecimals) ->
  (forall i, In i (doubleIndex PosAll binningDecimals) ->
             (i < List.length (A3A4.unique_cols PosAll))%nat) ->
  exists points Isorted Normsorted Monsorted,
    A3A4.mergeDuplicates PosAll IReshape NormReshape MonReshape binningDecimals
    = Ok (points, Isorted, Normsorted, Monsorted)
    /\ List.length Isorted = List.length points
    /\ List.length Monsorted = List.length points
    /\ Np.sum2 Isorted == Np.sum2 IReshape
    /\ Np.sum2 Monsorted == Np.sum2 MonReshape.
Proof.
  intros LI LN LM WI WM Hnd Hrange.
  destruct (unique_cols_indices PosAll) as [Und Uin].
  unfold A3A4.mergeDuplicates. cbv zeta.
  change (map A3A4.u_index (A3A4.unique_cols PosAll)) with (uindex PosAll).
  change (map (fun k => negb (existsb (Nat.eqb k) (uindex PosAll)))
              (seq 0 (List.length PosAll))) with (dup_mask PosAll).
  change (map (fun p => A3A4.kdtree_query (map A3A4.u_col (A3A4.unique_cols PosAll))
                          (1 / inject_Z (10 ^ Z.of_nat binningDecimals) * (11 # 10))
                          (A3A4.round_dec binningDecimals (fst p),
                           A3A4.round_dec binningDecimals (snd p)))
              (Np.compress (dup_mask PosAll) PosAll))
    with (doubleIndex PosAll binningDecimals).
  set (DI := doubleIndex PosAll binningDecimals) in *.
  assert (LU : List.length (uindex PosAll) = List.length (A3A4.unique_cols PosAll))
    by (unfold uindex; apply length_map).
  assert (LDI : forall (A : Type) (rows : list A), List.length rows = List.length PosAll ->
                  List.length (Np.compress (dup_mask PosAll) rows) = List.length DI).
  { intros A rows Hr. unfold DI, doubleIndex. rewrite length_map.
    apply compress_length_mask. assumption. }
  rewrite (fancy_get_ok IReshape (uindex PosAll) [])
    by (intros i Hi; rewrite LI; apply Uin; assumption).
  rewrite (fancy_get_ok NormReshape (uindex PosAll) [])
    by (intros i Hi; rewrite LN; apply Uin; assumption).
  rewrite (fancy_get_ok MonReshape (uindex PosAll) [])
    by (intros i Hi; rewrite LM; apply Uin; assumption).
  cbn [bind].
  destruct (fancy_iadd_total (map (fun i => nth i IReshape []) (uindex PosAll))
              (Np.compress (dup_mask PosAll) IReshape) DI w) as (Is & EI & LIs & TI).
  { assumption. }
  { intros i Hi. rewrite length_map, LU. apply Hrange. assumption. }
  { apply LDI. assumption. }
  { intros r Hr. apply in_map_iff in Hr. destruct Hr as (i & <- & Hi).
    apply nth_width; [assumption|]. rewrite LI. apply Uin. assumption. }
  { intros r Hr. apply WI. apply (compress_In _ _ _ Hr). }
  destruct (fancy_iadd_total (map (fun i => nth i MonReshape []) (uindex PosAll))
              (Np.compress (dup_mask PosAll) MonReshape) DI w) as (Ms & EM & LMs & TM).
  { assumption. }
  { intros i Hi. rewrite length_map, LU. apply Hrange. assumption. }
  { apply LDI. assumption. }
  { intros r Hr. apply in_map_iff in Hr. destruct Hr as (i & <- & Hi).
    apply nth_width; [assumption|]. rewrite LM. apply Uin. assumption. }
  { intros r Hr. apply WM. apply (compress_In _ _ _ Hr). }
  rewrite EI. cbn [bind].
  rewrite (fancy_get_ok (map (fun i => nth i NormReshape []) (uindex PosAll)) DI [])
    by (intros i Hi; rewrite length_map, LU; apply Hrange; assumption).
  cbn [bind]. rewrite EM. cbn [bind].
  do 4 eexists. split; [reflexivity|].
  rewrite LIs, LMs, !length_map, LU.
  split; [reflexivity|]. split; [reflexivity|].
  rewrite TI, TM. unfold dup_mask.
  split.
  - rewrite <- LI. apply split_total; [assumption|].
    intros i Hi. rewrite LI. apply Uin. assumption.
  - rewrite <- LM. apply split_total; [assumption|].
    intros i Hi. rewrite LM. apply Uin. assumption.
Qed.

Lemma mergeDuplicates_conserves_totals_witness :
  exists points Isorted Normsorted Monsorted,
    A3A4.mergeDuplicates (raster ++ raster) (repeat [1] 4 ++ repeat [2] 4)
      (repeat [Some 1] 4 ++ repeat [None] 4) (repeat [10] 4 ++ repeat [20] 4) 3
    = Ok (points, Isorted, Normsorted, Monsorted)
    /\ List.length Isorted = List.length points
    /\ List.length Monsorted = List.length points
    /\ Np.sum2 Isorted == Np.sum2 (repeat [1] 4 ++ repeat [2] 4)
    /\ Np.sum2 Monsorted == Np.sum2 (repeat [10] 4 ++ repeat [20] 4).
Proof.
  apply (mergeDuplicates_conserves_totals (raster ++ raster) _ _ _ 3 1); try reflexivity.
  - intros r Hr. cbn in Hr.
    repeat (destruct Hr as [<-|Hr]; [reflexivity|]). contradiction.
  - intros r Hr. cbn in Hr.
    repeat (destruct Hr as [<-|Hr]; [reflexivity|]). contradiction.
  - assert (E : doubleIndex (raster ++ raster) 3 = [0; 1; 2; 3]%nat) by (vm_compute; reflexivity).
    rewrite E. repeat constructor; cbn; lia.
  - assert (E : doubleIndex (raster ++ raster) 3 = [0; 1; 2; 3]%nat) by (vm_compute; reflexivity).
    assert (L : List.length (A3A4.unique_cols (raster ++ raster)) = 4%nat)
      by (vm_compute; reflexivity).
    rewrite E, L. cbn. lia.
Defined.

(** ** The slices of the powder cut *)

Lemma histogram_astype (d : Grid.dtype) (a edges w H : list Q) :
  Np.histogram a edges w = Ok H -> (d = Grid.int64 -> Forall integral w) ->
  Np.sum (astype1 d H) == Np.sum H /\ List.length (astype1 d H) = List.length H.
Proof.
  intros HH Hw. destruct d; [|split; reflexivity].
  cbn [astype1]. split; [|apply length_map].
  revert HH. unfold Np.histogram.
  destruct (negb (Np.monotone edges)); [discriminate|].
  destruct (negb (List.length w =? List.length a)%nat); [discriminate|].
  intro E. injection E as <-. rewrite map_map.
  apply sum_map_ext. intros i _. apply as_int64_integral.
  apply integral_sum. apply Forall_filter_snd. apply Hw. reflexivity.
Qed.

Lemma Forall_integral_map_filter {A : Type} (f : A -> Q) (P : A -> bool) (l : list A) :
  Forall integral (map f l) -> Forall integral (map f (filter P l)).
Proof.
  rewrite !Forall_forall. intros H x Hx.
  apply in_map_iff in Hx. destruct Hx as (z & <- & Hz).
  apply filter_In in Hz. apply H. apply in_map. tauto.
Qed.


Section PowderRows.

Variable fsqrt : Q -> Q.
Variable Z : list row.
Variables dI dN dM : Grid.dtype.
Variable qMinBin : Q.

Hypothesis qMinBin_pos : 0 < qMinBin.
Hypothesis I_typed : dI = Grid.int64 -> Forall integral (map rI Z).
Hypothesis N_typed : dN = Grid.int64 -> Forall integral (map rN Z).
Hypothesis M_typed : dM = Grid.int64 -> Forall integral (map rM Z).

Local Abbreviation step acc lo hi :=
  (cutPowder_step fsqrt (map rx Z, map ry Z, map re Z)
     (Grid.mkT dI (map rI Z)) (Grid.mkT dN (map rN Z)) (Grid.mkT dM (map rM Z))
     qMinBin acc lo hi).

Local Abbreviation loop acc edges :=
  (cutPowder_loop fsqrt (map rx Z, map ry Z, map re Z)
     (Grid.mkT dI (map rI Z)) (Grid.mkT dN (map rN Z)) (Grid.mkT dM (map rM Z))
     qMinBin acc edges).

(** Every pass of the loop returns and appends one slice. *)
Lemma cutPowder_step_rows (acc : powder_result) (lo hi : Q) :
  exists s, step acc lo hi = Ok (add_slices acc [s]) /\ powder_slice Z [lo; hi] s.
Proof.
  unfold cutPowder_step. destruct acc as [[[[ia ma] na] ca] qb]. cbv zeta.
  cbn [Grid.values Grid.dt].
  rewrite combine_map, !map_map.
  set (ins := fun z : row => Np.ltb lo (re z) && Np.leb (re z) hi).
  change (map (fun x : row => Np.ltb lo (re x) && Np.leb (re x) hi) Z) with (map ins Z).
  rewrite !compress_map, length_map, repeat_map_const.
  set (S := filter ins Z).
  change (map (fun x : row => linalg_norm fsqrt (rx x, ry x)) S)
    with (map (fun z => qlength fsqrt (xye z)) S).
  destruct (histogram_binEdges_rows S (fun z => qlength fsqrt (xye z)) rI qMinBin qMinBin_pos)
    as (hI & EI & LI & TI).
  destruct (histogram_binEdges_rows S (fun z => qlength fsqrt (xye z)) rM qMinBin qMinBin_pos)
    as (hM & EM & LM & TM).
  destruct (histogram_binEdges_rows S (fun z => qlength fsqrt (xye z)) rN qMinBin qMinBin_pos)
    as (hN & EN & LN & TN).
  destruct (histogram_binEdges_rows S (fun z => qlength fsqrt (xye z)) (fun _ => 1) qMinBin
              qMinBin_pos) as (hC & EC & LC & TC).
  rewrite EI, EM, EN, EC. cbn [bind].
  destruct (histogram_astype dI _ _ _ _ EI) as [AI BI].
  { intro E. apply Forall_integral_map_filter. apply I_typed. exact E. }
  destruct (histogram_astype dM _ _ _ _ EM) as [AM BM].
  { intro E. apply Forall_integral_map_filter. apply M_typed. exact E. }
  destruct (histogram_astype dN _ _ _ _ EN) as [AN BN].
  { intro E. apply Forall_integral_map_filter. apply N_typed. exact E. }
  destruct (histogram_astype dI _ _ _ _ EC) as [AC BC].
  { intros _. rewrite <- repeat_map_const. apply Forall_ones. }
  eexists (_, _, _, _, _). split; [cbn [add_slices map fst snd]; reflexivity|].
  unfold powder_slice. cbn [nth]. fold ins. fold S.
  rewrite BI, BM, BN, BC, LI, LM, LN, LC, AI, AM, AN, AC, TI, TM, TN, TC, sum_ones.
  repeat split; reflexivity.
Qed.

Lemma add_slices_app (acc : powder_result)
    (s1 s2 : list (list Q * list Q * list Q * list Q * list Q)) :
  add_slices (add_slices acc s1) s2 = add_slices acc (s1 ++ s2).
Proof.
  destruct acc as [[[[ia ma] na] ca] qb]. cbn [add_slices].
  rewrite !map_app, !app_assoc. reflexivity.
Qed.

(** The loop returns one slice for every window of the energy edges, in
    their order. *)
Lemma cutPowder_loop_rows (edges : list Q) :
  forall acc,
  exists sl, loop acc edges = Ok (add_slices acc sl)
             /\ Forall2 (powder_slice Z) (windows edges) sl.
Proof.
  induction edges as [|lo rest IH]; intro acc.
  - exists []. split; [|constructor].
    destruct acc as [[[[ia ma] na] ca] qb]. cbn. rewrite !app_nil_r. reflexivity.
  - destruct rest as [|hi rest'].
    + exists []. split; [|constructor].
      destruct acc as [[[[ia ma] na] ca] qb]. cbn. rewrite !app_nil_r. reflexivity.
    + change (loop acc (lo :: hi :: rest'))
        with (bind (step acc lo hi) (fun acc' => loop acc' (hi :: rest'))).
      destruct (cutPowder_step_rows acc lo hi) as (s & Es & Ps).
      rewrite Es. cbn [bind].
      destruct (IH (add_slices acc [s])) as (sl & El & Pl).
      exists (s :: sl). rewrite El, add_slices_app. split; [reflexivity|].
      change (windows (lo :: hi :: rest')) with ([lo; hi] :: windows (hi :: rest')).
      constructor; assumption.
Qed.

End PowderRows.

Lemma Forall2_nth_error {A B : Type} (P : A -> B -> Prop) (l : list A) (l' : list B) :
  Forall2 P l l' ->
  List.length l' = List.length l
  /\ forall i a, nth_error l i = Some a -> exists b, nth_error l' i = Some b /\ P a b.
Proof.
  induction 1 as [|a b l l' Hab H IH].
  - split; [reflexivity|]. intros [|i] a H; discriminate.
  - destruct IH as [IL IN]. split; [cbn; lia|].
    intros [|i] a' Hi; cbn in Hi.
    + injection Hi as <-. exists b. split; [reflexivity | assumption].
    + apply IN. assumption.
Qed.

(** X12.  [cutPowder] returns one slice for every pair of consecutive
    energy edges, empty slices included (unlike [cutQE], which skips
    them): each of its five lists has [len(EBinEdges)-1] entries, and slice
    [i] holds histograms over one set of bin edges along [|q|] whose totals
    are the totals of intensity, monitor and normalization, and the number,
    of the points with [EBinEdges[i] < E <= EBinEdges[i+1]]. *)
Theorem cutPowder_one_slice_per_window (fsqrt : Q -> Q) (px py pe : list Q)
    (I Norm Monitor : Grid.tarray) (EBinEdges : list Q) (qMinBin : Q) :
  List.length px = List.length pe -> List.length py = List.length pe ->
  List.length (Grid.values I) = List.length pe ->
  List.length (Grid.values Norm) = List.length pe ->
  List.length (Grid.values Monitor) = List.length pe ->
  0 < qMinBin -> well_typed I -> well_typed Norm -> well_typed Monitor ->
  exists intensity monitorCount Normalization NormCount qbins,
    cutPowder fsqrt (px, py, pe) I Norm Monitor EBinEdges qMinBin
    = Ok ((intensity, monitorCount, Normalization, NormCount), qbins)
    /\ List.length intensity = (List.length EBinEdges - 1)%nat
    /\ List.length monitorCount = (List.length EBinEdges - 1)%nat
    /\ List.length Normalization = (List.length EBinEdges - 1)%nat
    /\ List.length NormCount = (List.length EBinEdges - 1)%nat
    /\ List.length qbins = (List.length EBinEdges - 1)%nat
    /\ forall i win, nth_error (windows EBinEdges) i = Some win ->
         exists int mon nor cnt bins,
           nth_error intensity i = Some int /\ nth_error monitorCount i = Some mon
           /\ nth_error Normalization i = Some nor /\ nth_error NormCount i = Some cnt
           /\ nth_error qbins i = Some bins
           /\ powder_slice (zip_rows px py pe (Grid.values I) (Grid.values Norm)
                                     (Grid.values Monitor))
                           win (int, mon, nor, cnt, bins).
Proof.
  intros L1 L2 L3 L4 L5 Hpix WI WN WM.
  destruct I as [dI vI], Norm as [dN vN], Monitor as [dM vM].
  cbn [Grid.values] in *. unfold well_typed in WI, WN, WM. cbn [Grid.dt Grid.values] in *.
  destruct (zip_rows_maps px py pe vI vN vM L1 L2 L3 L4 L5)
    as (E1 & E2 & E3 & E4 & E5 & E6).
  set (Z := zip_rows px py pe vI vN vM) in *. clearbody Z.
  subst px py pe vI vN vM.
  unfold cutPowder.
  destruct (cutPowder_loop_rows fsqrt Z dI dN dM qMinBin Hpix WI WN WM EBinEdges
              (([], [], [], []), [])) as (sl & El & Pl).
  rewrite El. cbn [add_slices app].
  destruct (Forall2_nth_error _ _ _ Pl) as [Hlen Hnth].
  rewrite windows_length in Hlen.
  do 5 eexists. split; [reflexivity|].
  rewrite !length_map, Hlen.
  do 5 (split; [reflexivity|]).
  intros i win Hw. destruct (Hnth i win Hw) as ([[[[int mon] nor] cnt] bins] & Hs & Ps).
  exists int, mon, nor, cnt, bins.
  rewrite !nth_error_map, Hs. cbn [option_map fst snd].
  do 5 (split; [reflexivity|]). exact Ps.
Qed.

Lemma cutPowder_one_slice_per_window_witness :
  exists intensity monitorCount Normalization NormCount qbins,
    cutPowder sqrt6 ([3; 0; 4], [4; 1; 3], [1; 2; 2])
              (Grid.mkT Grid.int64 [5; 6; 7]) (Grid.mkT Grid.float64 [1 # 2; 1; 1])
              (Grid.mkT Grid.int64 [10; 10; 10]) [0; 1; 2; 3] (1 # 10)
    = Ok ((intensity, monitorCount, Normalization, NormCount), qbins)
    /\ List.length intensity = 3%nat /\ List.length qbins = 3%nat
    /\ map Np.sum intensity = [5; 6 + 7; 0]
    /\ map Np.sum NormCount = [1; 1 + 1; 0].
Proof.
  destruct (cutPowder_one_slice_per_window sqrt6 [3; 0; 4] [4; 1; 3] [1; 2; 2]
              (Grid.mkT Grid.int64 [5; 6; 7]) (Grid.mkT Grid.float64 [1 # 2; 1; 1])
              (Grid.mkT Grid.int64 [10; 10; 10]) [0; 1; 2; 3] (1 # 10))
    as (int & mon & nor & cnt & qb & Hc & L1 & _ & _ & _ & L5 & _); try reflexivity.
  - intros _. cbn [Grid.values].
    repeat constructor; [exists 5%Z | exists 6%Z | exists 7%Z]; reflexivity.
  - intro H. discriminate.
  - intros _. cbn [Grid.values]. repeat constructor; exists 10%Z; reflexivity.
  - exists int, mon, nor, cnt, qb. split; [exact Hc|].
    split; [exact L1|]. split; [exact L5|].
    vm_compute in Hc. injection Hc as <- <- <- <- <-. split; vm_compute; reflexivity.
Defined.

(** ** The powder cut counts every point once *)

Lemma sum_filter_indicator {A : Type} (f : A -> Q) (P : A -> bool) (l : list A) :
  Np.sum (map f (filter P l)) == Np.sum (map (fun z => if P z then f z else 0) l).
Proof.
  induction l as [|x l IH]; cbn [filter map Np.sum]; [reflexivity|].
  destruct (P x); cbn [map Np.sum]; rewrite IH; ring.
Qed.

(** Adjacent half-open windows share no energy and together make the
    window from the first to the last edge. *)
Lemma window_split (lo mid hi : Q) (g : Q * Q * Q) (x : Q) :
  lo <= mid -> mid <= hi ->
  (if in_window lo hi g then x else 0)
  == (if in_window lo mid g then x else 0) + (if in_window mid hi g then x else 0).
Proof.
  intros H1 H2. unfold in_window.
  destruct (Np.ltb lo (snd g)) eqn:A; destruct (Np.leb (snd g) hi) eqn:B;
    destruct (Np.leb (snd g) mid) eqn:C; destruct (Np.ltb mid (snd g)) eqn:D;
    cbn [andb];
    try apply ltb_lt in A; try apply ltb_ge in A;
    try apply leb_le in B; try apply leb_gt in B;
    try apply leb_le in C; try apply leb_gt in C;
    try apply ltb_lt in D; try apply ltb_ge in D;
    try ring; exfalso; lra.
Qed.

Lemma windows_partition (Z : list row) (f : row -> Q) (edges : list Q) :
  Np.monotone edges = true ->
  Np.sum (map (fun win => Np.sum (map f (filter (fun z => in_window (nth 0 win 0) (nth 1 win 0)
                                                                 (xye z)) Z)))
              (windows edges))
  == Np.sum (map f (filter (fun z => in_window (hd 0 edges) (last edges 0) (xye z)) Z)).
Proof.
  induction edges as [|lo rest IH]; intro Hm.
  - cbn [windows map Np.sum hd last]. rewrite sum_filter_indicator.
    rewrite (sum_map_ext _ (fun _ => 0)); [rewrite sum_map_zero; reflexivity|].
    intros z _. unfold in_window.
    destruct (Np.ltb 0 (snd (xye z))) eqn:A; destruct (Np.leb (snd (xye z)) 0) eqn:B;
      cbn [andb]; try reflexivity.
    apply ltb_lt in A. apply leb_le in B. exfalso. lra.
  - destruct rest as [|mid rest'].
    + cbn [windows map Np.sum hd last]. rewrite sum_filter_indicator.
      rewrite (sum_map_ext _ (fun _ => 0)); [rewrite sum_map_zero; reflexivity|].
      intros z _. unfold in_window.
      destruct (Np.ltb lo (snd (xye z))) eqn:A; destruct (Np.leb (snd (xye z)) lo) eqn:B;
        cbn [andb]; try reflexivity.
      apply ltb_lt in A. apply leb_le in B. exfalso. lra.
    + change (windows (lo :: mid :: rest')) with ([lo; mid] :: windows (mid :: rest')).
      apply monotone_cons in Hm. destruct Hm as [Hlm Hm].
      cbn [map Np.sum nth]. rewrite (IH Hm).
      change (hd 0 (lo :: mid :: rest')) with lo.
      change (hd 0 (mid :: rest')) with mid.
      change (last (lo :: mid :: rest') 0) with (last (mid :: rest') 0).
      rewrite !sum_filter_indicator, <- sum_map_plus.
      apply sum_map_ext. intros z _. symmetry. apply window_split; [assumption|].
      apply monotone_le_last; [assumption | left; reflexivity].
Qed.

Lemma slices_total (Z : list row) (wins : list (list Q))
    (sl : list (list Q * list Q * list Q * list Q * list Q)) :
  Forall2 (powder_slice Z) wins sl ->
  let S win := filter (fun z => in_window (nth 0 win 0) (nth 1 win 0) (xye z)) Z in
  Np.sum2 (map (fun s => fst (fst (fst (fst s)))) sl)
  == Np.sum (map (fun win => Np.sum (map rI (S win))) wins)
  /\ Np.sum2 (map (fun s => snd (fst (fst (fst s)))) sl)
     == Np.sum (map (fun win => Np.sum (map rM (S win))) wins)
  /\ Np.sum2 (map (fun s => snd (fst (fst s))) sl)
     == Np.sum (map (fun win => Np.sum (map rN (S win))) wins)
  /\ Np.sum2 (map (fun s => snd (fst s)) sl)
     == Np.sum (map (fun win => Np.sum (map (fun _ => 1) (S win))) wins).
Proof.
  cbv zeta. unfold Np.sum2.
  induction 1 as [|win s wins sl Hs H IH]; [cbn; repeat split; reflexivity|].
  destruct IH as (I1 & I2 & I3 & I4).
  destruct s as [[[[int mon] nor] cnt] bins].
  destruct Hs as (_ & _ & _ & _ & S1 & S2 & S3 & S4).
  cbn [map Np.sum fst snd].
  rewrite I1, I2, I3, I4, S1, S2, S3, S4, sum_ones.
  repeat split; reflexivity.
Qed.

(** X13.  [cutPowder] counts every point at most once: for increasing
    energy edges the windows [EBinEdges[i] < E <= EBinEdges[i+1]] are
    disjoint, so that, summed over all slices, the intensity, monitor and
    normalization histograms give the totals of these arrays over the
    points with [EBinEdges[0] < E <= EBinEdges[-1]], and the count
    histograms give the number of these points.  A point on an inner edge
    belongs to the slice below it only; a point on the lowest edge belongs
    to none. *)
Theorem cutPowder_counts_points_once (fsqrt : Q -> Q) (px py pe : list Q)
    (I Norm Monitor : Grid.tarray) (EBinEdges : list Q) (qMinBin : Q) :
  List.length px = List.length pe -> List.length py = List.length pe ->
  List.length (Grid.values I) = List.length pe ->
  List.length (Grid.values Norm) = List.length pe ->
  List.length (Grid.values Monitor) = List.length pe ->
  0 < qMinBin -> well_typed I -> well_typed Norm -> well_typed Monitor ->
  Np.monotone EBinEdges = true ->
  exists intensity monitorCount Normalization NormCount qbins,
    cutPowder fsqrt (px, py, pe) I Norm Monitor EBinEdges qMinBin
    = Ok ((intensity, monitorCount, Normalization, NormCount), qbins)
    /\ let S := filter (fun z => in_window (hd 0 EBinEdges) (last EBinEdges 0) (xye z))
                       (zip_rows px py pe (Grid.values I) (Grid.values Norm)
                                 (Grid.values Monitor)) in
       Np.sum2 intensity == Np.sum (map rI S)
       /\ Np.sum2 monitorCount == Np.sum (map rM S)
       /\ Np.sum2 Normalization == Np.sum (map rN S)
       /\ Np.sum2 NormCount == inject_Z (Z.of_nat (List.length S)).
Proof.
  intros L1 L2 L3 L4 L5 Hpix WI WN WM Hmono.
  destruct I as [dI vI], Norm as [dN vN], Monitor as [dM vM].
  cbn [Grid.values] in *. unfold well_typed in WI, WN, WM. cbn [Grid.dt Grid.values] in *.
  destruct (zip_rows_maps px py pe vI vN vM L1 L2 L3 L4 L5)
    as (E1 & E2 & E3 & E4 & E5 & E6).
  set (Z := zip_rows px py pe vI vN vM) in *. clearbody Z.
  subst px py pe vI vN vM.
  unfold cutPowder.
  destruct (cutPowder_loop_rows fsqrt Z dI dN dM qMinBin Hpix WI WN WM EBinEdges
              (([], [], [], []), [])) as (sl & El & Pl).
  rewrite El. cbn [add_slices app].
  do 5 eexists. split; [reflexivity|].
  destruct (slices_total Z _ _ Pl) as (T1 & T2 & T3 & T4).
  cbv zeta. rewrite T1, T2, T3, T4, !windows_partition by assumption.
  rewrite sum_ones. repeat split; reflexivity.
Qed.

Lemma cutPowder_counts_points_once_witness :
  exists intensity monitorCount Normalization NormCount qbins,
    cutPowder sqrt6 ([3; 0; 4; 1], [4; 1; 3; 1], [1; 2; 2; 0])
              (Grid.mkT Grid.int64 [5; 6; 7; 8]) (Grid.mkT Grid.float64 [1 # 2; 1; 1; 1])
              (Grid.mkT Grid.int64 [10; 10; 10; 10]) [0; 1; 2; 3] (1 # 10)
    = Ok ((intensity, monitorCount, Normalization, NormCount), qbins)
    /\ let S := filter (fun z => in_window (hd 0 [0; 1; 2; 3]) (last [0; 1; 2; 3] 0) (xye z))
                       (zip_rows [3; 0; 4; 1] [4; 1; 3; 1] [1; 2; 2; 0]
                                 [5; 6; 7; 8] [1 # 2; 1; 1; 1] [10; 10; 10; 10]) in
       Np.sum2 intensity == Np.sum (map rI S)
       /\ Np.sum2 monitorCount == Np.sum (map rM S)
       /\ Np.sum2 Normalization == Np.sum (map rN S)
       /\ Np.sum2 NormCount == inject_Z (Z.of_nat (List.length S)).
Proof.
  apply (cutPowder_counts_points_once sqrt6 [3; 0; 4; 1] [4; 1; 3; 1] [1; 2; 2; 0]
           (Grid.mkT Grid.int64 [5; 6; 7; 8]) (Grid.mkT Grid.float64 [1 # 2; 1; 1; 1])
           (Grid.mkT Grid.int64 [10; 10; 10; 10]) [0; 1; 2; 3] (1 # 10));
    try reflexivity.
  - intros _. cbn [Grid.values].
    repeat constructor; [exists 5%Z | exists 6%Z | exists 7%Z | exists 8%Z]; reflexivity.
  - intro H. discriminate.
  - intros _. cbn [Grid.values]. repeat constructor; exists 10%Z; reflexivity.
Defined.

(** ** The grid of subplots *)

Lemma ceil_sqrt_spec (n : Z) :
  (1 <= n)%Z ->
  (1 <= ceil_sqrt n /\ (ceil_sqrt n - 1) * (ceil_sqrt n - 1) < n <= ceil_sqrt n * ceil_sqrt n)%Z.
Proof.
  intro H. unfold ceil_sqrt. cbv zeta.
  pose proof (Z.sqrt_spec n ltac:(lia)) as [S1 S2].
  assert (S0 : (1 <= Z.sqrt n)%Z).
  { destruct (Z.eq_dec (Z.sqrt n) 0) as [E|E]; [rewrite E in S2; lia|].
    pose proof (Z.sqrt_nonneg n). lia. }
  destruct (Z.eqb_spec (Z.sqrt n * Z.sqrt n) n) as [E|E].
  - split; [assumption|]. split; [nia | lia].
  - split; [lia|]. split; [|].
    + replace (Z.sqrt n + 1 - 1)%Z with (Z.sqrt n) by lia. lia.
    + unfold Z.succ in S2. nia.
Qed.

Lemma ceil_div_spec (n i : Z) :
  (0 < i)%Z -> ((ceil_div n i - 1) * i < n <= ceil_div n i * i)%Z.
Proof.
  intro Hi. unfold ceil_div.
  assert (Hq : 0 < inject_Z i) by (change 0 with (inject_Z 0); rewrite <- Zlt_Qlt; assumption).
  pose proof (Qle_ceiling (inject_Z n / inject_Z i)) as Hc.
  pose proof (Qceiling_lt (inject_Z n / inject_Z i)) as Hl.
  set (c := Qceiling (inject_Z n / inject_Z i)) in *.
  assert (E : inject_Z n / inject_Z i * inject_Z i == inject_Z n) by (field; lra).
  split.
  - apply (Qmult_lt_compat_r _ _ (inject_Z i)) in Hl; [|assumption].
    rewrite E, <- inject_Z_mult, <- Zlt_Qlt in Hl. assumption.
  - apply (Qmult_le_compat_r _ _ (inject_Z i)) in Hc; [|apply Qlt_le_weak; assumption].
    rewrite E, <- inject_Z_mult, <- Zle_Qle in Hc. assumption.
Qed.

(** X14.  [figureRowColumns] always finds a grid that fits: a number of
    subplots below one raises AttributeError; for [n >= 1] the loop stops at
    its first candidate, so that [cols] is the square root of [n] rounded
    up and [rows] is [n/cols] rounded up; the grid holds all subplots, its
    last row is not empty, and it has at most as many rows as columns. *)
Theorem figureRowColumns_fits (n : Z) :
  ((n < 1)%Z ->
   figureRowColumns n
   = Raises (PyAttributeError "Negative or zero number of subplots requiested." []))
  /\ ((1 <= n)%Z ->
      exists rows cols,
        figureRowColumns n = Returns (rows, cols)
        /\ ((cols - 1) * (cols - 1) < n <= cols * cols)%Z
        /\ ((rows - 1) * cols < n <= rows * cols)%Z
        /\ (1 <= rows <= cols)%Z).
Proof.
  split.
  - intro H. unfold figureRowColumns.
    replace (n <? 1)%Z with true by (symmetry; apply Z.ltb_lt; assumption). reflexivity.
  - intro H. unfold figureRowColumns.
    replace (n <? 1)%Z with false by (symmetry; apply Z.ltb_ge; lia).
    destruct (Z.eqb_spec n 1) as [->|Hn].
    + exists 1%Z, 1%Z. split; [reflexivity|]. lia.
    + cbv zeta.
      destruct (ceil_sqrt_spec n H) as (C0 & C1 & C2).
      set (c := ceil_sqrt n) in *.
      assert (Hc : (c <= n)%Z) by nia.
      unfold arange.
      destruct (Z.to_nat (n + 1 - c)) as [|k] eqn:Ek; [lia|].
      cbn [seq map first_fit]. replace (c + Z.of_nat 0)%Z with c by lia.
      destruct (ceil_div_spec n c ltac:(lia)) as [D1 D2].
      replace (n <=? c * ceil_div n c)%Z with true by (symmetry; apply Z.leb_le; lia).
      exists (ceil_div n c), c. split; [reflexivity|].
      split; [lia|]. split; [lia|]. nia.
Qed.

Lemma figureRowColumns_fits_witness :
  figureRowColumns 0
  = Raises (PyAttributeError "Negative or zero number of subplots requiested." [])
  /\ exists rows cols,
       figureRowColumns 10 = Returns (rows, cols)
       /\ ((cols - 1) * (cols - 1) < 10 <= cols * cols)%Z
       /\ ((rows - 1) * cols < 10 <= rows * cols)%Z
       /\ (1 <= rows <= cols)%Z.
Proof.
  split.
  - apply (figureRowColumns_fits 0). lia.
  - apply (figureRowColumns_fits 10). lia.
Defined.

Example figureRowColumns_tests :
  figureRowColumns 10 = Returns (3, 4)%Z /\ figureRowColumns 9 = Returns (3, 3)%Z
  /\ figureRowColumns 1 = Returns (1, 1)%Z /\ figureRowColumns 63 = Returns (8, 8)%Z.
Proof.
  repeat split; vm_compute; reflexivity.
Qed.

(** ** The centroid of a set of points *)

Lemma row_add_length (r s : list Q) :
  List.length r = List.length s -> List.length (A3A4.row_add r s) = List.length r.
Proof.
  intro H. unfold A3A4.row_add. rewrite length_map, length_combine, <- H, Nat.min_id.
  reflexivity.
Qed.

Lemma dot_row_add (a r s : list Q) :
  List.length r = List.length s ->
  dot a (A3A4.row_add r s) == dot a r + dot a s.
Proof.
  unfold dot, A3A4.row_add. revert r s.
  induction a as [|x a IH]; intros [|y r] [|z s] H; cbn in *; try discriminate;
    try reflexivity.
  rewrite IH by lia. ring.
Qed.

Lemma dot_fold (a : list Q) (rest : list (list Q)) :
  forall r,
  (forall p, In p rest -> List.length p = List.length r) ->
  dot a (fold_left A3A4.row_add rest r) == dot a r + Np.sum (map (dot a) rest)
  /\ List.length (fold_left A3A4.row_add rest r) = List.length r.
Proof.
  induction rest as [|p rest IH]; intros r H; cbn [fold_left map Np.sum].
  - split; [ring | reflexivity].
  - assert (Hp : List.length r = List.length p) by (symmetry; apply H; left; reflexivity).
    destruct (IH (A3A4.row_add r p)) as [I1 I2].
    { intros p' Hp'. rewrite row_add_length by assumption. apply H. right. assumption. }
    rewrite I1, I2, dot_row_add, row_add_length by assumption.
    split; [ring | reflexivity].
Qed.

Lemma dot_scale (a v : list Q) (c : Q) :
  dot a (map (fun s => s / c) v) == dot a v / c.
Proof.
  unfold dot. revert v. induction a as [|x a IH]; intros [|y v]; cbn [combine map Np.sum fst snd].
  - unfold Qdiv. ring.
  - unfold Qdiv. ring.
  - unfold Qdiv. ring.
  - rewrite IH. unfold Qdiv. ring.
Qed.

Lemma sum_bounded {A : Type} (f : A -> Q) (l : list A) (b : Q) :
  (forall x, In x l -> f x <= b) ->
  Np.sum (map f l) <= inject_Z (Z.of_nat (List.length l)) * b.
Proof.
  induction l as [|x l IH]; intro H; cbn [map Np.sum List.length].
  - change (inject_Z (Z.of_nat 0)) with 0. lra.
  - rewrite Nat2Z.inj_succ, <- Z.add_1_l, inject_Z_plus. change (inject_Z 1) with 1.
    pose proof (H x (or_introl eq_refl)) as Hx.
    assert (Hl : Np.sum (map f l) <= inject_Z (Z.of_nat (List.length l)) * b)
      by (apply IH; intros y Hy; apply H; right; assumption).
    lra.
Qed.

(** X15.  The centroid [centeroidnp] returns lies on the same side of
    every line (plane) as the points: whatever linear bound [a . p <= b]
    all rows of a non-empty array satisfy, their centroid satisfies it too,
    so the centroid of the vertices of a convex polygon lies in the
    polygon.  The centroid has as many coordinates as the rows. *)
Theorem centeroidnp_within_bounds (arr : list (list Q)) (a : list Q) (b : Q) (d : nat) :
  arr <> [] -> (forall p, In p arr -> List.length p = d) ->
  (forall p, In p arr -> dot a p <= b) ->
  List.length (centeroidnp arr) = d /\ dot a (centeroidnp arr) <= b.
Proof.
  intros Hne Hd Hb. destruct arr as [|r rest]; [contradiction|].
  unfold centeroidnp, col_sums. cbv zeta.
  destruct (dot_fold a rest r) as [D1 D2].
  { intros p Hp. rewrite (Hd r (or_introl eq_refl)). apply Hd. right. assumption. }
  split.
  - rewrite length_map, D2. apply Hd. left. reflexivity.
  - rewrite dot_scale, D1.
    set (N := inject_Z (Z.of_nat (List.length (r :: rest)))).
    assert (HN : 0 < N).
    { unfold N. change 0 with (inject_Z 0). rewrite <- Zlt_Qlt. cbn [List.length]. lia. }
    apply Qle_shift_div_r; [assumption|].
    pose proof (sum_bounded (dot a) (r :: rest) b Hb) as Hs.
    cbn [map Np.sum] in Hs. fold N in Hs. lra.
Qed.

Lemma centeroidnp_within_bounds_witness :
  List.length (centeroidnp [[0; 0]; [1; 0]; [0; 1]; [1; 1]]) = 2%nat
  /\ dot [1; 1] (centeroidnp [[0; 0]; [1; 0]; [0; 1]; [1; 1]]) <= 2.
Proof.
  apply (centeroidnp_within_bounds [[0; 0]; [1; 0]; [0; 1]; [1; 1]] [1; 1] 2 2).
  - discriminate.
  - intros p Hp. cbn [In] in Hp.
    destruct Hp as [<-|[<-|[<-|[<-|[]]]]]; reflexivity.
  - intros p Hp. cbn [In] in Hp.
    destruct Hp as [<-|[<-|[<-|[<-|[]]]]]; vm_compute; discriminate.
Defined.

Example centeroidnp_test :
  map Qred (centeroidnp [[0; 0]; [1; 0]; [0; 1]; [1; 1]]) = [1 # 2; 1 # 2].
Proof.
  vm_compute. reflexivity.
Qed.

(** ** The file arguments *)

Lemma all_strings_spec (Sample : Type) (items : list (pyitem Sample)) (l : list string) :
  all_strings Sample items = Some l <-> items = map PStr l.
Proof.
  revert l. induction items as [|v items IH]; intro l; cbn [all_strings].
  - split.
    + intro H. injection H as <-. reflexivity.
    + destruct l; [reflexivity | discriminate].
  - destruct v as [s|f|].
    + destruct (all_strings Sample items) as [l'|] eqn:E.
      * split.
        -- intro H. injection H as <-. cbn [map]. f_equal. apply IH. reflexivity.
        -- destruct l as [|s' l'']; cbn [map]; [discriminate|].
           intro H. injection H as -> H. apply IH in H. injection H as ->. reflexivity.
      * split; [discriminate|].
        destruct l as [|s' l'']; cbn [map]; [discriminate|].
        intro H. injection H as -> H. apply IH in H. discriminate.
    + split; [discriminate|]. destruct l; discriminate.
    + split; [discriminate|]. destruct l; discriminate.
Qed.

(** X16.  [isListOfStrings] returns exactly on a string, which it wraps in
    a list, and on a list that holds only strings (the empty list
    included), which it returns as it is; every other value raises the one
    AttributeError.  Feeding a returned list back returns it again. *)
Theorem isListOfStrings_spec (Sample : Type) (object : pyval Sample) (l : list string) :
  (isListOfStrings Sample object = Returns l
   <-> (exists s, object = Single (PStr s) /\ l = [s]) \/ object = PList (map PStr l))
  /\ (forall e, isListOfStrings Sample object = Raises e -> e = not_strings)
  /\ (isListOfStrings Sample object = Returns l ->
      isListOfStrings Sample (PList (map PStr l)) = Returns l).
Proof.
  assert (Hrt : forall l', isListOfStrings Sample (PList (map PStr l')) = Returns l').
  { intro l'. cbn [isListOfStrings].
    rewrite (proj2 (all_strings_spec Sample (map PStr l') l') eq_refl). reflexivity. }
  split; [|split].
  - split.
    + destruct object as [[s|f|]|items]; cbn [isListOfStrings]; try discriminate.
      * intro H. injection H as <-. left. exists s. split; reflexivity.
      * destruct (all_strings Sample items) as [l'|] eqn:E; [|discriminate].
        intro H. injection H as <-. right. f_equal. apply all_strings_spec. assumption.
    + intros [(s & Ho & Hl) | Ho]; subst; [reflexivity | apply Hrt].
  - intro e. destruct object as [[s|f|]|items]; cbn [isListOfStrings]; try discriminate;
      try (intro H; injection H as <-; reflexivity).
    destruct (all_strings Sample items); [discriminate|].
    intro H. injection H as <-. reflexivity.
  - intros _. apply Hrt.
Qed.

Section FileLists.

Variable Sample : Type.
Variable sample_eq : Sample -> Sample -> bool.
Variable isfile : string -> bool.
Variable DataFile_init : string -> outcome (DataFile Sample).

Lemma collect_spec (items : list (pyitem Sample)) (l : list (DataFile Sample)) :
  collect Sample isfile DataFile_init items = Returns l ->
  (forall s, In (PStr s) items -> isfile s = true)
  /\ List.length l = List.length (filter (@is_file_or_str Sample) items)
  /\ (forall f, In (PFile f) items -> In f l).
Proof.
  revert l. induction items as [|v items IH]; intro l; cbn [collect].
  - intro H. injection H as <-. repeat split; try reflexivity; intros ? [].
  - destruct v as [s|f|].
    + destruct (isfile s) eqn:Ef; cbn [negb]; [|discriminate].
      destruct (DataFile_init s) as [f0|]; cbn [obind]; [|discriminate].
      destruct (collect Sample isfile DataFile_init items) as [l'|] eqn:Ec;
        cbn [obind]; [|discriminate].
      intro H. injection H as <-.
      destruct (IH l' eq_refl) as (I1 & I2 & I3).
      split; [|split].
      * intros s' [E|Hs']; [injection E as <-; assumption | apply I1; assumption].
      * cbn [filter is_file_or_str List.length]. rewrite I2. reflexivity.
      * intros f [E|Hf]; [discriminate | right; apply I3; assumption].
    + destruct (collect Sample isfile DataFile_init items) as [l'|] eqn:Ec;
        cbn [obind]; [|discriminate].
      intro H. injection H as <-.
      destruct (IH l' eq_refl) as (I1 & I2 & I3).
      split; [|split].
      * intros s' [E|Hs']; [discriminate | apply I1; assumption].
      * cbn [filter is_file_or_str List.length]. rewrite I2. reflexivity.
      * intros f' [E|Hf]; [injection E as <-; left; reflexivity | right; apply I3; assumption].
    + intro H. destruct (IH l H) as (I1 & I2 & I3).
      split; [|split].
      * intros s' [E|Hs']; [discriminate | apply I1; assumption].
      * cbn [filter is_file_or_str]. assumption.
      * intros f' [E|Hf]; [discriminate | apply I3; assumption].
Qed.

(** X17.  What [isListOfDataFiles] guarantees of the list it returns: when
    it holds more than one file, every file has the sample of the first
    one; and for a list argument every string in it names an existing
    file, every DataFile in it is returned, and the list returned has one
    entry for each string or DataFile, the items of any other type being
    passed over without an error. *)
Theorem isListOfDataFiles_returns (inputFiles : pyval Sample) (l : list (DataFile Sample)) :
  isListOfDataFiles Sample sample_eq isfile DataFile_init inputFiles = Returns l ->
  (forall f0 f1 rest, l = f0 :: f1 :: rest ->
     forall f, In f l -> sample_eq (sample f0) (sample f) = true)
  /\ (forall items, inputFiles = PList items ->
        (forall s, In (PStr s) items -> isfile s = true)
        /\ (forall f, In (PFile f) items -> In f l)
        /\ List.length l = List.length (filter (@is_file_or_str Sample) items)).
Proof.
  unfold isListOfDataFiles.
  set (first := match inputFiles with
                | Single (PStr s) => f <~ DataFile_init s ;; Returns [f]
                | Single (PFile f) => Returns [f]
                | Single POther =>
                    Raises (PyAttributeError
                              "File provided is not of type string, list, or DataFile" [])
                | PList items => collect Sample isfile DataFile_init items
                end).
  destruct first as [returnList|] eqn:E1; cbn [obind]; [|discriminate].
  intro H.
  assert (Hl : l = returnList
               /\ forall f0 f1 rest, l = f0 :: f1 :: rest ->
                    forall f, In f l -> sample_eq (sample f0) (sample f) = true).
  { destruct returnList as [|f0 [|f1 rest]].
    - injection H as <-. split; [reflexivity|]. intros; discriminate.
    - injection H as <-. split; [reflexivity|]. intros; discriminate.
    - cbv zeta in H.
      destruct (forallb (fun b => b)
                  (map (fun file => sample_eq (sample f0) (sample file)) (f0 :: f1 :: rest)))
        eqn:Ea; cbn [negb] in H; [|discriminate].
      injection H as <-. split; [reflexivity|].
      intros g0 g1 rest' Eg f Hf. injection Eg as <- <- <-.
      rewrite forallb_forall in Ea. apply Ea. apply in_map_iff. exists f. split; [reflexivity|].
      assumption. }
  destruct Hl as [-> Hs]. split; [exact Hs|].
  intros items ->. unfold first in E1.
  destruct (collect_spec items returnList E1) as (I1 & I2 & I3).
  repeat split; assumption.
Qed.

End FileLists.

Lemma isListOfDataFiles_returns_witness :
  let f := mkDataFile nat "a.nxs" "nxs" 7%nat in
  let g := mkDataFile nat "b.nxs" "nxs" 7%nat in
  (forall f0 f1 rest, [f; g] = f0 :: f1 :: rest ->
     forall h, In h [f; g] -> Nat.eqb (sample f0) (sample h) = true)
  /\ (forall items, PList [PFile f; POther; PStr "b.nxs"] = PList items ->
        (forall s, In (PStr s) items -> String.eqb s "b.nxs" = true)
        /\ (forall h, In (PFile h) items -> In h [f; g])
        /\ List.length [f; g] = List.length (filter (@is_file_or_str nat) items)).
Proof.
  intros f g.
  apply (isListOfDataFiles_returns nat Nat.eqb (fun s => String.eqb s "b.nxs")
           (fun s => Returns (mkDataFile nat s "nxs" 7%nat))
           (PList [PFile f; POther; PStr "b.nxs"]) [f; g]).
  reflexivity.
Defined.

Lemma isListOfStrings_spec_witness :
  isListOfStrings nat (PList (map PStr ["a.hdf"; "b.hdf"]%string))
  = Returns ["a.hdf"; "b.hdf"]%string.
Proof.
  destruct (isListOfStrings_spec nat (PList [PStr "a.hdf"; PStr "b.hdf"]%string)
              ["a.hdf"; "b.hdf"]%string) as (_ & _ & H).
  apply H. reflexivity.
Defined.

(** ** Converting data files *)

Section ConvertProperties.

Variable Sample : Type.
Variable sample_eq : Sample -> Sample -> bool.
Variable isfile : string -> bool.
Variable DataFile_init : string -> outcome (DataFile Sample).
Variable Data : Type.
Variable extractData : list (DataFile Sample) -> outcome Data.
Variable convert : DataFile Sample -> Z -> outcome (DataFile Sample).
Variable saveNXsqom : DataFile Sample -> string -> outcome unit.

Local Abbreviation obj := (DataSetObj Sample Data).
Local Abbreviation loop := (convert_loop Sample convert saveNXsqom).
Local Abbreviation convertDataFile' :=
  (convertDataFile Sample sample_eq isfile DataFile_init Data extractData convert saveNXsqom).
Local Abbreviation accepts v :=
  (exists l, isListOfDataFiles Sample sample_eq isfile DataFile_init v = Returns l).

Lemma save_path_nxs (loc : string) (rawfile : DataFile Sample) :
  split_last "." loc = "nxs"%string ->
  save_path Sample (Some loc) rawfile = Returns (loc, Some loc).
Proof.
  intro H. unfold save_path. rewrite H. cbn [String.eqb Ascii.eqb Bool.eqb negb].
  destruct (negb (isabs loc)); reflexivity.
Qed.

(** The loop converts every raw file, in order, and writes each converted
    file once when [saveFile] is set. *)
Lemma convert_loop_spec (files : list (DataFile Sample)) (binning : Z) (saveFile : bool) :
  forall saveLocation conv written conv' written',
  loop files binning saveLocation saveFile conv written = (Returns conv', written') ->
  exists new paths,
    conv' = conv ++ new /\ List.length new = List.length files
    /\ written' = written ++ combine paths new
    /\ List.length paths = (if saveFile then List.length files else 0%nat)
    /\ (forall loc, saveLocation = Some loc -> split_last "." loc = "nxs"%string ->
        forall p, In p paths -> p = loc)
    /\ Forall2 (fun rawfile convFile => convert rawfile binning = Returns convFile) files new.
Proof.
  induction files as [|rawfile rest IH]; intros saveLocation conv written conv' written';
    cbn [convert_loop].
  - intro H. injection H as <- <-. exists [], [].
    rewrite !app_nil_r. repeat split; try reflexivity.
    + destruct saveFile; reflexivity.
    + intros loc _ _ p [].
    + constructor.
  - destruct (convert rawfile binning) as [convFile|] eqn:Ec; [|discriminate].
    destruct saveFile.
    + destruct (save_path Sample saveLocation rawfile) as [[saveloc saveLocation']|] eqn:Ep;
        [|discriminate].
      destruct (saveNXsqom convFile saveloc); [|discriminate].
      intro H. destruct (IH _ _ _ _ _ H) as (new & paths & E1 & E2 & E3 & E4 & E5 & E6).
      exists (convFile :: new), (saveloc :: paths).
      rewrite E1, E3, <- !app_assoc. cbn [app combine List.length].
      repeat split; try reflexivity; try lia.
      * intros loc -> Hn p [<-|Hp].
        -- rewrite (save_path_nxs loc rawfile Hn) in Ep. injection Ep as <- _. reflexivity.
        -- rewrite (save_path_nxs loc rawfile Hn) in Ep. injection Ep as _ <-.
           apply (E5 loc eq_refl Hn p Hp).
      * constructor; assumption.
    + intro H. destruct (IH _ _ _ _ _ H) as (new & paths & E1 & E2 & E3 & E4 & E5 & E6).
      destruct paths; [|discriminate].
      exists (convFile :: new), [].
      rewrite E1, E3, <- !app_assoc. cbn [app combine List.length].
      repeat split; try reflexivity; try lia.
      * intros loc _ _ p [].
      * constructor; assumption.
Qed.

Lemma collect_files (l : list (DataFile Sample)) :
  collect Sample isfile DataFile_init (map PFile l) = Returns l.
Proof.
  induction l as [|f l IH]; [reflexivity|].
  cbn [map collect]. rewrite IH. reflexivity.
Qed.

Lemma getData_files (self self' : obj) :
  _getData Sample Data extractData self = Returns self' ->
  _dataFiles Sample Data self' = _dataFiles Sample Data self
  /\ _convertedFiles Sample Data self' = _convertedFiles Sample Data self.
Proof.
  unfold _getData.
  destruct (if negb (List.length (_convertedFiles Sample Data self) =? 0)%nat
            then extractData (_convertedFiles Sample Data self)
            else extractData (_dataFiles Sample Data self)); cbn [obind]; [|discriminate].
  intro H. injection H as <-. split; reflexivity.
Qed.

Lemma getData_inv (self self' : obj) :
  _getData Sample Data extractData self = Returns self' ->
  exists d, self' = mkObj Sample Data (_dataFiles Sample Data self)
                      (_convertedFiles Sample Data self) (_normalizationfiles Sample Data self)
                      (_calibrationfiles Sample Data self) (Some d) (obj_sample Sample Data self).
Proof.
  unfold _getData.
  destruct (if negb (List.length (_convertedFiles Sample Data self) =? 0)%nat
            then extractData (_convertedFiles Sample Data self)
            else extractData (_dataFiles Sample Data self)) as [d|]; cbn [obind]; [|discriminate].
  intro H. injection H as <-. exists d. reflexivity.
Qed.

Lemma set_convertedFiles_files (self self' : obj) (v : pyval Sample) :
  set_convertedFiles Sample sample_eq isfile DataFile_init Data extractData self v
  = Returns self' ->
  exists l, isListOfDataFiles Sample sample_eq isfile DataFile_init v = Returns l
    /\ _dataFiles Sample Data self'
       = _dataFiles Sample Data self ++ filter (is_type Sample "hdf") l
    /\ _convertedFiles Sample Data self'
       = _convertedFiles Sample Data self ++ filter (is_type Sample "nxs") l.
Proof.
  unfold set_convertedFiles.
  destruct (isListOfDataFiles Sample sample_eq isfile DataFile_init v) as [l|];
    cbn [obind]; [|discriminate].
  intro H. destruct (getData_files _ _ H) as [E1 E2].
  exists l. split; [reflexivity|]. rewrite E1, E2. split; reflexivity.
Qed.

(** X19.  What [convertDataFile] does when it returns: it has converted
    the raw files of the object itself ([converted] holds, in their order,
    what [rawfile.convert(binning)] returned for each raw file of the
    object), and APPENDED the converted files to the lists of the object by
    their type (a second call adds them a second time); with [saveFile] it
    has written each converted file once, in this order, otherwise
    nothing.  The argument
    [dataFiles] is checked and then ignored: any other accepted argument,
    and [None] when the object has raw files, gives the same object and
    the same files written. *)
Theorem convertDataFile_converts_own_files (self self' : obj)
    (dataFiles : option (pyval Sample)) (binning : Z) (saveLocation : option string)
    (saveFile : bool) (written : list (string * DataFile Sample)) :
  convertDataFile' self dataFiles binning saveLocation saveFile = (Returns self', written) ->
  (exists converted,
     Forall2 (fun rawfile convFile => convert rawfile binning = Returns convFile)
             (_dataFiles Sample Data self) converted
     /\ List.length converted = List.length (_dataFiles Sample Data self)
     /\ _dataFiles Sample Data self'
        = _dataFiles Sample Data self ++ filter (is_type Sample "hdf") converted
     /\ _convertedFiles Sample Data self'
        = _convertedFiles Sample Data self ++ filter (is_type Sample "nxs") converted
     /\ map snd written = (if saveFile then converted else []))
  /\ (forall v, accepts v ->
        convertDataFile' self (Some v) binning saveLocation saveFile = (Returns self', written))
  /\ (_dataFiles Sample Data self <> [] ->
      convertDataFile' self None binning saveLocation saveFile = (Returns self', written)).
Proof.
  unfold convertDataFile. cbv zeta.
  set (core := match loop (_dataFiles Sample Data self) binning saveLocation saveFile [] [] with
               | (Raises e, w) => (Raises e, w)
               | (Returns convertedFiles, w) =>
                   (obind (set_convertedFiles Sample sample_eq isfile DataFile_init Data
                             extractData self (PList (map PFile convertedFiles)))
                          (fun s => _getData Sample Data extractData s), w)
               end).
  intro H.
  assert (Hcore : core = (Returns self', written)).
  { destruct dataFiles as [v|].
    - destruct (isListOfDataFiles Sample sample_eq isfile DataFile_init v);
        cbn [obind] in H; [exact H | discriminate].
    - destruct (List.length (_dataFiles Sample Data self) =? 0)%nat;
        [discriminate | exact H]. }
  clear H. split; [|split].
  - unfold core in Hcore.
    destruct (loop (_dataFiles Sample Data self) binning saveLocation saveFile [] [])
      as [[conv|] w] eqn:El; [|discriminate].
    injection Hcore as Hs <-.
    destruct (convert_loop_spec _ _ _ _ _ _ _ _ El)
      as (new & paths & E1 & E2 & E3 & E4 & _ & E6).
    cbn [app] in E1, E3. subst conv w.
    destruct (set_convertedFiles Sample sample_eq isfile DataFile_init Data extractData self
                (PList (map PFile new))) as [s|] eqn:Es; cbn [obind] in Hs; [|discriminate].
    destruct (set_convertedFiles_files _ _ _ Es) as (l & Hl & D1 & D2).
    destruct (getData_files _ _ Hs) as [G1 G2].
    assert (l = new).
    { revert Hl. unfold isListOfDataFiles. rewrite collect_files. cbn [obind].
      destruct new as [|f0 [|f1 r]]; try (intro X; injection X as <-; reflexivity).
      cbv zeta.
      destruct (negb (forallb (fun b => b)
                  (map (fun file => sample_eq (sample f0) (sample file)) (f0 :: f1 :: r))));
        [discriminate|].
      intro X. injection X as <-. reflexivity. }
    subst l. exists new.
    rewrite G1, G2, D1, D2. repeat split; try assumption; try reflexivity.
    destruct saveFile.
    + clear - E2 E4. rewrite <- E2 in E4. clear E2. revert paths E4.
      induction new as [|n new IH]; intros [|p paths] H; cbn in *; try discriminate;
        try reflexivity.
      rewrite IH by lia. reflexivity.
    + destruct paths; [reflexivity | discriminate].
  - intros v [l Hl]. rewrite Hl. cbn [obind]. exact Hcore.
  - intro Hne.
    replace (List.length (_dataFiles Sample Data self) =? 0)%nat with false.
    + exact Hcore.
    + symmetry. apply Nat.eqb_neq. intro E. apply length_zero_iff_nil in E. contradiction.
Qed.

(** X20.  A [saveLocation] that ends in [.nxs] is used as the path of
    every converted file: with several raw files each one is written over
    the one before. *)
Theorem convertDataFile_one_path (self self' : obj)
    (dataFiles : option (pyval Sample)) (binning : Z) (loc : string)
    (written : list (string * DataFile Sample)) :
  split_last "." loc = "nxs"%string ->
  convertDataFile' self dataFiles binning (Some loc) true = (Returns self', written) ->
  List.length written = List.length (_dataFiles Sample Data self)
  /\ forall w, In w written -> fst w = loc.
Proof.
  intros Hn. unfold convertDataFile. cbv zeta.
  intro H.
  assert (Hcore : exists conv, loop (_dataFiles Sample Data self) binning (Some loc) true [] []
                               = (Returns conv, written)).
  { destruct (match dataFiles with
              | Some v => _ <~ isListOfDataFiles Sample sample_eq isfile DataFile_init v ;;
                          Returns tt
              | None => if (List.length (_dataFiles Sample Data self) =? 0)%nat
                        then Raises (PyAttributeError
                               "No data files file provided either through input of in the DataSet object." [])
                        else Returns tt
              end); [|discriminate].
    destruct (loop (_dataFiles Sample Data self) binning (Some loc) true [] [])
      as [[conv|] w]; [|discriminate].
    injection H as _ <-. exists conv. reflexivity. }
  destruct Hcore as [conv El].
  destruct (convert_loop_spec _ _ _ _ _ _ _ _ El)
    as (new & paths & E1 & E2 & E3 & E4 & E5 & _).
  cbn [app] in E3. subst written. split.
  - rewrite length_combine, E2, E4, Nat.min_id. reflexivity.
  - intros [p f] Hw. cbn [fst]. apply in_combine_l in Hw.
    apply (E5 loc eq_refl Hn p Hw).
Qed.

(** What [__init__] does after its first keyword, from an object with
    no sample whose lists are the sorted files [given]. *)
Lemma init_tail (given : list (DataFile Sample))
    (normalizationfiles calibrationfiles convertedFiles : option (pyval Sample))
    (d0 : option Data) (self : obj) :
  (self1 <~ match normalizationfiles with
            | None => Returns (mkObj Sample Data (filter (is_type Sample "hdf") given)
                                 (filter (is_type Sample "nxs") given) [] [] d0 None)
            | Some v => set_normalizationfiles Sample Data
                          (mkObj Sample Data (filter (is_type Sample "hdf") given)
                                 (filter (is_type Sample "nxs") given) [] [] d0 None) v
            end ;;
   self2 <~ match convertedFiles with
            | None => Returns self1
            | Some v => s <~ set_convertedFiles Sample sample_eq isfile DataFile_init Data
                               extractData self1 v ;;
                        _getData Sample Data extractData s
            end ;;
   self3 <~ match calibrationfiles with
            | None => Returns self2
            | Some v => set_calibrationfiles Sample Data self2 v
            end ;;
   Returns (mkObj Sample Data (_dataFiles Sample Data self3) (_convertedFiles Sample Data self3)
              (_normalizationfiles Sample Data self3) (_calibrationfiles Sample Data self3)
              (extracted Sample Data self3)
              match _convertedFiles Sample Data self3, _dataFiles Sample Data self3 with
              | f :: _, _ => Some (sample f)
              | [], f :: _ => Some (sample f)
              | [], [] => obj_sample Sample Data self3
              end)) = Returns self ->
  exists converted,
    match convertedFiles with
    | None => converted = []
       | Some v => isListOfDataFiles Sample sample_eq isfile DataFile_init v = Returns converted
       end
    /\ _dataFiles Sample Data self = filter (is_type Sample "hdf") (given ++ converted)
    /\ _convertedFiles Sample Data self = filter (is_type Sample "nxs") (given ++ converted)
    /\ obj_sample Sample Data self
       = match filter (is_type Sample "nxs") (given ++ converted),
               filter (is_type Sample "hdf") (given ++ converted) with
         | f :: _, _ => Some (sample f)
         | [], f :: _ => Some (sample f)
         | [], [] => None
         end.
Proof.
  set (s0 := mkObj Sample Data (filter (is_type Sample "hdf") given)
               (filter (is_type Sample "nxs") given) [] [] d0 None).
  assert (H1 : forall s1,
             match normalizationfiles with
             | None => Returns s0
             | Some v => set_normalizationfiles Sample Data s0 v
             end = Returns s1 ->
             _dataFiles Sample Data s1 = filter (is_type Sample "hdf") given
             /\ _convertedFiles Sample Data s1 = filter (is_type Sample "nxs") given
             /\ obj_sample Sample Data s1 = None).
  { intros s1. destruct normalizationfiles as [v|].
    - unfold set_normalizationfiles. destruct (isListOfStrings Sample v); cbn [obind];
        [|discriminate].
      intro H. injection H as <-. repeat split.
    - intro H. injection H as <-. repeat split. }
  destruct (match normalizationfiles with
            | None => Returns s0
            | Some v => set_normalizationfiles Sample Data s0 v
            end) as [s1|]; cbn [obind]; [|discriminate].
  destruct (H1 s1 eq_refl) as (A1 & A2 & A3). clear H1.
  assert (H2 : forall s2,
             match convertedFiles with
             | None => Returns s1
             | Some v => s <~ set_convertedFiles Sample sample_eq isfile DataFile_init Data
                                extractData s1 v ;;
                         _getData Sample Data extractData s
             end = Returns s2 ->
             exists converted,
               match convertedFiles with
               | None => converted = []
               | Some v => isListOfDataFiles Sample sample_eq isfile DataFile_init v
                           = Returns converted
               end
               /\ _dataFiles Sample Data s2 = filter (is_type Sample "hdf") (given ++ converted)
               /\ _convertedFiles Sample Data s2
                  = filter (is_type Sample "nxs") (given ++ converted)
               /\ obj_sample Sample Data s2 = None).
  { intros s2. destruct convertedFiles as [v|].
    - destruct (set_convertedFiles Sample sample_eq isfile DataFile_init Data extractData s1 v)
        as [s|] eqn:Es; cbn [obind]; [|discriminate].
      intro H. destruct (getData_files _ _ H) as [G1 G2].
      destruct (set_convertedFiles_files _ _ _ Es) as (l & Hl & D1 & D2).
      exists l. rewrite G1, G2, D1, D2, A1, A2, !filter_app.
      repeat split; try assumption.
      revert H Es. unfold set_convertedFiles, _getData.
      destruct (isListOfDataFiles Sample sample_eq isfile DataFile_init v); cbn [obind];
        [|discriminate].
      repeat match goal with
             | |- context [obind ?m _] => destruct m; cbn [obind]
             end; try discriminate.
      intros H Es. injection H as <-. injection Es as <-. cbn. exact A3.
    - intro H. injection H as <-. exists []. rewrite app_nil_r. repeat split; assumption. }
  destruct (match convertedFiles with
            | None => Returns s1
            | Some v => s <~ set_convertedFiles Sample sample_eq isfile DataFile_init Data
                               extractData s1 v ;;
                        _getData Sample Data extractData s
            end) as [s2|]; cbn [obind]; [|discriminate].
  destruct (H2 s2 eq_refl) as (converted & B0 & B1 & B2 & B3). clear H2.
  assert (H3 : forall s3,
             match calibrationfiles with
             | None => Returns s2
             | Some v => set_calibrationfiles Sample Data s2 v
             end = Returns s3 ->
             _dataFiles Sample Data s3 = _dataFiles Sample Data s2
             /\ _convertedFiles Sample Data s3 = _convertedFiles Sample Data s2
             /\ obj_sample Sample Data s3 = obj_sample Sample Data s2).
  { intros s3. destruct calibrationfiles as [v|].
    - unfold set_calibrationfiles. destruct (isListOfStrings Sample v); cbn [obind];
        [|discriminate].
      intro H. injection H as <-. repeat split.
    - intro H. injection H as <-. repeat split. }
  destruct (match calibrationfiles with
            | None => Returns s2
            | Some v => set_calibrationfiles Sample Data s2 v
            end) as [s3|]; cbn [obind]; [|discriminate].
  destruct (H3 s3 eq_refl) as (C1 & C2 & C3). clear H3.
  intro H. injection H as <-.
  cbn [_dataFiles _convertedFiles obj_sample].
  exists converted. rewrite C1, C2, C3, B1, B2, B3.
  repeat split; try assumption.
Qed.

(** X21.  [DataSet(...)] sorts the files it is given by their type and
    not by the keyword they come under: the hdf files of [dataFiles] and
    of [convertedFiles] become the raw files, the nxs files of both the
    converted files, and a file of any other type is kept nowhere.  The
    sample is that of the first converted file, of the first raw file when
    there is no converted file, and is not set when there is no file. *)
Theorem DataSet_init_sorts_by_type (dataFiles normalizationfiles calibrationfiles
    convertedFiles : option (pyval Sample)) (self : obj) :
  DataSet_init Sample sample_eq isfile DataFile_init Data extractData
    dataFiles normalizationfiles calibrationfiles convertedFiles = Returns self ->
  exists given converted,
    match dataFiles with
    | None => given = []
    | Some v => isListOfDataFiles Sample sample_eq isfile DataFile_init v = Returns given
    end
    /\ match convertedFiles with
       | None => converted = []
       | Some v => isListOfDataFiles Sample sample_eq isfile DataFile_init v = Returns converted
       end
    /\ _dataFiles Sample Data self = filter (is_type Sample "hdf") (given ++ converted)
    /\ _convertedFiles Sample Data self = filter (is_type Sample "nxs") (given ++ converted)
    /\ obj_sample Sample Data self
       = match filter (is_type Sample "nxs") (given ++ converted),
               filter (is_type Sample "hdf") (given ++ converted) with
         | f :: _, _ => Some (sample f)
         | [], f :: _ => Some (sample f)
         | [], [] => None
         end.
Proof.
  unfold DataSet_init. cbv zeta.
  set (self0 := mkObj Sample Data [] [] [] [] None None).
  destruct dataFiles as [v|].
  - unfold set_dataFiles.
    destruct (isListOfDataFiles Sample sample_eq isfile DataFile_init v) as [given|];
      cbn [obind]; [|discriminate].
    destruct (_getData Sample Data extractData (append_by_type Sample Data self0 given))
      as [s|] eqn:Eg; cbn [obind]; [|discriminate].
    apply getData_inv in Eg. destruct Eg as [d ->].
    cbn [append_by_type _dataFiles _convertedFiles self0 app
         _normalizationfiles _calibrationfiles extracted obj_sample].
    intro H. destruct (init_tail _ _ _ _ _ _ H) as (converted & T).
    exists given, converted. split; [reflexivity | exact T].
  - cbn [obind]. intro H.
    destruct (init_tail [] _ _ _ _ _ H) as (converted & T).
    exists [], converted. split; [reflexivity | exact T].
Qed.

End ConvertProperties.

Lemma convertDataFile_converts_own_files_witness :
  let convert := fun (f : DataFile nat) (_ : Z) =>
    Returns (mkDataFile nat (replace ".hdf" ".nxs" (fileLocation f)) "nxs" (sample f)) in
  let run := convertDataFile nat Nat.eqb (fun _ => true)
               (fun s => Returns (mkDataFile nat s "hdf" 7%nat)) nat
               (fun l => Returns (List.length l)) convert (fun _ _ => Returns tt) in
  let a := mkDataFile nat "a.hdf" "hdf" 7%nat in
  let b := mkDataFile nat "data/b.hdf" "hdf" 7%nat in
  let a' := mkDataFile nat "a.nxs" "nxs" 7%nat in
  let b' := mkDataFile nat "data/b.nxs" "nxs" 7%nat in
  let self := mkObj nat nat [a; b] [] [] [] None None in
  let self' := mkObj nat nat [a; b] [a'; b'] [] [] (Some 2%nat) None in
  let written := [("a.nxs"%string, a'); ("data/b.nxs"%string, b')] in
  (exists converted,
     Forall2 (fun rawfile convFile => convert rawfile 8%Z = Returns convFile) [a; b] converted
     /\ List.length converted = 2%nat
     /\ _dataFiles nat nat self' = [a; b] ++ filter (is_type nat "hdf") converted
     /\ _convertedFiles nat nat self' = [] ++ filter (is_type nat "nxs") converted
     /\ map snd written = converted)
  /\ (forall v,
        (exists l, isListOfDataFiles nat Nat.eqb (fun _ => true)
                     (fun s => Returns (mkDataFile nat s "hdf" 7%nat)) v = Returns l) ->
        run self (Some v) 8%Z None true = (Returns self', written))
  /\ ([a; b] <> [] -> run self None 8%Z None true = (Returns self', written)).
Proof.
  intros convert run a b a' b' self self' written.
  apply (convertDataFile_converts_own_files nat Nat.eqb (fun _ => true)
           (fun s => Returns (mkDataFile nat s "hdf" 7%nat)) nat
           (fun l => Returns (List.length l)) convert (fun _ _ => Returns tt)
           self self' None 8%Z None true written).
  reflexivity.
Defined.

Lemma convertDataFile_one_path_witness :
  let convert := fun (f : DataFile nat) (_ : Z) =>
    Returns (mkDataFile nat (replace ".hdf" ".nxs" (fileLocation f)) "nxs" (sample f)) in
  let a := mkDataFile nat "a.hdf" "hdf" 7%nat in
  let b := mkDataFile nat "data/b.hdf" "hdf" 7%nat in
  let a' := mkDataFile nat "a.nxs" "nxs" 7%nat in
  let b' := mkDataFile nat "data/b.nxs" "nxs" 7%nat in
  let written := [("out/scan.nxs"%string, a'); ("out/scan.nxs"%string, b')] in
  List.length written = 2%nat /\ forall w, In w written -> fst w = "out/scan.nxs"%string.
Proof.
  intros convert a b a' b' written.
  apply (convertDataFile_one_path nat Nat.eqb (fun _ => true)
           (fun s => Returns (mkDataFile nat s "hdf" 7%nat)) nat
           (fun l => Returns (List.length l)) convert (fun _ _ => Returns tt)
           (mkObj nat nat [a; b] [] [] [] None None)
           (mkObj nat nat [a; b] [a'; b'] [] [] (Some 2%nat) None)
           None 8%Z "out/scan.nxs" written).
  - reflexivity.
  - reflexivity.
Defined.

Lemma DataSet_init_sorts_by_type_witness :
  let a := mkDataFile nat "a.hdf" "hdf" 7%nat in
  let c := mkDataFile nat "c.nxs" "nxs" 7%nat in
  let o := mkDataFile nat "notes.txt" "txt" 7%nat in
  let DataFile_init := fun s : string => Returns (mkDataFile nat s "hdf" 7%nat) in
  let self := mkObj nat nat [a] [c] [] [] (Some 1%nat) (Some 7%nat) in
  exists given converted,
    isListOfDataFiles nat Nat.eqb (fun _ => true) DataFile_init (PList [PFile c; PFile o])
    = Returns given
    /\ isListOfDataFiles nat Nat.eqb (fun _ => true) DataFile_init (Single (PFile a))
       = Returns converted
    /\ _dataFiles nat nat self = filter (is_type nat "hdf") (given ++ converted)
    /\ _convertedFiles nat nat self = filter (is_type nat "nxs") (given ++ converted)
    /\ obj_sample nat nat self
       = match filter (is_type nat "nxs") (given ++ converted),
               filter (is_type nat "hdf") (given ++ converted) with
         | f :: _, _ => Some (sample f)
         | [], f :: _ => Some (sample f)
         | [], [] => None
         end.
Proof.
  intros a c o DataFile_init self.
  apply (DataSet_init_sorts_by_type nat Nat.eqb (fun _ => true) DataFile_init nat
           (fun l => Returns (List.length l))
           (Some (PList [PFile c; PFile o])) None None (Some (Single (PFile a))) self).
  reflexivity.
Defined.
